(** * FOREX trading bot: indicator pipeline and controller loop

    A shallow embedding of [indicators.py], of the historical download of
    [data_fetch.py] and of the controller loop of [main_bot.py], with the
    properties of the decision-and-risk engine stated and proved over it.

    Numbers.  The Python code computes with IEEE doubles.  Here a double is
    an exact rational ([Q]), extended in the indicator pipeline with the
    two special values that pandas produces and propagates: [NaN] and the
    signed infinity.  Rounding and signed zeros are not represented: a
    comparison is decided on the exact values, and next to its boundary
    the doubles can decide it the other way.  For the activation test of
    the trailing stop [Doubles] evaluates the test on IEEE doubles, and
    [Rounded] is the controller with the outcome of that test left to the
    arithmetic, within rounding of the exact comparison.

    The historical download is embedded twice: [DataFetch] on instants,
    for what is requested and what is returned, and [DataFetchExn] on
    datetimes, with the exceptions that leave the function.

    Effects.  [main_async] is written in a small state-and-exception
    monad: an exception leaves the state as the statements before it made
    it, as in Python.  The trade dicts are objects in a heap and
    [open_trades] is a list of references, so that the in-place updates of
    a trade and [list.remove] act on shared objects.  Everything the loop
    gets from outside (clock, broker, [utils] and [strategy]) is a
    [world], one per pass of the loop; what it sends outside is logged as
    events. *)

From Stdlib Require Import String Ascii.
From Stdlib Require Import QArith Qabs Qminmax Lia Psatz List Bool ZArith.
From Stdlib Require Import Reals Qreals.
From Stdlib Require Floats.
From stdpp Require Import gmap strings list sorting.
Import ListNotations.

Local Open Scope Q_scope.

(* ===================================================================== *)
(** ** The part of pandas / numpy that [indicators.py] calls              *)
(* ===================================================================== *)

Module Pandas.

(** A float64 cell of a Series. *)
Inductive fnum : Type :=
| Fin (q : Q)
| NaN
| Inf (negative : bool).

Definition Qltb (a b : Q) : bool := negb (Qle_bool b a).

Definition isnan (x : fnum) : bool :=
  match x with NaN => true | _ => false end.

Definition fneg (x : fnum) : fnum :=
  match x with
  | Fin q => Fin (- q)
  | NaN => NaN
  | Inf s => Inf (negb s)
  end.

Definition fadd (x y : fnum) : fnum :=
  match x, y with
  | NaN, _ | _, NaN => NaN
  | Fin a, Fin b => Fin (a + b)
  | Inf s, Fin _ | Fin _, Inf s => Inf s
  | Inf s, Inf t => if Bool.eqb s t then Inf s else NaN
  end.

Definition fsub (x y : fnum) : fnum := fadd x (fneg y).

Definition fmul (x y : fnum) : fnum :=
  match x, y with
  | NaN, _ | _, NaN => NaN
  | Fin a, Fin b => Fin (a * b)
  | Inf s, Fin a | Fin a, Inf s =>
      if Qeq_bool a 0 then NaN else Inf (xorb s (Qltb a 0))
  | Inf s, Inf t => Inf (xorb s t)
  end.

(** Series division never raises: 0/0 is NaN, x/0 is a signed infinity. *)
Definition fdiv (x y : fnum) : fnum :=
  match x, y with
  | NaN, _ | _, NaN => NaN
  | Fin a, Fin b =>
      if Qeq_bool b 0
      then (if Qeq_bool a 0 then NaN else Inf (Qltb a 0))
      else Fin (a / b)
  | Fin _, Inf _ => Fin 0
  | Inf s, Fin b => Inf (xorb s (Qltb b 0))
  | Inf _, Inf _ => NaN
  end.

Definition fabs (x : fnum) : fnum :=
  match x with
  | Fin q => Fin (Qabs q)
  | NaN => NaN
  | Inf _ => Inf false
  end.

(** [x > y]; every comparison with NaN is False. *)
Definition fgt (x y : fnum) : bool :=
  match x, y with
  | NaN, _ | _, NaN => false
  | Fin a, Fin b => Qltb b a
  | Inf s, Fin _ => negb s
  | Fin _, Inf t => t
  | Inf s, Inf t => negb s && t
  end.

(** [x == y] on cells (False on NaN). *)
Definition feqb (x y : fnum) : bool :=
  match x, y with
  | Fin a, Fin b => Qeq_bool a b
  | Inf s, Inf t => Bool.eqb s t
  | _, _ => false
  end.

Abbreviation series := (list fnum).

(** An operator applied to two aligned columns, row by row. *)
Definition map2 (f : fnum -> fnum -> fnum) (xs ys : series) : series :=
  zip_with f xs ys.

(** [s.shift(1)] *)
Definition shift1 (xs : series) : series :=
  match xs with
  | [] => []
  | _ => NaN :: removelast xs
  end.

(** [s.diff()] *)
Definition diff (xs : series) : series := map2 fsub xs (shift1 xs).

(** [s.clip(lower=0)] and [s.clip(upper=0)]; NaN stays NaN. *)
Definition clip_lower0 (x : fnum) : fnum :=
  match x with
  | Fin q => if Qltb q 0 then Fin 0 else Fin q
  | NaN => NaN
  | Inf s => if s then Fin 0 else Inf s
  end.

Definition clip_upper0 (x : fnum) : fnum :=
  match x with
  | Fin q => if Qltb 0 q then Fin 0 else Fin q
  | NaN => NaN
  | Inf s => if s then Inf s else Fin 0
  end.

(** [s.replace(0, v)] *)
Definition replace0 (v : Q) (x : fnum) : fnum :=
  match x with
  | Fin q => if Qeq_bool q 0 then Fin v else Fin q
  | _ => x
  end.

(** The rows [max(0, i+1-w) .. i] that a trailing window of [w] rows sees
    at row [i]. *)
Definition window (w i : nat) (xs : series) : series :=
  skipn (S i - w) (firstn (S i) xs).

Definition observations (win : series) : series :=
  List.filter (fun x => negb (isnan x)) win.

Definition fsum (xs : series) : fnum := fold_left fadd xs (Fin 0).

Definition of_nat (n : nat) : Q := inject_Z (Z.of_nat n).

(** [s.rolling(window=w).mean()]: undefined until the window holds
    [min_periods = w] observations.  pandas keeps a running sum and count
    as the window slides; on finite cells and without rounding that is
    the sum and count of the window, which is what is written here. *)
Definition rolling_mean (w : nat) (xs : series) : series :=
  map (fun i =>
         let obs := observations (window w i xs) in
         if (length obs <? w)%nat then NaN
         else fdiv (fsum obs) (Fin (of_nat (length obs))))
      (seq 0 (length xs)).

(** [s.rolling(window=w).var()] with the default [ddof = 1]: the sum of
    squared deviations from the window mean over [nobs - ddof]. *)
Definition rolling_var (ddof : nat) (w : nat) (xs : series) : series :=
  map (fun i =>
         let obs := observations (window w i xs) in
         if (length obs <? w)%nat then NaN
         else
           let m := fdiv (fsum obs) (Fin (of_nat (length obs))) in
           let ss := fsum (map (fun x => fmul (fsub x m) (fsub x m)) obs) in
           if (length obs <=? ddof)%nat then NaN
           else fdiv ss (Fin (of_nat (length obs - ddof))))
      (seq 0 (length xs)).

(** [s.ewm(alpha=a, adjust=False).mean()] with the defaults
    [ignore_na=False], [min_periods=0]: the running state is the current
    weighted mean and the weight of the past. *)
Definition ewm_step (alpha : Q) (st : fnum * Q) (cur : fnum) : fnum * Q :=
  let '(weighted, old_wt) := st in
  if isnan weighted then
    (if isnan cur then (weighted, old_wt) else (cur, old_wt))
  else
    let old_wt := old_wt * (1 - alpha) in
    if isnan cur then (weighted, old_wt)
    else
      let weighted' :=
        if feqb weighted cur then weighted
        else fdiv (fadd (fmul (Fin old_wt) weighted) (fmul (Fin alpha) cur))
                  (Fin (old_wt + alpha)) in
      (weighted', 1).

Fixpoint ewm_from (alpha : Q) (st : fnum * Q) (xs : series) : series :=
  match xs with
  | [] => []
  | x :: xs' =>
      let st' := ewm_step alpha st x in
      fst st' :: ewm_from alpha st' xs'
  end.

Definition ewm_mean (alpha : Q) (xs : series) : series :=
  match xs with
  | [] => []
  | x :: xs' => x :: ewm_from alpha (x, 1) xs'
  end.

(** [df[[a, b, c]].max(axis=1)]: NaN cells are skipped. *)
Definition fmax_skipna (x y : fnum) : fnum :=
  match x, y with
  | NaN, _ => y
  | _, NaN => x
  | _, _ => if fgt y x then y else x
  end.

End Pandas.

(* ===================================================================== *)
(** ** indicators.py                                                      *)
(* ===================================================================== *)

Module Indicators.
Import Pandas.

(** One OHLC row of the DataFrame. *)
Record bar : Type := mkBar { open : Q; high : Q; low : Q; close : Q }.

Definition col (f : bar -> Q) (data : list bar) : series :=
  map (fun b => Fin (f b)) data.

Definition epsilon : Q := 1e-10.

Definition rsi_of (avg_gain avg_loss : fnum) : fnum :=
  let rs := fdiv avg_gain (replace0 epsilon avg_loss) in
  fsub (Fin 100) (fdiv (Fin 100) (fadd (Fin 1) rs)).

Definition compute_rsi (data : list bar) (period : nat) : series :=
  let delta := diff (col close data) in
  let gain := map clip_lower0 delta in
  let loss := map (fun d => fneg (clip_upper0 d)) delta in
  let avg_gain := rolling_mean period gain in
  let avg_loss := rolling_mean period loss in
  map2 rsi_of avg_gain avg_loss.

(** The real-valued cells of the Bollinger columns: the standard deviation
    is a square root, which leaves [Q].  [None] is NaN; on finite closes
    the mean and the variance are numbers or NaN, never an infinity. *)
Definition rcell : Type := option R.

Definition to_real (x : fnum) : rcell :=
  match x with Fin q => Some (Q2R q) | _ => None end.

(** [rolling(...).std()] is the square root of the rolling variance. *)
Definition std_of_var (v : fnum) : rcell :=
  match v with Fin q => Some (sqrt (Q2R q)) | _ => None end.

(** [mid + (num_std * std)] and [mid - (num_std * std)] on two cells. *)
Definition upper_band (num_std : Q) (m s : rcell) : rcell :=
  match m, s with
  | Some m, Some s => Some (m + (Q2R num_std * s))%R
  | _, _ => None
  end.

Definition lower_band (num_std : Q) (m s : rcell) : rcell :=
  match m, s with
  | Some m, Some s => Some (m - (Q2R num_std * s))%R
  | _, _ => None
  end.

Record bollinger : Type := mkBollinger {
  BB_upper : list rcell;
  BB_mid : series;
  BB_lower : list rcell
}.

Definition compute_bollinger_bands (data : list bar) (period : nat) (num_std : Q)
  : bollinger :=
  let mid := rolling_mean period (col close data) in
  let std := map std_of_var (rolling_var 1 period (col close data)) in
  let mid_r := map to_real mid in
  {| BB_upper := zip_with (upper_band num_std) mid_r std;
     BB_mid := mid;
     BB_lower := zip_with (lower_band num_std) mid_r std |}.

(** [np.where((a > b) & (a > 0), a, 0.0)] *)
Definition directional (a b : fnum) : fnum :=
  if fgt a b && fgt a (Fin 0) then a else Fin 0.

Definition scale100 (x : fnum) : fnum := fmul (Fin 100) x.

Definition dx_of (pdi mdi : fnum) : fnum :=
  fmul (fdiv (fabs (fsub pdi mdi)) (fadd pdi mdi)) (Fin 100).

(** The columns that [compute_adx] adds to its copy of the frame. *)
Record adx_frame : Type := mkAdx {
  plus_DM : series; minus_DM : series; TR : series;
  plus_DM_smooth : series; minus_DM_smooth : series; TR_smooth : series;
  plus_DI : series; minus_DI : series;
  DX : series; ADX : series
}.

Definition adx_columns (data : list bar) (period : nat) : adx_frame :=
  let alpha := 1 / of_nat period in
  let diff_high := diff (col high data) in
  let diff_low := diff (col low data) in
  let pdm := map2 directional diff_high diff_low in
  let mdm := map2 directional diff_low diff_high in
  let prev_close := shift1 (col close data) in
  let tr1 := map2 fsub (col high data) (col low data) in
  let tr2 := map fabs (map2 fsub (col high data) prev_close) in
  let tr3 := map fabs (map2 fsub (col low data) prev_close) in
  let tr := map2 fmax_skipna (map2 fmax_skipna tr1 tr2) tr3 in
  let pdm_s := ewm_mean alpha pdm in
  let mdm_s := ewm_mean alpha mdm in
  let tr_s := ewm_mean alpha tr in
  let pdi := map scale100 (map2 fdiv pdm_s tr_s) in
  let mdi := map scale100 (map2 fdiv mdm_s tr_s) in
  let dx := map2 dx_of pdi mdi in
  {| plus_DM := pdm; minus_DM := mdm; TR := tr;
     plus_DM_smooth := pdm_s; minus_DM_smooth := mdm_s; TR_smooth := tr_s;
     plus_DI := pdi; minus_DI := mdi;
     DX := dx; ADX := ewm_mean alpha dx |}.

(** [alpha = 1/period] is a Python division: [period = 0] raises
    ZeroDivisionError ([None]). *)
Definition compute_adx (data : list bar) (period : nat) : option series :=
  match period with
  | O => None
  | _ => Some (ADX (adx_columns data period))
  end.

(** *** compute_macd *)

(** [ewm(span=n, adjust=False)]: [alpha = 2 / (n + 1)]. *)
Definition span_alpha (span : nat) : Q := 2 / (of_nat span + 1).

Record macd : Type := mkMacd {
  macd_line : series;
  signal_line : series;
  histogram : series
}.

(** pandas refuses a span below 1 with a ValueError ([None]). *)
Definition compute_macd (data : list bar) (fast slow signal : nat) : option macd :=
  if (fast <? 1)%nat || (slow <? 1)%nat || (signal <? 1)%nat then None
  else
    let ema_fast := ewm_mean (span_alpha fast) (col close data) in
    let ema_slow := ewm_mean (span_alpha slow) (col close data) in
    let macd_line := map2 fsub ema_fast ema_slow in
    let signal_line := ewm_mean (span_alpha signal) macd_line in
    let histogram := map2 fsub macd_line signal_line in
    Some {| macd_line := macd_line; signal_line := signal_line;
            histogram := histogram |}.

(** *** compute_atr *)

(** The column ["TR"]: the row maximum of ["H-L"], ["H-C"] and ["L-C"]. *)
Definition true_range (data : list bar) : series :=
  let prev_close := shift1 (col close data) in
  let h_l := map2 fsub (col high data) (col low data) in
  let h_c := map fabs (map2 fsub (col high data) prev_close) in
  let l_c := map fabs (map2 fsub (col low data) prev_close) in
  map2 fmax_skipna (map2 fmax_skipna h_l h_c) l_c.

Definition compute_atr (data : list bar) (period : nat) : series :=
  rolling_mean period (true_range data).

(** *** detect_candlestick_patterns *)

(** A row of the frame with its index label (the bar's timestamp). *)
Abbreviation labelled := (Z * bar)%type.

Record patterns : Type := mkPatterns {
  BullishEngulfing : list Z;
  Hammer : list Z
}.

(** [df.at[label, column] = 1]: the cell of every row that carries the
    label. *)
Definition set_at (df : list labelled) (label : Z) (column : list Z) : list Z :=
  zip_with (fun row old => if (fst row =? label)%Z then 1%Z else old) df column.

Definition engulfing (prev curr : bar) : bool :=
  Qltb (close prev) (open prev) && Qltb (open curr) (close curr)
  && Qltb (open prev) (close curr) && Qltb (open curr) (close prev).

Definition hammer (curr : bar) : bool :=
  let body := Qabs (close curr - open curr) in
  let lower_shadow := Qmin (close curr) (open curr) - low curr in
  Qle_bool body (0.3 * (high curr - low curr)) && Qle_bool (2 * body) lower_shadow.

(** The loop [for i in range(1, len(df))], at the row [curr] that follows
    [prev]. *)
Fixpoint scan_patterns (df : list labelled) (prev : bar) (rest : list labelled)
  (flags : patterns) : patterns :=
  match rest with
  | [] => flags
  | (label, curr) :: rest' =>
      let be := if engulfing prev curr
                then set_at df label (BullishEngulfing flags)
                else BullishEngulfing flags in
      let hm := if hammer curr
                then set_at df label (Hammer flags)
                else Hammer flags in
      scan_patterns df curr rest' (mkPatterns be hm)
  end.

Definition detect_candlestick_patterns (df : list labelled) : patterns :=
  let zeros := map (fun _ => 0%Z) df in
  match df with
  | [] => mkPatterns zeros zeros
  | (_, first) :: rest => scan_patterns df first rest (mkPatterns zeros zeros)
  end.

End Indicators.

(* ===================================================================== *)
(** ** The indicator formulas in the words of the specification           *)
(* ===================================================================== *)

Module IndicatorSpec.
Import Pandas Indicators.

Definition bar0 : bar := mkBar 0 0 0 0.

Definition close_at (data : list bar) (j : nat) : Q := close (nth j data bar0).

(** [f lo + f (lo+1) + ... + f (lo+n-1)] *)
Definition sum_range (f : nat -> Q) (lo n : nat) : Q :=
  fold_right Qplus 0 (map f (seq lo n)).

(** Close-to-close change into row [j]. *)
Definition delta_at (data : list bar) (j : nat) : Q :=
  close_at data j - close_at data (j - 1).

Definition gain_at (data : list bar) (j : nat) : Q := Qmax (delta_at data j) 0.
Definition loss_at (data : list bar) (j : nat) : Q := Qmax (- delta_at data j) 0.

(** Average gain and loss over the [period] changes that end at row [i]. *)
Definition avg_gain_at (data : list bar) (period i : nat) : Q :=
  sum_range (gain_at data) (S i - period) period / of_nat period.

Definition avg_loss_at (data : list bar) (period i : nat) : Q :=
  sum_range (loss_at data) (S i - period) period / of_nat period.

(** RSI with the fixed epsilon in place of a zero average loss. *)
Definition rsi_at (data : list bar) (period i : nat) : Q :=
  let l := avg_loss_at data period i in
  let l := if Qeq_bool l 0 then epsilon else l in
  100 - 100 / (1 + avg_gain_at data period i / l).

(** Trailing simple moving average of close over [period] bars. *)
Definition sma_at (data : list bar) (period i : nat) : Q :=
  sum_range (close_at data) (S i - period) period / of_nat period.

Definition sq_dev_at (data : list bar) (period i : nat) : Q :=
  sum_range (fun j => (close_at data j - sma_at data period i)
                      * (close_at data j - sma_at data period i))
            (S i - period) period.

(** Population variance: squared deviations over the number of bars. *)
Definition population_var_at (data : list bar) (period i : nat) : Q :=
  sq_dev_at data period i / of_nat period.

(** Sample variance: squared deviations over the number of bars less one. *)
Definition sample_var_at (data : list bar) (period i : nat) : Q :=
  sq_dev_at data period i / of_nat (period - 1).

(** [mid + k * sqrt var] and [mid - k * sqrt var] *)
Definition upper_at (k mid var : Q) : R :=
  (Q2R mid + Q2R k * sqrt (Q2R var))%R.

Definition lower_at (k mid var : Q) : R :=
  (Q2R mid - Q2R k * sqrt (Q2R var))%R.

(** A cell that holds a non-negative number. *)
Definition fin_nonneg (x : fnum) : Prop := exists q, x = Fin q /\ 0 <= q.

(** A cell that holds a number or NaN, never an infinity. *)
Definition fin_or_nan (x : fnum) : Prop := x = NaN \/ exists q, x = Fin q.

(** *** Formulas for the other indicators *)

Definition high_at (data : list bar) (j : nat) : Q := high (nth j data bar0).
Definition low_at (data : list bar) (j : nat) : Q := low (nth j data bar0).

(** True range of row [j]: the bar's range on the first row, and from the
    second row on the largest of the range and the two distances to the
    previous close. *)
Definition tr_at (data : list bar) (j : nat) : Q :=
  match j with
  | O => high_at data 0 - low_at data 0
  | S k =>
      Qmax (Qmax (high_at data j - low_at data j)
                 (Qabs (high_at data j - close_at data k)))
           (Qabs (low_at data j - close_at data k))
  end.

Definition atr_at (data : list bar) (period i : nat) : Q :=
  sum_range (tr_at data) (S i - period) period / of_nat period.

(** Average bar range (high - low) over the same window. *)
Definition avg_range_at (data : list bar) (period i : nat) : Q :=
  sum_range (fun j => high_at data j - low_at data j) (S i - period) period
  / of_nat period.

(** A cell that is NaN or a number between [lo] and [hi]. *)
Definition nan_or_between (lo hi : Q) (x : fnum) : Prop :=
  x = NaN \/ exists q, x = Fin q /\ lo <= q <= hi.

(** A cell that is a number between [lo] and [hi]. *)
Definition fin_between (lo hi : Q) (x : fnum) : Prop :=
  exists q, x = Fin q /\ lo <= q <= hi.

(** *** Candlestick flags *)

Definition bar_at (df : list labelled) (j : nat) : bar :=
  snd (nth j df (0%Z, bar0)).

(** Row [j] closes a bullish engulfing pair with the row before it. *)
Definition engulfing_at (df : list labelled) (j : nat) : bool :=
  match j with
  | O => false
  | S k => engulfing (bar_at df k) (bar_at df j)
  end.

Definition hammer_at (df : list labelled) (j : nat) : bool :=
  match j with
  | O => false
  | S _ => hammer (bar_at df j)
  end.

Definition flag (b : bool) : Z := if b then 1%Z else 0%Z.

(** The index of the frame has no repeated label. *)
Definition unique_index (df : list labelled) : Prop := NoDup (map fst df).

(** The row with its high replaced. *)
Definition with_high (h : Q) (r : labelled) : labelled :=
  (fst r, mkBar (open (snd r)) h (low (snd r)) (close (snd r))).

End IndicatorSpec.

(* ===================================================================== *)
(** ** data_fetch.py                                                      *)
(* ===================================================================== *)

Module DataFetch.
Import Indicators.

(** An instant, in microseconds (the resolution of [datetime]). *)
Definition SECOND : Z := 1000000.

(** [datetime.timedelta(minutes=5000)] *)
Definition CHUNK : Z := 5000 * 60 * SECOND.

(** One element of the ["candles"] list of a response, with its time and
    its mid prices parsed. *)
Record candle : Type := mkCandle {
  time : Z;
  mid : bar;
  complete : bool
}.

(** The parameters of one [InstrumentsCandles] request; the price type is
    always ["M"]. *)
Record request : Type := mkRequest {
  req_instrument : string;
  from : Z;
  to : Z;
  req_granularity : string
}.

(** What [client.request] does with a request: it raises V20Error or
    fills in the response.  The server is a function of the request: the
    requests of one download all start at different times. *)
Inductive response : Type :=
| V20Error
| Candles (candles : list candle).

Definition client : Type := request -> response.

(** The rows of [chunk_df]: the complete candles, indexed by time. *)
Definition chunk_rows (candles : list candle) : list labelled :=
  map (fun c => (time c, mid c)) (List.filter complete candles).

(** What the loop has when it is left: the chunks kept and the requests
    sent, oldest first. *)
Record fetched : Type := mkFetched {
  all_candles : list (list labelled);
  sent : list request
}.

(** Lines 43-89: the [while True] loop, from the state it is in at the top
    of an iteration.  [None]: the loop needs more than [fuel] iterations. *)
Fixpoint fetch_loop (fuel : nat) (api : client) (instrument granularity : string)
  (end_dt current_start : Z) (acc : fetched) : option fetched :=
  match fuel with
  | O => None
  | S fuel' =>
      let chunk_end := (current_start + CHUNK)%Z in
      let chunk_end := if (end_dt <? chunk_end)%Z then end_dt else chunk_end in
      let req := mkRequest instrument current_start chunk_end granularity in
      let requests := sent acc ++ [req] in
      match api req with
      | V20Error => Some (mkFetched (all_candles acc) requests)
      | Candles [] => Some (mkFetched (all_candles acc) requests)
      | Candles candles =>
          let chunk_df := chunk_rows candles in
          let chunks :=
            match chunk_df with
            | [] => all_candles acc
            | _ => all_candles acc ++ [chunk_df]
            end in
          if (end_dt <=? chunk_end)%Z then Some (mkFetched chunks requests)
          else fetch_loop fuel' api instrument granularity end_dt
                 (chunk_end + SECOND)%Z (mkFetched chunks requests)
      end
  end.

(** [~index.duplicated(keep="first")]: a row stays unless its label was
    met on an earlier row. *)
Fixpoint drop_duplicated (seen : list Z) (rows : list labelled) : list labelled :=
  match rows with
  | [] => []
  | r :: rest =>
      if bool_decide (fst r ∈ seen) then drop_duplicated seen rest
      else r :: drop_duplicated (fst r :: seen) rest
  end.

Definition by_time : relation labelled := fun r1 r2 => (fst r1 <= fst r2)%Z.

#[global] Instance by_time_dec : RelDecision by_time.
Proof. intros r1 r2. unfold by_time. apply Z.le_dec. Defined.

(** [sort_index]: rows in ascending order of their label. *)
Definition sort_index (rows : list labelled) : list labelled :=
  merge_sort by_time rows.

(** The frame returned with the requests that were sent for it. *)
Record fetch_result : Type := mkResult {
  final_df : list labelled;
  requests : list request
}.

Definition fetch_data_for_period (fuel : nat) (api : client) (instrument : string)
  (start_dt end_dt : Z) (granularity : string) : option fetch_result :=
  match fetch_loop fuel api instrument granularity end_dt start_dt
          (mkFetched [] []) with
  | None => None
  | Some acc =>
      let final_df :=
        match all_candles acc with
        | [] => []
        | chunks => sort_index (drop_duplicated [] (concat chunks))
        end in
      Some (mkResult final_df (sent acc))
  end.

(** Lines 118-124: one frame per instrument, in a dict. *)
Fixpoint fetch_multiple_pairs_from (fuel : nat) (api : client)
  (instruments_list : list string) (start_dt end_dt : Z) (granularity : string)
  (data_dict : gmap string (list labelled))
  : option (gmap string (list labelled)) :=
  match instruments_list with
  | [] => Some data_dict
  | instr :: rest =>
      match fetch_data_for_period fuel api instr start_dt end_dt granularity with
      | None => None
      | Some r =>
          fetch_multiple_pairs_from fuel api rest start_dt end_dt granularity
            (<[instr := final_df r]> data_dict)
      end
  end.

Definition fetch_multiple_pairs (fuel : nat) (api : client)
  (instruments_list : list string) (start_dt end_dt : Z) (granularity : string)
  : option (gmap string (list labelled)) :=
  fetch_multiple_pairs_from fuel api instruments_list start_dt end_dt
    granularity ∅.

End DataFetch.

(* ===================================================================== *)
(** ** What a fetch asks for and what it returns                          *)
(* ===================================================================== *)

Module DataFetchSpec.
Import Indicators DataFetch.

(** Iterations that always suffice for the period from [start_dt] to
    [end_dt]: one, and one more for every stretch of 5000 minutes and a
    second that the period reaches into beyond its first 5000 minutes. *)
Definition enough (start_dt end_dt : Z) : nat :=
  S (Z.to_nat ((end_dt - start_dt + SECOND - 1) / (CHUNK + SECOND))).

(** The request sent when the loop is at [current_start]. *)
Definition request_at (instrument granularity : string)
  (end_dt current_start : Z) : request :=
  mkRequest instrument current_start (Z.min (current_start + CHUNK) end_dt)
    granularity.

(** The accumulator after a request that ended the loop at once. *)
Definition with_request (acc : fetched) (req : request) : fetched :=
  mkFetched (all_candles acc) (sent acc ++ [req]).

(** The accumulator after a request answered with [candles]. *)
Definition with_chunk (acc : fetched) (req : request) (candles : list candle)
  : fetched :=
  mkFetched (match chunk_rows candles with
             | [] => all_candles acc
             | _ => all_candles acc ++ [chunk_rows candles]
             end)
            (sent acc ++ [req]).

(** The [k]-th window asked for. *)
Definition window_from (start_dt : Z) (k : nat) : Z :=
  (start_dt + Z.of_nat k * (CHUNK + SECOND))%Z.

Definition window_to (start_dt end_dt : Z) (k : nat) : Z :=
  Z.min (window_from start_dt k + CHUNK) end_dt.

(** The complete candles of the answers to [reqs], in the order they
    came. *)
Definition received (api : client) (reqs : list request) : list labelled :=
  flat_map (fun req => match api req with
                       | V20Error => []
                       | Candles candles => chunk_rows candles
                       end) reqs.

(** The answer to [req] ends the loop early. *)
Definition stops_early (api : client) (req : request) : Prop :=
  api req = V20Error \/ api req = Candles [].

(** The first bar delivered for the time [t]. *)
Fixpoint first_bar (t : Z) (rows : list labelled) : option bar :=
  match rows with
  | [] => None
  | r :: rest => if (fst r =? t)%Z then Some (snd r) else first_bar t rest
  end.

End DataFetchSpec.

(* ===================================================================== *)
(** ** config.py                                                          *)
(* ===================================================================== *)

Module Config.

Definition RISK_PER_TRADE : Q := 0.01.
Definition MAX_TRADES_PER_DAY : nat := 5.
Definition DAILY_DRAWDOWN_LIMIT_PCT : Q := 7.5.
Definition TIMEFRAME : string := "M1".
Definition INSTRUMENTS : list string :=
  ["EUR_USD"; "GBP_USD"; "AUD_USD"; "USD_CHF"; "NZD_USD"; "USD_CAD"]%string.
Definition TRAILING_STOP_PIPS : Q := 17.

End Config.

(* ===================================================================== *)
(** ** main_bot.py                                                        *)
(* ===================================================================== *)

Module MainBot.
Import Pandas Config.

(** *** Python values *)

Inductive exn : Type :=
| TypeError | ZeroDivisionError | ValueError | IndexError
| BrokerError (msg : string).

Inductive res (A : Type) : Type :=
| Ok (a : A)
| Raise (e : exn).
Arguments Ok {A} a.
Arguments Raise {A} e.

(** The outcome of a call into the broker or a helper module: a value, or
    a failure of the callee, which reaches the loop as an exception of the
    callee's own ([BrokerError]). *)
Inductive ext (A : Type) : Type :=
| Returned (a : A)
| Failed (msg : string).
Arguments Returned {A} a.
Arguments Failed {A} msg.

Definition upper_ascii (c : ascii) : ascii :=
  let n := nat_of_ascii c in
  if (97 <=? n)%nat && (n <=? 122)%nat then ascii_of_nat (n - 32) else c.

(** [str.upper()] on the ASCII strings the bot handles. *)
Fixpoint upper (s : string) : string :=
  match s with
  | EmptyString => EmptyString
  | String c s' => String (upper_ascii c) (upper s')
  end.

(** The dict built at lines 167-176. *)
Record trade : Type := mkTrade {
  instrument : string;
  side : string;
  entry_price : Q;
  units : Q;
  order_id : string;
  max_price : option Q;
  min_price : option Q;
  take_profit_price : Q
}.

Definition opt_eqb (a b : option Q) : bool :=
  match a, b with
  | Some x, Some y => Qeq_bool x y
  | None, None => true
  | _, _ => false
  end.

(** [==] on two trade dicts: key by key. *)
Definition trade_eqb (a b : trade) : bool :=
  String.eqb (instrument a) (instrument b)
  && String.eqb (side a) (side b)
  && Qeq_bool (entry_price a) (entry_price b)
  && Qeq_bool (units a) (units b)
  && String.eqb (order_id a) (order_id b)
  && opt_eqb (max_price a) (max_price b)
  && opt_eqb (min_price a) (min_price b)
  && Qeq_bool (take_profit_price a) (take_profit_price b).

Definition compute_unrealized_pnl (t : trade) (current_price : Q) : Q :=
  let pip_value := 0.0001 in
  if String.eqb (upper (side t)) "BUY"
  then (current_price - entry_price t) * units t * pip_value
  else (entry_price t - current_price) * units t * pip_value.

(** *** External collaborators *)

(** What the loop reads of one fetched M1 frame. *)
Record row : Type := mkRow { row_close : Q; row_ADX : Q; row_ATR : Q }.

Record frame : Type := mkFrame {
  raw_rows : nat;
  (** the last row once [apply_indicators], [dropna] and
      [detect_candlestick_patterns] ran; [None] when no row is left *)
  last_row : option row;
  (** [generate_combined_signal(df, htf_trend=None)] *)
  m1_signal : string
}.

Inductive balance_site : Type :=
| AtDayReset | AtDrawdownGate | AtSizing (instrument : string).

(** Where a single latest price is fetched: at position [i] of the
    trailing-stop loop or of the unrealized-loss loop. *)
Inductive price_site : Type :=
| InTrailingLoop (i : nat) | InLossLoop (i : nat).

(** Which call of [close_all_trades] talks to the broker. *)
Inductive close_site : Type :=
| ByTrailingStop (i : nat) | ByKillSwitch.

(** The answers of the broker, the clock and the helper modules
    ([utils], [strategy]) during one pass of the loop. *)
Record world : Type := mkWorld {
  now_date : Z;
  now_hour : Z;
  now_weekday : Z;
  get_account_balance : balance_site -> ext Q;
  fetch_ohlc_data : string -> ext frame;
  get_higher_timeframe_trend : string -> string -> ext string;
  calculate_dynamic_position_size : Q -> Q -> Q -> Q -> ext Q;
  place_order : string -> string -> Q -> Q -> Q -> ext (option string);
  (** [fetch_ohlc_data(client, inst, TIMEFRAME, 1)]["close"].iloc[-1],
      [None] for an empty frame *)
  fetch_last_close : price_site -> string -> ext (option Q);
  (** whether the broker fails to close the trade object [r] *)
  close_fails : close_site -> nat -> bool
}.

(** Modelled from the spec: [utils.close_all_trades] is not among the
    sources; it asks the broker to close each trade and returns the list
    of the trades that failed to close. *)
Definition close_all_trades (w : world) (site : close_site) (trades : list nat)
  : list nat :=
  List.filter (fun r => close_fails w site r) trades.

(** *** The state of [main_async] *)

Inductive event : Type :=
| Sleep (secs : Z)
| Email (subject : string)
| PlaceOrder (instrument side : string) (size sl tp : Q)
| NotifyTrade (r : nat)
| TrailingClose (r : nat) (current_price : Q)
| KillSwitchClose (rs : list nat)
| Fault (e : exn).

Record state : Type := mkState {
  daily_trade_count : nat;
  consecutive_losses : nat;
  start_of_day_equity : option Q;
  last_date : option Z;
  (** the trade dicts, by object identity *)
  heap : list trade;
  (** [open_trades]: references into [heap] *)
  open_trades : list nat;
  (** calls with an effect outside the process, oldest first *)
  log : list event
}.

Definition initial : state :=
  mkState 0 0 None None [] [] [].

Definition MAX_CONSECUTIVE_LOSSES : nat := 3.

(** *** State and exceptions *)

Definition M (A : Type) : Type := state -> res A * state.

Definition ret {A} (a : A) : M A := fun s => (Ok a, s).

Definition bind {A B} (c : M A) (k : A -> M B) : M B :=
  fun s =>
    match c s with
    | (Ok a, s') => k a s'
    | (Raise e, s') => (Raise e, s')
    end.

Definition raise {A} (e : exn) : M A := fun s => (Raise e, s).

Definition get : M state := fun s => (Ok s, s).

Definition modify (f : state -> state) : M unit := fun s => (Ok tt, f s).

Definition call {A} (r : ext A) : M A :=
  fun s =>
    match r with
    | Returned a => (Ok a, s)
    | Failed msg => (Raise (BrokerError msg), s)
    end.

Definition catch {A} (c : M A) (h : exn -> M A) : M A :=
  fun s =>
    match c s with
    | (Ok a, s') => (Ok a, s')
    | (Raise e, s') => h e s'
    end.

Notation "x <- c1 ;; c2" := (bind c1 (fun x => c2))
  (at level 100, c1 at next level, right associativity).
Notation "c1 ;; c2" := (bind c1 (fun _ => c2))
  (at level 100, right associativity).

Definition emit (ev : event) : M unit :=
  modify (fun s => mkState (daily_trade_count s) (consecutive_losses s)
                     (start_of_day_equity s) (last_date s) (heap s)
                     (open_trades s) (log s ++ [ev])).

Definition set_counters (n l : nat) : M unit :=
  modify (fun s => mkState n l (start_of_day_equity s) (last_date s) (heap s)
                     (open_trades s) (log s)).

Definition set_equity (q : Q) : M unit :=
  modify (fun s => mkState (daily_trade_count s) (consecutive_losses s)
                     (Some q) (last_date s) (heap s) (open_trades s) (log s)).

Definition set_last_date (d : Z) : M unit :=
  modify (fun s => mkState (daily_trade_count s) (consecutive_losses s)
                     (start_of_day_equity s) (Some d) (heap s)
                     (open_trades s) (log s)).

Definition set_heap (h : list trade) : M unit :=
  modify (fun s => mkState (daily_trade_count s) (consecutive_losses s)
                     (start_of_day_equity s) (last_date s) h
                     (open_trades s) (log s)).

Definition set_open_trades (l : list nat) : M unit :=
  modify (fun s => mkState (daily_trade_count s) (consecutive_losses s)
                     (start_of_day_equity s) (last_date s) (heap s) l (log s)).

(** An operand that must be a float: [None] in its place is a TypeError. *)
Definition as_float (v : option Q) : M Q :=
  match v with
  | Some q => ret q
  | None => raise TypeError
  end.

(** *** Lines 40-43: [fetch_all_instruments] *)

Fixpoint fetch_all_instruments (w : world) (instruments : list string)
  : M (list (string * frame)) :=
  match instruments with
  | [] => ret []
  | i :: rest =>
      df <- call (fetch_ohlc_data w i);;
      dfs <- fetch_all_instruments w rest;;
      ret ((i, df) :: dfs)
  end.

(** *** Lines 127-135: trend confirmation *)

Definition confirm (signal trend_M15 trend_M5 : string) : string :=
  if String.eqb signal "BUY" && String.eqb trend_M15 "up"
     && String.eqb trend_M5 "up"
  then "BUY"
  else if String.eqb signal "SELL" && String.eqb trend_M15 "down"
          && String.eqb trend_M5 "down"
  then "SELL"
  else "FLAT".

(** *** Lines 150-162: ATR-based stop and target; (stop_loss_price,
    take_profit_price) *)

Definition stop_and_target (confirmed_signal : string) (current_price atr_value : Q)
  : Q * Q :=
  let atr_in_pips := atr_value * 10000 in
  let stop_loss_multiplier := 1.5 in
  let reward_factor := 2.0 in
  let stop_loss_pips := atr_in_pips * stop_loss_multiplier in
  if String.eqb (upper confirmed_signal) "BUY"
  then (current_price - (stop_loss_pips * 0.0001),
        current_price + (stop_loss_pips * 0.0001 * reward_factor))
  else (current_price + (stop_loss_pips * 0.0001),
        current_price - (stop_loss_pips * 0.0001 * reward_factor)).

(** Lines 165-178: count the trade, build the dict, append it. *)
Definition register (t : trade) : M unit :=
  s <- get;;
  set_counters (S (daily_trade_count s)) (consecutive_losses s);;
  let r := length (heap s) in
  set_heap (heap s ++ [t]);;
  set_open_trades (open_trades s ++ [r]);;
  emit (NotifyTrade r).

(** *** Lines 99-178: the body of the loop over the fetched frames.  The
    result is [latest_prices]. *)

Definition process_instrument (w : world) (latest_prices : gmap string Q)
  (instrument : string) (df : frame) : M (gmap string Q) :=
  if (raw_rows df =? 0)%nat || (raw_rows df <? 50)%nat then ret latest_prices
  else
    match last_row df with
    | None => raise IndexError
    | Some last =>
        let latest_price := row_close last in
        let latest_prices := <[instrument := latest_price]> latest_prices in
        let adx := row_ADX last in
        if Qltb adx 25 then ret latest_prices
        else
          trend_M15 <- call (get_higher_timeframe_trend w instrument "M15");;
          trend_M5 <- call (get_higher_timeframe_trend w instrument "M5");;
          let signal := m1_signal df in
          let confirmed_signal := confirm signal trend_M15 trend_M5 in
          if String.eqb confirmed_signal "BUY" || String.eqb confirmed_signal "SELL"
          then
            s <- get;;
            if (MAX_TRADES_PER_DAY <=? daily_trade_count s)%nat
               || (MAX_CONSECUTIVE_LOSSES <=? consecutive_losses s)%nat
            then ret latest_prices
            else
              balance <- call (get_account_balance w (AtSizing instrument));;
              let atr_value := row_ATR last in
              let current_price := latest_price in
              position_size <-
                call (calculate_dynamic_position_size w balance RISK_PER_TRADE
                        atr_value current_price);;
              let '(stop_loss_price, take_profit_price) :=
                stop_and_target confirmed_signal current_price atr_value in
              emit (PlaceOrder instrument confirmed_signal position_size
                      stop_loss_price take_profit_price);;
              order_id <-
                call (place_order w instrument confirmed_signal position_size
                        stop_loss_price take_profit_price);;
              match order_id with
              | Some oid =>
                  register
                    {| instrument := instrument;
                       side := confirmed_signal;
                       entry_price := current_price;
                       units := position_size;
                       order_id := oid;
                       max_price :=
                         if String.eqb (upper confirmed_signal) "BUY"
                         then Some current_price else None;
                       min_price :=
                         if String.eqb (upper confirmed_signal) "SELL"
                         then Some current_price else None;
                       take_profit_price := take_profit_price |};;
                  ret latest_prices
              | None => ret latest_prices
              end
          else ret latest_prices
    end.

Fixpoint process_instruments (w : world) (latest_prices : gmap string Q)
  (instrument_data : list (string * frame)) : M (gmap string Q) :=
  match instrument_data with
  | [] => ret latest_prices
  | (instrument, df) :: rest =>
      latest_prices <- process_instrument w latest_prices instrument df;;
      process_instruments w latest_prices rest
  end.

(** *** Lines 180-228: trailing stop *)

(** [latest_prices.get(inst)], else the close of one freshly fetched bar;
    [None] when that frame is empty (the loop then skips the trade). *)
Definition price_for (w : world) (latest_prices : gmap string Q)
  (site : price_site) (inst : string) : M (option Q) :=
  match latest_prices !! inst with
  | Some p => ret (Some p)
  | None => call (fetch_last_close w site inst)
  end.

Definition with_max_price (t : trade) (p : Q) : trade :=
  mkTrade (instrument t) (side t) (entry_price t) (units t) (order_id t)
          (Some p) (min_price t) (take_profit_price t).

Definition with_min_price (t : trade) (p : Q) : trade :=
  mkTrade (instrument t) (side t) (entry_price t) (units t) (order_id t)
          (max_price t) (Some p) (take_profit_price t).

(** Assignment to a key of the dict object [r]. *)
Definition write (r : nat) (t : trade) : M unit :=
  s <- get;; set_heap (<[r := t]> (heap s)).

(** [list.remove(x)]: drops the first item that is [x] or equals it. *)
Fixpoint remove_first (h : list trade) (r : nat) (t : trade) (l : list nat)
  : option (list nat) :=
  match l with
  | [] => None
  | r' :: l' =>
      if (r' =? r)%nat
         || match h !! r' with Some t' => trade_eqb t' t | None => false end
      then Some l'
      else option_map (cons r') (remove_first h r t l')
  end.

Definition remove (r : nat) (t : trade) : M unit :=
  s <- get;;
  match remove_first (heap s) r t (open_trades s) with
  | Some l => set_open_trades l
  | None => raise ValueError
  end.

(** Lines 201-207 and 220-226. *)
Definition close_one (w : world) (i r : nat) (t : trade) (current_price : Q)
  : M unit :=
  match close_all_trades w (ByTrailingStop i) [r] with
  | [] =>
      remove r t;;
      let profit := compute_unrealized_pnl t current_price in
      s <- get;;
      if Qltb profit 0
      then set_counters (daily_trade_count s) (S (consecutive_losses s))
      else set_counters (daily_trade_count s) 0
  | _ => ret tt
  end.

Definition manage_buy (w : world) (i r : nat) (t : trade) (current_price : Q)
  : M unit :=
  mx <- as_float (max_price t);;
  t <- (if Qltb mx current_price
        then write r (with_max_price t current_price);;
             ret (with_max_price t current_price)
        else ret t);;
  let profit_threshold := (take_profit_price t - entry_price t) * 0.35 in
  if Qltb profit_threshold (current_price - entry_price t) then
    mx <- as_float (max_price t);;
    let trailing_stop_level := mx - (TRAILING_STOP_PIPS * 0.0001) in
    if Qltb current_price trailing_stop_level then
      emit (Email "Trailing Stop Alert");;
      emit (TrailingClose r current_price);;
      close_one w i r t current_price
    else ret tt
  else ret tt.

Definition manage_sell (w : world) (i r : nat) (t : trade) (current_price : Q)
  : M unit :=
  mn <- as_float (min_price t);;
  t <- (if Qltb current_price mn
        then write r (with_min_price t current_price);;
             ret (with_min_price t current_price)
        else ret t);;
  let profit_threshold := (entry_price t - take_profit_price t) * 0.5 in
  if Qltb profit_threshold (entry_price t - current_price) then
    mn <- as_float (min_price t);;
    let trailing_stop_level := mn + (TRAILING_STOP_PIPS * 0.0001) in
    if Qltb trailing_stop_level current_price then
      emit (Email "Trailing Stop Alert");;
      emit (TrailingClose r current_price);;
      close_one w i r t current_price
    else ret tt
  else ret tt.

(** The body of [for trade in open_trades.copy()], at position [i] of the
    copy.  A reference of [open_trades] always points into the heap
    (lemma [run_refs_valid]), so the first branch is not taken. *)
Definition manage_trade (w : world) (latest_prices : gmap string Q)
  (i r : nat) : M unit :=
  s <- get;;
  match heap s !! r with
  | None => ret tt
  | Some t =>
      let inst := instrument t in
      current_price <- price_for w latest_prices (InTrailingLoop i) inst;;
      match current_price with
      | None => ret tt
      | Some current_price =>
          if String.eqb (upper (side t)) "BUY"
          then manage_buy w i r t current_price
          else if String.eqb (upper (side t)) "SELL"
          then manage_sell w i r t current_price
          else ret tt
      end
  end.

Fixpoint manage_trades (w : world) (latest_prices : gmap string Q)
  (i : nat) (copy : list nat) : M unit :=
  match copy with
  | [] => ret tt
  | r :: rest =>
      manage_trade w latest_prices i r;;
      manage_trades w latest_prices (S i) rest
  end.

(** *** Lines 230-248: total unrealized loss and the kill-switch *)

Fixpoint total_unrealized_loss (w : world) (latest_prices : gmap string Q)
  (h : list trade) (i : nat) (trades : list nat) (total : Q) : M Q :=
  match trades with
  | [] => ret total
  | r :: rest =>
      match h !! r with
      | None => total_unrealized_loss w latest_prices h (S i) rest total
      | Some t =>
          current_price <- price_for w latest_prices (InLossLoop i) (instrument t);;
          match current_price with
          | None => total_unrealized_loss w latest_prices h (S i) rest total
          | Some current_price =>
              let pnl := compute_unrealized_pnl t current_price in
              total_unrealized_loss w latest_prices h (S i) rest
                (if Qltb pnl 0 then total + pnl else total)
          end
      end
  end.

Definition kill_switch (w : world) (latest_prices : gmap string Q) : M unit :=
  s <- get;;
  total <- total_unrealized_loss w latest_prices (heap s) 0 (open_trades s) 0.0;;
  equity <- as_float (start_of_day_equity s);;
  let daily_loss_limit := equity * (DAILY_DRAWDOWN_LIMIT_PCT / 100.0) in
  if Qle_bool daily_loss_limit (Qabs total) then
    emit (Email "Daily Loss Limit Exceeded");;
    emit (KillSwitchClose (open_trades s));;
    set_open_trades (close_all_trades w ByKillSwitch (open_trades s))
  else ret tt.

(** *** Lines 59-250: one pass of the [while True] body *)

Definition daily_reset (w : world) : M unit :=
  s <- get;;
  match last_date s with
  | Some d =>
      if (d =? now_date w)%Z then ret tt
      else
        set_last_date (now_date w);;
        set_counters 0 0;;
        equity <- call (get_account_balance w AtDayReset);;
        set_equity equity
  | None =>
      set_last_date (now_date w);;
      set_counters 0 0;;
      equity <- call (get_account_balance w AtDayReset);;
      set_equity equity
  end.

Definition position_management (w : world) (latest_prices : gmap string Q)
  : M unit :=
  s <- get;;
  manage_trades w latest_prices 0 (open_trades s);;
  kill_switch w latest_prices.

(** Lines 95-250: what follows the drawdown gate. *)
Definition trading_pass (w : world) : M unit :=
  instrument_data <- fetch_all_instruments w INSTRUMENTS;;
  latest_prices <- process_instruments w ∅ instrument_data;;
  position_management w latest_prices;;
  emit (Sleep 60).

Definition iteration (w : world) : M unit :=
  if (now_hour w <? 6)%Z || (18 <? now_hour w)%Z then emit (Sleep 300)
  else if (5 <=? now_weekday w)%Z then emit (Sleep 3600)
  else
    daily_reset w;;
    current_balance <- call (get_account_balance w AtDrawdownGate);;
    s <- get;;
    (match start_of_day_equity s with
     | None => set_equity current_balance
     | Some _ => ret tt
     end);;
    s <- get;;
    equity <- as_float (start_of_day_equity s);;
    if Qeq_bool equity 0 then raise ZeroDivisionError
    else
      let dd_pct := ((current_balance - equity) / equity) * 100 in
      if Qle_bool dd_pct (- DAILY_DRAWDOWN_LIMIT_PCT) then
        emit (Email "Daily Drawdown Alert");;
        emit (Sleep 60)
      else trading_pass w.

(** Lines 252-255: whatever an iteration raises is reported and the loop
    goes on. *)
Definition loop_body (w : world) : M unit :=
  catch (iteration w)
        (fun e => emit (Fault e);; emit (Email "Trading Bot Error");;
                  emit (Sleep 60)).

(** The state after the passes of the loop that meet [ws], in order. *)
Fixpoint run (ws : list world) (s : state) : state :=
  match ws with
  | [] => s
  | w :: rest => run rest (snd (loop_body w s))
  end.

End MainBot.

(* ===================================================================== *)
(** ** The controller properties in the words of the specification        *)
(* ===================================================================== *)

Module MainBotSpec.
Import Config MainBot.

(** The fields of a trade that are written once, at registration. *)
Definition same_terms (t t' : trade) : Prop :=
  instrument t' = instrument t /\ side t' = side t
  /\ entry_price t' = entry_price t /\ units t' = units t
  /\ order_id t' = order_id t /\ take_profit_price t' = take_profit_price t.

(** The favorable extreme of a long position has not come down. *)
Definition max_not_lower (before after : option Q) : Prop :=
  match before, after with
  | Some x, Some y => x <= y
  | None, None => True
  | _, _ => False
  end.

(** The favorable extreme of a short position has not gone up. *)
Definition min_not_higher (before after : option Q) : Prop :=
  match before, after with
  | Some x, Some y => y <= x
  | None, None => True
  | _, _ => False
  end.

Definition trade_le (t t' : trade) : Prop :=
  same_terms t t'
  /\ max_not_lower (max_price t) (max_price t')
  /\ min_not_higher (min_price t) (min_price t').

(** Every trade object is still there, with the same terms and a
    favorable extreme that only moved in the favorable direction. *)
Definition heap_le (h h' : list trade) : Prop :=
  forall r t, h !! r = Some t -> exists t', h' !! r = Some t' /\ trade_le t t'.

(** Favorable movement from entry at price [p] exceeds the activation
    fraction of the planned take-profit distance. *)
Definition activated (t : trade) (p : Q) : Prop :=
  (upper (side t) = "BUY"%string
   /\ (take_profit_price t - entry_price t) * 0.35 < p - entry_price t)
  \/ (upper (side t) = "SELL"%string
      /\ (entry_price t - take_profit_price t) * 0.5 < entry_price t - p).

Definition justified (h : list trade) (ev : event) : Prop :=
  match ev with
  | TrailingClose r p => exists t, h !! r = Some t /\ activated t p
  | _ => True
  end.

Definition is_fault (ev : event) : Prop :=
  match ev with Fault _ => True | _ => False end.

(** A trade as the controller registers it: the extreme of its own side
    is a price, the other one is [None]. *)
Definition registered_shape (t : trade) : Prop :=
  (side t = "BUY"%string /\ is_Some (max_price t) /\ min_price t = None)
  \/ (side t = "SELL"%string /\ is_Some (min_price t) /\ max_price t = None).

Definition shaped (s : state) : Prop := Forall registered_shape (heap s).

Definition ready (s : state) : Prop :=
  shaped s /\ is_Some (start_of_day_equity s).

(** Every reference of [open_trades] points at a trade object. *)
Definition refs_valid (s : state) : Prop :=
  Forall (fun r => (r < length (heap s))%nat) (open_trades s).

Definition keeps_refs {A} (c : M A) : Prop :=
  forall s, refs_valid s -> refs_valid (snd (c s)).

(** The outcome is not the TypeError of an operation on [None]. *)
Definition no_type_error {A} (r : res A) : Prop := r <> Raise TypeError.

(** What every step inside an iteration guarantees. *)
Record evolves (s s' : state) : Prop := mkEvolves {
  ev_heap : heap_le (heap s) (heap s');
  ev_log : exists evs, log s' = log s ++ evs
                       /\ Forall (justified (heap s')) evs
                       /\ Forall (fun ev => ~ is_fault ev) evs;
  ev_shape : shaped s -> shaped s';
  ev_equity : is_Some (start_of_day_equity s) -> is_Some (start_of_day_equity s')
}.

(** What every pass of the loop guarantees. *)
Record advances (s s' : state) : Prop := mkAdvances {
  adv_heap : heap_le (heap s) (heap s');
  adv_log : exists evs, log s' = log s ++ evs
                        /\ Forall (justified (heap s')) evs
                        /\ (shaped s -> Forall (fun ev => ev <> Fault TypeError) evs);
  adv_shape : shaped s -> shaped s'
}.

(** The state the kill-switch leaves when it fires: the trades that
    failed to close stay open, the alert and the close request are out. *)
Definition killed (w : world) (s : state) : state :=
  mkState (daily_trade_count s) (consecutive_losses s) (start_of_day_equity s)
          (last_date s) (heap s)
          (close_all_trades w ByKillSwitch (open_trades s))
          (log s ++ [Email "Daily Loss Limit Exceeded";
                     KillSwitchClose (open_trades s)]).

(** What an order placed for the frame [df] must look like: sides, and
    stop and target at 1.5 and 3.0 ATR from the last close. *)
Definition order_as_planned (df : frame) (ev : event) : Prop :=
  match ev with
  | PlaceOrder _ sd _ sl tp =>
      exists last, last_row df = Some last
        /\ ((sd = "BUY"%string
             /\ sl == row_close last - 1.5 * row_ATR last
             /\ tp == row_close last + 3.0 * row_ATR last)
            \/ (sd = "SELL"%string
                /\ sl == row_close last + 1.5 * row_ATR last
                /\ tp == row_close last - 3.0 * row_ATR last))
  | _ => True
  end.

(** The trading session is open: a weekday between 6 and 18 UTC. *)
Definition session_open (w : world) : Prop :=
  (6 <= now_hour w <= 18)%Z /\ (now_weekday w < 5)%Z.

(** The start-of-day equity the drawdown gate compares with: the stored
    one, or the balance read by the day reset on a new day. *)
Definition equity_in_force (w : world) (s : state) (current_balance : Q)
  : option Q :=
  let fresh :=
    match get_account_balance w AtDayReset with
    | Returned q => Some q
    | Failed _ => None
    end in
  match last_date s with
  | Some d =>
      if (d =? now_date w)%Z
      then match start_of_day_equity s with
           | Some q => Some q
           | None => Some current_balance
           end
      else fresh
  | None => fresh
  end.

(** The price the unrealized-loss loop uses for the trade at position
    [i]: this iteration's close, else a single fetched close. *)
Definition price_seen (w : world) (latest_prices : gmap string Q) (i : nat)
  (t : trade) : option Q :=
  match latest_prices !! instrument t with
  | Some p => Some p
  | None =>
      match fetch_last_close w (InLossLoop i) (instrument t) with
      | Returned o => o
      | Failed _ => None
      end
  end.

(** The unrealized loss of the trade at position [i], zero for a trade in
    profit or without a price. *)
Definition loss_of (w : world) (latest_prices : gmap string Q)
  (h : list trade) (i r : nat) : Q :=
  match h !! r with
  | Some t =>
      match price_seen w latest_prices i t with
      | Some p => Qmin (compute_unrealized_pnl t p) 0
      | None => 0
      end
  | None => 0
  end.

(** Sum of the unrealized losses of the trades [trades], which sit at
    positions [i], [i+1], ... of [open_trades]. *)
Fixpoint loss_sum (w : world) (latest_prices : gmap string Q)
  (h : list trade) (i : nat) (trades : list nat) : Q :=
  match trades with
  | [] => 0
  | r :: rest => loss_of w latest_prices h i r
                 + loss_sum w latest_prices h (S i) rest
  end.

(** *** Counters, days and the session gate *)

(** [s] with the events [evs] added to its log, and nothing else changed. *)
Definition logged (s : state) (evs : list event) : state :=
  mkState (daily_trade_count s) (consecutive_losses s) (start_of_day_equity s)
          (last_date s) (heap s) (open_trades s) (log s ++ evs).

(** The pause of a pass that the session gate cuts short. *)
Definition nap (w : world) : Z :=
  if (now_hour w <? 6)%Z || (18 <? now_hour w)%Z then 300%Z else 3600%Z.

(** What every step of a pass keeps once the day reset is behind: the
    trade counter only grows, by one for each trade object created, and
    not beyond the cap; the date and a start-of-day equity that is set
    stay as they are. *)
Definition same_day (s s' : state) : Prop :=
  (daily_trade_count s <= daily_trade_count s')%nat
  /\ ((daily_trade_count s <= MAX_TRADES_PER_DAY)%nat ->
      (daily_trade_count s' <= MAX_TRADES_PER_DAY)%nat)
  /\ (length (heap s') + daily_trade_count s
      = length (heap s) + daily_trade_count s')%nat
  /\ last_date s' = last_date s
  /\ (is_Some (start_of_day_equity s) ->
      start_of_day_equity s' = start_of_day_equity s).

(** A position of non-negative size whose target lies on the winning side
    of its entry. *)
Definition sound_trade (t : trade) : Prop :=
  0 <= units t
  /\ (upper (side t) = "BUY"%string -> entry_price t <= take_profit_price t)
  /\ (upper (side t) <> "BUY"%string -> take_profit_price t <= entry_price t).

Definition no_losses (s : state) : Prop :=
  consecutive_losses s = 0%nat /\ Forall sound_trade (heap s).

(** A step from [s] to [s'] keeps the property [P] of states. *)
Definition preserved (P : state -> Prop) (s s' : state) : Prop := P s -> P s'.

(** A frame whose last ATR is not negative. *)
Definition sane_frame (df : frame) : Prop :=
  forall last, last_row df = Some last -> 0 <= row_ATR last.

(** A world whose frames are sane and whose position sizes are not
    negative. *)
Definition sane_world (w : world) : Prop :=
  (forall inst df, fetch_ohlc_data w inst = Returned df -> sane_frame df)
  /\ (forall balance risk atr price size,
        calculate_dynamic_position_size w balance risk atr price = Returned size ->
        0 <= size).

(** An event that neither opens nor closes a position. *)
Definition passive (ev : event) : Prop :=
  match ev with
  | Sleep _ | Email _ | Fault _ => True
  | _ => False
  end.

(** No trade object, no reference and no counter of trades was touched,
    and nothing was asked of the broker. *)
Definition untouched (s s' : state) : Prop :=
  heap s' = heap s /\ open_trades s' = open_trades s
  /\ exists evs, log s' = log s ++ evs /\ Forall passive evs.

(** The trade [t] at the price [p] is more than the trailing distance away
    from its favorable extreme, on the losing side of it. *)
Definition retraced (t : trade) (p : Q) : Prop :=
  (upper (side t) = "BUY"%string
   /\ exists mx, max_price t = Some mx /\ p < mx - TRAILING_STOP_PIPS * 0.0001)
  \/ (upper (side t) = "SELL"%string
      /\ exists mn, min_price t = Some mn /\ mn + TRAILING_STOP_PIPS * 0.0001 < p).

Definition trailed (h : list trade) (ev : event) : Prop :=
  match ev with
  | TrailingClose r p => exists t, h !! r = Some t /\ retraced t p
  | _ => True
  end.

(** The heap only moved favorable extremes, and every event added to the
    log that asks for a trailing-stop close names a trade that has
    retraced. *)
Definition trails (s s' : state) : Prop :=
  heap_le (heap s) (heap s')
  /\ exists evs, log s' = log s ++ evs /\ Forall (trailed (heap s')) evs.

End MainBotSpec.

(* ===================================================================== *)
(** ** main_bot.py lines 191-198 on IEEE doubles                           *)
(* ===================================================================== *)

(** The trailing-stop tests of a BUY trade as Python evaluates them: every
    operand is a binary64 double, every operation is rounded to nearest,
    a decimal literal stands for the double nearest to it, and [a > b] is
    false when an operand is NaN. *)
Module Doubles.
Import Floats.
#[local] Set Warnings "-inexact-float".
#[local] Open Scope float_scope.

(** config.py: [TRAILING_STOP_PIPS = 17], an int that the product of line
    196 converts. *)
Definition TRAILING_STOP_PIPS : float := 17.


(** The rational number that a finite double is. *)
Definition exact (f : float) : option Q :=
  match Prim2SF f with
  | S754_zero _ => Some 0%Q
  | S754_finite sign m e =>
      let magnitude :=
        if (0 <=? e)%Z then inject_Z (Z.pos m * 2 ^ e)
        else (Z.pos m # Z.to_pos (2 ^ (- e)))%Q in
      Some (if sign then (- magnitude)%Q else magnitude)
  | _ => None
  end.

End Doubles.

(* ===================================================================== *)
(** ** main_bot.py with the activation test left to the doubles           *)
(* ===================================================================== *)

(** [MainBot] decides the activation test of the trailing stop (lines 195
    and 214) on exact rationals.  The doubles round the two differences,
    the product and the constant 0.35, so that next to the boundary the
    test of the program can go the other way ([Doubles]).  Here the
    outcome of the test is an input of the pass, and [within_rounding]
    says how far the doubles can take it from the exact comparison.
    Everything else is [MainBot]'s. *)
Module Rounded.
Import Pandas Config MainBot.

(** How the arithmetic of one pass decides [(current_price - entry_price)
    > profit_threshold] for a BUY trade and [(entry_price - current_price)
    > profit_threshold] for a SELL trade, given the trade and the price. *)
Record tests : Type := mkTests {
  buy_in_profit : trade -> Q -> bool;
  sell_in_profit : trade -> Q -> bool
}.

(** The tests on exact rationals, as [MainBot] has them. *)
Definition exactly : tests :=
  mkTests
    (fun t current_price =>
       Qltb ((take_profit_price t - entry_price t) * 0.35)
            (current_price - entry_price t))
    (fun t current_price =>
       Qltb ((entry_price t - take_profit_price t) * 0.5)
            (entry_price t - current_price)).

(** 2^-52, twice the largest relative error of one rounding to nearest. *)
Definition rounding_unit : Q := 1 # 4503599627370496.

(** What the four roundings on the way to the test (two differences, the
    product, the constant) can add up to, for a target at [distance] from
    the entry. *)
Definition slack (distance : Q) : Q := 4 * rounding_unit * Qabs distance.

(** A test passes only when the exact movement is above the exact
    threshold less the slack. *)
Definition within_rounding (a : tests) : Prop :=
  forall (t : trade) (current_price : Q),
    (buy_in_profit a t current_price = true ->
     (take_profit_price t - entry_price t) * 0.35
       - slack (take_profit_price t - entry_price t)
     < current_price - entry_price t)
    /\ (sell_in_profit a t current_price = true ->
        (entry_price t - take_profit_price t) * 0.5
          - slack (entry_price t - take_profit_price t)
        < entry_price t - current_price).

Definition manage_buy (a : tests) (w : world) (i r : nat) (t : trade)
  (current_price : Q) : M unit :=
  mx <- as_float (max_price t);;
  t <- (if Qltb mx current_price
        then write r (with_max_price t current_price);;
             ret (with_max_price t current_price)
        else ret t);;
  if buy_in_profit a t current_price then
    mx <- as_float (max_price t);;
    let trailing_stop_level := mx - (TRAILING_STOP_PIPS * 0.0001) in
    if Qltb current_price trailing_stop_level then
      emit (Email "Trailing Stop Alert");;
      emit (TrailingClose r current_price);;
      close_one w i r t current_price
    else ret tt
  else ret tt.

Definition manage_sell (a : tests) (w : world) (i r : nat) (t : trade)
  (current_price : Q) : M unit :=
  mn <- as_float (min_price t);;
  t <- (if Qltb current_price mn
        then write r (with_min_price t current_price);;
             ret (with_min_price t current_price)
        else ret t);;
  if sell_in_profit a t current_price then
    mn <- as_float (min_price t);;
    let trailing_stop_level := mn + (TRAILING_STOP_PIPS * 0.0001) in
    if Qltb trailing_stop_level current_price then
      emit (Email "Trailing Stop Alert");;
      emit (TrailingClose r current_price);;
      close_one w i r t current_price
    else ret tt
  else ret tt.

Definition manage_trade (a : tests) (w : world) (latest_prices : gmap string Q)
  (i r : nat) : M unit :=
  s <- get;;
  match heap s !! r with
  | None => ret tt
  | Some t =>
      let inst := instrument t in
      current_price <- price_for w latest_prices (InTrailingLoop i) inst;;
      match current_price with
      | None => ret tt
      | Some current_price =>
          if String.eqb (upper (side t)) "BUY"
          then manage_buy a w i r t current_price
          else if String.eqb (upper (side t)) "SELL"
          then manage_sell a w i r t current_price
          else ret tt
      end
  end.

Fixpoint manage_trades (a : tests) (w : world) (latest_prices : gmap string Q)
  (i : nat) (copy : list nat) : M unit :=
  match copy with
  | [] => ret tt
  | r :: rest =>
      manage_trade a w latest_prices i r;;
      manage_trades a w latest_prices (S i) rest
  end.

Definition position_management (a : tests) (w : world)
  (latest_prices : gmap string Q) : M unit :=
  s <- get;;
  manage_trades a w latest_prices 0 (open_trades s);;
  kill_switch w latest_prices.

Definition trading_pass (a : tests) (w : world) : M unit :=
  instrument_data <- fetch_all_instruments w INSTRUMENTS;;
  latest_prices <- process_instruments w ∅ instrument_data;;
  position_management a w latest_prices;;
  emit (Sleep 60).

Definition iteration (a : tests) (w : world) : M unit :=
  if (now_hour w <? 6)%Z || (18 <? now_hour w)%Z then emit (Sleep 300)
  else if (5 <=? now_weekday w)%Z then emit (Sleep 3600)
  else
    daily_reset w;;
    current_balance <- call (get_account_balance w AtDrawdownGate);;
    s <- get;;
    (match start_of_day_equity s with
     | None => set_equity current_balance
     | Some _ => ret tt
     end);;
    s <- get;;
    equity <- as_float (start_of_day_equity s);;
    if Qeq_bool equity 0 then raise ZeroDivisionError
    else
      let dd_pct := ((current_balance - equity) / equity) * 100 in
      if Qle_bool dd_pct (- DAILY_DRAWDOWN_LIMIT_PCT) then
        emit (Email "Daily Drawdown Alert");;
        emit (Sleep 60)
      else trading_pass a w.

Definition loop_body (a : tests) (w : world) : M unit :=
  catch (iteration a w)
        (fun e => emit (Fault e);; emit (Email "Trading Bot Error");;
                  emit (Sleep 60)).

(** The state after the passes of the loop that meet [ps], in order: each
    pass has its answers from outside and its tests. *)
Fixpoint run (ps : list (tests * world)) (s : state) : state :=
  match ps with
  | [] => s
  | (a, w) :: rest => run rest (snd (loop_body a w s))
  end.

End Rounded.

(* ===================================================================== *)
(** ** Activation up to rounding, in the words of the specification       *)
(* ===================================================================== *)

Module RoundedSpec.
Import Config MainBot MainBotSpec Rounded.




End RoundedSpec.

(* ===================================================================== *)
(** ** data_fetch.py with the exceptions it lets through                  *)
(* ===================================================================== *)

(** [datetime.datetime] as far as [fetch_data_for_period] uses it. *)
Module Datetime.

(** The reading of the value's own clock, in microseconds since
    0001-01-01T00:00:00, and the UTC offset of its [tzinfo] in
    microseconds, [None] for a naive value.  These are the values that
    [isoparse] yields; a [tzinfo] whose offset changes with the date is
    not represented. *)
Record datetime : Type := mkDatetime {
  wall : Z;
  utcoffset : option Z
}.

(** [datetime.max], 9999-12-31T23:59:59.999999. *)
Definition MAX : Z := 3652059 * 86400 * 1000000 - 1.

Inductive error : Type := OverflowError | TypeError.

(** [d + datetime.timedelta(microseconds=delta)]: the clock reading moves,
    the [tzinfo] stays; a result outside the years 1 to 9999 is an
    OverflowError. *)
Definition add (d : datetime) (delta : Z) : error + datetime :=
  let w := (wall d + delta)%Z in
  if (0 <=? w)%Z && (w <=? MAX)%Z then inr (mkDatetime w (utcoffset d))
  else inl OverflowError.

(** The instant on the UTC clock; for a naive value its own reading. *)
Definition instant (d : datetime) : Z := (wall d - default 0%Z (utcoffset d))%Z.

(** Two naive values or two aware values; an order comparison of a naive
    with an aware value is a TypeError. *)
Definition comparable (a b : datetime) : bool :=
  match utcoffset a, utcoffset b with
  | None, None => true
  | Some _, Some _ => true
  | _, _ => false
  end.

(** [a > b] *)
Definition gt (a b : datetime) : error + bool :=
  if comparable a b then inr (instant b <? instant a)%Z else inl TypeError.

(** [a >= b] *)
Definition ge (a b : datetime) : error + bool :=
  if comparable a b then inr (instant b <=? instant a)%Z else inl TypeError.

End Datetime.

(** [fetch_data_for_period] and [fetch_multiple_pairs] on [start] and
    [end] as lines 27-35 leave them, datetimes, with every exception that
    leaves the function: the OverflowError of lines 45 and 89, the
    TypeError of lines 47 and 85, and whatever [client.request] raises
    that is not a V20Error.  A response is taken to be well formed: its
    candles carry a time and mid prices that parse.  [DataFetch] is the
    same loop on instants that are in range and comparable, with a client
    that raises nothing but V20Error. *)
Module DataFetchExn.
Import Indicators Datetime.

Inductive exn : Type :=
| OfDatetime (e : Datetime.error)
| OfClient (name : string).

Record request : Type := mkRequest {
  req_instrument : string;
  (** [current_start.isoformat()] and [chunk_end.isoformat()] *)
  from : datetime;
  to : datetime;
  req_granularity : string
}.

(** What [client.request] does with a request: it raises V20Error, it
    raises another exception, or it fills in the response. *)
Inductive answer : Type :=
| V20Error
| Raises (name : string)
| Candles (candles : list DataFetch.candle).

Definition client : Type := request -> answer.

Inductive outcome (A : Type) : Type :=
| Returns (a : A)
| Propagates (e : exn).
Arguments Returns {A} a.
Arguments Propagates {A} e.

(** Lines 43-89, from the top of an iteration: how the loop is left, and
    the requests sent by then.  [None]: the loop needs more than [fuel]
    iterations. *)
Fixpoint fetch_loop (fuel : nat) (api : client) (instrument granularity : string)
  (end_dt current_start : datetime) (all_candles : list (list labelled))
  (sent : list request)
  : option (outcome (list (list labelled)) * list request) :=
  match fuel with
  | O => None
  | S fuel' =>
      match add current_start DataFetch.CHUNK with
      | inl e => Some (Propagates (OfDatetime e), sent)
      | inr chunk_end =>
          match gt chunk_end end_dt with
          | inl e => Some (Propagates (OfDatetime e), sent)
          | inr past =>
              let chunk_end := if past then end_dt else chunk_end in
              let req := mkRequest instrument current_start chunk_end granularity in
              let sent := sent ++ [req] in
              match api req with
              | V20Error => Some (Returns all_candles, sent)
              | Raises name => Some (Propagates (OfClient name), sent)
              | Candles [] => Some (Returns all_candles, sent)
              | Candles candles =>
                  let chunk_df := DataFetch.chunk_rows candles in
                  let all_candles :=
                    match chunk_df with
                    | [] => all_candles
                    | _ => all_candles ++ [chunk_df]
                    end in
                  match ge chunk_end end_dt with
                  | inl e => Some (Propagates (OfDatetime e), sent)
                  | inr true => Some (Returns all_candles, sent)
                  | inr false =>
                      match add chunk_end DataFetch.SECOND with
                      | inl e => Some (Propagates (OfDatetime e), sent)
                      | inr next =>
                          fetch_loop fuel' api instrument granularity end_dt
                            next all_candles sent
                      end
                  end
              end
          end
      end
  end.

(** The frame returned or the exception raised, with the requests that
    were sent. *)
Definition fetch_data_for_period (fuel : nat) (api : client) (instrument : string)
  (start_dt end_dt : datetime) (granularity : string)
  : option (outcome (list labelled) * list request) :=
  match fetch_loop fuel api instrument granularity end_dt start_dt [] [] with
  | None => None
  | Some (Returns chunks, sent) =>
      let final_df :=
        match chunks with
        | [] => []
        | _ => DataFetch.sort_index (DataFetch.drop_duplicated [] (concat chunks))
        end in
      Some (Returns final_df, sent)
  | Some (Propagates e, sent) => Some (Propagates e, sent)
  end.

(** Lines 118-124: one frame per instrument, in a dict; an exception of a
    download ends the call. *)
Fixpoint fetch_multiple_pairs_from (fuel : nat) (api : client)
  (instruments_list : list string) (start_dt end_dt : datetime)
  (granularity : string) (data_dict : gmap string (list labelled))
  : option (outcome (gmap string (list labelled))) :=
  match instruments_list with
  | [] => Some (Returns data_dict)
  | instr :: rest =>
      match fetch_data_for_period fuel api instr start_dt end_dt granularity with
      | None => None
      | Some (Returns df, _) =>
          fetch_multiple_pairs_from fuel api rest start_dt end_dt granularity
            (<[instr := df]> data_dict)
      | Some (Propagates e, _) => Some (Propagates e)
      end
  end.

Definition fetch_multiple_pairs (fuel : nat) (api : client)
  (instruments_list : list string) (start_dt end_dt : datetime)
  (granularity : string) : option (outcome (gmap string (list labelled))) :=
  fetch_multiple_pairs_from fuel api instruments_list start_dt end_dt
    granularity ∅.

End DataFetchExn.

(* ===================================================================== *)
(** ** When a download returns and when it raises                         *)
(* ===================================================================== *)

Module DataFetchExnSpec.
Import Indicators Datetime DataFetchExn.

(** Iterations that always suffice for the period from [start_dt] to
    [end_dt]. *)
Definition enough (start_dt end_dt : datetime) : nat :=
  DataFetchSpec.enough (instant start_dt) (instant end_dt).

(** No window of the download reaches beyond [datetime.max]: the first
    does not, and [end_dt], read on the clock of [start_dt], is 5000
    minutes and a second or more before it. *)
Definition in_range (start_dt end_dt : datetime) : Prop :=
  (0 <= wall start_dt)%Z
  /\ (wall start_dt + DataFetch.CHUNK <= MAX)%Z
  /\ (instant end_dt + default 0%Z (utcoffset start_dt)
      + DataFetch.CHUNK + DataFetch.SECOND <= MAX)%Z.

(** A client whose only exception is V20Error. *)
Definition raises_v20_only (api : client) : Prop :=
  forall req name, api req <> Raises name.

(** The frame of a download that returned. *)
Definition frame_of (r : option (outcome (list labelled) * list request))
  : option (list labelled) :=
  match r with
  | Some (Returns df, _) => Some df
  | _ => None
  end.

(** A request of [DataFetch]: the instants of the window. *)
Definition erase (req : request) : DataFetch.request :=
  DataFetch.mkRequest (req_instrument req) (instant (from req))
    (instant (to req)) (req_granularity req).

(** A client of [DataFetch], which answers by the instants of the window,
    as a client here. *)
Definition lift (api : DataFetch.client) : client :=
  fun req =>
    match api (erase req) with
    | DataFetch.V20Error => V20Error
    | DataFetch.Candles candles => Candles candles
    end.

(** A loop of [DataFetch] and a loop here end alike: the chunks are the
    same and the requests are for the same instants. *)
Definition alike (old : option DataFetch.fetched)
  (new : option (outcome (list (list labelled)) * list request)) : Prop :=
  match old, new with
  | Some acc, Some (Returns chunks, reqs) =>
      chunks = DataFetch.all_candles acc
      /\ map erase reqs = DataFetch.sent acc
  | None, None => True
  | _, _ => False
  end.

End DataFetchExnSpec.

(* ===================================================================== *)
(** ** Concrete inputs                                                    *)
(* ===================================================================== *)

Module Scenarios.
Import Pandas Indicators Config MainBot.

(** Three bars with the same high and low: no directional movement. *)
Definition flat_bars : list bar :=
  [mkBar 1.1000 1.1010 1.0990 1.1005;
   mkBar 1.1005 1.1010 1.0990 1.1000;
   mkBar 1.1000 1.1010 1.0990 1.1005].

Definition rising_closes : list bar :=
  map (fun c => mkBar c c c c) [1.1000; 1.1010; 1.1020; 1.1030].

Definition two_closes : list bar :=
  [mkBar 1.1000 1.1000 1.1000 1.1000; mkBar 1.1020 1.1020 1.1020 1.1020].

(** A Wednesday at 10 UTC, balance 10000, no usable data, a broker that
    accepts every order and closes every trade. *)
Definition quiet_world : world :=
  mkWorld 1 10 2
    (fun _ => Returned 10000)
    (fun _ => Returned (mkFrame 0 None "FLAT"))
    (fun _ _ => Returned "flat"%string)
    (fun _ _ _ _ => Returned 1000)
    (fun _ _ _ _ _ => Returned (Some "42"%string))
    (fun _ _ => Returned None)
    (fun _ _ => false).

(** [w], with the frame [f] for [inst] and the trend [t] on both higher
    timeframes. *)
Definition with_frame (w : world) (inst : string) (f : frame) (t : string)
  : world :=
  mkWorld (now_date w) (now_hour w) (now_weekday w) (get_account_balance w)
    (fun i => if String.eqb i inst then Returned f else fetch_ohlc_data w i)
    (fun i tf => if String.eqb i inst then Returned t
                 else get_higher_timeframe_trend w i tf)
    (calculate_dynamic_position_size w) (place_order w)
    (fetch_last_close w) (close_fails w).

Definition with_balance (w : world) (b : Q) : world :=
  mkWorld (now_date w) (now_hour w) (now_weekday w) (fun _ => Returned b)
    (fetch_ohlc_data w) (get_higher_timeframe_trend w)
    (calculate_dynamic_position_size w) (place_order w)
    (fetch_last_close w) (close_fails w).

Definition with_last_close (w : world) (p : Q) : world :=
  mkWorld (now_date w) (now_hour w) (now_weekday w) (get_account_balance w)
    (fetch_ohlc_data w) (get_higher_timeframe_trend w)
    (calculate_dynamic_position_size w) (place_order w)
    (fun _ _ => Returned (Some p)) (close_fails w).

(** 200 EUR_USD bars ending at close [p], ADX 30, ATR 0.0010. *)
Definition eur_frame (p : Q) (signal : string) : frame :=
  mkFrame 200 (Some (mkRow p 30 0.0010)) signal.

(** A confirmed BUY at 1.1000, then the price at 1.1020, 1.1040 and back
    at 1.1020. *)
Definition buy_world : world :=
  with_frame quiet_world "EUR_USD" (eur_frame 1.1000 "BUY") "up".
Definition up_world_1 : world :=
  with_frame quiet_world "EUR_USD" (eur_frame 1.1020 "FLAT") "up".
Definition up_world_2 : world :=
  with_frame quiet_world "EUR_USD" (eur_frame 1.1040 "FLAT") "up".
Definition back_world : world :=
  with_frame quiet_world "EUR_USD" (eur_frame 1.1020 "FLAT") "up".

(** BUY signal, M15 up, M5 down. *)
Definition split_trend_world : world :=
  mkWorld 1 10 2
    (fun _ => Returned 10000)
    (fun _ => Returned (eur_frame 1.1000 "BUY"))
    (fun _ tf => if String.eqb tf "M15" then Returned "up"%string
                 else Returned "down"%string)
    (fun _ _ _ _ => Returned 1000)
    (fun _ _ _ _ _ => Returned (Some "42"%string))
    (fun _ _ => Returned None)
    (fun _ _ => false).

(** One long EUR_USD position of 100 million units entered at 1.2000, on
    a day that started with an equity of 10000. *)
Definition long_trade : trade :=
  mkTrade "EUR_USD" "BUY" 1.2000 100000000 "42" (Some 1.2000) None 1.2030.

Definition holding : state :=
  mkState 1 0 (Some 10000) (Some 1%Z) [long_trade] [0%nat] [].

(** The balance is down to 9200 and EUR_USD trades at 1.1000. *)
Definition drawdown_world : world :=
  with_last_close (with_balance quiet_world 9200) 1.1000.

(** The same prices with the balance still at 10000. *)
Definition calm_world : world := with_last_close quiet_world 1.1000.

(** Three one-minute bars: a falling bar, a rising bar whose body engulfs
    the body of the first, and a bar with a small body on a long lower
    shadow. *)
Definition candle_frame : list labelled :=
  [(0%Z, mkBar 1.1010 1.1012 1.0998 1.1000);
   (60000000%Z, mkBar 1.0995 1.1022 1.0990 1.1020);
   (120000000%Z, mkBar 1.1020 1.1021 1.1000 1.1019)].

(** A server that answers every request with two complete candles, one
    at the start of the window and one a minute later, followed by a
    candle that is still forming. *)
Definition two_candle_api : DataFetch.client :=
  fun req =>
    DataFetch.Candles
      [DataFetch.mkCandle (DataFetch.from req)
         (mkBar 1.1000 1.1010 1.0990 1.1005) true;
       DataFetch.mkCandle (DataFetch.from req + 60000000)
         (mkBar 1.1005 1.1010 1.0990 1.1000) true;
       DataFetch.mkCandle (DataFetch.from req + 120000000)
         (mkBar 1.1000 1.1010 1.0990 1.1005) false].

(** The same server, failing on every request but the one that starts at
    instant 0. *)
Definition failing_api : DataFetch.client :=
  fun req =>
    if (DataFetch.from req =? 0)%Z then two_candle_api req
    else DataFetch.V20Error.

(** 10000 minutes, in microseconds. *)
Definition two_chunks : Z := 600000000000.

(** Thursday, the day after [quiet_world], at 10 UTC: the balance is 9000
    but the read of the day reset fails. *)
Definition reset_outage_world : world :=
  mkWorld 2 10 3
    (fun site => match site with
                 | AtDayReset => Failed "timeout"
                 | _ => Returned 9000
                 end)
    (fetch_ohlc_data quiet_world) (get_higher_timeframe_trend quiet_world)
    (calculate_dynamic_position_size quiet_world) (place_order quiet_world)
    (fun _ _ => Returned (Some 1.2000)) (close_fails quiet_world).

(** Later on that Thursday, every balance read answers 9000. *)
Definition thursday_world : world :=
  mkWorld 2 11 3 (fun _ => Returned 9000)
    (fetch_ohlc_data quiet_world) (get_higher_timeframe_trend quiet_world)
    (calculate_dynamic_position_size quiet_world) (place_order quiet_world)
    (fun _ _ => Returned (Some 1.2000)) (close_fails quiet_world).

(** [drawdown_world] at 3 UTC, and on a Saturday at 10 UTC. *)
Definition night_world : world :=
  mkWorld 1 3 2 (get_account_balance drawdown_world)
    (fetch_ohlc_data drawdown_world) (get_higher_timeframe_trend drawdown_world)
    (calculate_dynamic_position_size drawdown_world) (place_order drawdown_world)
    (fetch_last_close drawdown_world) (close_fails drawdown_world).

Definition saturday_world : world :=
  mkWorld 4 10 5 (get_account_balance drawdown_world)
    (fetch_ohlc_data drawdown_world) (get_higher_timeframe_trend drawdown_world)
    (calculate_dynamic_position_size drawdown_world) (place_order drawdown_world)
    (fetch_last_close drawdown_world) (close_fails drawdown_world).

(** [buy_world] with no answer for the GBP_USD frame. *)
Definition gbp_outage_world : world :=
  mkWorld (now_date buy_world) (now_hour buy_world) (now_weekday buy_world)
    (get_account_balance buy_world)
    (fun i => if String.eqb i "GBP_USD" then Failed "timeout"
              else fetch_ohlc_data buy_world i)
    (get_higher_timeframe_trend buy_world)
    (calculate_dynamic_position_size buy_world) (place_order buy_world)
    (fetch_last_close buy_world) (close_fails buy_world).

(** A day that started with an empty account. *)
Definition broke : state :=
  mkState 0 0 (Some 0) (Some 1%Z) [long_trade] [0%nat] [].



(** 2024-01-01T00:00:00, naive and in UTC, and the instant 10000 minutes
    later. *)
Definition new_year : Z := 738885 * 86400 * 1000000.
Definition naive_start : Datetime.datetime :=
  Datetime.mkDatetime new_year None.
Definition utc_start : Datetime.datetime :=
  Datetime.mkDatetime new_year (Some 0%Z).
Definition utc_end : Datetime.datetime :=
  Datetime.mkDatetime (new_year + two_chunks) (Some 0%Z).

(** 9999-12-30T00:00:00+00:00: less than 5000 minutes before
    [datetime.max]. *)
Definition late_start : Datetime.datetime :=
  Datetime.mkDatetime ((3652059 - 2) * 86400 * 1000000) (Some 0%Z).

(** A server that answers every request with one complete candle at the
    start of the window. *)
Definition one_candle_api : DataFetchExn.client :=
  fun req =>
    DataFetchExn.Candles
      [DataFetch.mkCandle (Datetime.instant (DataFetchExn.from req))
         (mkBar 1.1000 1.1010 1.0990 1.1005) true].

(** The same server, with a connection that breaks on every request for
    GBP_USD. *)
Definition broken_api : DataFetchExn.client :=
  fun req =>
    if String.eqb (DataFetchExn.req_instrument req) "GBP_USD"
    then DataFetchExn.Raises "ConnectionError"
    else one_candle_api req.

(** On doubles: a long position entered at 1.0 with its target at
    1.00537, which has been up at 1.005 and is back at 1.0018795. *)
Import Floats.
#[local] Set Warnings "-inexact-float".


End Scenarios.

(* ===================================================================== *)
(** ** Facts about the pandas operations                                  *)
(* ===================================================================== *)

Section PandasFacts.
Import Pandas.

Lemma Qltb_true (a b : Q) : Qltb a b = true <-> a < b.
Proof.
  unfold Qltb. rewrite negb_true_iff. split.
  - intros H. apply Qnot_le_lt. intros Hle.
    apply Qle_bool_iff in Hle. congruence.
  - intros H. destruct (Qle_bool b a) eqn:E; [|reflexivity].
    apply Qle_bool_iff in E. lra.
Qed.

Lemma Qltb_false (a b : Q) : Qltb a b = false <-> b <= a.
Proof.
  unfold Qltb. rewrite negb_false_iff. apply Qle_bool_iff.
Qed.

Lemma Qeq_bool_false (a b : Q) : ~ a == b -> Qeq_bool a b = false.
Proof.
  intros H. destruct (Qeq_bool a b) eqn:E; [|reflexivity].
  apply Qeq_bool_iff in E. contradiction.
Qed.

Lemma Qeq_bool_true (a b : Q) : a == b -> Qeq_bool a b = true.
Proof. apply Qeq_bool_iff. Qed.

Lemma of_nat_pos (n : nat) : (0 < n)%nat -> 0 < of_nat n.
Proof.
  intros H. unfold of_nat. change 0 with (inject_Z 0).
  rewrite <- Zlt_Qlt. lia.
Qed.

Lemma of_nat_nonzero (n : nat) : (0 < n)%nat -> Qeq_bool (of_nat n) 0 = false.
Proof.
  intros H. apply Qeq_bool_false. pose proof (of_nat_pos n H). lra.
Qed.

Lemma fold_left_Qplus (qs : list Q) (acc : Q) :
  fold_left Qplus qs acc == acc + fold_right Qplus 0 qs.
Proof.
  revert acc. induction qs as [|q qs IH]; intros acc; simpl.
  - lra.
  - rewrite IH. lra.
Qed.

Lemma fold_right_Qplus_nonneg (qs : list Q) :
  Forall (fun q => 0 <= q) qs -> 0 <= fold_right Qplus 0 qs.
Proof.
  induction 1; simpl; lra.
Qed.

Lemma fold_left_fadd_fin (qs : list Q) (acc : Q) :
  fold_left fadd (map Fin qs) (Fin acc) = Fin (fold_left Qplus qs acc).
Proof.
  revert acc. induction qs as [|q qs IH]; intros acc; simpl; [reflexivity|].
  apply IH.
Qed.

Lemma fsum_fin (qs : list Q) : fsum (map Fin qs) = Fin (fold_left Qplus qs 0).
Proof. apply fold_left_fadd_fin. Qed.

Lemma observations_fin (qs : list Q) : observations (map Fin qs) = map Fin qs.
Proof.
  unfold observations. induction qs as [|q qs IH]; [reflexivity|].
  simpl. f_equal. exact IH.
Qed.

Lemma observations_length (xs : series) :
  (length (observations xs) <= length xs)%nat.
Proof. unfold observations. apply List.filter_length_le. Qed.

Lemma map_as_fmap {A B} (f : A -> B) (l : list A) : map f l = f <$> l.
Proof. induction l as [|a l IH]; [reflexivity|]. simpl. rewrite IH. reflexivity. Qed.

Lemma lookup_map {A B} (f : A -> B) (l : list A) (i : nat) :
  map f l !! i = f <$> (l !! i).
Proof. rewrite map_as_fmap. apply list_lookup_fmap. Qed.

Lemma lookup_map2 f (xs ys : series) (i : nat) x y :
  xs !! i = Some x -> ys !! i = Some y -> map2 f xs ys !! i = Some (f x y).
Proof.
  intros Hx Hy. unfold map2. rewrite lookup_zip_with, Hx. simpl.
  rewrite Hy. reflexivity.
Qed.

Lemma length_map2 f (xs ys : series) :
  length xs = length ys -> length (map2 f xs ys) = length xs.
Proof. intros H. unfold map2. rewrite length_zip_with. lia. Qed.

Lemma length_shift1 (xs : series) : length (shift1 xs) = length xs.
Proof.
  destruct xs as [|x xs]; [reflexivity|].
  change (length (shift1 (x :: xs))) with (S (length (removelast (x :: xs)))).
  rewrite (removelast_firstn_len (x :: xs)), length_take. simpl. lia.
Qed.

Lemma lookup_removelast {A} (l : list A) (i : nat) :
  (S i < length l)%nat -> removelast l !! i = l !! i.
Proof.
  intros H. rewrite removelast_firstn_len. apply lookup_take_lt. lia.
Qed.

Lemma lookup_shift1_0 (xs : series) :
  (0 < length xs)%nat -> shift1 xs !! 0%nat = Some NaN.
Proof. destruct xs; simpl; [lia|reflexivity]. Qed.

Lemma lookup_shift1_S (xs : series) (i : nat) :
  (S i < length xs)%nat -> shift1 xs !! (S i) = xs !! i.
Proof.
  intros H. destruct xs as [|x xs]; [simpl in H; lia|].
  unfold shift1. change ((NaN :: removelast (x :: xs)) !! S i)
    with (removelast (x :: xs) !! i).
  apply lookup_removelast. exact H.
Qed.

Lemma length_diff (xs : series) : length (diff xs) = length xs.
Proof. unfold diff. apply length_map2. symmetry. apply length_shift1. Qed.

Lemma lookup_diff_0 (xs : series) x :
  xs !! 0%nat = Some x -> diff xs !! 0%nat = Some NaN.
Proof.
  intros H. unfold diff.
  rewrite (lookup_map2 _ _ _ _ x NaN H).
  - destruct x; reflexivity.
  - apply lookup_shift1_0. apply lookup_lt_Some in H. exact H.
Qed.

Lemma lookup_diff_S (xs : series) (i : nat) x y :
  xs !! i = Some y -> xs !! (S i) = Some x ->
  diff xs !! (S i) = Some (fsub x y).
Proof.
  intros Hy Hx. unfold diff. apply lookup_map2; [exact Hx|].
  rewrite lookup_shift1_S; [exact Hy|]. apply lookup_lt_Some in Hx. exact Hx.
Qed.

(** The rows of a trailing window, once the frame has enough history. *)
Lemma window_lookup (w i : nat) (xs : series) (k : nat) :
  (w <= S i)%nat -> (k < w)%nat ->
  window w i xs !! k = xs !! (S i - w + k)%nat.
Proof.
  intros Hw Hk. unfold window.
  rewrite lookup_drop, lookup_take_lt by lia. reflexivity.
Qed.

Lemma window_length (w i : nat) (xs : series) :
  (i < length xs)%nat -> length (window w i xs) = Nat.min w (S i).
Proof.
  intros H. unfold window. rewrite length_drop, length_take. lia.
Qed.

Lemma rolling_mean_length (w : nat) (xs : series) :
  length (rolling_mean w xs) = length xs.
Proof. unfold rolling_mean. rewrite length_map, length_seq. reflexivity. Qed.

Lemma rolling_mean_lookup (w : nat) (xs : series) (i : nat) :
  (i < length xs)%nat ->
  rolling_mean w xs !! i =
  Some (let obs := observations (window w i xs) in
        if (length obs <? w)%nat then NaN
        else fdiv (fsum obs) (Fin (of_nat (length obs)))).
Proof.
  intros H. unfold rolling_mean. rewrite lookup_map.
  rewrite (lookup_seq_lt 0 (length xs) i H). reflexivity.
Qed.

(** A column that starts with NaN has no full window before row [w]. *)
Lemma rolling_mean_warmup (w : nat) (xs : series) (i : nat) :
  (i < length xs)%nat -> xs !! 0%nat = Some NaN -> (i < w)%nat ->
  rolling_mean w xs !! i = Some NaN.
Proof.
  intros Hi H0 Hw. rewrite rolling_mean_lookup by exact Hi. cbv zeta.
  assert (Hlen : (length (observations (window w i xs)) < w)%nat).
  { unfold window. replace (S i - w)%nat with 0%nat by lia.
    rewrite drop_0. destruct xs as [|x xs]; [simpl in Hi; lia|].
    simpl in H0. injection H0 as ->. rewrite firstn_cons.
    unfold observations. simpl.
    pose proof (List.filter_length_le (fun x => negb (isnan x)) (take i xs)) as Hf.
    rewrite length_take in Hf. lia. }
  apply Nat.ltb_lt in Hlen. rewrite Hlen. reflexivity.
Qed.

(** A full window of finite rows: the mean is the plain average. *)
Lemma rolling_mean_full (w : nat) (xs : series) (i : nat) (f : nat -> Q) :
  (0 < w)%nat -> (w <= S i)%nat -> (i < length xs)%nat ->
  (forall j, (S i - w <= j)%nat -> (j <= i)%nat -> xs !! j = Some (Fin (f j))) ->
  rolling_mean w xs !! i =
  Some (Fin (fold_left Qplus (map f (seq (S i - w) w)) 0 / of_nat w)).
Proof.
  intros Hw Hwi Hi Hfin. rewrite rolling_mean_lookup by exact Hi. cbv zeta.
  assert (Hwin : window w i xs = map Fin (map f (seq (S i - w) w))).
  { apply list_eq. intros k. destruct (decide (k < w)%nat) as [Hk|Hk].
    - rewrite window_lookup by lia. rewrite Hfin by lia.
      rewrite !lookup_map, (lookup_seq_lt _ _ _ Hk). reflexivity.
    - rewrite !lookup_ge_None_2; [reflexivity| |].
      + rewrite !length_map, length_seq. lia.
      + rewrite window_length by exact Hi. lia. }
  rewrite Hwin, observations_fin, !length_map, length_seq.
  rewrite Nat.ltb_irrefl, fsum_fin. unfold fdiv.
  rewrite of_nat_nonzero by exact Hw. reflexivity.
Qed.

End PandasFacts.
(* ===================================================================== *)
(** ** compute_rsi                                                        *)
(* ===================================================================== *)

Section RsiFacts.
Import Pandas Indicators IndicatorSpec.

Lemma col_length f (data : list bar) : length (col f data) = length data.
Proof. unfold col. apply length_map. Qed.

Lemma col_lookup f (data : list bar) (j : nat) :
  (j < length data)%nat -> col f data !! j = Some (Fin (f (nth j data bar0))).
Proof.
  intros H. unfold col. rewrite lookup_map.
  destruct (lookup_lt_is_Some_2 data j H) as [b Hb].
  rewrite Hb. simpl. rewrite (nth_lookup_Some _ _ bar0 _ Hb). reflexivity.
Qed.

Lemma Qmax_0_r (d : Q) : Qmax d 0 = if Qltb d 0 then 0 else d.
Proof.
  unfold Qmax, GenericMinMax.gmax.
  destruct (d ?= 0) eqn:C; destruct (Qltb d 0) eqn:E; try reflexivity; exfalso.
  - apply Qltb_true in E. apply (proj2 (Qeq_alt d 0)) in C. lra.
  - apply Qltb_false in E. apply (proj2 (Qlt_alt d 0)) in C. lra.
  - apply Qltb_true in E. apply (proj2 (Qgt_alt d 0)) in C. lra.
Qed.

Lemma delta_lookup_0 (data : list bar) :
  (0 < length data)%nat -> diff (col close data) !! 0%nat = Some NaN.
Proof.
  intros H. eapply lookup_diff_0. apply col_lookup. exact H.
Qed.

Lemma delta_lookup (data : list bar) (j : nat) :
  (0 < j)%nat -> (j < length data)%nat ->
  diff (col close data) !! j = Some (Fin (delta_at data j)).
Proof.
  intros H0 H. destruct j as [|j]; [lia|].
  rewrite (lookup_diff_S _ j (Fin (close_at data (S j))) (Fin (close_at data j))).
  - unfold delta_at. replace (S j - 1)%nat with j by lia. reflexivity.
  - apply col_lookup. lia.
  - apply col_lookup. exact H.
Qed.

Lemma gain_lookup (data : list bar) (j : nat) :
  (0 < j)%nat -> (j < length data)%nat ->
  map clip_lower0 (diff (col close data)) !! j = Some (Fin (gain_at data j)).
Proof.
  intros H0 H. rewrite lookup_map, delta_lookup by assumption. simpl.
  unfold gain_at. rewrite Qmax_0_r.
  destruct (Qltb (delta_at data j) 0); reflexivity.
Qed.

Lemma loss_lookup (data : list bar) (j : nat) :
  (0 < j)%nat -> (j < length data)%nat ->
  map (fun d => fneg (clip_upper0 d)) (diff (col close data)) !! j
  = Some (Fin (loss_at data j)).
Proof.
  intros H0 H. rewrite lookup_map, delta_lookup by assumption. simpl.
  unfold loss_at. rewrite Qmax_0_r.
  destruct (Qltb 0 (delta_at data j)) eqn:E1;
    destruct (Qltb (- delta_at data j) 0) eqn:E2; try reflexivity.
  - apply Qltb_true in E1. apply Qltb_false in E2. lra.
  - apply Qltb_false in E1. apply Qltb_true in E2. lra.
Qed.

Lemma gain_nonneg (data : list bar) (j : nat) : 0 <= gain_at data j.
Proof. unfold gain_at. apply Q.le_max_r. Qed.

Lemma loss_nonneg (data : list bar) (j : nat) : 0 <= loss_at data j.
Proof. unfold loss_at. apply Q.le_max_r. Qed.

Lemma sum_range_nonneg (f : nat -> Q) (lo n : nat) :
  (forall j, 0 <= f j) -> 0 <= sum_range f lo n.
Proof.
  intros H. unfold sum_range. apply fold_right_Qplus_nonneg.
  apply List.Forall_forall. intros q Hq. apply in_map_iff in Hq.
  destruct Hq as [j [<- _]]. apply H.
Qed.

Lemma avg_nonneg (f : nat -> Q) (lo n : nat) :
  (0 < n)%nat -> (forall j, 0 <= f j) -> 0 <= sum_range f lo n / of_nat n.
Proof.
  intros Hn H. apply Qle_shift_div_l; [apply of_nat_pos; exact Hn|].
  rewrite Qmult_0_l. apply sum_range_nonneg. exact H.
Qed.

(** The columns that feed the RSI formula, on a full window. *)
Lemma avg_gain_lookup (data : list bar) (period i : nat) :
  (0 < period)%nat -> (period <= i)%nat -> (i < length data)%nat ->
  exists g, rolling_mean period (map clip_lower0 (diff (col close data))) !! i
            = Some (Fin g)
            /\ g == avg_gain_at data period i.
Proof.
  intros Hp Hpi Hi. eexists. split.
  - apply (rolling_mean_full period _ i (gain_at data)); try lia.
    + rewrite length_map, length_diff, col_length. exact Hi.
    + intros j Hj1 Hj2. apply gain_lookup; lia.
  - unfold avg_gain_at, sum_range. rewrite fold_left_Qplus. 
    apply Qdiv_comp; [lra|reflexivity].
Qed.

Lemma avg_loss_lookup (data : list bar) (period i : nat) :
  (0 < period)%nat -> (period <= i)%nat -> (i < length data)%nat ->
  exists l, rolling_mean period
              (map (fun d => fneg (clip_upper0 d)) (diff (col close data))) !! i
            = Some (Fin l)
            /\ l == avg_loss_at data period i.
Proof.
  intros Hp Hpi Hi. eexists. split.
  - apply (rolling_mean_full period _ i (loss_at data)); try lia.
    + rewrite length_map, length_diff, col_length. exact Hi.
    + intros j Hj1 Hj2. apply loss_lookup; lia.
  - unfold avg_loss_at, sum_range. rewrite fold_left_Qplus.
    apply Qdiv_comp; [lra|reflexivity].
Qed.

Lemma epsilon_pos : 0 < epsilon.
Proof. reflexivity. Qed.

(** The RSI formula on a non-negative gain and a positive loss. *)
Lemma rsi_formula_bounds (g l : Q) :
  0 <= g -> 0 < l -> 0 <= 100 - 100 / (1 + g / l) <= 100.
Proof.
  intros Hg Hl.
  assert (Hrs : 0 <= g / l).
  { apply Qle_shift_div_l; [exact Hl|]. lra. }
  assert (Hpos : 0 < 1 + g / l) by lra.
  assert (H1 : 100 / (1 + g / l) <= 100).
  { apply Qle_shift_div_r; [exact Hpos|]. nra. }
  assert (H2 : 0 <= 100 / (1 + g / l)).
  { apply Qle_shift_div_l; [exact Hpos|]. lra. }
  lra.
Qed.

Lemma rsi_at_bounds (data : list bar) (period i : nat) :
  (0 < period)%nat -> 0 <= rsi_at data period i <= 100.
Proof.
  intros Hp. unfold rsi_at. apply rsi_formula_bounds.
  - apply avg_nonneg; [exact Hp|]. apply gain_nonneg.
  - pose proof (avg_nonneg (loss_at data) (S i - period) period Hp
                  (loss_nonneg data)) as Hl.
    fold (avg_loss_at data period i) in Hl.
    destruct (Qeq_bool (avg_loss_at data period i) 0) eqn:E.
    + apply epsilon_pos.
    + apply Qeq_bool_neq in E. 
      destruct (Qlt_le_dec 0 (avg_loss_at data period i)) as [H|H]; [exact H|].
      exfalso. apply E. lra.
Qed.

Lemma rsi_of_fin (g l G L : Q) :
  g == G -> l == L -> 0 <= G -> 0 <= L ->
  exists v, rsi_of (Fin g) (Fin l) = Fin v
            /\ v == 100 - 100 / (1 + G / (if Qeq_bool L 0 then epsilon else L)).
Proof.
  intros Hg Hl HG HL. unfold rsi_of, replace0.
  assert (Hb : Qeq_bool l 0 = Qeq_bool L 0).
  { destruct (Qeq_bool L 0) eqn:E.
    - apply Qeq_bool_true. apply Qeq_bool_iff in E. lra.
    - apply Qeq_bool_false. apply Qeq_bool_neq in E. lra. }
  rewrite Hb.
  set (L' := if Qeq_bool L 0 then epsilon else L).
  set (l' := if Qeq_bool L 0 then epsilon else l).
  assert (Hl' : l' == L') by (unfold l', L'; destruct (Qeq_bool L 0); lra).
  assert (HL' : 0 < L').
  { unfold L'. destruct (Qeq_bool L 0) eqn:E; [apply epsilon_pos|].
    apply Qeq_bool_neq in E.
    destruct (Qlt_le_dec 0 L) as [H|H]; [exact H|]. exfalso. apply E. lra. }
  replace (if Qeq_bool L 0 then Fin epsilon else Fin l) with (Fin l')
    by (unfold l'; destruct (Qeq_bool L 0); reflexivity).
  assert (Hrs : g / l' == G / L') by (apply Qdiv_comp; assumption).
  assert (Hrs0 : 0 <= G / L').
  { apply Qle_shift_div_l; [exact HL'|]. lra. }
  unfold fdiv at 2. rewrite (Qeq_bool_false l' 0) by lra.
  unfold fadd, fdiv. rewrite (Qeq_bool_false (1 + g / l') 0) by lra.
  unfold fsub, fneg, fadd. eexists. split; [reflexivity|].
  unfold Qminus. apply Qplus_comp; [reflexivity|]. apply Qopp_comp.
  apply Qdiv_comp; [reflexivity|]. rewrite Hrs. reflexivity.
Qed.

Lemma compute_rsi_length (data : list bar) (period : nat) :
  length (compute_rsi data period) = length data.
Proof.
  unfold compute_rsi. rewrite length_map2; rewrite !rolling_mean_length;
    rewrite !length_map, !length_diff, !col_length; reflexivity.
Qed.

Lemma compute_rsi_warmup (data : list bar) (period i : nat) :
  (i < period)%nat -> (i < length data)%nat ->
  compute_rsi data period !! i = Some NaN.
Proof.
  intros Hp Hi. unfold compute_rsi.
  assert (Hd : (0 < length data)%nat) by lia.
  rewrite (lookup_map2 _ _ _ i NaN NaN); [reflexivity| |].
  - apply rolling_mean_warmup; try exact Hp.
    + rewrite length_map, length_diff, col_length. exact Hi.
    + rewrite lookup_map, delta_lookup_0 by exact Hd. reflexivity.
  - apply rolling_mean_warmup; try exact Hp.
    + rewrite length_map, length_diff, col_length. exact Hi.
    + rewrite lookup_map, delta_lookup_0 by exact Hd. reflexivity.
Qed.

Lemma compute_rsi_defined (data : list bar) (period i : nat) :
  (0 < period)%nat -> (period <= i)%nat -> (i < length data)%nat ->
  exists v, compute_rsi data period !! i = Some (Fin v)
            /\ v == rsi_at data period i.
Proof.
  intros Hp Hpi Hi.
  destruct (avg_gain_lookup data period i Hp Hpi Hi) as [g [Hg Hge]].
  destruct (avg_loss_lookup data period i Hp Hpi Hi) as [l [Hl Hle]].
  destruct (rsi_of_fin g l _ _ Hge Hle) as [v [Hv Hve]].
  - apply avg_nonneg; [exact Hp|apply gain_nonneg].
  - apply avg_nonneg; [exact Hp|apply loss_nonneg].
  - exists v. split; [|exact Hve].
    unfold compute_rsi. rewrite (lookup_map2 _ _ _ _ _ _ Hg Hl), Hv.
    reflexivity.
Qed.

End RsiFacts.

(* ===================================================================== *)
(** ** compute_adx                                                        *)
(* ===================================================================== *)

Section AdxFacts.
Import Pandas Indicators IndicatorSpec.

Lemma diff_col_cells f (data : list bar) :
  Forall fin_or_nan (diff (col f data)).
Proof.
  apply Forall_lookup. intros j x Hx.
  assert (Hj : (j < length data)%nat).
  { apply lookup_lt_Some in Hx. rewrite length_diff, col_length in Hx. exact Hx. }
  destruct j as [|j].
  - rewrite (lookup_diff_0 _ _ (col_lookup f data 0 Hj)) in Hx.
    left. congruence.
  - rewrite (lookup_diff_S _ j _ _ (col_lookup f data j ltac:(lia))
               (col_lookup f data (S j) Hj)) in Hx.
    right. injection Hx as <-. eexists. reflexivity.
Qed.

Lemma directional_fin_nonneg (a b : fnum) :
  fin_or_nan a -> fin_nonneg (directional a b).
Proof.
  intros [->|[q ->]]; unfold directional.
  - simpl. exists 0. split; [reflexivity|lra].
  - destruct (fgt (Fin q) b && fgt (Fin q) (Fin 0)) eqn:E.
    + apply andb_true_iff in E. destruct E as [_ E]. simpl in E.
      apply Qltb_true in E. exists q. split; [reflexivity|lra].
    + exists 0. split; [reflexivity|lra].
Qed.

Lemma directional_cells (xs ys : series) :
  Forall fin_or_nan xs -> Forall fin_nonneg (map2 directional xs ys).
Proof.
  intros H. apply Forall_lookup. intros j z Hz. unfold map2 in Hz.
  apply lookup_zip_with_Some in Hz. destruct Hz as [x [y [-> [Hx _]]]].
  apply directional_fin_nonneg.
  exact (proj1 (Forall_lookup _ _) H j x Hx).
Qed.

(** Wilder smoothing of a column of non-negative numbers stays a column
    of non-negative numbers. *)
Lemma ewm_from_nonneg (alpha : Q) (xs : series) (q : Q) :
  0 < alpha <= 1 -> 0 <= q -> Forall fin_nonneg xs ->
  Forall fin_nonneg (ewm_from alpha (Fin q, 1) xs).
Proof.
  intros Ha. revert q. induction xs as [|x xs IH]; intros q Hq Hxs.
  - constructor.
  - inversion Hxs as [|x' xs' [c [-> Hc]] Hrest]; subst.
    simpl ewm_from. unfold ewm_step, feqb, fmul, fadd, fdiv. simpl isnan.
    cbv iota. rewrite (Qeq_bool_false (1 * (1 - alpha) + alpha) 0) by lra.
    destruct (Qeq_bool q c) eqn:E; simpl fst.
    + constructor.
      * exists q. split; [reflexivity|exact Hq].
      * apply IH; assumption.
    + assert (Hn : 0 <= (1 * (1 - alpha) * q + alpha * c)
                        / (1 * (1 - alpha) + alpha)).
      { apply Qle_shift_div_l; [lra|]. nra. }
      constructor.
      * eexists. split; [reflexivity|exact Hn].
      * apply IH; assumption.
Qed.

Lemma ewm_mean_nonneg (alpha : Q) (xs : series) :
  0 < alpha <= 1 -> Forall fin_nonneg xs -> Forall fin_nonneg (ewm_mean alpha xs).
Proof.
  intros Ha Hxs. destruct xs as [|x xs]; [constructor|].
  inversion Hxs as [|x' xs' [c [-> Hc]] Hrest]; subst.
  simpl. constructor.
  - exists c. split; [reflexivity|exact Hc].
  - apply ewm_from_nonneg; assumption.
Qed.

Lemma alpha_range (period : nat) : (1 <= period)%nat -> 0 < 1 / of_nat period <= 1.
Proof.
  intros H. pose proof (of_nat_pos period H) as Hp.
  assert (H1 : 1 <= of_nat period).
  { unfold of_nat. change 1 with (inject_Z 1). rewrite <- Zle_Qle. lia. }
  split.
  - apply Qlt_shift_div_l; [exact Hp|]. lra.
  - apply Qle_shift_div_r; [exact Hp|]. lra.
Qed.

(** The quotient of the DX formula when both directional indicators come
    from non-negative smoothed movements over the same smoothed range. *)
Lemma dx_of_zero_sum (a b t : fnum) (s : Q) :
  fin_nonneg a -> fin_nonneg b ->
  fadd (scale100 (fdiv a t)) (scale100 (fdiv b t)) = Fin s -> s == 0 ->
  dx_of (scale100 (fdiv a t)) (scale100 (fdiv b t)) = NaN.
Proof.
  intros [qa [-> Ha]] [qb [-> Hb]] Hsum Hs.
  destruct t as [qt| |sg].
  - unfold fdiv in *. destruct (Qeq_bool qt 0) eqn:Et.
    + exfalso. unfold scale100 in Hsum.
      destruct (Qeq_bool qa 0), (Qeq_bool qb 0); simpl in Hsum;
        try discriminate; destruct (eqb _ _) in Hsum; discriminate.
    + apply Qeq_bool_neq in Et. unfold scale100, fmul, fadd in Hsum.
      injection Hsum as Hsum.
      assert (Hz : qa / qt == 0 /\ qb / qt == 0).
      { assert (Hq : 100 * (qa / qt) + 100 * (qb / qt) == 0)
          by (rewrite Hsum; exact Hs).
        unfold Qdiv in *.
        destruct (Qlt_le_dec 0 qt) as [Hpos|Hneg].
        - pose proof (Qinv_lt_0_compat qt Hpos) as Hi.
          assert (0 <= qa * / qt) by nra. assert (0 <= qb * / qt) by nra.
          split; lra.
        - assert (Hlt : qt < 0).
          { destruct (Qlt_le_dec qt 0) as [H|H]; [exact H|].
            exfalso. apply Et. lra. }
          assert (Hi : / qt < 0).
          { assert (Hm : 0 < / (- qt)) by (apply Qinv_lt_0_compat; lra).
            assert (He : / (- qt) == - / qt).
            { field. exact Et. }
            lra. }
          assert (qa * / qt <= 0) by nra. assert (qb * / qt <= 0) by nra.
          split; lra. }
      destruct Hz as [Hza Hzb].
      unfold dx_of, scale100, fmul, fsub, fneg, fadd, fabs, fdiv.
      rewrite (Qeq_bool_true (100 * (qa / qt) + 100 * (qb / qt)) 0)
        by (rewrite Hza, Hzb; reflexivity).
      rewrite (Qeq_bool_true (Qabs _) 0); [reflexivity|].
      rewrite Hza, Hzb. reflexivity.
  - simpl in Hsum. discriminate.
  - reflexivity.
Qed.

(** Rows of the frame built by [adx_columns]. *)
Lemma adx_di_rows (data : list bar) (period i : nat) (p m : fnum) :
  (1 <= period)%nat ->
  plus_DI (adx_columns data period) !! i = Some p ->
  minus_DI (adx_columns data period) !! i = Some m ->
  exists a b t, fin_nonneg a /\ fin_nonneg b
                /\ p = scale100 (fdiv a t) /\ m = scale100 (fdiv b t).
Proof.
  intros Hp Hpi Hmi. unfold adx_columns in *. cbv zeta in *.
  simpl plus_DI in Hpi. simpl minus_DI in Hmi.
  rewrite lookup_map in Hpi. rewrite lookup_map in Hmi.
  apply fmap_Some in Hpi. destruct Hpi as [y [Hy ->]].
  apply fmap_Some in Hmi. destruct Hmi as [z [Hz ->]].
  unfold map2 at 1 in Hy. unfold map2 at 1 in Hz.
  apply lookup_zip_with_Some in Hy. destruct Hy as [a [t [-> [Ha Ht]]]].
  apply lookup_zip_with_Some in Hz. destruct Hz as [b [t' [-> [Hb Ht']]]].
  rewrite Ht in Ht'. injection Ht' as <-.
  exists a, b, t. repeat split.
  - refine (proj1 (Forall_lookup _ _) _ i a Ha).
    apply ewm_mean_nonneg; [apply alpha_range; exact Hp|].
    apply directional_cells, diff_col_cells.
  - refine (proj1 (Forall_lookup _ _) _ i b Hb).
    apply ewm_mean_nonneg; [apply alpha_range; exact Hp|].
    apply directional_cells, diff_col_cells.
Qed.

Lemma adx_dx_row (data : list bar) (period i : nat) (p m : fnum) :
  plus_DI (adx_columns data period) !! i = Some p ->
  minus_DI (adx_columns data period) !! i = Some m ->
  DX (adx_columns data period) !! i = Some (dx_of p m).
Proof.
  intros Hp Hm. unfold adx_columns in *. cbv zeta in *. simpl DX.
  simpl plus_DI in Hp. simpl minus_DI in Hm.
  apply lookup_map2; assumption.
Qed.

End AdxFacts.

(* ===================================================================== *)
(** ** compute_bollinger_bands                                            *)
(* ===================================================================== *)

Section BollingerFacts.
Import Pandas Indicators IndicatorSpec.

Lemma fold_right_Qplus_ext (f g : nat -> Q) (l : list nat) :
  (forall j, f j == g j) ->
  fold_right Qplus 0 (map f l) == fold_right Qplus 0 (map g l).
Proof.
  intros H. induction l as [|a l IH]; simpl; [reflexivity|].
  rewrite IH, (H a). reflexivity.
Qed.

Lemma rolling_var_length (ddof w : nat) (xs : series) :
  length (rolling_var ddof w xs) = length xs.
Proof. unfold rolling_var. rewrite length_map, length_seq. reflexivity. Qed.

Lemma full_window_fin (w i : nat) (xs : series) (f : nat -> Q) :
  (w <= S i)%nat -> (i < length xs)%nat ->
  (forall j, (S i - w <= j)%nat -> (j <= i)%nat -> xs !! j = Some (Fin (f j))) ->
  window w i xs = map Fin (map f (seq (S i - w) w)).
Proof.
  intros Hwi Hi Hfin.
  apply list_eq. intros k. destruct (decide (k < w)%nat) as [Hk|Hk].
  - rewrite window_lookup by lia. rewrite Hfin by lia.
    rewrite !lookup_map, (lookup_seq_lt _ _ _ Hk). reflexivity.
  - rewrite !lookup_ge_None_2; [reflexivity| |].
    + rewrite !length_map, length_seq. lia.
    + rewrite window_length by exact Hi. lia.
Qed.

Lemma sq_dev_cells (qs : list Q) (m : Q) :
  map (fun x => fmul (fsub x (Fin m)) (fsub x (Fin m))) (map Fin qs)
  = map Fin (map (fun q => (q + - m) * (q + - m)) qs).
Proof.
  induction qs as [|q qs IH]; [reflexivity|]. simpl. rewrite IH. reflexivity.
Qed.

Lemma fdiv_of_nat (q : Q) (n : nat) :
  (0 < n)%nat -> fdiv (Fin q) (Fin (of_nat n)) = Fin (q / of_nat n).
Proof. intros H. unfold fdiv. rewrite of_nat_nonzero by exact H. reflexivity. Qed.

Lemma rolling_var_lookup (ddof w : nat) (xs : series) (i : nat) :
  (i < length xs)%nat ->
  rolling_var ddof w xs !! i =
  Some (let obs := observations (window w i xs) in
        if (length obs <? w)%nat then NaN
        else
          let m := fdiv (fsum obs) (Fin (of_nat (length obs))) in
          let ss := fsum (map (fun x => fmul (fsub x m) (fsub x m)) obs) in
          if (length obs <=? ddof)%nat then NaN
          else fdiv ss (Fin (of_nat (length obs - ddof)))).
Proof.
  intros H. unfold rolling_var. rewrite lookup_map.
  rewrite (lookup_seq_lt 0 (length xs) i H). reflexivity.
Qed.

(** A full window of finite rows: the variance with [ddof] degrees of
    freedom removed. *)
Lemma rolling_var_full (ddof w : nat) (xs : series) (i : nat) (f : nat -> Q) :
  (ddof < w)%nat -> (w <= S i)%nat -> (i < length xs)%nat ->
  (forall j, (S i - w <= j)%nat -> (j <= i)%nat -> xs !! j = Some (Fin (f j))) ->
  rolling_var ddof w xs !! i =
  Some (Fin (let m := fold_left Qplus (map f (seq (S i - w) w)) 0 / of_nat w in
             fold_left Qplus
               (map (fun q => (q + - m) * (q + - m)) (map f (seq (S i - w) w))) 0
             / of_nat (w - ddof))).
Proof.
  intros Hw Hwi Hi Hfin. rewrite rolling_var_lookup by exact Hi. cbv zeta.
  rewrite (full_window_fin w i xs f Hwi Hi Hfin).
  rewrite observations_fin, !length_map, length_seq.
  rewrite Nat.ltb_irrefl, fsum_fin.
  replace (w <=? ddof)%nat with false by (symmetry; apply Nat.leb_gt; exact Hw).
  rewrite (fdiv_of_nat _ w) by lia.
  rewrite sq_dev_cells, fsum_fin.
  rewrite fdiv_of_nat by lia. reflexivity.
Qed.

Lemma rolling_var_too_short (ddof w : nat) (xs : series) (i : nat) :
  (w <= ddof)%nat -> (i < length xs)%nat -> rolling_var ddof w xs !! i = Some NaN.
Proof.
  intros Hw Hi. rewrite rolling_var_lookup by exact Hi. cbv zeta.
  destruct (length (observations (window w i xs)) <? w)%nat eqn:E;
    [reflexivity|].
  apply Nat.ltb_ge in E.
  pose proof (observations_length (window w i xs)) as Ho.
  rewrite window_length in Ho by exact Hi.
  replace (length (observations (window w i xs)) <=? ddof)%nat with true;
    [reflexivity|]. symmetry. apply Nat.leb_le. lia.
Qed.

Lemma mid_row (data : list bar) (period i : nat) :
  (1 <= period)%nat -> (period <= S i)%nat -> (i < length data)%nat ->
  exists m, rolling_mean period (col close data) !! i = Some (Fin m)
            /\ m == sma_at data period i.
Proof.
  intros Hp Hpi Hi. eexists. split.
  - apply (rolling_mean_full period _ i (close_at data)); try lia.
    + rewrite col_length. exact Hi.
    + intros j _ Hj. apply col_lookup. lia.
  - unfold sma_at, sum_range. rewrite fold_left_Qplus.
    apply Qdiv_comp; [lra|reflexivity].
Qed.

Lemma var_row (data : list bar) (period i : nat) :
  (2 <= period)%nat -> (period <= S i)%nat -> (i < length data)%nat ->
  exists v, rolling_var 1 period (col close data) !! i = Some (Fin v)
            /\ v == sample_var_at data period i.
Proof.
  intros Hp Hpi Hi. eexists. split.
  - apply (rolling_var_full 1 period _ i (close_at data)); try lia.
    + rewrite col_length. exact Hi.
    + intros j _ Hj. apply col_lookup. lia.
  - cbv zeta. unfold sample_var_at, sq_dev_at, sum_range.
    apply Qdiv_comp; [|reflexivity].
    rewrite fold_left_Qplus, map_map, Qplus_0_l.
    apply fold_right_Qplus_ext. intros j.
    assert (Hm : fold_left Qplus (map (close_at data) (seq (S i - period) period)) 0
                 / of_nat period == sma_at data period i).
    { unfold sma_at, sum_range. rewrite fold_left_Qplus.
      apply Qdiv_comp; [lra|reflexivity]. }
    rewrite Hm. unfold Qminus. reflexivity.
Qed.

(** The three Bollinger columns on a full window, with the variance the
    code computes. *)
Lemma bollinger_rows (data : list bar) (period : nat) (k : Q) (i : nat) :
  (2 <= period)%nat -> (period <= S i)%nat -> (i < length data)%nat ->
  (exists m, BB_mid (compute_bollinger_bands data period k) !! i = Some (Fin m)
             /\ m == sma_at data period i)
  /\ BB_upper (compute_bollinger_bands data period k) !! i
     = Some (Some (upper_at k (sma_at data period i)
                            (sample_var_at data period i)))
  /\ BB_lower (compute_bollinger_bands data period k) !! i
     = Some (Some (lower_at k (sma_at data period i)
                            (sample_var_at data period i))).
Proof.
  intros Hp Hpi Hi.
  destruct (mid_row data period i ltac:(lia) Hpi Hi) as [m [Hm Hme]].
  destruct (var_row data period i Hp Hpi Hi) as [v [Hv Hve]].
  unfold compute_bollinger_bands. cbv zeta. simpl BB_mid. simpl BB_upper.
  simpl BB_lower.
  split; [exists m; split; assumption|].
  rewrite !lookup_zip_with, !lookup_map, Hm, Hv. simpl.
  unfold upper_at, lower_at. rewrite (Qeq_eqR _ _ Hme), (Qeq_eqR _ _ Hve).
  split; reflexivity.
Qed.

Lemma bollinger_rows_period_one (data : list bar) (k : Q) (i : nat) :
  (i < length data)%nat ->
  BB_upper (compute_bollinger_bands data 1 k) !! i = Some None
  /\ BB_lower (compute_bollinger_bands data 1 k) !! i = Some None.
Proof.
  intros Hi.
  destruct (mid_row data 1 i ltac:(lia) ltac:(lia) Hi) as [m [Hm _]].
  unfold compute_bollinger_bands. cbv zeta. simpl BB_upper. simpl BB_lower.
  rewrite !lookup_zip_with, !lookup_map, Hm.
  rewrite (rolling_var_too_short 1 1 (col close data) i);
    [|lia|rewrite col_length; exact Hi].
  split; reflexivity.
Qed.

End BollingerFacts.

(* ===================================================================== *)
(** ** The controller: what every step preserves                          *)
(* ===================================================================== *)

Section ControllerFacts.
Import Pandas Config MainBot MainBotSpec.

Lemma max_not_lower_refl (a : option Q) : max_not_lower a a.
Proof. destruct a; simpl; [lra|exact I]. Qed.

Lemma min_not_higher_refl (a : option Q) : min_not_higher a a.
Proof. destruct a; simpl; [lra|exact I]. Qed.

Lemma max_not_lower_trans (a b c : option Q) :
  max_not_lower a b -> max_not_lower b c -> max_not_lower a c.
Proof. destruct a, b, c; simpl; try tauto. lra. Qed.

Lemma min_not_higher_trans (a b c : option Q) :
  min_not_higher a b -> min_not_higher b c -> min_not_higher a c.
Proof. destruct a, b, c; simpl; try tauto. lra. Qed.

Lemma same_terms_refl (t : trade) : same_terms t t.
Proof. unfold same_terms. tauto. Qed.

Lemma same_terms_trans (a b c : trade) :
  same_terms a b -> same_terms b c -> same_terms a c.
Proof.
  unfold same_terms. intros (?&?&?&?&?&?) (?&?&?&?&?&?).
  repeat split; congruence.
Qed.

Lemma trade_le_refl (t : trade) : trade_le t t.
Proof.
  split; [apply same_terms_refl|].
  split; [apply max_not_lower_refl|apply min_not_higher_refl].
Qed.

Lemma trade_le_trans (a b c : trade) :
  trade_le a b -> trade_le b c -> trade_le a c.
Proof.
  intros (H1&H2&H3) (H4&H5&H6). split; [eapply same_terms_trans; eassumption|].
  split; [eapply max_not_lower_trans|eapply min_not_higher_trans]; eassumption.
Qed.

Lemma heap_le_refl (h : list trade) : heap_le h h.
Proof. intros r t H. exists t. split; [exact H|apply trade_le_refl]. Qed.

Lemma heap_le_trans (a b c : list trade) :
  heap_le a b -> heap_le b c -> heap_le a c.
Proof.
  intros H1 H2 r t H. destruct (H1 r t H) as [t1 [Ht1 Hle1]].
  destruct (H2 r t1 Ht1) as [t2 [Ht2 Hle2]].
  exists t2. split; [exact Ht2|]. eapply trade_le_trans; eassumption.
Qed.

Lemma activated_le (t t' : trade) (p : Q) :
  trade_le t t' -> activated t p -> activated t' p.
Proof.
  intros [(Hi&Hs&He&Hu&Ho&Ht) _]. unfold activated.
  rewrite Hs, He, Ht. tauto.
Qed.

Lemma justified_le (h h' : list trade) (ev : event) :
  heap_le h h' -> justified h ev -> justified h' ev.
Proof.
  intros Hle. destruct ev; simpl; try tauto.
  intros [t [Ht Ha]]. destruct (Hle r t Ht) as [t' [Ht' Hle']].
  exists t'. split; [exact Ht'|]. eapply activated_le; eassumption.
Qed.

Lemma evolves_refl (s : state) : evolves s s.
Proof.
  split; try tauto.
  - apply heap_le_refl.
  - exists []. rewrite app_nil_r. repeat split; constructor.
Qed.

Lemma evolves_trans (a b c : state) : evolves a b -> evolves b c -> evolves a c.
Proof.
  intros [H1 (e1&L1&J1&F1) S1 Q1] [H2 (e2&L2&J2&F2) S2 Q2]. split.
  - eapply heap_le_trans; eassumption.
  - exists (e1 ++ e2). split; [rewrite L2, L1, app_assoc; reflexivity|].
    split; apply Forall_app; split; try assumption.
    eapply Forall_impl; [exact J1|]. intros ev. apply justified_le. exact H2.
  - tauto.
  - tauto.
Qed.

(** A step that leaves the trade objects and the log alone. *)
Lemma evolves_quiet (s s' : state) :
  heap s' = heap s -> log s' = log s ->
  start_of_day_equity s' = start_of_day_equity s -> evolves s s'.
Proof.
  intros Hh Hl He. split.
  - rewrite Hh. apply heap_le_refl.
  - exists []. rewrite app_nil_r. repeat split; [exact Hl|constructor|constructor].
  - unfold shaped. rewrite Hh. tauto.
  - rewrite He. tauto.
Qed.

Lemma evolves_bind {A B} (c : M A) (k : A -> M B) (s : state) :
  evolves s (snd (c s)) ->
  (forall a s1, c s = (Ok a, s1) -> evolves s1 (snd (k a s1))) ->
  evolves s (snd (bind c k s)).
Proof.
  intros H1 H2. unfold bind. destruct (c s) as [[a|e] s1] eqn:E; simpl in *.
  - eapply evolves_trans; [exact H1|]. apply H2. reflexivity.
  - exact H1.
Qed.

Lemma evolves_emit (ev : event) (s : state) :
  justified (heap s) ev -> ~ is_fault ev -> evolves s (snd (emit ev s)).
Proof.
  intros Hj Hf. split; simpl; try tauto.
  - apply heap_le_refl.
  - exists [ev]. repeat split; constructor; try assumption; constructor.
Qed.

Lemma evolves_set_equity (q : Q) (s : state) : evolves s (snd (set_equity q s)).
Proof.
  split; simpl; try tauto.
  - apply heap_le_refl.
  - exists []. rewrite app_nil_r. repeat split; constructor.
  - intros _. eexists. reflexivity.
Qed.

Lemma evolves_write (r : nat) (t t' : trade) (s : state) :
  heap s !! r = Some t -> trade_le t t' ->
  (registered_shape t -> registered_shape t') ->
  evolves s (snd (write r t' s)).
Proof.
  intros Hr Hle Hsh. split; simpl; try tauto.
  - intros r0 t0 H0. destruct (decide (r0 = r)) as [->|Hne].
    + exists t'. split.
      * apply list_lookup_insert_eq. apply lookup_lt_Some in Hr. exact Hr.
      * rewrite Hr in H0. injection H0 as <-. exact Hle.
    + exists t0. split; [|apply trade_le_refl].
      rewrite list_lookup_insert_ne by congruence. exact H0.
  - exists []. rewrite app_nil_r. repeat split; constructor.
  - unfold shaped. simpl. intros Hall.
    apply Forall_insert; [exact Hall|]. apply Hsh.
    exact (proj1 (Forall_lookup _ _) Hall r t Hr).
Qed.

Lemma heap_le_app (h : list trade) (t : trade) : heap_le h (h ++ [t]).
Proof.
  intros r t0 H. exists t0. split; [|apply trade_le_refl].
  apply lookup_app_l_Some. exact H.
Qed.

Lemma evolves_register (t : trade) (s : state) :
  registered_shape t -> evolves s (snd (register t s)).
Proof.
  intros Hsh. split; simpl; try tauto.
  - apply heap_le_app.
  - exists [NotifyTrade (length (heap s))]. repeat split.
    + repeat constructor.
    + constructor; [|constructor]. simpl. tauto.
  - unfold shaped. simpl. intros Hall. apply Forall_app. split; [exact Hall|].
    constructor; [exact Hsh|constructor].
Qed.


Lemma call_state {A} (r : ext A) (s : state) : snd (call r s) = s.
Proof. destruct r; reflexivity. Qed.

Lemma call_ok {A} (r : ext A) (s s1 : state) (a : A) :
  call r s = (Ok a, s1) -> r = Returned a /\ s1 = s.
Proof. destruct r; simpl; intros H; inversion H; subst; tauto. Qed.

Lemma evolves_call {A} (r : ext A) (s : state) : evolves s (snd (call r s)).
Proof. rewrite call_state. apply evolves_refl. Qed.

Lemma evolves_as_float (v : option Q) (s : state) :
  evolves s (snd (as_float v s)).
Proof. destruct v; apply evolves_refl. Qed.

Lemma as_float_ok (v : option Q) (s s1 : state) (q : Q) :
  as_float v s = (Ok q, s1) -> v = Some q /\ s1 = s.
Proof. destruct v; simpl; intros H; inversion H; subst; tauto. Qed.

Ltac evo_step :=
  match goal with
  | |- evolves ?s (snd (bind _ _ ?s)) => apply evolves_bind
  | |- evolves ?s (snd (ret _ ?s)) => apply evolves_refl
  | |- evolves ?s (snd (raise _ ?s)) => apply evolves_refl
  | |- evolves ?s (snd (get ?s)) => apply evolves_refl
  | |- evolves ?s (snd (call _ ?s)) => apply evolves_call
  | |- evolves ?s (snd (as_float _ ?s)) => apply evolves_as_float
  | |- evolves ?s (snd (set_counters _ _ ?s)) => apply evolves_quiet; reflexivity
  | |- evolves ?s (snd (set_open_trades _ ?s)) => apply evolves_quiet; reflexivity
  | |- evolves ?s (snd (set_last_date _ ?s)) => apply evolves_quiet; reflexivity
  | |- evolves ?s (snd (set_equity _ ?s)) => apply evolves_set_equity
  | |- evolves ?s (snd ((if ?b then _ else _) ?s)) => destruct b eqn:?
  | |- evolves ?s (snd ((match ?x with _ => _ end) ?s)) => destruct x eqn:?
  end.

Lemma evolves_remove (r : nat) (t : trade) (s : state) :
  evolves s (snd (remove r t s)).
Proof.
  unfold remove. evo_step; [evo_step|]. intros s0 s1 H. injection H as <- <-.
  evo_step; evo_step.
Qed.

Lemma evolves_close_one (w : world) (i r : nat) (t : trade) (p : Q) (s : state) :
  evolves s (snd (close_one w i r t p s)).
Proof.
  unfold close_one. evo_step; [|apply evolves_refl].
  evo_step; [apply evolves_remove|]. intros u s1 H1.
  evo_step; [evo_step|]. intros s2 s3 H2. injection H2 as <- <-.
  evo_step; evo_step.
Qed.

Lemma with_max_price_le (t : trade) (mx p : Q) :
  max_price t = Some mx -> mx <= p -> trade_le t (with_max_price t p).
Proof.
  intros Hm Hle. split; [unfold same_terms; simpl; tauto|].
  split; simpl; [rewrite Hm; exact Hle|apply min_not_higher_refl].
Qed.

Lemma with_min_price_le (t : trade) (mn p : Q) :
  min_price t = Some mn -> p <= mn -> trade_le t (with_min_price t p).
Proof.
  intros Hm Hle. split; [unfold same_terms; simpl; tauto|].
  split; simpl; [apply max_not_lower_refl|rewrite Hm; exact Hle].
Qed.

Lemma with_max_price_shape (t : trade) (p : Q) :
  is_Some (max_price t) -> registered_shape t ->
  registered_shape (with_max_price t p).
Proof.
  intros Hs [(H1&H2&H3)|(H1&H2&H3)]; unfold registered_shape; simpl.
  - left. repeat split; [exact H1|eexists; reflexivity|exact H3].
  - rewrite H3 in Hs. destruct Hs as [x Hx]. discriminate.
Qed.

Lemma with_min_price_shape (t : trade) (p : Q) :
  is_Some (min_price t) -> registered_shape t ->
  registered_shape (with_min_price t p).
Proof.
  intros Hs [(H1&H2&H3)|(H1&H2&H3)]; unfold registered_shape; simpl.
  - rewrite H3 in Hs. destruct Hs as [x Hx]. discriminate.
  - right. repeat split; [exact H1|eexists; reflexivity|exact H3].
Qed.

Lemma emit_ok (ev : event) (s s1 : state) (u : unit) :
  emit ev s = (Ok u, s1) -> heap s1 = heap s.
Proof. intros H. injection H as _ <-. reflexivity. Qed.

(** Lines 195-207, once [max_price] is up to date. *)
Lemma evolves_trail_buy (w : world) (i r : nat) (t : trade) (p : Q) (s : state) :
  heap s !! r = Some t -> upper (side t) = "BUY"%string ->
  evolves s
    (snd ((if Qltb ((take_profit_price t - entry_price t) * 0.35)
                   (p - entry_price t)
           then
             mx <- as_float (max_price t);;
             if Qltb p (mx - (TRAILING_STOP_PIPS * 0.0001)) then
               emit (Email "Trailing Stop Alert");;
               emit (TrailingClose r p);;
               close_one w i r t p
             else ret tt
           else ret tt) s)).
Proof.
  intros Hr Hside. destruct (Qltb _ (p - entry_price t)) eqn:Hact;
    [|apply evolves_refl].
  apply Qltb_true in Hact.
  evo_step; [evo_step|]. intros mx s1 H1. apply as_float_ok in H1 as [_ ->].
  evo_step; [|apply evolves_refl].
  evo_step; [apply evolves_emit; simpl; tauto|]. intros u s2 H2.
  apply emit_ok in H2.
  evo_step; [|intros; apply evolves_close_one].
  apply evolves_emit; [|simpl; tauto]. simpl. exists t.
  split; [rewrite H2; exact Hr|]. left. split; assumption.
Qed.

(** Lines 214-226, once [min_price] is up to date. *)
Lemma evolves_trail_sell (w : world) (i r : nat) (t : trade) (p : Q) (s : state) :
  heap s !! r = Some t -> upper (side t) = "SELL"%string ->
  evolves s
    (snd ((if Qltb ((entry_price t - take_profit_price t) * 0.5)
                   (entry_price t - p)
           then
             mn <- as_float (min_price t);;
             if Qltb (mn + (TRAILING_STOP_PIPS * 0.0001)) p then
               emit (Email "Trailing Stop Alert");;
               emit (TrailingClose r p);;
               close_one w i r t p
             else ret tt
           else ret tt) s)).
Proof.
  intros Hr Hside. destruct (Qltb _ (entry_price t - p)) eqn:Hact;
    [|apply evolves_refl].
  apply Qltb_true in Hact.
  evo_step; [evo_step|]. intros mn s1 H1. apply as_float_ok in H1 as [_ ->].
  evo_step; [|apply evolves_refl].
  evo_step; [apply evolves_emit; simpl; tauto|]. intros u s2 H2.
  apply emit_ok in H2.
  evo_step; [|intros; apply evolves_close_one].
  apply evolves_emit; [|simpl; tauto]. simpl. exists t.
  split; [rewrite H2; exact Hr|]. right. split; assumption.
Qed.

Lemma write_ok (r : nat) (t t' : trade) (s s1 : state) (u : unit) :
  heap s !! r = Some t -> write r t' s = (Ok u, s1) -> heap s1 !! r = Some t'.
Proof.
  intros Hr H. unfold write, bind, get, set_heap, modify in H. simpl in H.
  injection H as _ <-. simpl. apply list_lookup_insert_eq.
  apply lookup_lt_Some in Hr. exact Hr.
Qed.

Lemma evolves_manage_buy (w : world) (i r : nat) (t : trade) (p : Q) (s : state) :
  heap s !! r = Some t -> upper (side t) = "BUY"%string ->
  evolves s (snd (manage_buy w i r t p s)).
Proof.
  intros Hr Hside. unfold manage_buy.
  evo_step; [evo_step|]. intros mx s1 H1. apply as_float_ok in H1 as [Hmx ->].
  destruct (Qltb mx p) eqn:Hup.
  - apply Qltb_true in Hup. evo_step.
    + evo_step; [|intros; evo_step].
      apply (evolves_write r t); [exact Hr| |].
      * apply (with_max_price_le t mx); [exact Hmx|lra].
      * apply with_max_price_shape. rewrite Hmx. eexists. reflexivity.
    + intros t' s2 H2. unfold bind in H2.
      destruct (write r (with_max_price t p) s) as [[u|e] s3] eqn:Hw;
        [|discriminate].
      injection H2 as <- <-.
      apply (evolves_trail_buy w i r (with_max_price t p) p s3);
        [|exact Hside].
      eapply write_ok; eassumption.
  - evo_step; [evo_step|]. intros t' s2 H2. injection H2 as <- <-.
    apply (evolves_trail_buy w i r t p s Hr Hside).
Qed.

Lemma evolves_manage_sell (w : world) (i r : nat) (t : trade) (p : Q) (s : state) :
  heap s !! r = Some t -> upper (side t) = "SELL"%string ->
  evolves s (snd (manage_sell w i r t p s)).
Proof.
  intros Hr Hside. unfold manage_sell.
  evo_step; [evo_step|]. intros mn s1 H1. apply as_float_ok in H1 as [Hmn ->].
  destruct (Qltb p mn) eqn:Hup.
  - apply Qltb_true in Hup. evo_step.
    + evo_step; [|intros; evo_step].
      apply (evolves_write r t); [exact Hr| |].
      * apply (with_min_price_le t mn); [exact Hmn|lra].
      * apply with_min_price_shape. rewrite Hmn. eexists. reflexivity.
    + intros t' s2 H2. unfold bind in H2.
      destruct (write r (with_min_price t p) s) as [[u|e] s3] eqn:Hw;
        [|discriminate].
      injection H2 as <- <-.
      apply (evolves_trail_sell w i r (with_min_price t p) p s3);
        [|exact Hside].
      eapply write_ok; eassumption.
  - evo_step; [evo_step|]. intros t' s2 H2. injection H2 as <- <-.
    apply (evolves_trail_sell w i r t p s Hr Hside).
Qed.

Lemma price_for_state (w : world) (lp : gmap string Q) (site : price_site)
  (inst : string) (s : state) : snd (price_for w lp site inst s) = s.
Proof.
  unfold price_for. destruct (lp !! inst); [reflexivity|apply call_state].
Qed.

Lemma price_for_ok (w : world) (lp : gmap string Q) (site : price_site)
  (inst : string) (s s1 : state) (o : option Q) :
  price_for w lp site inst s = (Ok o, s1) -> s1 = s.
Proof.
  intros H. pose proof (price_for_state w lp site inst s) as Hs.
  rewrite H in Hs. exact Hs.
Qed.

Lemma evolves_manage_trade (w : world) (lp : gmap string Q) (i r : nat)
  (s : state) : evolves s (snd (manage_trade w lp i r s)).
Proof.
  unfold manage_trade. evo_step; [evo_step|]. intros s0 s1 H. injection H as <- <-.
  destruct (heap s !! r) as [t|] eqn:Hr; [|apply evolves_refl].
  evo_step; [rewrite price_for_state; apply evolves_refl|].
  intros o s1 H1. apply price_for_ok in H1. subst s1.
  destruct o as [p|]; [|apply evolves_refl].
  destruct (String.eqb (upper (side t)) "BUY") eqn:Hb.
  - apply String.eqb_eq in Hb. apply evolves_manage_buy; assumption.
  - destruct (String.eqb (upper (side t)) "SELL") eqn:Hs.
    + apply String.eqb_eq in Hs. apply evolves_manage_sell; assumption.
    + apply evolves_refl.
Qed.

Lemma evolves_manage_trades (w : world) (lp : gmap string Q) (copy : list nat) :
  forall (i : nat) (s : state), evolves s (snd (manage_trades w lp i copy s)).
Proof.
  induction copy as [|r rest IH]; intros i s; simpl.
  - apply evolves_refl.
  - evo_step; [apply evolves_manage_trade|intros; apply IH].
Qed.

Lemma total_unrealized_loss_state (w : world) (lp : gmap string Q)
  (h : list trade) (trades : list nat) :
  forall (i : nat) (total : Q) (s : state),
    snd (total_unrealized_loss w lp h i trades total s) = s.
Proof.
  induction trades as [|r rest IH]; intros i total s; simpl; [reflexivity|].
  destruct (h !! r) as [t|]; [|apply IH].
  unfold bind. destruct (price_for w lp (InLossLoop i) (instrument t) s)
    as [[o|e] s1] eqn:E.
  - apply price_for_ok in E. subst s1. destruct o; apply IH.
  - pose proof (price_for_state w lp (InLossLoop i) (instrument t) s) as Hs.
    rewrite E in Hs. exact Hs.
Qed.

Lemma evolves_kill_switch (w : world) (lp : gmap string Q) (s : state) :
  evolves s (snd (kill_switch w lp s)).
Proof.
  unfold kill_switch. evo_step; [evo_step|]. intros s0 s1 H. injection H as <- <-.
  evo_step; [rewrite total_unrealized_loss_state; apply evolves_refl|].
  intros total s1 H1.
  evo_step; [evo_step|]. intros equity s2 H2.
  evo_step; [|evo_step].
  evo_step; [apply evolves_emit; simpl; tauto|]. intros u s3 H3.
  evo_step; [apply evolves_emit; simpl; tauto|]. intros u' s4 H4. evo_step.
Qed.

Lemma evolves_position_management (w : world) (lp : gmap string Q) (s : state) :
  evolves s (snd (position_management w lp s)).
Proof.
  unfold position_management. evo_step; [evo_step|]. intros s0 s1 H.
  evo_step; [apply evolves_manage_trades|intros; apply evolves_kill_switch].
Qed.

Lemma confirm_values (signal m15 m5 : string) :
  confirm signal m15 m5 = "BUY"%string
  \/ confirm signal m15 m5 = "SELL"%string
  \/ confirm signal m15 m5 = "FLAT"%string.
Proof.
  unfold confirm.
  destruct (String.eqb signal "BUY" && String.eqb m15 "up"
            && String.eqb m5 "up"); [tauto|].
  destruct (String.eqb signal "SELL" && String.eqb m15 "down"
            && String.eqb m5 "down"); tauto.
Qed.

Lemma evolves_process_instrument (w : world) (lp : gmap string Q)
  (inst : string) (df : frame) (s : state) :
  evolves s (snd (process_instrument w lp inst df s)).
Proof.
  unfold process_instrument.
  evo_step; [evo_step|]. evo_step; [|evo_step]. evo_step; [evo_step|].
  evo_step; [evo_step|]. intros m15 s1 H1. apply call_ok in H1 as [_ ->].
  evo_step; [evo_step|]. intros m5 s2 H2. apply call_ok in H2 as [_ ->].
  evo_step; [|evo_step].
  evo_step; [evo_step|]. intros s3 s4 H3. injection H3 as <- <-.
  evo_step; [evo_step|].
  evo_step; [evo_step|]. intros bal s5 H5. apply call_ok in H5 as [_ ->].
  evo_step; [evo_step|]. intros size s6 H6. apply call_ok in H6 as [_ ->].
  destruct (stop_and_target _ _ _) as [sl tp].
  evo_step; [apply evolves_emit; simpl; tauto|]. intros u s7 H7.
  evo_step; [evo_step|]. intros oid s8 H8. apply call_ok in H8 as [_ ->].
  destruct oid as [oid|]; [|evo_step].
  evo_step; [|intros; evo_step].
  apply evolves_register.
  destruct (confirm_values (m1_signal df) m15 m5) as [Hc|[Hc|Hc]];
    rewrite Hc in *; simpl in *; try discriminate.
  - left. repeat split. eexists. reflexivity.
  - right. repeat split. eexists. reflexivity.
Qed.

Lemma evolves_process_instruments (w : world) (data : list (string * frame)) :
  forall (lp : gmap string Q) (s : state),
    evolves s (snd (process_instruments w lp data s)).
Proof.
  induction data as [|[inst df] rest IH]; intros lp s; simpl.
  - apply evolves_refl.
  - evo_step; [apply evolves_process_instrument|intros; apply IH].
Qed.

Lemma fetch_all_instruments_state (w : world) (l : list string) (s : state) :
  snd (fetch_all_instruments w l s) = s.
Proof.
  induction l as [|i rest IH]; simpl; [reflexivity|].
  unfold bind, call. destruct (fetch_ohlc_data w i); [|reflexivity].
  destruct (fetch_all_instruments w rest s) as [[dfs|e] s1]; simpl in *;
    exact IH.
Qed.

Lemma evolves_fresh_day (w : world) (s : state) :
  evolves s
    (snd ((set_last_date (now_date w);;
           set_counters 0 0;;
           equity <- call (get_account_balance w AtDayReset);;
           set_equity equity) s)).
Proof.
  evo_step; [evo_step|]. intros u s1 H1.
  evo_step; [evo_step|]. intros u' s2 H2.
  evo_step; [evo_step|]. intros q s3 H3. evo_step.
Qed.

Lemma evolves_daily_reset (w : world) (s : state) :
  evolves s (snd (daily_reset w s)).
Proof.
  unfold daily_reset. evo_step; [evo_step|]. intros s0 s1 H. injection H as <- <-.
  destruct (last_date s) as [d|]; [destruct (d =? now_date w)%Z|].
  - evo_step.
  - apply evolves_fresh_day.
  - apply evolves_fresh_day.
Qed.

Lemma evolves_trading_pass (w : world) (s : state) :
  evolves s (snd (trading_pass w s)).
Proof.
  unfold trading_pass.
  evo_step; [rewrite fetch_all_instruments_state; apply evolves_refl|].
  intros data s1 H1.
  evo_step; [apply evolves_process_instruments|]. intros lp s2 H2.
  evo_step; [apply evolves_position_management|]. intros u s3 H3.
  apply evolves_emit; simpl; tauto.
Qed.

Lemma evolves_iteration (w : world) (s : state) :
  evolves s (snd (iteration w s)).
Proof.
  unfold iteration.
  evo_step; [apply evolves_emit; simpl; tauto|].
  evo_step; [apply evolves_emit; simpl; tauto|].
  evo_step; [apply evolves_daily_reset|]. intros u s1 H1.
  evo_step; [evo_step|]. intros bal s2 H2.
  evo_step; [evo_step|]. intros s3 s4 H3.
  evo_step; [evo_step; evo_step|]. intros u' s5 H5.
  evo_step; [evo_step|]. intros s6 s7 H6.
  evo_step; [evo_step|]. intros equity s8 H8.
  evo_step; [evo_step|].
  evo_step.
  - evo_step; [|intros]; apply evolves_emit; simpl; tauto.
  - apply evolves_trading_pass.
Qed.



(** *** No operation on [None] *)

Lemma nte_bind {A B} (c : M A) (k : A -> M B) (s : state) :
  no_type_error (fst (c s)) ->
  (forall a s1, c s = (Ok a, s1) -> no_type_error (fst (k a s1))) ->
  no_type_error (fst (bind c k s)).
Proof.
  intros H1 H2. unfold bind. destruct (c s) as [[a|e] s1] eqn:E; simpl in *.
  - apply H2. reflexivity.
  - intros Heq. apply H1. injection Heq as ->. reflexivity.
Qed.

Lemma nte_call {A} (r : ext A) (s : state) : no_type_error (fst (call r s)).
Proof. destruct r; simpl; discriminate. Qed.

Lemma nte_as_float (v : option Q) (s : state) :
  is_Some v -> no_type_error (fst (as_float v s)).
Proof. intros [q ->]. simpl. discriminate. Qed.

Ltac nte_step :=
  match goal with
  | |- no_type_error (fst (bind _ _ ?s)) => apply nte_bind
  | |- no_type_error (fst (call _ ?s)) => apply nte_call
  | |- no_type_error (fst ((if ?b then _ else _) ?s)) => destruct b eqn:?
  | |- no_type_error (fst ((match ?x with _ => _ end) ?s)) => destruct x eqn:?
  | |- no_type_error _ => unfold no_type_error; simpl; discriminate
  end.

Lemma nte_close_one (w : world) (i r : nat) (t : trade) (p : Q) (s : state) :
  no_type_error (fst (close_one w i r t p s)).
Proof.
  unfold close_one. nte_step; [|nte_step].
  nte_step.
  - unfold remove. nte_step; [nte_step|]. intros s0 s1 H. nte_step; nte_step.
  - intros u s1 H. nte_step; [nte_step|]. intros s2 s3 H2. nte_step; nte_step.
Qed.

Lemma nte_trail (w : world) (i r : nat) (t : trade) (p : Q)
  (v : option Q) (active hit : Q -> bool) (s : state) :
  is_Some v ->
  no_type_error
    (fst ((if active p
           then
             x <- as_float v;;
             if hit x then
               emit (Email "Trailing Stop Alert");;
               emit (TrailingClose r p);;
               close_one w i r t p
             else ret tt
           else ret tt) s)).
Proof.
  intros Hv. nte_step; [|nte_step].
  nte_step; [apply nte_as_float; exact Hv|]. intros x s1 H1.
  nte_step; [|nte_step].
  nte_step; [nte_step|]. intros u s2 H2.
  nte_step; [nte_step|]. intros u' s3 H3. apply nte_close_one.
Qed.

Lemma nte_manage_buy (w : world) (i r : nat) (t : trade) (p : Q) (s : state) :
  is_Some (max_price t) -> no_type_error (fst (manage_buy w i r t p s)).
Proof.
  intros Hm. unfold manage_buy.
  nte_step; [apply nte_as_float; exact Hm|]. intros mx s1 H1.
  nte_step.
  - nte_step.
    + nte_step; [|intros; nte_step]. unfold write. nte_step; [nte_step|].
      intros; nte_step.
    + nte_step.
  - intros t' s2 H2.
    assert (Hm' : is_Some (max_price t')).
    { destruct (Qltb mx p).
      - unfold bind in H2. destruct (write _ _ s1) as [[u|e] s3]; [|discriminate].
        injection H2 as <- _. simpl. eexists. reflexivity.
      - injection H2 as <- _. exact Hm. }
    apply (nte_trail w i r t' p (max_price t')
             (fun p => Qltb ((take_profit_price t' - entry_price t') * 0.35)
                            (p - entry_price t'))
             (fun mx => Qltb p (mx - (TRAILING_STOP_PIPS * 0.0001))) s2 Hm').
Qed.

Lemma nte_manage_sell (w : world) (i r : nat) (t : trade) (p : Q) (s : state) :
  is_Some (min_price t) -> no_type_error (fst (manage_sell w i r t p s)).
Proof.
  intros Hm. unfold manage_sell.
  nte_step; [apply nte_as_float; exact Hm|]. intros mn s1 H1.
  nte_step.
  - nte_step.
    + nte_step; [|intros; nte_step]. unfold write. nte_step; [nte_step|].
      intros; nte_step.
    + nte_step.
  - intros t' s2 H2.
    assert (Hm' : is_Some (min_price t')).
    { destruct (Qltb p mn).
      - unfold bind in H2. destruct (write _ _ s1) as [[u|e] s3]; [|discriminate].
        injection H2 as <- _. simpl. eexists. reflexivity.
      - injection H2 as <- _. exact Hm. }
    apply (nte_trail w i r t' p (min_price t')
             (fun p => Qltb ((entry_price t' - take_profit_price t') * 0.5)
                            (entry_price t' - p))
             (fun mn => Qltb (mn + (TRAILING_STOP_PIPS * 0.0001)) p) s2 Hm').
Qed.

Lemma nte_price_for (w : world) (lp : gmap string Q) (site : price_site)
  (inst : string) (s : state) : no_type_error (fst (price_for w lp site inst s)).
Proof. unfold price_for. destruct (lp !! inst); [simpl; discriminate|apply nte_call]. Qed.

(** On a trade of the registered shape the branch taken reads the extreme
    that is a price. *)
Lemma shape_buy (t : trade) :
  registered_shape t -> upper (side t) = "BUY"%string -> is_Some (max_price t).
Proof.
  intros [(H1&H2&_)|(H1&_&_)] Hu; [exact H2|].
  rewrite H1 in Hu. discriminate.
Qed.

Lemma shape_sell (t : trade) :
  registered_shape t -> upper (side t) = "SELL"%string -> is_Some (min_price t).
Proof.
  intros [(H1&_&_)|(H1&H2&_)] Hu; [|exact H2].
  rewrite H1 in Hu. discriminate.
Qed.

Lemma nte_manage_trade (w : world) (lp : gmap string Q) (i r : nat) (s : state) :
  shaped s -> no_type_error (fst (manage_trade w lp i r s)).
Proof.
  intros Hsh. unfold manage_trade. nte_step; [nte_step|].
  intros s0 s1 H. injection H as <- <-.
  destruct (heap s !! r) as [t|] eqn:Hr; [|nte_step].
  pose proof (proj1 (Forall_lookup _ _) Hsh r t Hr) as Ht.
  nte_step; [apply nte_price_for|]. intros o s1 H1.
  destruct o as [p|]; [|nte_step].
  destruct (String.eqb (upper (side t)) "BUY") eqn:Hb.
  - apply String.eqb_eq in Hb. apply nte_manage_buy, shape_buy; assumption.
  - destruct (String.eqb (upper (side t)) "SELL") eqn:Hs; [|nte_step].
    apply String.eqb_eq in Hs. apply nte_manage_sell, shape_sell; assumption.
Qed.

Lemma step_state {A} (c : M A) (s s1 : state) (a : A) :
  c s = (Ok a, s1) -> s1 = snd (c s).
Proof. intros H. rewrite H. reflexivity. Qed.

Lemma nte_manage_trades (w : world) (lp : gmap string Q) (copy : list nat) :
  forall (i : nat) (s : state),
    shaped s -> no_type_error (fst (manage_trades w lp i copy s)).
Proof.
  induction copy as [|r rest IH]; intros i s Hsh; simpl; [nte_step|].
  nte_step; [apply nte_manage_trade; exact Hsh|]. intros u s1 H1.
  apply IH. apply step_state in H1. subst s1.
  apply (ev_shape _ _ (evolves_manage_trade w lp i r s)). exact Hsh.
Qed.

Lemma nte_total_unrealized_loss (w : world) (lp : gmap string Q)
  (h : list trade) (trades : list nat) :
  forall (i : nat) (total : Q) (s : state),
    no_type_error (fst (total_unrealized_loss w lp h i trades total s)).
Proof.
  induction trades as [|r rest IH]; intros i total s; simpl; [nte_step|].
  destruct (h !! r) as [t|]; [|apply IH].
  nte_step; [apply nte_price_for|]. intros o s1 H1. destruct o; apply IH.
Qed.

Lemma nte_kill_switch (w : world) (lp : gmap string Q) (s : state) :
  is_Some (start_of_day_equity s) -> no_type_error (fst (kill_switch w lp s)).
Proof.
  intros He. unfold kill_switch. nte_step; [nte_step|].
  intros s0 s1 H. injection H as <- <-.
  nte_step; [apply nte_total_unrealized_loss|]. intros total s1 H1.
  nte_step; [apply nte_as_float; exact He|]. intros equity s2 H2.
  nte_step; [|nte_step].
  nte_step; [nte_step|]. intros u s3 H3.
  nte_step; [nte_step|]. intros; nte_step.
Qed.

Lemma nte_position_management (w : world) (lp : gmap string Q) (s : state) :
  ready s -> no_type_error (fst (position_management w lp s)).
Proof.
  intros [Hsh He]. unfold position_management. nte_step; [nte_step|].
  intros s0 s1 H. injection H as <- <-.
  nte_step; [apply nte_manage_trades; exact Hsh|]. intros u s1 H1.
  apply nte_kill_switch. apply step_state in H1. subst s1.
  apply (ev_equity _ _ (evolves_manage_trades w lp (open_trades s) 0 s)).
  exact He.
Qed.

Lemma nte_process_instrument (w : world) (lp : gmap string Q)
  (inst : string) (df : frame) (s : state) :
  no_type_error (fst (process_instrument w lp inst df s)).
Proof.
  unfold process_instrument.
  nte_step; [nte_step|]. nte_step; [|nte_step]. nte_step; [nte_step|].
  nte_step; [nte_step|]. intros m15 s1 H1.
  nte_step; [nte_step|]. intros m5 s2 H2.
  nte_step; [|nte_step].
  nte_step; [nte_step|]. intros s3 s4 H3.
  nte_step; [nte_step|].
  nte_step; [nte_step|]. intros bal s5 H5.
  nte_step; [nte_step|]. intros size s6 H6.
  destruct (stop_and_target _ _ _) as [sl tp].
  nte_step; [nte_step|]. intros u s7 H7.
  nte_step; [nte_step|]. intros oid s8 H8.
  destruct oid as [oid|]; [|nte_step].
  nte_step; [|intros; nte_step].
  unfold register. nte_step; [nte_step|]. intros s9 s10 H9.
  nte_step; [nte_step|]. intros u1 s11 H11.
  nte_step; [nte_step|]. intros u2 s12 H12.
  nte_step; [nte_step|]. intros; nte_step.
Qed.

Lemma nte_process_instruments (w : world) (data : list (string * frame)) :
  forall (lp : gmap string Q) (s : state),
    no_type_error (fst (process_instruments w lp data s)).
Proof.
  induction data as [|[inst df] rest IH]; intros lp s; simpl; [nte_step|].
  nte_step; [apply nte_process_instrument|intros; apply IH].
Qed.

Lemma nte_fetch_all_instruments (w : world) (l : list string) (s : state) :
  no_type_error (fst (fetch_all_instruments w l s)).
Proof.
  induction l as [|i rest IH]; simpl; [nte_step|].
  nte_step; [nte_step|]. intros df s1 H1. apply call_ok in H1 as [_ ->].
  nte_step; [exact IH|]. intros; nte_step.
Qed.

Lemma nte_trading_pass (w : world) (s : state) :
  ready s -> no_type_error (fst (trading_pass w s)).
Proof.
  intros Hr. unfold trading_pass.
  nte_step; [apply nte_fetch_all_instruments|]. intros data s1 H1.
  apply step_state in H1. rewrite fetch_all_instruments_state in H1. subst s1.
  nte_step; [apply nte_process_instruments|]. intros lp s2 H2.
  apply step_state in H2.
  nte_step; [|intros; nte_step].
  apply nte_position_management. subst s2. destruct Hr as [Hsh He].
  pose proof (evolves_process_instruments w data ∅ s) as Hev.
  split; [apply (ev_shape _ _ Hev)|apply (ev_equity _ _ Hev)]; assumption.
Qed.

Lemma nte_fresh_day (w : world) (s : state) :
  no_type_error
    (fst ((set_last_date (now_date w);;
           set_counters 0 0;;
           equity <- call (get_account_balance w AtDayReset);;
           set_equity equity) s)).
Proof.
  nte_step; [nte_step|]. intros u s1 H1.
  nte_step; [nte_step|]. intros u' s2 H2.
  nte_step; [nte_step|]. intros; nte_step.
Qed.

Lemma nte_daily_reset (w : world) (s : state) :
  no_type_error (fst (daily_reset w s)).
Proof.
  unfold daily_reset. nte_step; [nte_step|]. intros s0 s1 H. injection H as <- <-.
  destruct (last_date s) as [d|]; [destruct (d =? now_date w)%Z|].
  - nte_step.
  - apply nte_fresh_day.
  - apply nte_fresh_day.
Qed.

Lemma nte_iteration (w : world) (s : state) :
  shaped s -> no_type_error (fst (iteration w s)).
Proof.
  intros Hsh. unfold iteration.
  nte_step; [nte_step|]. nte_step; [nte_step|].
  nte_step; [apply nte_daily_reset|]. intros u s1 H1.
  apply step_state in H1.
  assert (Hsh1 : shaped s1).
  { subst s1. apply (ev_shape _ _ (evolves_daily_reset w s)). exact Hsh. }
  nte_step; [nte_step|]. intros bal s2 H2. apply call_ok in H2 as [_ ->].
  nte_step; [nte_step|]. intros s3 s4 H3. injection H3 as <- <-.
  nte_step; [nte_step; nte_step|]. intros u' s5 H5.
  assert (Hr5 : ready s5).
  { destruct (start_of_day_equity s1) as [q|] eqn:Eq.
    - injection H5 as _ <-. split; [exact Hsh1|]. rewrite Eq. eexists. reflexivity.
    - injection H5 as _ <-. split; [exact Hsh1|]. simpl. eexists. reflexivity. }
  nte_step; [nte_step|]. intros s6 s7 H6. injection H6 as <- <-.
  nte_step; [apply nte_as_float; apply Hr5|]. intros equity s8 H8.
  apply as_float_ok in H8 as [_ ->].
  nte_step; [nte_step|]. nte_step.
  - nte_step; [nte_step|]. intros; nte_step.
  - apply nte_trading_pass. exact Hr5.
Qed.

(** *** One pass of the loop, and any number of them *)

Lemma advances_refl (s : state) : advances s s.
Proof.
  split; try tauto.
  - apply heap_le_refl.
  - exists []. rewrite app_nil_r. repeat split; constructor.
Qed.

Lemma advances_trans (a b c : state) :
  advances a b -> advances b c -> advances a c.
Proof.
  intros [H1 (e1&L1&J1&F1) S1] [H2 (e2&L2&J2&F2) S2]. split.
  - eapply heap_le_trans; eassumption.
  - exists (e1 ++ e2). split; [rewrite L2, L1, app_assoc; reflexivity|].
    split.
    + apply Forall_app. split; [|exact J2].
      eapply Forall_impl; [exact J1|]. intros ev. apply justified_le. exact H2.
    + intros Hsh. apply Forall_app. split; [apply F1|apply F2]; tauto.
  - tauto.
Qed.

Lemma advances_loop_body (w : world) (s : state) :
  advances s (snd (loop_body w s)).
Proof.
  pose proof (evolves_iteration w s) as Hev.
  pose proof (nte_iteration w s) as Hnte.
  unfold loop_body, catch.
  destruct (iteration w s) as [[u|e] s1] eqn:E; simpl in *.
  - destruct Hev as [Hh (evs&Hl&Hj&Hf) Hs _]. split; [exact Hh| |exact Hs].
    exists evs. repeat split; try assumption. intros _.
    eapply Forall_impl; [exact Hf|]. intros ev Hn ->. apply Hn. exact I.
  - destruct Hev as [Hh (evs&Hl&Hj&Hf) Hs _]. split; [exact Hh| |exact Hs].
    exists (evs ++ [Fault e; Email "Trading Bot Error"; Sleep 60]).
    split; [rewrite Hl, <- !app_assoc; reflexivity|]. split.
    + apply Forall_app. split; [exact Hj|]. repeat constructor.
    + intros Hsh. apply Forall_app. split.
      * eapply Forall_impl; [exact Hf|]. intros ev Hn ->. apply Hn. exact I.
      * constructor; [|repeat constructor; discriminate].
        intros Heq. injection Heq as ->. apply (Hnte Hsh). reflexivity.
Qed.

Lemma advances_run (ws : list world) :
  forall s : state, advances s (run ws s).
Proof.
  induction ws as [|w rest IH]; intros s; simpl.
  - apply advances_refl.
  - eapply advances_trans; [apply advances_loop_body|apply IH].
Qed.

End ControllerFacts.
(* ===================================================================== *)
(** ** The controller: references into the heap                           *)
(* ===================================================================== *)

Section ReferenceFacts.
Import Pandas Config MainBot MainBotSpec.

Lemma keeps_bind {A B} (c : M A) (k : A -> M B) :
  keeps_refs c -> (forall a, keeps_refs (k a)) -> keeps_refs (bind c k).
Proof.
  intros Hc Hk s Hs. unfold bind. specialize (Hc s Hs).
  destruct (c s) as [[a|e] s1]; simpl in *; [|exact Hc].
  apply Hk. exact Hc.
Qed.

Lemma keeps_same {A} (c : M A) :
  (forall s, heap (snd (c s)) = heap s /\ open_trades (snd (c s)) = open_trades s) ->
  keeps_refs c.
Proof.
  intros H s Hs. unfold refs_valid. destruct (H s) as [-> ->]. exact Hs.
Qed.

Lemma keeps_call {A} (r : ext A) : keeps_refs (call r).
Proof. intros s Hs. rewrite call_state. exact Hs. Qed.

Lemma keeps_as_float (v : option Q) : keeps_refs (as_float v).
Proof. destruct v; apply keeps_same; intros; split; reflexivity. Qed.

Lemma keeps_write (r : nat) (t : trade) : keeps_refs (write r t).
Proof.
  intros s Hs. unfold refs_valid in *. simpl. rewrite length_insert. exact Hs.
Qed.

Lemma keeps_register (t : trade) : keeps_refs (register t).
Proof.
  intros s Hs. unfold refs_valid in *. simpl. rewrite length_app. simpl.
  apply Forall_app. split.
  - eapply Forall_impl; [exact Hs|]. intros r Hr. simpl in Hr. lia.
  - constructor; [lia|constructor].
Qed.

Lemma remove_first_valid (h : list trade) (r : nat) (t : trade) (n : nat) :
  forall l l', remove_first h r t l = Some l' ->
               Forall (fun x => (x < n)%nat) l -> Forall (fun x => (x < n)%nat) l'.
Proof.
  induction l as [|r' l IH]; intros l' H Hl; simpl in H; [discriminate|].
  inversion Hl as [|? ? Hr' Hrest]; subst.
  destruct ((r' =? r)%nat || _).
  - injection H as <-. exact Hrest.
  - destruct (remove_first h r t l) as [l0|]; [|discriminate].
    injection H as <-. constructor; [exact Hr'|]. apply IH; [reflexivity|exact Hrest].
Qed.

Lemma keeps_remove (r : nat) (t : trade) : keeps_refs (remove r t).
Proof.
  intros s Hs. unfold remove, bind, get.
  destruct (remove_first (heap s) r t (open_trades s)) as [l|] eqn:E; simpl.
  - unfold refs_valid. simpl. eapply remove_first_valid; eassumption.
  - exact Hs.
Qed.

Ltac keeps_step :=
  match goal with
  | |- keeps_refs (bind _ _) => apply keeps_bind; [|intros ?]
  | |- keeps_refs (call _) => apply keeps_call
  | |- keeps_refs (as_float _) => apply keeps_as_float
  | |- keeps_refs (write _ _) => apply keeps_write
  | |- keeps_refs (register _) => apply keeps_register
  | |- keeps_refs (remove _ _) => apply keeps_remove
  | |- keeps_refs (if ?b then _ else _) => destruct b
  | |- keeps_refs (match ?x with _ => _ end) => destruct x
  | |- keeps_refs _ => apply keeps_same; intros; split; reflexivity
  end.

Lemma keeps_close_one (w : world) (i r : nat) (t : trade) (p : Q) :
  keeps_refs (close_one w i r t p).
Proof. unfold close_one. repeat keeps_step. Qed.

Lemma keeps_manage_buy (w : world) (i r : nat) (t : trade) (p : Q) :
  keeps_refs (manage_buy w i r t p).
Proof.
  unfold manage_buy. keeps_step; [keeps_step|].
  keeps_step; [repeat keeps_step|].
  keeps_step; [|keeps_step]. keeps_step; [keeps_step|].
  keeps_step; [|keeps_step]. keeps_step; [keeps_step|].
  keeps_step; [keeps_step|]. apply keeps_close_one.
Qed.

Lemma keeps_manage_sell (w : world) (i r : nat) (t : trade) (p : Q) :
  keeps_refs (manage_sell w i r t p).
Proof.
  unfold manage_sell. keeps_step; [keeps_step|].
  keeps_step; [repeat keeps_step|].
  keeps_step; [|keeps_step]. keeps_step; [keeps_step|].
  keeps_step; [|keeps_step]. keeps_step; [keeps_step|].
  keeps_step; [keeps_step|]. apply keeps_close_one.
Qed.

Lemma keeps_price_for (w : world) (lp : gmap string Q) (site : price_site)
  (inst : string) : keeps_refs (price_for w lp site inst).
Proof. unfold price_for. repeat keeps_step. Qed.

Lemma keeps_manage_trade (w : world) (lp : gmap string Q) (i r : nat) :
  keeps_refs (manage_trade w lp i r).
Proof.
  unfold manage_trade. keeps_step; [keeps_step|].
  keeps_step; [|keeps_step]. keeps_step; [apply keeps_price_for|].
  keeps_step; [|keeps_step]. keeps_step; [apply keeps_manage_buy|].
  keeps_step; [apply keeps_manage_sell|keeps_step].
Qed.

Lemma keeps_manage_trades (w : world) (lp : gmap string Q) (copy : list nat) :
  forall i, keeps_refs (manage_trades w lp i copy).
Proof.
  induction copy as [|r rest IH]; intros i; simpl.
  - keeps_step.
  - keeps_step; [apply keeps_manage_trade|apply IH].
Qed.

Lemma keeps_kill_switch (w : world) (lp : gmap string Q) :
  keeps_refs (kill_switch w lp).
Proof.
  intros s Hs. unfold kill_switch, bind, get.
  pose proof (total_unrealized_loss_state w lp (heap s) (open_trades s) 0 0.0 s) as Ht.
  destruct (total_unrealized_loss w lp (heap s) 0 (open_trades s) 0.0 s)
    as [[total|e] s1]; simpl in Ht; subst s1; [|exact Hs].
  destruct (start_of_day_equity s) as [equity|]; simpl; [|exact Hs].
  destruct (Qle_bool _ _); simpl; [|exact Hs].
  unfold refs_valid in *. simpl. unfold close_all_trades.
  apply List.Forall_forall. intros r Hr. apply filter_In in Hr.
  exact (proj1 (List.Forall_forall _ _) Hs r (proj1 Hr)).
Qed.

Lemma keeps_position_management (w : world) (lp : gmap string Q) :
  keeps_refs (position_management w lp).
Proof.
  unfold position_management. keeps_step; [keeps_step|].
  keeps_step; [apply keeps_manage_trades|apply keeps_kill_switch].
Qed.

Lemma keeps_process_instrument (w : world) (lp : gmap string Q) (inst : string)
  (df : frame) : keeps_refs (process_instrument w lp inst df).
Proof.
  unfold process_instrument.
  keeps_step; [keeps_step|]. keeps_step; [|keeps_step]. keeps_step; [keeps_step|].
  keeps_step; [keeps_step|]. keeps_step; [keeps_step|].
  keeps_step; [|keeps_step]. keeps_step; [keeps_step|].
  keeps_step; [keeps_step|]. keeps_step; [keeps_step|].
  keeps_step; [keeps_step|]. destruct (stop_and_target _ _ _) as [sl tp].
  repeat keeps_step.
Qed.

Lemma keeps_process_instruments (w : world) (data : list (string * frame)) :
  forall lp, keeps_refs (process_instruments w lp data).
Proof.
  induction data as [|[inst df] rest IH]; intros lp; simpl.
  - keeps_step.
  - keeps_step; [apply keeps_process_instrument|apply IH].
Qed.

Lemma keeps_fetch_all_instruments (w : world) (l : list string) :
  keeps_refs (fetch_all_instruments w l).
Proof. intros s Hs. rewrite fetch_all_instruments_state. exact Hs. Qed.

Lemma keeps_trading_pass (w : world) : keeps_refs (trading_pass w).
Proof.
  unfold trading_pass. keeps_step; [apply keeps_fetch_all_instruments|].
  keeps_step; [apply keeps_process_instruments|].
  keeps_step; [apply keeps_position_management|keeps_step].
Qed.

Lemma keeps_daily_reset (w : world) : keeps_refs (daily_reset w).
Proof. unfold daily_reset. repeat keeps_step. Qed.

Lemma keeps_iteration (w : world) : keeps_refs (iteration w).
Proof.
  unfold iteration. keeps_step; [keeps_step|]. keeps_step; [keeps_step|].
  keeps_step; [apply keeps_daily_reset|].
  keeps_step; [keeps_step|]. keeps_step; [keeps_step|].
  keeps_step; [repeat keeps_step|]. keeps_step; [keeps_step|].
  keeps_step; [keeps_step|]. keeps_step; [keeps_step|].
  keeps_step; [repeat keeps_step|apply keeps_trading_pass].
Qed.

Lemma keeps_loop_body (w : world) : keeps_refs (loop_body w).
Proof.
  intros s Hs. unfold loop_body, catch.
  pose proof (keeps_iteration w s Hs) as H.
  destruct (iteration w s) as [[u|e] s1]; simpl in *; exact H.
Qed.

(** The references the loops run over never dangle. *)
Lemma run_refs_valid (ws : list world) :
  forall s, refs_valid s -> refs_valid (run ws s).
Proof.
  induction ws as [|w rest IH]; intros s Hs; simpl; [exact Hs|].
  apply IH. apply keeps_loop_body. exact Hs.
Qed.

End ReferenceFacts.
(* ===================================================================== *)
(** ** The controller: the confirmation gate, stops and targets           *)
(* ===================================================================== *)

Section DecisionFacts.
Import Pandas Config MainBot MainBotSpec.

Lemma confirm_buy (signal m15 m5 : string) :
  confirm signal m15 m5 = "BUY"%string
  <-> signal = "BUY"%string /\ m15 = "up"%string /\ m5 = "up"%string.
Proof.
  unfold confirm. split.
  - destruct (String.eqb signal "BUY" && String.eqb m15 "up"
              && String.eqb m5 "up") eqn:E.
    + intros _. apply andb_true_iff in E. destruct E as [E E3].
      apply andb_true_iff in E. destruct E as [E1 E2].
      apply String.eqb_eq in E1, E2, E3. tauto.
    + destruct (String.eqb signal "SELL" && String.eqb m15 "down"
                && String.eqb m5 "down"); intros H; discriminate H.
  - intros (-> & -> & ->). reflexivity.
Qed.

Lemma confirm_sell (signal m15 m5 : string) :
  confirm signal m15 m5 = "SELL"%string
  <-> signal = "SELL"%string /\ m15 = "down"%string /\ m5 = "down"%string.
Proof.
  unfold confirm. split.
  - destruct (String.eqb signal "BUY" && String.eqb m15 "up"
              && String.eqb m5 "up") eqn:E; [intros H; discriminate H|].
    destruct (String.eqb signal "SELL" && String.eqb m15 "down"
              && String.eqb m5 "down") eqn:E'; [|intros H; discriminate H].
    intros _. apply andb_true_iff in E'. destruct E' as [E' E3].
    apply andb_true_iff in E'. destruct E' as [E1 E2].
    apply String.eqb_eq in E1, E2, E3. tauto.
  - intros (-> & -> & ->). reflexivity.
Qed.

Lemma confirm_flat (signal m15 m5 : string) :
  confirm signal m15 m5 = "FLAT"%string
  <-> ~ (signal = "BUY"%string /\ m15 = "up"%string /\ m5 = "up"%string)
      /\ ~ (signal = "SELL"%string /\ m15 = "down"%string /\ m5 = "down"%string).
Proof.
  rewrite <- confirm_buy, <- confirm_sell.
  destruct (confirm_values signal m15 m5) as [H|[H|H]]; rewrite H; split.
  - intros Heq. discriminate Heq.
  - intros [H1 _]. exfalso. apply H1. reflexivity.
  - intros Heq. discriminate Heq.
  - intros [_ H2]. exfalso. apply H2. reflexivity.
  - intros _. split; intros Heq; discriminate Heq.
  - reflexivity.
Qed.

(** An unconfirmed signal leaves no trace: no order, no trade. *)
Lemma process_instrument_flat (w : world) (lp : gmap string Q) (inst : string)
  (df : frame) (s : state) (m15 m5 : string) :
  get_higher_timeframe_trend w inst "M15" = Returned m15 ->
  get_higher_timeframe_trend w inst "M5" = Returned m5 ->
  confirm (m1_signal df) m15 m5 = "FLAT"%string ->
  snd (process_instrument w lp inst df s) = s.
Proof.
  intros H15 H5 Hc. unfold process_instrument.
  destruct (_ || _); [reflexivity|].
  destruct (last_row df) as [last|]; [|reflexivity].
  destruct (Qltb (row_ADX last) 25); [reflexivity|].
  unfold bind. rewrite H15. simpl. rewrite H5. simpl. rewrite Hc. reflexivity.
Qed.

Lemma stop_and_target_buy (p a : Q) :
  fst (stop_and_target "BUY" p a) == p - 1.5 * a
  /\ snd (stop_and_target "BUY" p a) == p + 3.0 * a.
Proof. unfold stop_and_target. simpl. split; ring. Qed.

Lemma stop_and_target_sell (p a : Q) :
  fst (stop_and_target "SELL" p a) == p + 1.5 * a
  /\ snd (stop_and_target "SELL" p a) == p - 3.0 * a.
Proof. unfold stop_and_target. simpl. split; ring. Qed.

(** The events of one instrument's pass: at most an order and the notice
    of its registration, the order being as planned. *)
Lemma process_instrument_orders (w : world) (lp : gmap string Q) (inst : string)
  (df : frame) (s : state) :
  exists evs, log (snd (process_instrument w lp inst df s)) = log s ++ evs
              /\ Forall (order_as_planned df) evs.
Proof.
  unfold process_instrument.
  destruct (_ || _); [exists []; rewrite app_nil_r; split; [reflexivity|constructor]|].
  destruct (last_row df) as [last|] eqn:Hlast;
    [|exists []; rewrite app_nil_r; split; [reflexivity|constructor]].
  destruct (Qltb (row_ADX last) 25);
    [exists []; rewrite app_nil_r; split; [reflexivity|constructor]|].
  unfold bind at 1.
  destruct (get_higher_timeframe_trend w inst "M15") as [m15|msg]; simpl;
    [|exists []; rewrite app_nil_r; split; [reflexivity|constructor]].
  unfold bind at 1.
  destruct (get_higher_timeframe_trend w inst "M5") as [m5|msg]; simpl;
    [|exists []; rewrite app_nil_r; split; [reflexivity|constructor]].
  destruct (confirm_values (m1_signal df) m15 m5) as [Hc|[Hc|Hc]]; rewrite Hc;
    simpl String.eqb; cbv iota; simpl orb; cbv iota.
  3: exists []; rewrite app_nil_r; split; [reflexivity|constructor].
  all: unfold bind at 1; simpl;
    destruct (_ || _);
      [exists []; rewrite app_nil_r; split; [reflexivity|constructor]|];
    unfold bind at 1;
    destruct (get_account_balance w (AtSizing inst)) as [bal|msg]; simpl;
      [|exists []; rewrite app_nil_r; split; [reflexivity|constructor]];
    unfold bind at 1;
    destruct (calculate_dynamic_position_size w bal RISK_PER_TRADE
                (row_ATR last) (row_close last)) as [size|msg]; simpl;
      [|exists []; rewrite app_nil_r; split; [reflexivity|constructor]].
  - unfold bind; simpl.
    destruct (place_order w inst "BUY" size _ _) as [[oid|]|msg]; simpl;
      [eexists [_; _]|eexists [_]|eexists [_]];
      (split; [rewrite <- ?app_assoc; reflexivity|]);
      (constructor; [|repeat constructor]); simpl; exists last;
      (split; [exact Hlast|]); left; repeat split; ring.
  - unfold bind; simpl.
    destruct (place_order w inst "SELL" size _ _) as [[oid|]|msg]; simpl;
      [eexists [_; _]|eexists [_]|eexists [_]];
      (split; [rewrite <- ?app_assoc; reflexivity|]);
      (constructor; [|repeat constructor]); simpl; exists last;
      (split; [exact Hlast|]); right; repeat split; ring.
Qed.

End DecisionFacts.
(* ===================================================================== *)
(** ** The controller: kill-switch and drawdown gate                      *)
(* ===================================================================== *)

Section RiskFacts.
Import Pandas Config MainBot MainBotSpec.

(** The pass of the loop when the drawdown gate trips. *)
Lemma gate_trips (w : world) (s : state) (equity bal : Q) :
  session_open w ->
  get_account_balance w AtDrawdownGate = Returned bal ->
  equity_in_force w s bal = Some equity ->
  ~ equity == 0 ->
  ((bal - equity) / equity) * 100 <= - DAILY_DRAWDOWN_LIMIT_PCT ->
  exists n l e d,
    loop_body w s
    = (Ok tt, mkState n l e d (heap s) (open_trades s)
                      (log s ++ [Email "Daily Drawdown Alert"; Sleep 60])).
Proof.
  intros [[Hh1 Hh2] Hwd] Hbal Heq Hnz Hdd.
  unfold loop_body, catch, iteration.
  replace (now_hour w <? 6)%Z with false by (symmetry; apply Z.ltb_ge; lia).
  replace (18 <? now_hour w)%Z with false by (symmetry; apply Z.ltb_ge; lia).
  replace (5 <=? now_weekday w)%Z with false by (symmetry; apply Z.leb_gt; lia).
  apply Qeq_bool_false in Hnz. apply Qle_bool_iff in Hdd.
  unfold equity_in_force in Heq. unfold daily_reset, bind, get.
  cbv beta iota delta [orb].
  destruct (last_date s) as [d|] eqn:Hd; [destruct (d =? now_date w)%Z eqn:Hday|].
  - simpl. rewrite Hbal. simpl.
    destruct (start_of_day_equity s) as [q|] eqn:Hq; injection Heq as ->;
      simpl; rewrite ?Hq; simpl; rewrite Hnz, Hdd; simpl;
      do 4 eexists; rewrite <- app_assoc; reflexivity.
  - simpl. destruct (get_account_balance w AtDayReset) as [q|msg];
      [|discriminate]. injection Heq as ->. simpl. rewrite Hbal. simpl.
    rewrite Hnz, Hdd. simpl.
    do 4 eexists. rewrite <- app_assoc. reflexivity.
  - simpl. destruct (get_account_balance w AtDayReset) as [q|msg];
      [|discriminate]. injection Heq as ->. simpl. rewrite Hbal. simpl.
    rewrite Hnz, Hdd. simpl.
    do 4 eexists. rewrite <- app_assoc. reflexivity.
Qed.

End RiskFacts.
(* ===================================================================== *)
(** ** The controller with the activation test left to the doubles        *)
(* ===================================================================== *)

Section RoundedFacts.
Import Pandas Config MainBot MainBotSpec Rounded RoundedSpec.

Lemma slack_nonneg (d : Q) : 0 <= slack d.
Proof.
  unfold slack, rounding_unit. pose proof (Qabs_nonneg d) as H.
  assert (H4 : 0 <= 4 * (1 # 4503599627370496)) by (vm_compute; discriminate).
  apply Qmult_le_0_compat; assumption.
Qed.






















(** The exact comparison is within rounding of itself. *)
Lemma exactly_within_rounding : within_rounding exactly.
Proof.
  intros t p. unfold exactly. simpl. split; intros H; apply Qltb_true in H.
  - pose proof (slack_nonneg (take_profit_price t - entry_price t)). lra.
  - pose proof (slack_nonneg (entry_price t - take_profit_price t)). lra.
Qed.


Lemma manage_trades_exactly (w : world) (lp : gmap string Q) (copy : list nat) :
  forall (i : nat) (s : state),
    Rounded.manage_trades exactly w lp i copy s
    = MainBot.manage_trades w lp i copy s.
Proof.
  induction copy as [|r rest IH]; intros i s; [reflexivity|].
  cbn [Rounded.manage_trades MainBot.manage_trades]. unfold bind.
  change (Rounded.manage_trade exactly w lp i r s)
    with (MainBot.manage_trade w lp i r s).
  destruct (MainBot.manage_trade w lp i r s) as [[u|e] s1]; [apply IH|reflexivity].
Qed.

(** With the exact comparison a pass is the pass of [MainBot]. *)
Lemma loop_body_exactly (w : world) (s : state) :
  Rounded.loop_body exactly w s = MainBot.loop_body w s.
Proof.
  assert (Hpm : forall lp s0, Rounded.position_management exactly w lp s0
                              = MainBot.position_management w lp s0).
  { intros lp s0. unfold Rounded.position_management, MainBot.position_management,
      bind, get. rewrite manage_trades_exactly. reflexivity. }
  assert (Htp : forall s0, Rounded.trading_pass exactly w s0
                           = MainBot.trading_pass w s0).
  { intros s0. unfold Rounded.trading_pass, MainBot.trading_pass, bind.
    destruct (fetch_all_instruments w INSTRUMENTS s0) as [[data|e] s1];
      [|reflexivity].
    destruct (process_instruments w ∅ data s1) as [[lp|e] s2]; [|reflexivity].
    rewrite Hpm. reflexivity. }
  unfold Rounded.loop_body, MainBot.loop_body, catch.
  assert (Hit : Rounded.iteration exactly w s = MainBot.iteration w s).
  { unfold Rounded.iteration, MainBot.iteration.
    destruct ((now_hour w <? 6)%Z || (18 <? now_hour w)%Z); [reflexivity|].
    destruct (5 <=? now_weekday w)%Z; [reflexivity|].
    unfold bind.
    destruct (daily_reset w s) as [[u|e] s1]; [|reflexivity].
    destruct (call (get_account_balance w AtDrawdownGate) s1) as [[bal|e] s2];
      [|reflexivity].
    destruct (get s2) as [[s3|e] s4]; [|reflexivity].
    destruct (match start_of_day_equity s3 with
              | Some _ => ret tt
              | None => set_equity bal
              end s4) as [[u'|e] s5]; [|reflexivity].
    destruct (get s5) as [[s6|e] s7]; [|reflexivity].
    destruct (as_float (start_of_day_equity s6) s7) as [[equity|e] s8];
      [|reflexivity].
    destruct (Qeq_bool equity 0); [reflexivity|].
    destruct (Qle_bool _ _); [reflexivity|]. apply Htp. }
  rewrite Hit. reflexivity.
Qed.

Lemma run_exactly (ws : list world) :
  forall s, Rounded.run (map (pair exactly) ws) s = MainBot.run ws s.
Proof.
  induction ws as [|w rest IH]; intros s; simpl; [reflexivity|].
  rewrite loop_body_exactly. apply IH.
Qed.

End RoundedFacts.

(* ===================================================================== *)
(** ** Main results                                                       *)
(* ===================================================================== *)

(** C1 (the code departs from the specification).  The specification asks
    for DX = 0 wherever the smoothed +DI and -DI add up to zero.
    [compute_adx] divides without a guard: for every series, every period
    of at least one bar and every row at which +DI + -DI is the number
    zero, the DX cell of that row is NaN. *)
Theorem compute_adx_dx_nan_on_zero_di_sum :
  forall (data : list Indicators.bar) (period i : nat) (p m : Pandas.fnum) (s : Q),
    (1 <= period)%nat ->
    Indicators.plus_DI (Indicators.adx_columns data period) !! i = Some p ->
    Indicators.minus_DI (Indicators.adx_columns data period) !! i = Some m ->
    Pandas.fadd p m = Pandas.Fin s -> s == 0 ->
    Indicators.DX (Indicators.adx_columns data period) !! i = Some Pandas.NaN.
Proof.
  intros data period i p m s Hp Hpi Hmi Hsum Hs.
  rewrite (adx_dx_row data period i p m Hpi Hmi). f_equal.
  destruct (adx_di_rows data period i p m Hp Hpi Hmi)
    as [a [b [t [Ha [Hb [-> ->]]]]]].
  apply (dx_of_zero_sum a b t s); assumption.
Qed.

(** On three bars without directional movement the second row has
    +DI = -DI = 0, its DX is NaN, and the ADX column is NaN throughout. *)
Lemma compute_adx_dx_nan_on_zero_di_sum_witness :
  Indicators.DX (Indicators.adx_columns Scenarios.flat_bars 14) !! 1%nat
  = Some Pandas.NaN
  /\ Indicators.compute_adx Scenarios.flat_bars 14
     = Some [Pandas.NaN; Pandas.NaN; Pandas.NaN].
Proof.
  split.
  - eapply (compute_adx_dx_nan_on_zero_di_sum Scenarios.flat_bars 14 1 _ _ _).
    + lia.
    + vm_compute. reflexivity.
    + vm_compute. reflexivity.
    + vm_compute. reflexivity.
    + vm_compute. reflexivity.
  - vm_compute. reflexivity.
Defined.

(** C2 (the code departs from the specification).  The specification asks
    for existing trades to be managed in the iteration in which the
    drawdown gate trips.  In the code that iteration ends at the gate:
    whenever the session is open and the balance is down on the
    start-of-day equity by the daily limit or more, the pass leaves every
    trade object and the open-trade list untouched and its only effects
    are the drawdown alert and the sleep; neither the trailing stop nor
    the kill-switch runs. *)
Theorem drawdown_gate_skips_position_management :
  forall (w : MainBot.world) (s : MainBot.state) (equity bal : Q),
    MainBotSpec.session_open w ->
    MainBot.get_account_balance w MainBot.AtDrawdownGate = MainBot.Returned bal ->
    MainBotSpec.equity_in_force w s bal = Some equity ->
    ~ equity == 0 ->
    ((bal - equity) / equity) * 100 <= - Config.DAILY_DRAWDOWN_LIMIT_PCT ->
    MainBot.heap (snd (MainBot.loop_body w s)) = MainBot.heap s
    /\ MainBot.open_trades (snd (MainBot.loop_body w s)) = MainBot.open_trades s
    /\ MainBot.log (snd (MainBot.loop_body w s))
       = MainBot.log s ++ [MainBot.Email "Daily Drawdown Alert"; MainBot.Sleep 60].
Proof.
  intros w s equity bal Hopen Hbal Heq Hnz Hdd.
  destruct (gate_trips w s equity bal Hopen Hbal Heq Hnz Hdd)
    as (n & l & e & d & H).
  rewrite H. simpl. repeat split; reflexivity.
Qed.

(** Start-of-day equity 10000, balance 9200 (a drawdown of 8 percent), one
    long position deep in loss: the pass stops at the gate, although the
    position management it skips would have fired the kill-switch. *)
Lemma drawdown_gate_skips_position_management_witness :
  ((9200 - 10000) / 10000) * 100 == - (8)
  /\ MainBot.open_trades (snd (MainBot.loop_body Scenarios.drawdown_world
                                                 Scenarios.holding)) = [0%nat]
  /\ MainBot.log (snd (MainBot.loop_body Scenarios.drawdown_world
                                         Scenarios.holding))
     = [MainBot.Email "Daily Drawdown Alert"; MainBot.Sleep 60]
  /\ MainBot.log (snd (MainBot.position_management Scenarios.drawdown_world ∅
                                                   Scenarios.holding))
     = [MainBot.Email "Daily Loss Limit Exceeded"; MainBot.KillSwitchClose [0%nat]].
Proof.
  split; [reflexivity|].
  destruct (drawdown_gate_skips_position_management
              Scenarios.drawdown_world Scenarios.holding 10000 9200)
    as (_ & Ho & Hl).
  - unfold MainBotSpec.session_open. simpl. lia.
  - reflexivity.
  - reflexivity.
  - intros H. vm_compute in H. discriminate H.
  - vm_compute. intros H. discriminate H.
  - split; [exact Ho|]. split; [exact Hl|]. vm_compute. reflexivity.
Defined.

(** C3 (the code departs from the specification).  The specification has
    the kill-switch look at the open trades on each iteration and close
    them all once the magnitude of the summed unrealized losses reaches
    equity * drawdownLimitPercent / 100.  In the code an iteration that
    trips the drawdown gate ends at the gate (the defect of C2), before
    the kill-switch: whenever the session is open and the balance is down
    on the start-of-day equity by the daily limit or more, the pass asks
    for no kill-switch close and leaves the open-trade list as it was,
    however large the unrealized losses of the open trades are, at
    whatever prices. *)
Theorem kill_switch_not_run_at_tripped_drawdown_gate :
  forall (w : MainBot.world) (lp : gmap string Q) (s : MainBot.state)
         (equity bal : Q),
    MainBotSpec.session_open w ->
    MainBot.get_account_balance w MainBot.AtDrawdownGate = MainBot.Returned bal ->
    MainBotSpec.equity_in_force w s bal = Some equity ->
    ~ equity == 0 ->
    ((bal - equity) / equity) * 100 <= - Config.DAILY_DRAWDOWN_LIMIT_PCT ->
    equity * (Config.DAILY_DRAWDOWN_LIMIT_PCT / 100)
      <= Qabs (MainBotSpec.loss_sum w lp (MainBot.heap s) 0 (MainBot.open_trades s)) ->
    MainBot.open_trades (snd (MainBot.loop_body w s)) = MainBot.open_trades s
    /\ exists evs,
         MainBot.log (snd (MainBot.loop_body w s)) = MainBot.log s ++ evs
         /\ forall rs, ~ In (MainBot.KillSwitchClose rs) evs.
Proof.
  intros w lp s equity bal Hopen Hbal Heq Hnz Hdd _.
  destruct (gate_trips w s equity bal Hopen Hbal Heq Hnz Hdd)
    as (n & l & e & d & H).
  rewrite H. simpl. split; [reflexivity|].
  eexists. split; [reflexivity|].
  intros rs [Hin|[Hin|[]]]; discriminate Hin.
Qed.

(** Start-of-day equity 10000 (limit 750), balance 9200, one long position
    1000 in loss at the last close: the pass ends at the gate and the
    position stays open, while the kill-switch step, run on that state,
    asks to close it and, the close succeeding, leaves no open trade. *)
Lemma kill_switch_not_run_at_tripped_drawdown_gate_witness :
  Qabs (MainBotSpec.loss_sum Scenarios.drawdown_world ∅
          (MainBot.heap Scenarios.holding) 0
          (MainBot.open_trades Scenarios.holding)) == 1000
  /\ MainBot.open_trades (snd (MainBot.loop_body Scenarios.drawdown_world
                                                 Scenarios.holding)) = [0%nat]
  /\ MainBot.kill_switch Scenarios.drawdown_world ∅ Scenarios.holding
     = (MainBot.Ok tt,
        MainBotSpec.killed Scenarios.drawdown_world Scenarios.holding)
  /\ MainBot.open_trades
       (MainBotSpec.killed Scenarios.drawdown_world Scenarios.holding) = [].
Proof.
  split; [vm_compute; reflexivity|].
  destruct (kill_switch_not_run_at_tripped_drawdown_gate
              Scenarios.drawdown_world ∅ Scenarios.holding 10000 9200)
    as (Ho & _).
  - unfold MainBotSpec.session_open. simpl. lia.
  - reflexivity.
  - reflexivity.
  - intros H. vm_compute in H. discriminate H.
  - vm_compute. intros H. discriminate H.
  - vm_compute. intros H. discriminate H.
  - split; [exact Ho|]. split; [|reflexivity]. vm_compute. reflexivity.
Defined.

(** C4.  The confirmed decision is BUY exactly when the base signal is BUY
    and the M15 and M5 trends are both up, SELL exactly when the base
    signal is SELL and both trends are down, and FLAT in every other case
    (so for BUY with M15 up and M5 down); on FLAT the instrument's pass
    places no order and registers no trade: the state stays as it was. *)
Theorem confirmation_gate :
  (forall signal m15 m5 : string,
      (MainBot.confirm signal m15 m5 = "BUY"%string
       <-> signal = "BUY"%string /\ m15 = "up"%string /\ m5 = "up"%string)
      /\ (MainBot.confirm signal m15 m5 = "SELL"%string
          <-> signal = "SELL"%string /\ m15 = "down"%string /\ m5 = "down"%string)
      /\ (MainBot.confirm signal m15 m5 = "FLAT"%string
          <-> ~ (signal = "BUY"%string /\ m15 = "up"%string /\ m5 = "up"%string)
              /\ ~ (signal = "SELL"%string /\ m15 = "down"%string
                    /\ m5 = "down"%string)))
  /\ MainBot.confirm "BUY" "up" "down" = "FLAT"%string
  /\ (forall (w : MainBot.world) (lp : gmap string Q) (inst : string)
             (df : MainBot.frame) (s : MainBot.state) (m15 m5 : string),
         MainBot.get_higher_timeframe_trend w inst "M15" = MainBot.Returned m15 ->
         MainBot.get_higher_timeframe_trend w inst "M5" = MainBot.Returned m5 ->
         MainBot.confirm (MainBot.m1_signal df) m15 m5 = "FLAT"%string ->
         snd (MainBot.process_instrument w lp inst df s) = s).
Proof.
  split; [|split].
  - intros signal m15 m5. split; [apply confirm_buy|].
    split; [apply confirm_sell|apply confirm_flat].
  - reflexivity.
  - intros w lp inst df s m15 m5. apply process_instrument_flat.
Qed.

(** BUY signal on EUR_USD with M15 up and M5 down: nothing happens. *)
Lemma confirmation_gate_witness :
  snd (MainBot.process_instrument Scenarios.split_trend_world ∅ "EUR_USD"
         (Scenarios.eur_frame 1.1000 "BUY") MainBot.initial)
  = MainBot.initial.
Proof.
  destruct confirmation_gate as (_ & _ & H).
  apply (H Scenarios.split_trend_world ∅ "EUR_USD"%string
           (Scenarios.eur_frame 1.1000 "BUY") MainBot.initial
           "up"%string "down"%string); reflexivity.
Defined.




(** C6.  For every entry price p and ATR a, the stop of a BUY is
    p - 1.5 a and its target p + 3.0 a, mirrored for a SELL; entry 1.1000
    with ATR 0.0010 gives stop 1.0985 and target 1.1030; and every order
    the instrument's pass places carries the stop and target computed in
    this way from the last close and the last ATR of its frame. *)
Theorem atr_stop_and_target :
  (forall p a : Q,
      fst (MainBot.stop_and_target "BUY" p a) == p - 1.5 * a
      /\ snd (MainBot.stop_and_target "BUY" p a) == p + 3.0 * a
      /\ fst (MainBot.stop_and_target "SELL" p a) == p + 1.5 * a
      /\ snd (MainBot.stop_and_target "SELL" p a) == p - 3.0 * a)
  /\ fst (MainBot.stop_and_target "BUY" 1.1000 0.0010) == 1.0985
  /\ snd (MainBot.stop_and_target "BUY" 1.1000 0.0010) == 1.1030
  /\ (forall (w : MainBot.world) (lp : gmap string Q) (inst : string)
             (df : MainBot.frame) (s : MainBot.state),
         exists evs,
           MainBot.log (snd (MainBot.process_instrument w lp inst df s))
           = MainBot.log s ++ evs
           /\ Forall (MainBotSpec.order_as_planned df) evs).
Proof.
  split; [|split; [|split]].
  - intros p a. destruct (stop_and_target_buy p a) as [H1 H2].
    destruct (stop_and_target_sell p a) as [H3 H4]. tauto.
  - reflexivity.
  - reflexivity.
  - apply process_instrument_orders.
Qed.

(** C7 (as amended).  On every row where a window of [period] bars is
    full, the middle band is the trailing simple moving average of close;
    for a period of two bars or more the upper and lower bands are that
    average plus and minus num_std times the square root of the sample
    variance of the window (squared deviations over period - 1); for a
    period of one bar the bands are undefined. *)
Theorem compute_bollinger_bands_sample_std :
  forall (data : list Indicators.bar) (period : nat) (k : Q) (i : nat),
    (1 <= period)%nat -> (period <= S i)%nat -> (i < length data)%nat ->
    (exists m, Indicators.BB_mid (Indicators.compute_bollinger_bands data period k) !! i
               = Some (Pandas.Fin m)
               /\ m == IndicatorSpec.sma_at data period i)
    /\ ((2 <= period)%nat ->
        Indicators.BB_upper (Indicators.compute_bollinger_bands data period k) !! i
        = Some (Some (IndicatorSpec.upper_at k
                        (IndicatorSpec.sma_at data period i)
                        (IndicatorSpec.sample_var_at data period i)))
        /\ Indicators.BB_lower (Indicators.compute_bollinger_bands data period k) !! i
           = Some (Some (IndicatorSpec.lower_at k
                           (IndicatorSpec.sma_at data period i)
                           (IndicatorSpec.sample_var_at data period i))))
    /\ (period = 1%nat ->
        Indicators.BB_upper (Indicators.compute_bollinger_bands data period k) !! i
        = Some None
        /\ Indicators.BB_lower (Indicators.compute_bollinger_bands data period k) !! i
           = Some None).
Proof.
  intros data period k i Hp Hpi Hi. split; [|split].
  - unfold Indicators.compute_bollinger_bands. simpl.
    apply mid_row; assumption.
  - intros H2. destruct (bollinger_rows data period k i H2 Hpi Hi) as (_ & Hu & Hl).
    split; assumption.
  - intros ->. apply bollinger_rows_period_one. exact Hi.
Qed.

Lemma compute_bollinger_bands_sample_std_witness :
  Indicators.BB_upper
    (Indicators.compute_bollinger_bands Scenarios.two_closes 2 2) !! 1%nat
  = Some (Some (IndicatorSpec.upper_at 2
                  (IndicatorSpec.sma_at Scenarios.two_closes 2 1)
                  (IndicatorSpec.sample_var_at Scenarios.two_closes 2 1))).
Proof.
  destruct (compute_bollinger_bands_sample_std Scenarios.two_closes 2 2 1)
    as (_ & H & _).
  - lia.
  - lia.
  - simpl. lia.
  - apply H. lia.
Defined.

(** C7 with the population standard deviation fails: with closes 1.1000
    and 1.1020, a window of 2 bars and 2 standard deviations, the upper
    band at the second row is not the mean plus twice the population
    standard deviation of the window. *)
Lemma bollinger_population_std_counterexample :
  Indicators.BB_upper
    (Indicators.compute_bollinger_bands Scenarios.two_closes 2 2) !! 1%nat
  <> Some (Some (IndicatorSpec.upper_at 2
                   (IndicatorSpec.sma_at Scenarios.two_closes 2 1)
                   (IndicatorSpec.population_var_at Scenarios.two_closes 2 1))).
Proof.
  destruct (bollinger_rows Scenarios.two_closes 2 2 1) as [_ [Hu _]];
    [lia|lia|simpl; lia|].
  rewrite Hu. intros H. injection H as H. unfold IndicatorSpec.upper_at in H.
  assert (H2 : Q2R 2 <> 0%R) by (unfold Q2R; simpl; lra).
  assert (Hnn : forall q, 0 <= q -> (0 <= Q2R q)%R).
  { intros q Hq. replace 0%R with (Q2R 0) by (unfold Q2R; simpl; lra).
    apply Qle_Rle. exact Hq. }
  apply Rplus_eq_reg_l, Rmult_eq_reg_l in H; [|exact H2].
  apply sqrt_inj in H.
  - apply eqR_Qeq in H. vm_compute in H. discriminate.
  - apply Hnn. vm_compute. discriminate.
  - apply Hnn. vm_compute. discriminate.
Qed.

(** C8.  For every close series and every period of at least one bar:
    every value of [compute_rsi] is either undefined (NaN) or a number in
    [0, 100]; the rows before row [period] are undefined; and from row
    [period] on the value is defined and equals
    100 - 100 / (1 + avg_gain / avg_loss'), where avg_loss' is the average
    loss with a zero replaced by the epsilon 1e-10. *)
Theorem compute_rsi_range_warmup_epsilon :
  forall (data : list Indicators.bar) (period : nat),
    (1 <= period)%nat ->
    (forall i x, Indicators.compute_rsi data period !! i = Some x ->
       x = Pandas.NaN \/ exists v, x = Pandas.Fin v /\ 0 <= v <= 100)
    /\ (forall i, (i < period)%nat -> (i < length data)%nat ->
          Indicators.compute_rsi data period !! i = Some Pandas.NaN)
    /\ (forall i, (period <= i)%nat -> (i < length data)%nat ->
          exists v, Indicators.compute_rsi data period !! i = Some (Pandas.Fin v)
                    /\ v == IndicatorSpec.rsi_at data period i)
    /\ Indicators.epsilon == 1 / 10000000000.
Proof.
  intros data period Hp. split; [|split; [|split]].
  - intros i x Hx.
    assert (Hi : (i < length data)%nat).
    { apply lookup_lt_Some in Hx. rewrite compute_rsi_length in Hx. exact Hx. }
    destruct (Nat.lt_ge_cases i period) as [Hlt|Hge].
    + left. rewrite (compute_rsi_warmup data period i Hlt Hi) in Hx. congruence.
    + right. destruct (compute_rsi_defined data period i Hp Hge Hi) as [v [Hv Hve]].
      exists v. split; [congruence|].
      pose proof (rsi_at_bounds data period i Hp) as Hb. rewrite Hve. exact Hb.
  - intros i Hlt Hi. apply compute_rsi_warmup; assumption.
  - intros i Hge Hi. apply compute_rsi_defined; assumption.
  - reflexivity.
Qed.

(** Four rising closes, period 2: no loss in any window, and the value at
    the last row is defined all the same. *)
Lemma compute_rsi_range_warmup_epsilon_witness :
  exists v, Indicators.compute_rsi Scenarios.rising_closes 2 !! 3%nat
            = Some (Pandas.Fin v)
            /\ v == IndicatorSpec.rsi_at Scenarios.rising_closes 2 3.
Proof.
  destruct (compute_rsi_range_warmup_epsilon Scenarios.rising_closes 2)
    as (_ & _ & H & _).
  - lia.
  - apply H; [lia|simpl; lia].
Defined.

(** C9.  From any state and over any number of passes of the loop, every
    trade object is still there afterwards with the side, entry and
    target it had, a [max_price] that is not lower and a [min_price] that
    is not higher: the favorable extreme of a BUY never decreases and that
    of a SELL never increases. *)
Theorem favorable_extreme_monotonic :
  forall (ws : list MainBot.world) (s : MainBot.state) (r : nat) (t : MainBot.trade),
    MainBot.heap s !! r = Some t ->
    exists t', MainBot.heap (MainBot.run ws s) !! r = Some t'
               /\ MainBotSpec.same_terms t t'
               /\ MainBotSpec.max_not_lower (MainBot.max_price t) (MainBot.max_price t')
               /\ MainBotSpec.min_not_higher (MainBot.min_price t) (MainBot.min_price t').
Proof.
  intros ws s r t Hr. destruct (advances_run ws s) as [Hh _ _].
  destruct (Hh r t Hr) as [t' [Ht' (H1 & H2 & H3)]]. exists t'. tauto.
Qed.

(** The BUY opened at 1.1000, followed while the price goes to 1.1020,
    1.1040 and back to 1.1020: its [max_price] ends at 1.1040. *)
Lemma favorable_extreme_monotonic_witness :
  exists t',
    MainBot.heap (MainBot.run [Scenarios.up_world_1; Scenarios.up_world_2;
                               Scenarios.back_world]
                    (MainBot.run [Scenarios.buy_world] MainBot.initial)) !! 0%nat
    = Some t'
    /\ MainBotSpec.max_not_lower (Some 1.1000) (MainBot.max_price t').
Proof.
  destruct (favorable_extreme_monotonic
              [Scenarios.up_world_1; Scenarios.up_world_2; Scenarios.back_world]
              (MainBot.run [Scenarios.buy_world] MainBot.initial) 0
              (MainBot.mkTrade "EUR_USD" "BUY" 1.1000 1000 "42" (Some 1.1000) None
                 (1.1000 + 0.0010 * 10000 * 1.5 * 0.0001 * 2.0)))
    as (t' & Ht' & _ & Hmax & _).
  - vm_compute. reflexivity.
  - exists t'. split; [exact Ht'|exact Hmax].
Defined.

(** C10.  After any number of passes of the loop from its initial state,
    every trade the controller registered has the shape it was registered
    with (a BUY has a price in [max_price] and None in [min_price], a SELL
    the reverse), and no pass ever failed with the TypeError that reading,
    comparing or updating a None extreme raises. *)
Theorem none_extreme_never_touched :
  forall ws : list MainBot.world,
    Forall MainBotSpec.registered_shape (MainBot.heap (MainBot.run ws MainBot.initial))
    /\ ~ In (MainBot.Fault MainBot.TypeError)
            (MainBot.log (MainBot.run ws MainBot.initial)).
Proof.
  intros ws. destruct (advances_run ws MainBot.initial) as [_ (evs & Hl & _ & Hf) Hs].
  assert (H0 : MainBotSpec.shaped MainBot.initial) by constructor.
  split; [exact (Hs H0)|].
  rewrite Hl. simpl. intros Hin.
  exact (proj1 (List.Forall_forall _ _) (Hf H0) _ Hin eq_refl).
Qed.

(* ===================================================================== *)
(** ** Exponential smoothing, MACD, ATR and the range of ADX              *)
(* ===================================================================== *)

Section SmoothingFacts.
Import Pandas Indicators IndicatorSpec.

Lemma Qmax_ltb (a b : Q) : Qmax a b = if Qltb a b then b else a.
Proof.
  unfold Qmax, GenericMinMax.gmax.
  destruct (a ?= b) eqn:C; destruct (Qltb a b) eqn:E; try reflexivity; exfalso.
  - apply Qltb_true in E. apply (proj2 (Qeq_alt a b)) in C. lra.
  - apply Qltb_false in E. apply (proj2 (Qlt_alt a b)) in C. lra.
  - apply Qltb_true in E. apply (proj2 (Qgt_alt a b)) in C. lra.
Qed.

Lemma fmax_skipna_fin (a b : Q) : fmax_skipna (Fin a) (Fin b) = Fin (Qmax a b).
Proof.
  unfold fmax_skipna, fgt. rewrite Qmax_ltb. destruct (Qltb a b); reflexivity.
Qed.

(** One step of the smoothing on two numbers is a weighted mean of them. *)
Lemma ewm_step_fin (alpha ow qw qc lo hi : Q) :
  0 < alpha <= 1 -> 0 <= ow -> lo <= qw <= hi -> lo <= qc <= hi ->
  exists q, ewm_step alpha (Fin qw, ow) (Fin qc) = (Fin q, 1) /\ lo <= q <= hi.
Proof.
  intros Ha Hw Hqw Hqc. unfold ewm_step, feqb, fmul, fadd, fdiv. simpl isnan.
  cbv iota.
  assert (Hw' : 0 <= ow * (1 - alpha)) by nra.
  rewrite (Qeq_bool_false (ow * (1 - alpha) + alpha) 0) by lra.
  destruct (Qeq_bool qw qc).
  - exists qw. split; [reflexivity|exact Hqw].
  - eexists. split; [reflexivity|]. split.
    + apply Qle_shift_div_l; [lra|]. nra.
    + apply Qle_shift_div_r; [lra|]. nra.
Qed.

Lemma ewm_step_between (alpha ow lo hi : Q) (w cur : fnum) :
  0 < alpha <= 1 -> 0 <= ow ->
  nan_or_between lo hi w -> nan_or_between lo hi cur ->
  nan_or_between lo hi (fst (ewm_step alpha (w, ow) cur))
  /\ 0 <= snd (ewm_step alpha (w, ow) cur).
Proof.
  intros Ha Hw [->|[qw [-> Hqw]]] [->|[qc [-> Hqc]]].
  - simpl. split; [left; reflexivity|exact Hw].
  - simpl. split; [right; exists qc; split; [reflexivity|exact Hqc]|exact Hw].
  - simpl. split; [right; exists qw; split; [reflexivity|exact Hqw]|nra].
  - destruct (ewm_step_fin alpha ow qw qc lo hi Ha Hw Hqw Hqc) as [q [-> Hq]].
    simpl. split; [right; exists q; split; [reflexivity|exact Hq]|lra].
Qed.

(** Smoothing a column of cells that are NaN or within [lo, hi] gives
    such a column. *)
Lemma ewm_from_between (alpha lo hi : Q) (xs : series) (w : fnum) (ow : Q) :
  0 < alpha <= 1 -> 0 <= ow -> nan_or_between lo hi w ->
  Forall (nan_or_between lo hi) xs ->
  Forall (nan_or_between lo hi) (ewm_from alpha (w, ow) xs).
Proof.
  intros Ha. revert w ow. induction xs as [|x xs IH]; intros w ow Hw Hb Hxs.
  - constructor.
  - inversion Hxs as [|x' xs' Hx Hrest]; subst.
    change (ewm_from alpha (w, ow) (x :: xs))
      with (fst (ewm_step alpha (w, ow) x)
            :: ewm_from alpha (ewm_step alpha (w, ow) x) xs).
    destruct (ewm_step_between alpha ow lo hi w x Ha Hw Hb Hx) as [H1 H2].
    constructor; [exact H1|].
    destruct (ewm_step alpha (w, ow) x) as [w' ow']. apply IH; assumption.
Qed.

Lemma ewm_mean_between (alpha lo hi : Q) (xs : series) :
  0 < alpha <= 1 -> Forall (nan_or_between lo hi) xs ->
  Forall (nan_or_between lo hi) (ewm_mean alpha xs).
Proof.
  intros Ha Hxs. destruct xs as [|x xs]; [constructor|].
  inversion Hxs as [|x' xs' Hx Hrest]; subst. simpl. constructor; [exact Hx|].
  apply ewm_from_between; try assumption. lra.
Qed.

(** On a column of numbers there is no NaN in the result either. *)
Lemma ewm_from_fin_between (alpha lo hi : Q) (xs : series) (q ow : Q) :
  0 < alpha <= 1 -> 0 <= ow -> lo <= q <= hi ->
  Forall (fin_between lo hi) xs ->
  Forall (fin_between lo hi) (ewm_from alpha (Fin q, ow) xs).
Proof.
  intros Ha. revert q ow. induction xs as [|x xs IH]; intros q ow Hw Hq Hxs.
  - constructor.
  - inversion Hxs as [|x' xs' [c [-> Hc]] Hrest]; subst.
    change (ewm_from alpha (Fin q, ow) (Fin c :: xs))
      with (fst (ewm_step alpha (Fin q, ow) (Fin c))
            :: ewm_from alpha (ewm_step alpha (Fin q, ow) (Fin c)) xs).
    destruct (ewm_step_fin alpha ow q c lo hi Ha Hw Hq Hc) as [q' [-> Hq']].
    simpl fst. constructor.
    + exists q'. split; [reflexivity|exact Hq'].
    + apply IH; try assumption. lra.
Qed.

Lemma ewm_mean_fin_between (alpha lo hi : Q) (xs : series) :
  0 < alpha <= 1 -> Forall (fin_between lo hi) xs ->
  Forall (fin_between lo hi) (ewm_mean alpha xs).
Proof.
  intros Ha Hxs. destruct xs as [|x xs]; [constructor|].
  inversion Hxs as [|x' xs' [c [-> Hc]] Hrest]; subst. simpl. constructor.
  - exists c. split; [reflexivity|exact Hc].
  - apply ewm_from_fin_between; try assumption. lra.
Qed.

Lemma ewm_from_length (alpha : Q) (xs : series) (st : fnum * Q) :
  length (ewm_from alpha st xs) = length xs.
Proof.
  revert st. induction xs as [|x xs IH]; intros st; simpl; [reflexivity|].
  rewrite IH. reflexivity.
Qed.

Lemma ewm_mean_length (alpha : Q) (xs : series) :
  length (ewm_mean alpha xs) = length xs.
Proof.
  destruct xs as [|x xs]; simpl; [reflexivity|].
  rewrite ewm_from_length. reflexivity.
Qed.

Lemma ewm_mean_lookup_0 (alpha : Q) (xs : series) :
  ewm_mean alpha xs !! 0%nat = xs !! 0%nat.
Proof. destruct xs; reflexivity. Qed.

Lemma span_alpha_range (span : nat) : (1 <= span)%nat -> 0 < span_alpha span <= 1.
Proof.
  intros H. unfold span_alpha.
  assert (H1 : 1 <= of_nat span).
  { unfold of_nat. change 1 with (inject_Z 1). rewrite <- Zle_Qle. lia. }
  split.
  - apply Qlt_shift_div_l; lra.
  - apply Qle_shift_div_r; lra.
Qed.

Lemma col_between (lo hi : Q) (f : bar -> Q) (data : list bar) :
  Forall (fun b => lo <= f b <= hi) data -> Forall (fin_between lo hi) (col f data).
Proof.
  intros H. unfold col. induction H as [|b data Hb _ IH]; simpl; constructor.
  - exists (f b). split; [reflexivity|exact Hb].
  - exact IH.
Qed.

Lemma fsub_between (lo hi : Q) (xs ys : series) :
  Forall (fin_between lo hi) xs -> Forall (fin_between lo hi) ys ->
  Forall (fin_between (- (hi - lo)) (hi - lo)) (map2 fsub xs ys).
Proof.
  intros Hx Hy. apply Forall_lookup. intros j z Hz. unfold map2 in Hz.
  apply lookup_zip_with_Some in Hz. destruct Hz as [x [y [-> [Hxj Hyj]]]].
  destruct (proj1 (Forall_lookup _ _) Hx j x Hxj) as [a [-> Ha]].
  destruct (proj1 (Forall_lookup _ _) Hy j y Hyj) as [b [-> Hb]].
  exists (a + - b). split; [reflexivity|lra].
Qed.

Lemma fin_between_lookup (lo hi : Q) (xs : series) (i : nat) :
  Forall (fin_between lo hi) xs -> (i < length xs)%nat ->
  exists q, xs !! i = Some (Fin q) /\ lo <= q <= hi.
Proof.
  intros H Hi. destruct (lookup_lt_is_Some_2 xs i Hi) as [x Hx].
  destruct (proj1 (Forall_lookup _ _) H i x Hx) as [q [-> Hq]].
  exists q. split; assumption.
Qed.

(** The rows of the true-range column. *)
Lemma true_range_length (data : list bar) :
  length (true_range data) = length data.
Proof.
  unfold true_range, map2.
  rewrite !length_zip_with, !length_map, !length_zip_with, length_shift1,
    !col_length. lia.
Qed.

Lemma true_range_lookup (data : list bar) (j : nat) :
  (j < length data)%nat -> true_range data !! j = Some (Fin (tr_at data j)).
Proof.
  intros Hj. unfold true_range.
  pose proof (col_lookup high data j Hj) as Hh.
  pose proof (col_lookup low data j Hj) as Hl.
  destruct j as [|k].
  - assert (Hs : shift1 (col close data) !! 0%nat = Some NaN).
    { apply lookup_shift1_0. rewrite col_length. exact Hj. }
    rewrite (lookup_map2 fmax_skipna _ _ 0 (Fin (tr_at data 0)) NaN);
      [reflexivity| |].
    + rewrite (lookup_map2 fmax_skipna _ _ 0 (Fin (tr_at data 0)) NaN);
        [reflexivity| |].
      * apply (lookup_map2 fsub _ _ 0 _ _ Hh Hl).
      * rewrite lookup_map, (lookup_map2 fsub _ _ 0 _ _ Hh Hs). reflexivity.
    + rewrite lookup_map, (lookup_map2 fsub _ _ 0 _ _ Hl Hs). reflexivity.
  - assert (Hs : shift1 (col close data) !! S k = Some (Fin (close_at data k))).
    { rewrite lookup_shift1_S by (rewrite col_length; exact Hj).
      apply col_lookup. lia. }
    erewrite lookup_map2.
    + simpl tr_at. rewrite <- !fmax_skipna_fin. reflexivity.
    + erewrite lookup_map2; [reflexivity| |].
      * apply (lookup_map2 fsub _ _ _ _ _ Hh Hl).
      * rewrite lookup_map, (lookup_map2 fsub _ _ _ _ _ Hh Hs). reflexivity.
    + rewrite lookup_map, (lookup_map2 fsub _ _ _ _ _ Hl Hs). reflexivity.
Qed.

Lemma tr_at_range (data : list bar) (j : nat) :
  high_at data j - low_at data j <= tr_at data j.
Proof.
  destruct j as [|k]; cbn [tr_at]; [lra|].
  eapply Qle_trans; [|apply Q.le_max_l]. apply Q.le_max_l.
Qed.

Lemma tr_at_nonneg (data : list bar) (j : nat) :
  (j = 0%nat -> low_at data 0 <= high_at data 0) -> 0 <= tr_at data j.
Proof.
  intros H. destruct j as [|k]; cbn [tr_at].
  - specialize (H eq_refl). lra.
  - eapply Qle_trans; [|apply Q.le_max_r]. apply Qabs_nonneg.
Qed.

Lemma true_range_nonneg (data : list bar) :
  Forall (fun b => low b <= high b) data -> Forall fin_nonneg (true_range data).
Proof.
  intros H. apply Forall_lookup. intros j x Hx.
  assert (Hj : (j < length data)%nat).
  { apply lookup_lt_Some in Hx. rewrite true_range_length in Hx. exact Hx. }
  rewrite true_range_lookup in Hx by exact Hj. injection Hx as <-.
  exists (tr_at data j). split; [reflexivity|]. apply tr_at_nonneg.
  intros ->. unfold low_at, high_at.
  destruct data as [|b data]; [simpl in Hj; lia|]. simpl.
  inversion H; subst. assumption.
Qed.

Lemma sum_range_le (f g : nat -> Q) (lo n : nat) :
  (forall j, f j <= g j) -> sum_range f lo n <= sum_range g lo n.
Proof.
  intros H. unfold sum_range.
  induction (seq lo n) as [|a l IH]; simpl; [lra|]. specialize (H a). lra.
Qed.

(** A window that is not yet full has no mean. *)
Lemma rolling_mean_short (w : nat) (xs : series) (i : nat) :
  (i < length xs)%nat -> (S i < w)%nat -> rolling_mean w xs !! i = Some NaN.
Proof.
  intros Hi Hw. rewrite rolling_mean_lookup by exact Hi. cbv zeta.
  assert (Hlen : (length (observations (window w i xs)) < w)%nat).
  { pose proof (List.filter_length_le (fun x => negb (isnan x)) (window w i xs))
      as Hf.
    rewrite window_length in Hf by exact Hi. unfold observations. lia. }
  apply Nat.ltb_lt in Hlen. rewrite Hlen. reflexivity.
Qed.

Lemma compute_atr_full (data : list bar) (period i : nat) :
  (1 <= period)%nat -> (period <= S i)%nat -> (i < length data)%nat ->
  exists q, compute_atr data period !! i = Some (Fin q)
            /\ q == atr_at data period i.
Proof.
  intros Hp Hpi Hi. eexists. split.
  - unfold compute_atr.
    apply (rolling_mean_full period _ i (tr_at data)); try lia.
    + rewrite true_range_length. exact Hi.
    + intros j _ Hj. apply true_range_lookup. lia.
  - unfold atr_at, sum_range. rewrite fold_left_Qplus.
    apply Qdiv_comp; [lra|reflexivity].
Qed.

(** The cells that feed the DX formula on well-formed bars: both smoothed
    movements and the smoothed range are non-negative numbers. *)
Lemma adx_di_rows_ranged (data : list bar) (period i : nat) (p m : fnum) :
  (1 <= period)%nat -> Forall (fun b => low b <= high b) data ->
  plus_DI (adx_columns data period) !! i = Some p ->
  minus_DI (adx_columns data period) !! i = Some m ->
  exists a b t, fin_nonneg a /\ fin_nonneg b /\ fin_nonneg t
                /\ p = scale100 (fdiv a t) /\ m = scale100 (fdiv b t).
Proof.
  intros Hp Hwf Hpi Hmi. unfold adx_columns in *. cbv zeta in *.
  simpl plus_DI in Hpi. simpl minus_DI in Hmi.
  rewrite lookup_map in Hpi. rewrite lookup_map in Hmi.
  apply fmap_Some in Hpi. destruct Hpi as [y [Hy ->]].
  apply fmap_Some in Hmi. destruct Hmi as [z [Hz ->]].
  unfold map2 at 1 in Hy. unfold map2 at 1 in Hz.
  apply lookup_zip_with_Some in Hy. destruct Hy as [a [t [-> [Ha Ht]]]].
  apply lookup_zip_with_Some in Hz. destruct Hz as [b [t' [-> [Hb Ht']]]].
  rewrite Ht in Ht'. injection Ht' as <-.
  exists a, b, t. repeat split.
  - refine (proj1 (Forall_lookup _ _) _ i a Ha).
    apply ewm_mean_nonneg; [apply alpha_range; exact Hp|].
    apply directional_cells, diff_col_cells.
  - refine (proj1 (Forall_lookup _ _) _ i b Hb).
    apply ewm_mean_nonneg; [apply alpha_range; exact Hp|].
    apply directional_cells, diff_col_cells.
  - refine (proj1 (Forall_lookup _ _) _ i t Ht).
    apply ewm_mean_nonneg; [apply alpha_range; exact Hp|].
    apply (true_range_nonneg data Hwf).
Qed.

Lemma dx_of_range (a b t : fnum) :
  fin_nonneg a -> fin_nonneg b -> fin_nonneg t ->
  nan_or_between 0 100 (dx_of (scale100 (fdiv a t)) (scale100 (fdiv b t))).
Proof.
  intros [qa [-> Ha]] [qb [-> Hb]] [qt [-> Ht]].
  unfold fdiv. destruct (Qeq_bool qt 0) eqn:Et.
  - left. rewrite (proj2 (Qltb_false qa 0)), (proj2 (Qltb_false qb 0)) by lra.
    destruct (Qeq_bool qa 0), (Qeq_bool qb 0); reflexivity.
  - apply Qeq_bool_neq in Et. assert (Hpos : 0 < qt) by lra.
    unfold dx_of, scale100, fmul, fsub, fneg, fadd, fabs, fdiv.
    pose proof (Qinv_lt_0_compat qt Hpos) as Hi.
    assert (Hpa : 0 <= qa / qt) by (unfold Qdiv; nra).
    assert (Hpb : 0 <= qb / qt) by (unfold Qdiv; nra).
    destruct (Qeq_bool (100 * (qa / qt) + 100 * (qb / qt)) 0) eqn:Es.
    + left. apply Qeq_bool_eq in Es.
      rewrite (Qeq_bool_true (Qabs _) 0); [reflexivity|].
      assert (Hle : Qabs (100 * (qa / qt) + - (100 * (qb / qt))) <= 0).
      { apply Qabs_Qle_condition. lra. }
      pose proof (Qabs_nonneg (100 * (qa / qt) + - (100 * (qb / qt)))). lra.
    + right. eexists. split; [reflexivity|].
      apply Qeq_bool_neq in Es.
      set (x := 100 * (qa / qt)) in *. set (y := 100 * (qb / qt)) in *.
      assert (Hx : 0 <= x) by (unfold x; lra).
      assert (Hy : 0 <= y) by (unfold y; lra).
      assert (Hs : 0 < x + y) by lra.
      assert (Habs : 0 <= Qabs (x + - y) <= x + y).
      { split; [apply Qabs_nonneg|]. apply Qabs_Qle_condition. lra. }
      assert (Hq : 0 <= Qabs (x + - y) / (x + y) <= 1).
      { split.
        - apply Qle_shift_div_l; lra.
        - apply Qle_shift_div_r; lra. }
      lra.
Qed.

Lemma adx_columns_DX_range (data : list bar) (period : nat) :
  (1 <= period)%nat -> Forall (fun b => low b <= high b) data ->
  Forall (nan_or_between 0 100) (DX (adx_columns data period)).
Proof.
  intros Hp Hwf. apply Forall_lookup. intros i x Hx.
  assert (Hlen : exists p m, plus_DI (adx_columns data period) !! i = Some p
                             /\ minus_DI (adx_columns data period) !! i = Some m).
  { unfold adx_columns in *. cbv zeta in *. simpl DX in Hx. simpl plus_DI.
    simpl minus_DI. unfold map2 at 1 in Hx.
    apply lookup_zip_with_Some in Hx. destruct Hx as [p [m [_ [H1 H2]]]].
    exists p, m. split; assumption. }
  destruct Hlen as [p [m [H1 H2]]].
  rewrite (adx_dx_row data period i p m H1 H2) in Hx. injection Hx as <-.
  destruct (adx_di_rows_ranged data period i p m Hp Hwf H1 H2)
    as [a [b [t [Ha [Hb [Ht [-> ->]]]]]]].
  apply dx_of_range; assumption.
Qed.

Lemma compute_macd_some (data : list bar) (fast slow signal : nat) (m : macd) :
  compute_macd data fast slow signal = Some m <->
  (1 <= fast)%nat /\ (1 <= slow)%nat /\ (1 <= signal)%nat
  /\ m = let macd_line :=
           map2 fsub (ewm_mean (span_alpha fast) (col close data))
                     (ewm_mean (span_alpha slow) (col close data)) in
         let signal_line := ewm_mean (span_alpha signal) macd_line in
         mkMacd macd_line signal_line (map2 fsub macd_line signal_line).
Proof.
  unfold compute_macd.
  destruct (Nat.ltb_spec fast 1); destruct (Nat.ltb_spec slow 1);
    destruct (Nat.ltb_spec signal 1); simpl; split;
    try discriminate; try (intros (? & ? & ? & _); lia).
  - intros H'. injection H' as <-. repeat split; assumption.
  - intros (_ & _ & _ & ->). reflexivity.
Qed.

(** Any finite list of bars has closes within some interval. *)
Lemma closes_bounded (data : list bar) :
  exists lo hi, Forall (fun b => lo <= close b <= hi) data.
Proof.
  induction data as [|b data [lo [hi IH]]].
  - exists 0, 0. constructor.
  - exists (Qmin lo (close b)), (Qmax hi (close b)). constructor.
    + split; [apply Q.le_min_r|apply Q.le_max_r].
    + eapply Forall_impl; [exact IH|]. intros x [H1 H2]. simpl. split.
      * eapply Qle_trans; [apply Q.le_min_l|exact H1].
      * eapply Qle_trans; [exact H2|apply Q.le_max_l].
Qed.

(** The MACD and signal columns when every close lies in [lo, hi]. *)
Lemma macd_columns_between (data : list bar) (fast slow signal : nat) (lo hi : Q) :
  (1 <= fast)%nat -> (1 <= slow)%nat -> (1 <= signal)%nat ->
  Forall (fun b => lo <= close b <= hi) data ->
  let macd_line :=
    map2 fsub (ewm_mean (span_alpha fast) (col close data))
              (ewm_mean (span_alpha slow) (col close data)) in
  Forall (fin_between (- (hi - lo)) (hi - lo)) macd_line
  /\ Forall (fin_between (- (hi - lo)) (hi - lo))
            (ewm_mean (span_alpha signal) macd_line)
  /\ length macd_line = length data.
Proof.
  intros Hf Hs Hg Hd macd_line.
  assert (Hm : Forall (fin_between (- (hi - lo)) (hi - lo)) macd_line).
  { apply fsub_between; apply ewm_mean_fin_between;
      try (apply span_alpha_range; assumption); apply col_between; exact Hd. }
  split; [exact Hm|]. split.
  - apply ewm_mean_fin_between; [apply span_alpha_range; exact Hg|exact Hm].
  - unfold macd_line, map2. rewrite length_zip_with, !ewm_mean_length, col_length.
    lia.
Qed.

Lemma nth_Forall (P : bar -> Prop) (data : list bar) (j : nat) :
  P bar0 -> Forall P data -> P (nth j data bar0).
Proof.
  intros H0 H. destruct (data !! j) as [b|] eqn:E.
  - rewrite (nth_lookup_Some _ _ _ _ E).
    exact (proj1 (Forall_lookup _ _) H j b E).
  - rewrite nth_overflow; [exact H0|]. apply lookup_ge_None in E. exact E.
Qed.

End SmoothingFacts.

(* ===================================================================== *)
(** ** detect_candlestick_patterns                                        *)
(* ===================================================================== *)

Section CandlestickFacts.
Import Pandas Indicators IndicatorSpec.

Lemma set_at_length (df : list labelled) (label : Z) (column : list Z) :
  length column = length df -> length (set_at df label column) = length df.
Proof. intros H. unfold set_at. rewrite length_zip_with. lia. Qed.

(** With a unique index, [df.at[label, column] = 1] writes one cell. *)
Lemma set_at_lookup (df : list labelled) (k : nat) (label : Z) (b : bar)
  (column : list Z) (j : nat) :
  unique_index df -> df !! k = Some (label, b) -> length column = length df ->
  set_at df label column !! j = if (j =? k)%nat then Some 1%Z else column !! j.
Proof.
  intros Hu Hk Hlen. unfold set_at. rewrite lookup_zip_with.
  destruct (df !! j) as [[l' b']|] eqn:Hj; simpl.
  - destruct (lookup_lt_is_Some_2 column j) as [v Hv].
    { rewrite Hlen. apply lookup_lt_Some in Hj. exact Hj. }
    rewrite Hv. simpl. destruct (Nat.eqb_spec j k) as [->|Hne].
    + rewrite Hk in Hj. injection Hj as <- <-. rewrite Z.eqb_refl. reflexivity.
    + destruct (Z.eqb_spec l' label) as [->|Hl]; [|reflexivity].
      exfalso. apply Hne. unfold unique_index in Hu.
      apply (NoDup_lookup _ j k label Hu).
      * rewrite lookup_map, Hj. reflexivity.
      * rewrite lookup_map, Hk. reflexivity.
  - apply lookup_ge_None in Hj.
    destruct (Nat.eqb_spec j k) as [->|Hne].
    + apply lookup_lt_Some in Hk. lia.
    + symmetry. apply lookup_ge_None. lia.
Qed.

(** The conditional write of one pass of the loop. *)
Lemma mark_lookup (df : list labelled) (k : nat) (label : Z) (b : bar)
  (column : list Z) (c : bool) (j : nat) :
  unique_index df -> df !! k = Some (label, b) -> length column = length df ->
  column !! k = Some 0%Z ->
  (if c then set_at df label column else column) !! j
  = if (j =? k)%nat then Some (flag c) else column !! j.
Proof.
  intros Hu Hk Hlen H0. destruct c.
  - apply (set_at_lookup df k label b); assumption.
  - destruct (Nat.eqb_spec j k) as [->|Hne]; [exact H0|reflexivity].
Qed.

Lemma mark_length (df : list labelled) (label : Z) (column : list Z) (c : bool) :
  length column = length df ->
  length (if c then set_at df label column else column) = length df.
Proof. intros H. destruct c; [apply set_at_length|]; exact H. Qed.

Lemma scan_patterns_length (df rest : list labelled) (prev : bar) (flags : patterns) :
  length (BullishEngulfing flags) = length df ->
  length (Hammer flags) = length df ->
  length (BullishEngulfing (scan_patterns df prev rest flags)) = length df
  /\ length (Hammer (scan_patterns df prev rest flags)) = length df.
Proof.
  revert prev flags. induction rest as [|[label curr] rest IH];
    intros prev flags H1 H2; simpl; [split; assumption|].
  apply IH; simpl; apply mark_length; assumption.
Qed.

Lemma bar_at_lookup (df : list labelled) (j : nat) (label : Z) (b : bar) :
  df !! j = Some (label, b) -> bar_at df j = b.
Proof.
  intros H. unfold bar_at. rewrite (nth_lookup_Some _ _ _ _ H). reflexivity.
Qed.

(** The loop invariant: the rows already visited carry their final flags,
    the rows to come are still 0. *)
Lemma scan_patterns_lookup (df : list labelled) :
  unique_index df ->
  forall (rest pre : list labelled) (prev : bar) (flags : patterns),
    df = pre ++ rest -> (1 <= length pre)%nat ->
    bar_at df (length pre - 1) = prev ->
    length (BullishEngulfing flags) = length df ->
    length (Hammer flags) = length df ->
    (forall j, (j < length pre)%nat ->
       BullishEngulfing flags !! j = Some (flag (engulfing_at df j))
       /\ Hammer flags !! j = Some (flag (hammer_at df j))) ->
    (forall j, (length pre <= j)%nat -> (j < length df)%nat ->
       BullishEngulfing flags !! j = Some 0%Z /\ Hammer flags !! j = Some 0%Z) ->
    forall j, (j < length df)%nat ->
      BullishEngulfing (scan_patterns df prev rest flags) !! j
      = Some (flag (engulfing_at df j))
      /\ Hammer (scan_patterns df prev rest flags) !! j
         = Some (flag (hammer_at df j)).
Proof.
  intros Hu. induction rest as [|[label curr] rest IH];
    intros pre prev flags Hdf Hpre Hprev Hl1 Hl2 Hdone Htodo j Hj.
  - simpl. apply Hdone. rewrite Hdf, app_nil_r in Hj. exact Hj.
  - simpl scan_patterns.
    assert (Hk : df !! length pre = Some (label, curr)).
    { rewrite Hdf. rewrite lookup_app_r by lia.
      replace (length pre - length pre)%nat with 0%nat by lia. reflexivity. }
    assert (Hlt : (length pre < length df)%nat)
      by (apply lookup_lt_Some in Hk; exact Hk).
    destruct (Htodo (length pre) ltac:(lia) Hlt) as [Hz1 Hz2].
    assert (Hcur : bar_at df (length pre) = curr)
      by (apply (bar_at_lookup _ _ label); exact Hk).
    apply (IH (pre ++ [(label, curr)])); clear IH.
    + rewrite Hdf, <- app_assoc. reflexivity.
    + rewrite length_app. simpl. lia.
    + rewrite length_app. simpl.
      replace (length pre + 1 - 1)%nat with (length pre) by lia. exact Hcur.
    + simpl. apply mark_length. exact Hl1.
    + simpl. apply mark_length. exact Hl2.
    + intros i Hi. rewrite length_app in Hi. simpl in Hi. simpl.
      rewrite (mark_lookup df (length pre) label curr) by assumption.
      rewrite (mark_lookup df (length pre) label curr) by assumption.
      destruct (Nat.eqb_spec i (length pre)) as [->|Hne].
      * destruct (length pre) as [|k] eqn:Ek; [lia|].
        unfold engulfing_at, hammer_at. rewrite Hcur.
        replace (S k - 1)%nat with k in Hprev by lia. rewrite Hprev.
        split; reflexivity.
      * apply Hdone. lia.
    + intros i Hi1 Hi2. rewrite length_app in Hi1. simpl in Hi1. simpl.
      rewrite (mark_lookup df (length pre) label curr) by assumption.
      rewrite (mark_lookup df (length pre) label curr) by assumption.
      destruct (Nat.eqb_spec i (length pre)) as [->|Hne]; [lia|].
      apply Htodo; lia.
    + exact Hj.
Qed.

Lemma detect_length (df : list labelled) :
  length (BullishEngulfing (detect_candlestick_patterns df)) = length df
  /\ length (Hammer (detect_candlestick_patterns df)) = length df.
Proof.
  unfold detect_candlestick_patterns. destruct df as [|[l first] rest].
  - split; reflexivity.
  - apply scan_patterns_length; simpl; rewrite length_map; reflexivity.
Qed.

Lemma detect_lookup (df : list labelled) (j : nat) :
  unique_index df -> (j < length df)%nat ->
  BullishEngulfing (detect_candlestick_patterns df) !! j
  = Some (flag (engulfing_at df j))
  /\ Hammer (detect_candlestick_patterns df) !! j
     = Some (flag (hammer_at df j)).
Proof.
  intros Hu Hj. unfold detect_candlestick_patterns.
  destruct df as [|[l first] rest]; [simpl in Hj; lia|].
  assert (Hz : forall i, (i < length ((l, first) :: rest))%nat ->
                 map (fun _ : labelled => 0%Z) ((l, first) :: rest) !! i
                 = Some 0%Z).
  { intros i Hi. rewrite lookup_map.
    destruct (lookup_lt_is_Some_2 _ i Hi) as [x ->]. reflexivity. }
  apply (scan_patterns_lookup _ Hu rest [(l, first)] first); simpl;
    try reflexivity; try lia.
  - rewrite length_map. reflexivity.
  - rewrite length_map. reflexivity.
  - intros i Hi. assert (i = 0%nat) as -> by lia. split; reflexivity.
  - intros i _ Hi. split; apply Hz; simpl; exact Hi.
  - simpl in Hj. exact Hj.
Qed.

Lemma flag_one (c : bool) : flag c = 1%Z -> c = true.
Proof. destruct c; [reflexivity|discriminate]. Qed.

(** Raising the high of a bar keeps the hammer test satisfied. *)
Lemma hammer_with_high (l : Z) (b : bar) (h : Q) :
  high b <= h -> hammer b = true -> hammer (snd (with_high h (l, b))) = true.
Proof.
  intros Hh H. unfold hammer in *. unfold with_high.
  cbn [snd fst open high low close].
  apply andb_true_iff in H. destruct H as [H1 H2].
  apply andb_true_iff. split; [|exact H2].
  apply Qle_bool_iff in H1. apply Qle_bool_iff. lra.
Qed.

Lemma unique_index_insert (df : list labelled) (j : nat) (r : labelled) (h : Q) :
  df !! j = Some r -> unique_index df -> unique_index (<[j := with_high h r]> df).
Proof.
  intros Hj Hu. unfold unique_index in *.
  rewrite map_as_fmap, list_fmap_insert, <- map_as_fmap.
  rewrite list_insert_id; [exact Hu|]. rewrite lookup_map, Hj. reflexivity.
Qed.

Lemma bar_at_insert (df : list labelled) (j i : nat) (r : labelled) (h : Q) :
  df !! j = Some r ->
  bar_at (<[j := with_high h r]> df) i
  = if (i =? j)%nat then snd (with_high h r) else bar_at df i.
Proof.
  intros Hj. unfold bar_at. destruct (Nat.eqb_spec i j) as [->|Hne].
  - erewrite nth_lookup_Some; [reflexivity|].
    apply list_lookup_insert_eq. apply lookup_lt_Some in Hj. exact Hj.
  - destruct (df !! i) as [x|] eqn:Hi.
    + erewrite !nth_lookup_Some; [reflexivity|exact Hi|].
      rewrite list_lookup_insert_ne by auto. exact Hi.
    + rewrite !nth_overflow; [reflexivity| |].
      * apply lookup_ge_None in Hi. exact Hi.
      * rewrite length_insert. apply lookup_ge_None in Hi. exact Hi.
Qed.

Lemma bar_at_insert_body (df : list labelled) (j i : nat) (r : labelled) (h : Q) :
  df !! j = Some r ->
  open (bar_at (<[j := with_high h r]> df) i) = open (bar_at df i)
  /\ close (bar_at (<[j := with_high h r]> df) i) = close (bar_at df i).
Proof.
  intros Hj. rewrite (bar_at_insert df j i r h Hj).
  destruct (Nat.eqb_spec i j) as [->|Hne]; [|split; reflexivity].
  destruct r as [l b]. rewrite (bar_at_lookup df j l b Hj). split; reflexivity.
Qed.

Lemma engulfing_at_insert (df : list labelled) (j i : nat) (r : labelled) (h : Q) :
  df !! j = Some r ->
  engulfing_at (<[j := with_high h r]> df) i = engulfing_at df i.
Proof.
  intros Hj. destruct i as [|k]; [reflexivity|]. unfold engulfing_at, engulfing.
  destruct (bar_at_insert_body df j k r h Hj) as [-> ->].
  destruct (bar_at_insert_body df j (S k) r h Hj) as [-> ->].
  reflexivity.
Qed.

End CandlestickFacts.

(* ===================================================================== *)
(** ** data_fetch.py: the download loop                                   *)
(* ===================================================================== *)

Section DataFetchFacts.
Import Indicators DataFetch DataFetchSpec.

Variable api : client.
Variables instrument granularity : string.
Variable end_dt : Z.

Lemma CHUNK_pos : (0 < CHUNK)%Z.
Proof. reflexivity. Qed.

Lemma SECOND_pos : (0 < SECOND)%Z.
Proof. reflexivity. Qed.

(** One iteration of the loop, by the three ways it can go. *)
Lemma fetch_loop_step (fuel : nat) (cur : Z) (acc : fetched) :
  fetch_loop (S fuel) api instrument granularity end_dt cur acc
  = let req := request_at instrument granularity end_dt cur in
    match api req with
    | V20Error => Some (with_request acc req)
    | Candles [] => Some (with_request acc req)
    | Candles candles =>
        if (end_dt <=? cur + CHUNK)%Z then Some (with_chunk acc req candles)
        else fetch_loop fuel api instrument granularity end_dt
               (cur + CHUNK + SECOND)%Z (with_chunk acc req candles)
    end.
Proof.
  cbn [fetch_loop]. cbv zeta. unfold request_at.
  destruct (Z.ltb_spec end_dt (cur + CHUNK)) as [Hlt|Hge].
  - rewrite Z.min_r by lia.
    destruct (api _) as [|[|c cs]]; try reflexivity.
    rewrite Z.leb_refl. rewrite (proj2 (Z.leb_le end_dt (cur + CHUNK))) by lia.
    reflexivity.
  - rewrite Z.min_l by lia.
    destruct (api _) as [|[|c cs]]; reflexivity.
Qed.

(** Induction over the iterations of a loop that comes to its end. *)
Lemma fetch_loop_ind (P : Z -> fetched -> fetched -> Prop) :
  (forall cur acc,
     stops_early api (request_at instrument granularity end_dt cur) ->
     P cur acc (with_request acc (request_at instrument granularity end_dt cur))) ->
  (forall cur acc c cs,
     api (request_at instrument granularity end_dt cur) = Candles (c :: cs) ->
     (end_dt <= cur + CHUNK)%Z ->
     P cur acc (with_chunk acc (request_at instrument granularity end_dt cur)
                  (c :: cs))) ->
  (forall cur acc c cs r,
     api (request_at instrument granularity end_dt cur) = Candles (c :: cs) ->
     (cur + CHUNK < end_dt)%Z ->
     P (cur + CHUNK + SECOND)%Z
       (with_chunk acc (request_at instrument granularity end_dt cur) (c :: cs)) r ->
     P cur acc r) ->
  forall fuel cur acc r,
    fetch_loop fuel api instrument granularity end_dt cur acc = Some r ->
    P cur acc r.
Proof.
  intros Hstop Hlast Hnext. induction fuel as [|fuel IH]; intros cur acc r H.
  - discriminate.
  - rewrite fetch_loop_step in H. cbv zeta in H.
    destruct (api (request_at instrument granularity end_dt cur))
      as [|[|c cs]] eqn:E.
    + injection H as <-. apply Hstop. left. exact E.
    + injection H as <-. apply Hstop. right. exact E.
    + destruct (Z.leb_spec end_dt (cur + CHUNK)) as [Hle|Hgt].
      * injection H as <-. apply (Hlast cur acc c cs E Hle).
      * apply (Hnext cur acc c cs r E Hgt). apply IH. exact H.
Qed.

(** The iterations left when the loop is at [cur]. *)
Lemma enough_step (cur : Z) :
  (cur + CHUNK < end_dt)%Z ->
  enough cur end_dt = S (enough (cur + CHUNK + SECOND) end_dt).
Proof.
  intros H. unfold enough. f_equal.
  pose proof CHUNK_pos. pose proof SECOND_pos.
  replace (end_dt - cur + SECOND - 1)%Z
    with ((end_dt - (cur + CHUNK + SECOND) + SECOND - 1)
          + 1 * (CHUNK + SECOND))%Z by lia.
  rewrite Z.div_add by lia.
  assert (0 <= (end_dt - (cur + CHUNK + SECOND) + SECOND - 1) / (CHUNK + SECOND))%Z
    by (apply Z.div_pos; lia).
  lia.
Qed.

(** With enough fuel the loop comes to its end, after at most that many
    requests. *)
Lemma fetch_loop_terminates (fuel : nat) :
  forall cur acc,
    (enough cur end_dt <= fuel)%nat ->
    exists r, fetch_loop fuel api instrument granularity end_dt cur acc = Some r
              /\ (length (sent r) <= length (sent acc) + enough cur end_dt)%nat.
Proof.
  induction fuel as [|fuel IH]; intros cur acc Hf.
  - unfold enough in Hf. lia.
  - rewrite fetch_loop_step. cbv zeta.
    assert (H1 : (1 <= enough cur end_dt)%nat) by (unfold enough; lia).
    destruct (api (request_at instrument granularity end_dt cur)) as [|[|c cs]].
    + eexists. split; [reflexivity|]. simpl. rewrite length_app. simpl. lia.
    + eexists. split; [reflexivity|]. simpl. rewrite length_app. simpl. lia.
    + destruct (Z.leb_spec end_dt (cur + CHUNK)) as [Hle|Hgt].
      * eexists. split; [reflexivity|]. simpl. rewrite length_app. simpl. lia.
      * rewrite (enough_step cur Hgt) in Hf |- *.
        destruct (IH (cur + CHUNK + SECOND)%Z
                    (with_chunk acc (request_at instrument granularity end_dt cur)
                       (c :: cs)) ltac:(lia)) as [r [Hr Hlen]].
        exists r. split; [exact Hr|].
        simpl in Hlen. rewrite length_app in Hlen. simpl in Hlen. lia.
Qed.

(** More fuel than needed changes nothing. *)
Lemma fetch_loop_more_fuel (fuel fuel' : nat) (cur : Z) (acc r : fetched) :
  (fuel <= fuel')%nat ->
  fetch_loop fuel api instrument granularity end_dt cur acc = Some r ->
  fetch_loop fuel' api instrument granularity end_dt cur acc = Some r.
Proof.
  revert fuel' cur acc. induction fuel as [|fuel IH]; intros fuel' cur acc Hle H.
  - discriminate.
  - destruct fuel' as [|fuel']; [lia|].
    rewrite fetch_loop_step in H |- *. cbv zeta in *.
    destruct (api (request_at instrument granularity end_dt cur)) as [|[|c cs]];
      try exact H.
    destruct (Z.leb_spec end_dt (cur + CHUNK)); [exact H|].
    apply IH; [lia|exact H].
Qed.

(** The requests are the windows in order, and at least one is sent. *)
Lemma fetch_loop_requests (start_dt : Z) (fuel : nat) (cur : Z) (acc r : fetched) :
  fetch_loop fuel api instrument granularity end_dt cur acc = Some r ->
  cur = window_from start_dt (length (sent acc)) ->
  (forall k q, sent acc !! k = Some q ->
     q = request_at instrument granularity end_dt (window_from start_dt k)) ->
  (length (sent acc) < length (sent r))%nat
  /\ forall k q, sent r !! k = Some q ->
       q = request_at instrument granularity end_dt (window_from start_dt k).
Proof.
  intros H. revert fuel cur acc r H.
  apply (fetch_loop_ind
           (fun cur acc r =>
              cur = window_from start_dt (length (sent acc)) ->
              (forall k q, sent acc !! k = Some q ->
                 q = request_at instrument granularity end_dt
                       (window_from start_dt k)) ->
              (length (sent acc) < length (sent r))%nat
              /\ forall k q, sent r !! k = Some q ->
                   q = request_at instrument granularity end_dt
                         (window_from start_dt k))).
  - intros cur acc _ Hcur Hacc. simpl. rewrite length_app. simpl.
    split; [lia|]. intros k q Hk.
    apply lookup_app_Some in Hk. destruct Hk as [Hk|[Hlen Hk]].
    + apply Hacc. exact Hk.
    + apply list_lookup_singleton_Some in Hk. destruct Hk as [Hk <-].
      rewrite Hcur. f_equal. f_equal. lia.
  - intros cur acc c cs _ _ Hcur Hacc. simpl. rewrite length_app. simpl.
    split; [lia|]. intros k q Hk.
    apply lookup_app_Some in Hk. destruct Hk as [Hk|[Hlen Hk]].
    + apply Hacc. exact Hk.
    + apply list_lookup_singleton_Some in Hk. destruct Hk as [Hk <-].
      rewrite Hcur. f_equal. f_equal. lia.
  - intros cur acc c cs r _ _ IH Hcur Hacc.
    simpl in IH. rewrite length_app in IH. simpl in IH.
    destruct IH as [Hlen Hall].
    + rewrite Hcur. unfold window_from. lia.
    + intros k q Hk.
      apply lookup_app_Some in Hk. destruct Hk as [Hk|[Hlen Hk]].
      * apply Hacc. exact Hk.
      * apply list_lookup_singleton_Some in Hk. destruct Hk as [Hk <-].
        rewrite Hcur. f_equal. f_equal. lia.
    + split; [lia|exact Hall].
Qed.

(** Every request but the last was answered with candles; the last one
    ended the loop early or reached the end of the period. *)
Lemma fetch_loop_last (fuel : nat) (cur : Z) (acc r : fetched) :
  fetch_loop fuel api instrument granularity end_dt cur acc = Some r ->
  Forall (fun q => exists c cs, api q = Candles (c :: cs)) (sent acc) ->
  exists pre q,
    sent r = pre ++ [q]
    /\ Forall (fun q' => exists c cs, api q' = Candles (c :: cs)) pre
    /\ (stops_early api q \/ to q = end_dt).
Proof.
  intros H. revert fuel cur acc r H.
  apply (fetch_loop_ind
           (fun cur acc r =>
              Forall (fun q => exists c cs, api q = Candles (c :: cs)) (sent acc) ->
              exists pre q,
                sent r = pre ++ [q]
                /\ Forall (fun q' => exists c cs, api q' = Candles (c :: cs)) pre
                /\ (stops_early api q \/ to q = end_dt))).
  - intros cur acc Hs Hacc. exists (sent acc), (request_at instrument granularity end_dt cur).
    split; [reflexivity|]. split; [exact Hacc|]. left. exact Hs.
  - intros cur acc c cs _ Hle Hacc.
    exists (sent acc), (request_at instrument granularity end_dt cur).
    split; [reflexivity|]. split; [exact Hacc|]. right. simpl. lia.
  - intros cur acc c cs r E _ IH Hacc. apply IH. simpl.
    apply Forall_app. split; [exact Hacc|]. constructor; [|constructor].
    exists c, cs. exact E.
Qed.

Lemma received_app (reqs1 reqs2 : list request) :
  received api (reqs1 ++ reqs2) = received api reqs1 ++ received api reqs2.
Proof. unfold received. apply flat_map_app. Qed.

(** The chunks kept are the complete candles of the answers. *)
Lemma fetch_loop_received (fuel : nat) (cur : Z) (acc r : fetched) :
  fetch_loop fuel api instrument granularity end_dt cur acc = Some r ->
  concat (all_candles acc) = received api (sent acc) ->
  concat (all_candles r) = received api (sent r).
Proof.
  intros H. revert fuel cur acc r H.
  apply (fetch_loop_ind
           (fun cur acc r =>
              concat (all_candles acc) = received api (sent acc) ->
              concat (all_candles r) = received api (sent r))).
  - intros cur acc Hs Hacc. simpl. rewrite received_app, <- Hacc.
    unfold received at 1. simpl.
    destruct Hs as [->| ->]; simpl; rewrite app_nil_r; reflexivity.
  - intros cur acc c cs E _ Hacc. simpl. rewrite received_app, <- Hacc.
    unfold received at 1. simpl. rewrite E, app_nil_r.
    destruct (chunk_rows (c :: cs)) eqn:Er.
    + rewrite app_nil_r. reflexivity.
    + rewrite concat_app. simpl. rewrite app_nil_r. reflexivity.
  - intros cur acc c cs r E _ IH Hacc. apply IH. simpl.
    rewrite received_app, <- Hacc.
    unfold received at 1. simpl. rewrite E, app_nil_r.
    destruct (chunk_rows (c :: cs)) eqn:Er.
    + rewrite app_nil_r. reflexivity.
    + rewrite concat_app. simpl. rewrite app_nil_r. reflexivity.
Qed.

End DataFetchFacts.

(* ===================================================================== *)
(** ** data_fetch.py: duplicates and order                                *)
(* ===================================================================== *)

Section FrameFacts.
Import Indicators DataFetch DataFetchSpec.

#[local] Instance by_time_total : Total by_time.
Proof. intros r1 r2. unfold by_time. lia. Qed.

#[local] Instance by_time_trans : Transitive by_time.
Proof. intros r1 r2 r3. unfold by_time. lia. Qed.

Lemma drop_duplicated_labels (rows : list labelled) :
  forall seen,
    NoDup (map fst (drop_duplicated seen rows))
    /\ forall t, t ∈ map fst (drop_duplicated seen rows) -> t ∉ seen.
Proof.
  induction rows as [|[t b] rows IH]; intros seen; simpl.
  - split; [constructor|]. intros t H. inversion H.
  - destruct (bool_decide_reflect (t ∈ seen)) as [Hin|Hn]; [apply IH|].
    destruct (IH (t :: seen)) as [Hnd Hfresh]. simpl. split.
    + constructor; [|exact Hnd]. intros Hin. apply (Hfresh t Hin). left.
    + intros t' Ht'. apply elem_of_cons in Ht'. destruct Ht' as [->|Ht'].
      * exact Hn.
      * intros Hs. apply (Hfresh t' Ht'). right. exact Hs.
Qed.

(** What a lookup by time finds once the repeated labels are dropped. *)
Lemma first_bar_drop_duplicated (t : Z) (rows : list labelled) :
  forall seen,
    first_bar t (drop_duplicated seen rows)
    = if bool_decide (t ∈ seen) then None else first_bar t rows.
Proof.
  induction rows as [|[t' b] rows IH]; intros seen; simpl.
  - destruct (bool_decide (t ∈ seen)); reflexivity.
  - destruct (bool_decide_reflect (t' ∈ seen)) as [Hin|Hn].
    + rewrite IH. destruct (bool_decide_reflect (t ∈ seen)) as [Ht|Ht];
        [reflexivity|].
      destruct (Z.eqb_spec t' t) as [->|Hne]; [contradiction|reflexivity].
    + simpl. destruct (Z.eqb_spec t' t) as [->|Hne].
      * destruct (bool_decide_reflect (t ∈ seen)); [contradiction|reflexivity].
      * rewrite IH.
        destruct (bool_decide_reflect (t ∈ t' :: seen)) as [Ht|Ht];
          destruct (bool_decide_reflect (t ∈ seen)) as [Hs|Hs]; try reflexivity.
        -- apply elem_of_cons in Ht. destruct Ht as [->|Ht]; contradiction.
        -- exfalso. apply Ht. right. exact Hs.
Qed.

(** With a unique index a lookup by time finds the one row of that time. *)
Lemma first_bar_elem (t : Z) (b : bar) (rows : list labelled) :
  NoDup (map fst rows) -> (first_bar t rows = Some b <-> (t, b) ∈ rows).
Proof.
  induction rows as [|[t' b'] rows IH]; intros Hnd; simpl.
  - split; [discriminate|]. intros H. inversion H.
  - apply NoDup_cons in Hnd. destruct Hnd as [Hn Hnd]. simpl in Hn.
    destruct (Z.eqb_spec t' t) as [->|Hne].
    + split.
      * intros H. injection H as ->. left.
      * intros H. apply elem_of_cons in H. destruct H as [H|H].
        -- injection H as ->. reflexivity.
        -- exfalso. apply Hn. apply list_elem_of_In, in_map_iff.
           exists (t, b). split; [reflexivity|]. apply list_elem_of_In. exact H.
    + rewrite (IH Hnd). split.
      * intros H. right. exact H.
      * intros H. apply elem_of_cons in H. destruct H as [H|H]; [|exact H].
        injection H as -> _. contradiction.
Qed.

Lemma first_bar_Permutation (t : Z) (rows rows' : list labelled) :
  rows ≡ₚ rows' -> NoDup (map fst rows) ->
  first_bar t rows = first_bar t rows'.
Proof.
  intros Hp Hnd.
  assert (Hnd' : NoDup (map fst rows')).
  { rewrite map_as_fmap in *. rewrite <- Hp. exact Hnd. }
  destruct (first_bar t rows) as [b|] eqn:E.
  - symmetry. apply (first_bar_elem t b rows' Hnd'). rewrite <- Hp.
    apply (first_bar_elem t b rows Hnd). exact E.
  - destruct (first_bar t rows') as [b'|] eqn:E'; [|reflexivity].
    apply (first_bar_elem t b' rows' Hnd') in E'. rewrite <- Hp in E'.
    apply (first_bar_elem t b' rows Hnd) in E'. congruence.
Qed.

Lemma sort_index_labels (rows : list labelled) :
  NoDup (map fst rows) -> NoDup (map fst (sort_index rows)).
Proof.
  intros H. unfold sort_index. rewrite map_as_fmap in *.
  rewrite merge_sort_Permutation. exact H.
Qed.

Lemma StronglySorted_lookup_le (rows : list labelled) (i j : nat) (ri rj : labelled) :
  StronglySorted by_time rows -> (i < j)%nat ->
  rows !! i = Some ri -> rows !! j = Some rj -> (fst ri <= fst rj)%Z.
Proof.
  intros Hs. revert i j. induction Hs as [|r rows Hs IH Hall]; intros i j Hij Hi Hj.
  - discriminate.
  - destruct j as [|j]; [lia|]. simpl in Hj. destruct i as [|i].
    + simpl in Hi. injection Hi as <-.
      apply (proj1 (List.Forall_forall _ _) Hall rj).
      apply list_elem_of_In. apply (list_elem_of_lookup_2 _ j). exact Hj.
    + simpl in Hi. apply (IH i j); [lia|assumption|assumption].
Qed.

(** The frame built from the chunks: times strictly ascending. *)
Lemma sorted_frame_ascending (rows : list labelled) (i j : nat) (ri rj : labelled) :
  NoDup (map fst rows) -> (i < j)%nat ->
  sort_index rows !! i = Some ri -> sort_index rows !! j = Some rj ->
  (fst ri < fst rj)%Z.
Proof.
  intros Hnd Hij Hi Hj.
  pose proof (StronglySorted_lookup_le (sort_index rows) i j ri rj
                (StronglySorted_merge_sort by_time rows) Hij Hi Hj) as Hle.
  assert (Hne : fst ri <> fst rj).
  { intros E. pose proof (sort_index_labels rows Hnd) as Hn.
    assert (i = j); [|lia].
    apply (NoDup_lookup _ i j (fst ri) Hn).
    - rewrite lookup_map, Hi. reflexivity.
    - rewrite lookup_map, Hj, E. reflexivity. }
  lia.
Qed.

(** The frame is the received rows, first of each time only, in order. *)
Lemma fetch_data_for_period_frame (fuel : nat) (api : client) (instrument : string)
  (start_dt end_dt : Z) (granularity : string) (r : fetch_result) :
  fetch_data_for_period fuel api instrument start_dt end_dt granularity = Some r ->
  final_df r = sort_index (drop_duplicated [] (received api (requests r))).
Proof.
  unfold fetch_data_for_period. intros H.
  destruct (fetch_loop fuel api instrument granularity end_dt start_dt
              (mkFetched [] [])) as [acc|] eqn:E; [|discriminate].
  injection H as <-. simpl.
  pose proof (fetch_loop_received api instrument granularity end_dt fuel start_dt
                _ acc E eq_refl) as Hrec.
  rewrite <- Hrec. destruct (all_candles acc); reflexivity.
Qed.

End FrameFacts.

(* ===================================================================== *)
(** ** data_fetch.py: several pairs                                       *)
(* ===================================================================== *)

Section PairsFacts.
Import Indicators DataFetch DataFetchSpec.

Lemma fetch_data_for_period_some (fuel : nat) (api : client) (instrument : string)
  (start_dt end_dt : Z) (granularity : string) :
  (enough start_dt end_dt <= fuel)%nat ->
  exists r,
    fetch_data_for_period fuel api instrument start_dt end_dt granularity = Some r
    /\ (length (requests r) <= enough start_dt end_dt)%nat.
Proof.
  intros Hf. unfold fetch_data_for_period.
  destruct (fetch_loop_terminates api instrument granularity end_dt fuel start_dt
              (mkFetched [] []) Hf) as [acc [-> Hlen]].
  eexists. split; [reflexivity|]. simpl in *. exact Hlen.
Qed.

Lemma fetch_multiple_pairs_from_lookup (fuel : nat) (api : client)
  (start_dt end_dt : Z) (granularity : string) (l : list string) :
  (enough start_dt end_dt <= fuel)%nat ->
  forall d, exists d',
    fetch_multiple_pairs_from fuel api l start_dt end_dt granularity d = Some d'
    /\ forall i,
         d' !! i
         = if bool_decide (i ∈ l)
           then final_df <$> fetch_data_for_period fuel api i start_dt end_dt
                               granularity
           else d !! i.
Proof.
  intros Hf. induction l as [|instr rest IH]; intros d.
  - exists d. split; [reflexivity|]. intros i. reflexivity.
  - simpl.
    destruct (fetch_data_for_period_some fuel api instr start_dt end_dt
                granularity Hf) as [r [Hr _]].
    rewrite Hr. destruct (IH (<[instr := final_df r]> d)) as [d' [Hd' Hl]].
    exists d'. split; [exact Hd'|]. intros i. rewrite Hl.
    destruct (bool_decide_reflect (i ∈ rest)) as [Hin|Hn].
    + rewrite bool_decide_eq_true_2 by (right; exact Hin). reflexivity.
    + destruct (decide (i = instr)) as [->|Hne].
      * rewrite bool_decide_eq_true_2 by left.
        rewrite lookup_insert_eq, Hr. reflexivity.
      * rewrite bool_decide_eq_false_2.
        -- rewrite lookup_insert_ne by auto. reflexivity.
        -- intros H. apply elem_of_cons in H. destruct H; contradiction.
Qed.

End PairsFacts.

(* ===================================================================== *)
(** ** The controller: counters, dates and the session gate               *)
(* ===================================================================== *)

Section StepFacts.
Import MainBot.

Variable R : state -> state -> Prop.
Hypothesis R_refl : forall s, R s s.
Hypothesis R_trans : forall a b c, R a b -> R b c -> R a c.

Lemma rel_bind {A B} (c : M A) (k : A -> M B) (s : state) :
  R s (snd (c s)) ->
  (forall a s1, c s = (Ok a, s1) -> R s1 (snd (k a s1))) ->
  R s (snd (bind c k s)).
Proof.
  intros H1 H2. unfold bind. destruct (c s) as [[a|e] s1] eqn:E; simpl in *.
  - eapply R_trans; [exact H1|]. apply H2. reflexivity.
  - exact H1.
Qed.

Lemma rel_catch {A} (c : M A) (h : exn -> M A) (s : state) :
  R s (snd (c s)) ->
  (forall e s1, c s = (Raise e, s1) -> R s1 (snd (h e s1))) ->
  R s (snd (catch c h s)).
Proof.
  intros H1 H2. unfold catch. destruct (c s) as [[a|e] s1] eqn:E; simpl in *.
  - exact H1.
  - eapply R_trans; [exact H1|]. apply H2. reflexivity.
Qed.

Lemma rel_same {A} (c : M A) (s : state) : snd (c s) = s -> R s (snd (c s)).
Proof. intros ->. apply R_refl. Qed.

Lemma rel_run (ws : list world) :
  (forall w s, R s (snd (loop_body w s))) -> forall s, R s (run ws s).
Proof.
  intros H. induction ws as [|w ws IH]; intros s; simpl.
  - apply R_refl.
  - eapply R_trans; [apply H|apply IH].
Qed.

End StepFacts.

Ltac rel_step refl trans :=
  match goal with
  | |- ?R ?s (snd (MainBot.bind _ _ ?s)) => apply (rel_bind R trans)
  | |- _ ?s (snd (MainBot.ret _ ?s)) => apply refl
  | |- _ ?s (snd (MainBot.raise _ ?s)) => apply refl
  | |- _ ?s (snd (MainBot.get ?s)) => apply refl
  | |- ?R ?s (snd (MainBot.call _ ?s)) =>
      apply (rel_same R refl); apply call_state
  | |- ?R ?s (snd (MainBot.as_float ?v ?s)) =>
      apply (rel_same R refl); destruct v; reflexivity
  | |- ?R ?s (snd (MainBot.price_for _ _ _ _ ?s)) =>
      apply (rel_same R refl); apply price_for_state
  | |- ?R ?s (snd (MainBot.total_unrealized_loss _ _ _ _ _ _ ?s)) =>
      apply (rel_same R refl); apply total_unrealized_loss_state
  | |- ?R ?s (snd (MainBot.fetch_all_instruments _ _ ?s)) =>
      apply (rel_same R refl); apply fetch_all_instruments_state
  | |- _ ?s (snd ((if ?b then _ else _) ?s)) => destruct b eqn:?
  | |- _ ?s (snd ((match ?x with _ => _ end) ?s)) => destruct x eqn:?
  end.

Section DayFacts.
Import Pandas Config MainBot MainBotSpec.

Lemma same_day_refl (s : state) : same_day s s.
Proof. unfold same_day. repeat split; auto. Qed.

Lemma same_day_trans (a b c : state) : same_day a b -> same_day b c -> same_day a c.
Proof.
  intros (H1 & H2 & H3 & H4 & H5) (K1 & K2 & K3 & K4 & K5).
  unfold same_day. repeat split.
  - lia.
  - auto.
  - lia.
  - congruence.
  - intros He. rewrite K5; [auto|]. rewrite (H5 He). exact He.
Qed.

Lemma same_day_quiet (s s' : state) :
  daily_trade_count s' = daily_trade_count s ->
  length (heap s') = length (heap s) ->
  last_date s' = last_date s ->
  start_of_day_equity s' = start_of_day_equity s ->
  same_day s s'.
Proof.
  intros H1 H2 H3 H4. unfold same_day. rewrite H1, H2, H3, H4.
  repeat split; auto.
Qed.

Ltac day_step := rel_step same_day_refl same_day_trans.

Ltac day_quiet := apply same_day_quiet; reflexivity.

Lemma same_day_write (r : nat) (t : trade) (s : state) :
  same_day s (snd (write r t s)).
Proof.
  apply same_day_quiet; try reflexivity. simpl. apply length_insert.
Qed.

Lemma same_day_remove (r : nat) (t : trade) (s : state) :
  same_day s (snd (remove r t s)).
Proof.
  unfold remove. day_step; [day_step|]. intros s0 s1 H. injection H as <- <-.
  destruct (remove_first _ _ _ _); [day_quiet|day_step].
Qed.

Lemma same_day_close_one (w : world) (i r : nat) (t : trade) (p : Q) (s : state) :
  same_day s (snd (close_one w i r t p s)).
Proof.
  unfold close_one. destruct (close_all_trades _ _ _); [|day_step].
  day_step; [apply same_day_remove|]. intros u s1 _.
  day_step; [day_step|]. intros s0 s2 H. injection H as <- <-.
  destruct (Qltb _ 0); day_quiet.
Qed.

Lemma same_day_manage_buy (w : world) (i r : nat) (t : trade) (p : Q) (s : state) :
  same_day s (snd (manage_buy w i r t p s)).
Proof.
  unfold manage_buy. day_step; [day_step|]. intros mx s1 _.
  day_step.
  - day_step; [|day_step]. day_step; [apply same_day_write|intros; day_step].
  - intros t' s2 _. day_step; [|day_step].
    day_step; [day_step|]. intros mx' s3 _. day_step; [|day_step].
    day_step; [day_quiet|]. intros u s4 _.
    day_step; [day_quiet|]. intros u' s5 _. apply same_day_close_one.
Qed.

Lemma same_day_manage_sell (w : world) (i r : nat) (t : trade) (p : Q) (s : state) :
  same_day s (snd (manage_sell w i r t p s)).
Proof.
  unfold manage_sell. day_step; [day_step|]. intros mn s1 _.
  day_step.
  - day_step; [|day_step]. day_step; [apply same_day_write|intros; day_step].
  - intros t' s2 _. day_step; [|day_step].
    day_step; [day_step|]. intros mn' s3 _. day_step; [|day_step].
    day_step; [day_quiet|]. intros u s4 _.
    day_step; [day_quiet|]. intros u' s5 _. apply same_day_close_one.
Qed.

Lemma same_day_manage_trade (w : world) (lp : gmap string Q) (i r : nat)
  (s : state) : same_day s (snd (manage_trade w lp i r s)).
Proof.
  unfold manage_trade. day_step; [day_step|]. intros s0 s1 H. injection H as <- <-.
  destruct (heap s !! r) as [t|]; [|day_step].
  day_step; [day_step|]. intros o s1 _. destruct o as [p|]; [|day_step].
  destruct (String.eqb _ "BUY"); [apply same_day_manage_buy|].
  destruct (String.eqb _ "SELL"); [apply same_day_manage_sell|day_step].
Qed.

Lemma same_day_manage_trades (w : world) (lp : gmap string Q) (copy : list nat) :
  forall (i : nat) (s : state), same_day s (snd (manage_trades w lp i copy s)).
Proof.
  induction copy as [|r rest IH]; intros i s; simpl.
  - apply same_day_refl.
  - day_step; [apply same_day_manage_trade|intros; apply IH].
Qed.

Lemma same_day_kill_switch (w : world) (lp : gmap string Q) (s : state) :
  same_day s (snd (kill_switch w lp s)).
Proof.
  unfold kill_switch. day_step; [day_step|]. intros s0 s1 H. injection H as <- <-.
  day_step; [day_step|]. intros total s1 _.
  day_step; [day_step|]. intros equity s2 _.
  day_step; [|day_step].
  day_step; [day_quiet|]. intros u s3 _.
  day_step; [day_quiet|]. intros u' s4 _. day_quiet.
Qed.

Lemma same_day_position_management (w : world) (lp : gmap string Q) (s : state) :
  same_day s (snd (position_management w lp s)).
Proof.
  unfold position_management. day_step; [day_step|]. intros s0 s1 _.
  day_step; [apply same_day_manage_trades|intros; apply same_day_kill_switch].
Qed.

Lemma same_day_register (t : trade) (s : state) :
  (daily_trade_count s < MAX_TRADES_PER_DAY)%nat ->
  same_day s (snd (register t s)).
Proof.
  intros H. unfold same_day. simpl. rewrite length_app. simpl.
  repeat split; auto; lia.
Qed.

Lemma same_day_process_instrument (w : world) (lp : gmap string Q)
  (inst : string) (df : frame) (s : state) :
  same_day s (snd (process_instrument w lp inst df s)).
Proof.
  unfold process_instrument.
  day_step; [day_step|]. day_step; [|day_step]. day_step; [day_step|].
  day_step; [day_step|]. intros m15 s1 H1. apply call_ok in H1 as [_ ->].
  day_step; [day_step|]. intros m5 s2 H2. apply call_ok in H2 as [_ ->].
  day_step; [|day_step].
  day_step; [day_step|]. intros s3 s4 H3. injection H3 as <- <-.
  destruct ((MAX_TRADES_PER_DAY <=? daily_trade_count s)%nat || _) eqn:Hcap;
    [day_step|].
  apply orb_false_iff in Hcap. destruct Hcap as [Hcap _].
  apply Nat.leb_gt in Hcap.
  day_step; [day_step|]. intros bal s5 H5. apply call_ok in H5 as [_ ->].
  day_step; [day_step|]. intros size s6 H6. apply call_ok in H6 as [_ ->].
  destruct (stop_and_target _ _ _) as [sl tp].
  day_step; [day_quiet|]. intros u s7 H7. injection H7 as _ <-.
  day_step; [day_step|]. intros oid s8 H8. apply call_ok in H8 as [_ ->].
  destruct oid as [oid|]; [|day_step].
  day_step; [|intros; day_step].
  apply same_day_register. exact Hcap.
Qed.

Lemma same_day_process_instruments (w : world) (data : list (string * frame)) :
  forall (lp : gmap string Q) (s : state),
    same_day s (snd (process_instruments w lp data s)).
Proof.
  induction data as [|[inst df] rest IH]; intros lp s; simpl.
  - apply same_day_refl.
  - day_step; [apply same_day_process_instrument|intros; apply IH].
Qed.

Lemma same_day_trading_pass (w : world) (s : state) :
  same_day s (snd (trading_pass w s)).
Proof.
  unfold trading_pass. day_step; [day_step|]. intros data s1 _.
  day_step; [apply same_day_process_instruments|]. intros lp s2 _.
  day_step; [apply same_day_position_management|]. intros u s3 _. day_quiet.
Qed.

(** The day reset on the day of [last_date], and on another day. *)
Lemma daily_reset_same (w : world) (s : state) :
  last_date s = Some (now_date w) -> snd (daily_reset w s) = s.
Proof.
  intros H. unfold daily_reset, bind, get. simpl. rewrite H, Z.eqb_refl.
  reflexivity.
Qed.

Lemma daily_reset_new (w : world) (s : state) :
  last_date s <> Some (now_date w) ->
  snd (daily_reset w s)
  = mkState 0 0
      match get_account_balance w AtDayReset with
      | Returned q => Some q
      | Failed _ => start_of_day_equity s
      end
      (Some (now_date w)) (heap s) (open_trades s) (log s).
Proof.
  intros H. unfold daily_reset, bind, get. simpl.
  destruct (last_date s) as [d|] eqn:Hd.
  - destruct (Z.eqb_spec d (now_date w)) as [->|Hne]; [congruence|].
    simpl. destruct (get_account_balance w AtDayReset); reflexivity.
  - simpl. destruct (get_account_balance w AtDayReset); reflexivity.
Qed.

Lemma session_cases (w : world) :
  session_open w
  \/ ((now_hour w <? 6)%Z || (18 <? now_hour w)%Z = true)
  \/ ((now_hour w <? 6)%Z || (18 <? now_hour w)%Z = false
      /\ (5 <=? now_weekday w)%Z = true).
Proof.
  unfold session_open.
  destruct (Z.ltb_spec (now_hour w) 6); destruct (Z.ltb_spec 18 (now_hour w));
    destruct (Z.leb_spec 5 (now_weekday w)); simpl; auto;
    left; lia.
Qed.

Lemma session_open_tests (w : world) :
  session_open w ->
  (now_hour w <? 6)%Z || (18 <? now_hour w)%Z = false
  /\ (5 <=? now_weekday w)%Z = false.
Proof.
  unfold session_open. intros [[H1 H2] H3].
  destruct (Z.ltb_spec (now_hour w) 6); destruct (Z.ltb_spec 18 (now_hour w));
    destruct (Z.leb_spec 5 (now_weekday w)); simpl; auto; lia.
Qed.

(** A pass outside the session only sleeps. *)
Lemma loop_body_closed (w : world) (s : state) :
  ~ session_open w -> snd (loop_body w s) = logged s [Sleep (nap w)].
Proof.
  intros Hc. unfold loop_body, catch, iteration, nap.
  destruct (session_cases w) as [Ho|[H|[H1 H2]]]; [contradiction| |].
  - rewrite H. reflexivity.
  - rewrite H1, H2. reflexivity.
Qed.

(** A pass inside the session: after the day reset every step is a
    same-day step. *)
Lemma loop_body_open (w : world) (s : state) :
  session_open w -> same_day (snd (daily_reset w s)) (snd (loop_body w s)).
Proof.
  intros Ho. destruct (session_open_tests w Ho) as [H1 H2].
  unfold loop_body, catch, iteration. rewrite H1, H2.
  unfold bind at 1.
  destruct (daily_reset w s) as [[u|e] s1] eqn:Hr; simpl.
  - match goal with
    | |- same_day _ (snd (let (r, s') := ?c s1 in _)) =>
        pose proof (rel_catch same_day same_day_trans c
                      (fun e => emit (Fault e);; emit (Email "Trading Bot Error");;
                                emit (Sleep 60)) s1) as Hc
    end.
    unfold catch in Hc. apply Hc; clear Hc.
    + day_step; [day_step|]. intros bal s2 _.
      day_step; [day_step|]. intros s3 s4 H3. injection H3 as <- <-.
      day_step.
      * destruct (start_of_day_equity s2) eqn:He; [day_step|].
        unfold same_day. simpl. rewrite He. repeat split; auto.
        intros [x Hx]. discriminate.
      * intros u' s5 _.
        day_step; [day_step|]. intros s6 s7 H6. injection H6 as <- <-.
        day_step; [day_step|]. intros equity s8 _.
        day_step; [day_step|].
        day_step; [|apply same_day_trading_pass].
        day_step; [day_quiet|intros; day_quiet].
    + intros e s2 _. day_step; [day_quiet|]. intros u1 s3 _.
      day_step; [day_quiet|intros; day_quiet].
  - day_quiet.
Qed.

Lemma logged_logged (s : state) (evs evs' : list event) :
  logged (logged s evs) evs' = logged s (evs ++ evs').
Proof. unfold logged. simpl. rewrite app_assoc. reflexivity. Qed.

Lemma same_day_logged (s : state) (evs : list event) : same_day s (logged s evs).
Proof. apply same_day_quiet; reflexivity. Qed.

(** Any number of passes on the day of [last_date]. *)
Lemma run_same_day (d : Z) (ws : list world) :
  Forall (fun w => now_date w = d) ws ->
  forall s, last_date s = Some d -> same_day s (run ws s).
Proof.
  induction 1 as [|w ws Hw _ IH]; intros s Hd; simpl.
  - apply same_day_refl.
  - assert (Hs : same_day s (snd (loop_body w s))).
    { destruct (session_cases w) as [Ho|Hc].
      - pose proof (loop_body_open w s Ho) as H.
        rewrite daily_reset_same in H by (rewrite Hw; exact Hd). exact H.
      - rewrite loop_body_closed; [apply same_day_logged|].
        intros Ho. destruct (session_open_tests w Ho) as [H1 H2].
        destruct Hc as [Hc|[_ Hc]]; congruence. }
    eapply same_day_trans; [exact Hs|]. apply IH.
    destruct Hs as (_ & _ & _ & -> & _). exact Hd.
Qed.

(** Any number of passes on a day that [last_date] does not name yet. *)
Lemma run_new_day (d : Z) (ws : list world) :
  Forall (fun w => now_date w = d) ws ->
  forall s, last_date s <> Some d ->
    (length (heap (run ws s)) <= length (heap s) + MAX_TRADES_PER_DAY)%nat.
Proof.
  induction 1 as [|w ws Hw Hws IH]; intros s Hd; simpl; [lia|].
  destruct (session_cases w) as [Ho|Hc].
  - pose proof (loop_body_open w s Ho) as H.
    rewrite daily_reset_new in H by (rewrite Hw; exact Hd).
    destruct H as (_ & H2 & H3 & H4 & _). simpl in *.
    assert (Hl : last_date (snd (loop_body w s)) = Some d)
      by (rewrite H4, Hw; reflexivity).
    destruct (run_same_day d ws Hws _ Hl) as (_ & K2 & K3 & _).
    specialize (H2 ltac:(unfold MAX_TRADES_PER_DAY; lia)).
    specialize (K2 H2). lia.
  - assert (Hn : ~ session_open w).
    { intros Ho. destruct (session_open_tests w Ho) as [H1 H2].
      destruct Hc as [Hc|[_ Hc]]; congruence. }
    rewrite (loop_body_closed w s Hn).
    apply (IH (logged s [Sleep (nap w)])). exact Hd.
Qed.

Lemma run_closed (ws : list world) :
  Forall (fun w => ~ session_open w) ws ->
  forall s, run ws s = logged s (map (fun w => Sleep (nap w)) ws).
Proof.
  induction 1 as [|w ws Hw _ IH]; intros s; simpl.
  - unfold logged. rewrite app_nil_r. destruct s; reflexivity.
  - rewrite (loop_body_closed w s Hw), IH, logged_logged. reflexivity.
Qed.

End DayFacts.

(* ===================================================================== *)
(** ** The controller: a frame that cannot be fetched                     *)
(* ===================================================================== *)

Section OutageFacts.
Import Pandas Config MainBot MainBotSpec.

Lemma untouched_refl (s : state) : untouched s s.
Proof.
  repeat split. exists []. rewrite app_nil_r. split; [reflexivity|constructor].
Qed.

Lemma untouched_trans (a b c : state) :
  untouched a b -> untouched b c -> untouched a c.
Proof.
  intros (H1 & H2 & e1 & L1 & P1) (K1 & K2 & e2 & L2 & P2).
  split; [congruence|]. split; [congruence|].
  exists (e1 ++ e2). split; [rewrite L2, L1, app_assoc; reflexivity|].
  apply Forall_app. split; assumption.
Qed.

Lemma untouched_quiet (s s' : state) :
  heap s' = heap s -> open_trades s' = open_trades s -> log s' = log s ->
  untouched s s'.
Proof.
  intros H1 H2 H3. split; [exact H1|]. split; [exact H2|].
  exists []. rewrite app_nil_r. split; [exact H3|constructor].
Qed.

Lemma untouched_emit (ev : event) (s : state) :
  passive ev -> untouched s (snd (emit ev s)).
Proof.
  intros H. repeat split. exists [ev]. split; [reflexivity|].
  constructor; [exact H|constructor].
Qed.

Ltac out_step :=
  first [ rel_step untouched_refl untouched_trans
        | apply untouched_quiet; reflexivity
        | apply untouched_emit; exact I ].

Lemma fetch_all_instruments_fails (w : world) (i : string) (msg : string)
  (l : list string) (s : state) :
  In i l -> fetch_ohlc_data w i = Failed msg ->
  exists e, fetch_all_instruments w l s = (Raise e, s).
Proof.
  intros Hin Hf. induction l as [|i0 rest IH]; [destruct Hin|].
  simpl. unfold bind, call.
  destruct (fetch_ohlc_data w i0) as [df|msg0] eqn:E0.
  - destruct Hin as [->|Hin]; [congruence|].
    destruct (IH Hin) as [e ->]. exists e. reflexivity.
  - eexists. reflexivity.
Qed.

Lemma trading_pass_fails (w : world) (i : string) (msg : string) (s : state) :
  In i INSTRUMENTS -> fetch_ohlc_data w i = Failed msg ->
  exists e, trading_pass w s = (Raise e, s).
Proof.
  intros Hin Hf. unfold trading_pass, bind.
  destruct (fetch_all_instruments_fails w i msg INSTRUMENTS s Hin Hf) as [e ->].
  exists e. reflexivity.
Qed.

Lemma untouched_daily_reset (w : world) (s : state) :
  untouched s (snd (daily_reset w s)).
Proof.
  unfold daily_reset. out_step; [out_step|]. intros s0 s1 H. injection H as <- <-.
  destruct (last_date s) as [d|]; [destruct (d =? now_date w)%Z|].
  - out_step.
  - out_step; [out_step|]. intros u s1 _.
    out_step; [out_step|]. intros u' s2 _.
    out_step; [out_step|]. intros q s3 _. out_step.
  - out_step; [out_step|]. intros u s1 _.
    out_step; [out_step|]. intros u' s2 _.
    out_step; [out_step|]. intros q s3 _. out_step.
Qed.

Lemma untouched_iteration (w : world) (i : string) (msg : string) (s : state) :
  In i INSTRUMENTS -> fetch_ohlc_data w i = Failed msg ->
  untouched s (snd (iteration w s)).
Proof.
  intros Hin Hf. unfold iteration.
  out_step; [out_step|]. out_step; [out_step|].
  out_step; [apply untouched_daily_reset|]. intros u s1 _.
  out_step; [out_step|]. intros bal s2 _.
  out_step; [out_step|]. intros s3 s4 _.
  out_step; [out_step; out_step|]. intros u' s5 _.
  out_step; [out_step|]. intros s6 s7 _.
  out_step; [out_step|]. intros equity s8 _.
  out_step; [out_step|].
  out_step.
  - out_step; [out_step|intros; out_step].
  - destruct (trading_pass_fails w i msg s8 Hin Hf) as [e ->]. simpl.
    apply untouched_refl.
Qed.

Lemma untouched_loop_body (w : world) (i : string) (msg : string) (s : state) :
  In i INSTRUMENTS -> fetch_ohlc_data w i = Failed msg ->
  untouched s (snd (loop_body w s)).
Proof.
  intros Hin Hf. unfold loop_body.
  apply (rel_catch untouched untouched_trans).
  - apply (untouched_iteration w i msg s Hin Hf).
  - intros e s1 _. out_step; [out_step|]. intros u s2 _.
    out_step; [out_step|intros; out_step].
Qed.

End OutageFacts.

(* ===================================================================== *)
(** ** The controller: at the trade caps                                  *)
(* ===================================================================== *)

Section CapFacts.
Import Pandas Config MainBot MainBotSpec.

Lemma process_instrument_capped (w : world) (lp : gmap string Q) (inst : string)
  (df : frame) (s : state) :
  (MAX_TRADES_PER_DAY <= daily_trade_count s)%nat
  \/ (MAX_CONSECUTIVE_LOSSES <= consecutive_losses s)%nat ->
  snd (process_instrument w lp inst df s) = s.
Proof.
  intros Hcap. unfold process_instrument.
  destruct (_ || _); [reflexivity|].
  destruct (last_row df) as [last|]; [|reflexivity].
  destruct (Qltb (row_ADX last) 25); [reflexivity|].
  unfold bind at 1.
  destruct (get_higher_timeframe_trend w inst "M15") as [m15|msg]; simpl;
    [|reflexivity].
  unfold bind at 1.
  destruct (get_higher_timeframe_trend w inst "M5") as [m5|msg]; simpl;
    [|reflexivity].
  destruct (String.eqb _ "BUY" || String.eqb _ "SELL"); [|reflexivity].
  unfold bind at 1, get. cbv beta iota.
  assert (Hc : (MAX_TRADES_PER_DAY <=? daily_trade_count s)%nat
               || (MAX_CONSECUTIVE_LOSSES <=? consecutive_losses s)%nat = true).
  { apply orb_true_iff. destruct Hcap as [H|H]; [left|right];
      apply Nat.leb_le; exact H. }
  simpl in Hc. rewrite Hc. reflexivity.
Qed.

Lemma process_instruments_capped (w : world) (data : list (string * frame)) :
  forall (lp : gmap string Q) (s : state),
    (MAX_TRADES_PER_DAY <= daily_trade_count s)%nat
    \/ (MAX_CONSECUTIVE_LOSSES <= consecutive_losses s)%nat ->
    snd (process_instruments w lp data s) = s.
Proof.
  induction data as [|[inst df] rest IH]; intros lp s Hcap; simpl; [reflexivity|].
  unfold bind.
  pose proof (process_instrument_capped w lp inst df s Hcap) as H.
  destruct (process_instrument w lp inst df s) as [[lp'|e] s1]; simpl in H;
    subst s1; [|reflexivity].
  apply IH. exact Hcap.
Qed.

End CapFacts.

Section ZeroEquityFacts.
Import Pandas Config MainBot MainBotSpec.

(** The pass of the loop when the start-of-day equity is zero. *)
Lemma gate_divides_by_zero (w : world) (s : state) (equity bal : Q) :
  session_open w ->
  get_account_balance w AtDrawdownGate = Returned bal ->
  equity_in_force w s bal = Some equity ->
  equity == 0 ->
  heap (snd (loop_body w s)) = heap s
  /\ open_trades (snd (loop_body w s)) = open_trades s
  /\ log (snd (loop_body w s))
     = log s ++ [Fault ZeroDivisionError; Email "Trading Bot Error"; Sleep 60].
Proof.
  intros [[Hh1 Hh2] Hwd] Hbal Heq Hz.
  unfold loop_body, catch, iteration.
  replace (now_hour w <? 6)%Z with false by (symmetry; apply Z.ltb_ge; lia).
  replace (18 <? now_hour w)%Z with false by (symmetry; apply Z.ltb_ge; lia).
  replace (5 <=? now_weekday w)%Z with false by (symmetry; apply Z.leb_gt; lia).
  apply Qeq_bool_true in Hz.
  unfold equity_in_force in Heq. unfold daily_reset, bind, get.
  cbv beta iota delta [orb].
  destruct (last_date s) as [d|] eqn:Hd; [destruct (d =? now_date w)%Z eqn:Hday|].
  - simpl. rewrite Hbal. simpl.
    destruct (start_of_day_equity s) as [q|] eqn:Hq; injection Heq as ->;
      simpl; rewrite ?Hq; simpl; rewrite Hz; simpl;
      rewrite <- !app_assoc; repeat split; reflexivity.
  - simpl. destruct (get_account_balance w AtDayReset) as [q|msg];
      [|discriminate]. injection Heq as ->. simpl. rewrite Hbal. simpl.
    rewrite Hz. simpl. rewrite <- !app_assoc. repeat split; reflexivity.
  - simpl. destruct (get_account_balance w AtDayReset) as [q|msg];
      [|discriminate]. injection Heq as ->. simpl. rewrite Hbal. simpl.
    rewrite Hz. simpl. rewrite <- !app_assoc. repeat split; reflexivity.
Qed.

End ZeroEquityFacts.

(* ===================================================================== *)
(** ** The controller: the consecutive-loss counter                       *)
(* ===================================================================== *)

Section LossFacts.
Import Pandas Config MainBot MainBotSpec.

Lemma preserved_refl (P : state -> Prop) (s : state) : preserved P s s.
Proof. unfold preserved. tauto. Qed.

Lemma preserved_trans (P : state -> Prop) (a b c : state) :
  preserved P a b -> preserved P b c -> preserved P a c.
Proof. unfold preserved. tauto. Qed.

Ltac nl_step := rel_step (preserved_refl no_losses) (preserved_trans no_losses).

(** A step that leaves the loss counter and the trade objects alone. *)
Lemma no_losses_quiet (s s' : state) :
  consecutive_losses s' = consecutive_losses s -> heap s' = heap s ->
  preserved no_losses s s'.
Proof. intros H1 H2. unfold preserved, no_losses. rewrite H1, H2. tauto. Qed.

Ltac nl_quiet := apply no_losses_quiet; reflexivity.

Lemma sound_with_max_price (t : trade) (p : Q) :
  sound_trade t -> sound_trade (with_max_price t p).
Proof. unfold sound_trade. simpl. tauto. Qed.

Lemma sound_with_min_price (t : trade) (p : Q) :
  sound_trade t -> sound_trade (with_min_price t p).
Proof. unfold sound_trade. simpl. tauto. Qed.

(** Past the activation threshold a sound trade is not at a loss. *)
Lemma activated_profit (t : trade) (p : Q) :
  sound_trade t -> activated t p -> 0 <= compute_unrealized_pnl t p.
Proof.
  intros (Hu & Hb & Hs) [[Hside Hact]|[Hside Hact]]; unfold compute_unrealized_pnl.
  - rewrite Hside. simpl String.eqb. cbv iota. specialize (Hb Hside).
    assert (0 <= p - entry_price t) by lra.
    assert (0 <= (p - entry_price t) * units t) by nra. lra.
  - rewrite Hside. simpl String.eqb. cbv iota.
    assert (Hn : upper (side t) <> "BUY"%string) by (rewrite Hside; discriminate).
    specialize (Hs Hn).
    assert (0 <= entry_price t - p) by lra.
    assert (0 <= (entry_price t - p) * units t) by nra. lra.
Qed.

Lemma no_losses_write (r : nat) (t : trade) (s : state) :
  sound_trade t -> preserved no_losses s (snd (write r t s)).
Proof.
  intros Ht [H1 H2]. split; [exact H1|]. simpl.
  apply Forall_insert; assumption.
Qed.

Lemma no_losses_remove (r : nat) (t : trade) (s : state) :
  preserved no_losses s (snd (remove r t s)).
Proof.
  unfold remove. nl_step; [nl_step|]. intros s0 s1 H. injection H as <- <-.
  destruct (remove_first _ _ _ _); [nl_quiet|nl_step].
Qed.

Lemma no_losses_close_one (w : world) (i r : nat) (t : trade) (p : Q) (s : state) :
  0 <= compute_unrealized_pnl t p ->
  preserved no_losses s (snd (close_one w i r t p s)).
Proof.
  intros Hp. unfold close_one. destruct (close_all_trades _ _ _); [|nl_step].
  nl_step; [apply no_losses_remove|]. intros u s1 _.
  nl_step; [nl_step|]. intros s0 s2 H. injection H as <- <-.
  rewrite (proj2 (Qltb_false _ 0) Hp).
  intros [_ H2]. split; [reflexivity|exact H2].
Qed.

Lemma no_losses_trail_buy (w : world) (i r : nat) (t : trade) (p : Q) (s : state) :
  sound_trade t -> upper (side t) = "BUY"%string ->
  preserved no_losses s
    (snd ((if Qltb ((take_profit_price t - entry_price t) * 0.35)
                   (p - entry_price t)
           then
             mx <- as_float (max_price t);;
             if Qltb p (mx - (TRAILING_STOP_PIPS * 0.0001)) then
               emit (Email "Trailing Stop Alert");;
               emit (TrailingClose r p);;
               close_one w i r t p
             else ret tt
           else ret tt) s)).
Proof.
  intros Ht Hside. destruct (Qltb _ (p - entry_price t)) eqn:Hact; [|nl_step].
  apply Qltb_true in Hact.
  nl_step; [nl_step|]. intros mx s1 _. nl_step; [|nl_step].
  nl_step; [nl_quiet|]. intros u s2 _.
  nl_step; [nl_quiet|]. intros u' s3 _.
  apply no_losses_close_one. apply activated_profit; [exact Ht|].
  left. split; assumption.
Qed.

Lemma no_losses_trail_sell (w : world) (i r : nat) (t : trade) (p : Q) (s : state) :
  sound_trade t -> upper (side t) = "SELL"%string ->
  preserved no_losses s
    (snd ((if Qltb ((entry_price t - take_profit_price t) * 0.5)
                   (entry_price t - p)
           then
             mn <- as_float (min_price t);;
             if Qltb (mn + (TRAILING_STOP_PIPS * 0.0001)) p then
               emit (Email "Trailing Stop Alert");;
               emit (TrailingClose r p);;
               close_one w i r t p
             else ret tt
           else ret tt) s)).
Proof.
  intros Ht Hside. destruct (Qltb _ (entry_price t - p)) eqn:Hact; [|nl_step].
  apply Qltb_true in Hact.
  nl_step; [nl_step|]. intros mn s1 _. nl_step; [|nl_step].
  nl_step; [nl_quiet|]. intros u s2 _.
  nl_step; [nl_quiet|]. intros u' s3 _.
  apply no_losses_close_one. apply activated_profit; [exact Ht|].
  right. split; assumption.
Qed.

Lemma no_losses_manage_buy (w : world) (i r : nat) (t : trade) (p : Q) (s : state) :
  sound_trade t -> upper (side t) = "BUY"%string ->
  preserved no_losses s (snd (manage_buy w i r t p s)).
Proof.
  intros Ht Hside. unfold manage_buy.
  nl_step; [nl_step|]. intros mx s1 _.
  destruct (Qltb mx p).
  - nl_step.
    + nl_step; [|intros; nl_step].
      apply no_losses_write, sound_with_max_price, Ht.
    + intros t' s2 H2. unfold bind in H2.
      destruct (write r (with_max_price t p) s1) as [[u|e] s3]; [|discriminate].
      injection H2 as <- <-.
      apply (no_losses_trail_buy w i r (with_max_price t p) p s3);
        [apply sound_with_max_price, Ht|exact Hside].
  - nl_step; [nl_step|]. intros t' s2 H2. injection H2 as <- <-.
    apply (no_losses_trail_buy w i r t p s1 Ht Hside).
Qed.

Lemma no_losses_manage_sell (w : world) (i r : nat) (t : trade) (p : Q) (s : state) :
  sound_trade t -> upper (side t) = "SELL"%string ->
  preserved no_losses s (snd (manage_sell w i r t p s)).
Proof.
  intros Ht Hside. unfold manage_sell.
  nl_step; [nl_step|]. intros mn s1 _.
  destruct (Qltb p mn).
  - nl_step.
    + nl_step; [|intros; nl_step].
      apply no_losses_write, sound_with_min_price, Ht.
    + intros t' s2 H2. unfold bind in H2.
      destruct (write r (with_min_price t p) s1) as [[u|e] s3]; [|discriminate].
      injection H2 as <- <-.
      apply (no_losses_trail_sell w i r (with_min_price t p) p s3);
        [apply sound_with_min_price, Ht|exact Hside].
  - nl_step; [nl_step|]. intros t' s2 H2. injection H2 as <- <-.
    apply (no_losses_trail_sell w i r t p s1 Ht Hside).
Qed.

Lemma no_losses_manage_trade (w : world) (lp : gmap string Q) (i r : nat)
  (s : state) : preserved no_losses s (snd (manage_trade w lp i r s)).
Proof.
  intros Hnl. revert Hnl. change (preserved no_losses s (snd (manage_trade w lp i r s))).
  unfold manage_trade. nl_step; [nl_step|]. intros s0 s1 H. injection H as <- <-.
  destruct (heap s !! r) as [t|] eqn:Hr; [|nl_step].
  intros Hnl.
  assert (Ht : sound_trade t)
    by exact (proj1 (Forall_lookup _ _) (proj2 Hnl) r t Hr).
  revert Hnl.
  match goal with |- no_losses s -> no_losses ?x => change (preserved no_losses s x) end.
  nl_step; [nl_step|]. intros o s1 H1. apply price_for_ok in H1. subst s1.
  destruct o as [p|]; [|nl_step].
  destruct (String.eqb (upper (side t)) "BUY") eqn:Hb.
  - apply String.eqb_eq in Hb. apply no_losses_manage_buy; assumption.
  - destruct (String.eqb (upper (side t)) "SELL") eqn:Hs.
    + apply String.eqb_eq in Hs. apply no_losses_manage_sell; assumption.
    + nl_step.
Qed.

Lemma no_losses_manage_trades (w : world) (lp : gmap string Q) (copy : list nat) :
  forall (i : nat) (s : state),
    preserved no_losses s (snd (manage_trades w lp i copy s)).
Proof.
  induction copy as [|r rest IH]; intros i s; simpl.
  - apply preserved_refl.
  - nl_step; [apply no_losses_manage_trade|intros; apply IH].
Qed.

Lemma no_losses_kill_switch (w : world) (lp : gmap string Q) (s : state) :
  preserved no_losses s (snd (kill_switch w lp s)).
Proof.
  unfold kill_switch. nl_step; [nl_step|]. intros s0 s1 H. injection H as <- <-.
  nl_step; [nl_step|]. intros total s1 _.
  nl_step; [nl_step|]. intros equity s2 _.
  nl_step; [|nl_step].
  nl_step; [nl_quiet|]. intros u s3 _.
  nl_step; [nl_quiet|]. intros u' s4 _. nl_quiet.
Qed.

Lemma no_losses_position_management (w : world) (lp : gmap string Q) (s : state) :
  preserved no_losses s (snd (position_management w lp s)).
Proof.
  unfold position_management. nl_step; [nl_step|]. intros s0 s1 _.
  nl_step; [apply no_losses_manage_trades|intros; apply no_losses_kill_switch].
Qed.

Lemma no_losses_register (t : trade) (s : state) :
  sound_trade t -> preserved no_losses s (snd (register t s)).
Proof.
  intros Ht [H1 H2]. split; [exact H1|]. simpl.
  apply Forall_app. split; [exact H2|]. constructor; [exact Ht|constructor].
Qed.

(** The trade registered for a confirmed signal on a sane frame. *)
Lemma planned_trade_sound (c inst oid : string) (price atr size : Q)
  (mx mn : option Q) :
  c = "BUY"%string \/ c = "SELL"%string -> 0 <= atr -> 0 <= size ->
  sound_trade (mkTrade inst c price size oid mx mn
                 (snd (stop_and_target c price atr))).
Proof.
  intros [-> | ->] Ha Hs; unfold sound_trade, stop_and_target; simpl;
    (split; [exact Hs|]); split; intros H; try discriminate.
  - nra.
  - exfalso. apply H. reflexivity.
  - nra.
Qed.

Lemma no_losses_process_instrument (w : world) (lp : gmap string Q)
  (inst : string) (df : frame) (s : state) :
  sane_world w -> sane_frame df ->
  preserved no_losses s (snd (process_instrument w lp inst df s)).
Proof.
  intros [_ Hsize] Hdf. unfold process_instrument.
  nl_step; [nl_step|]. nl_step; [|nl_step]. nl_step; [nl_step|].
  nl_step; [nl_step|]. intros m15 s1 H1. apply call_ok in H1 as [_ ->].
  nl_step; [nl_step|]. intros m5 s2 H2. apply call_ok in H2 as [_ ->].
  nl_step; [|nl_step].
  nl_step; [nl_step|]. intros s3 s4 H3. injection H3 as <- <-.
  nl_step; [nl_step|].
  nl_step; [nl_step|]. intros bal s5 H5. apply call_ok in H5 as [_ ->].
  nl_step; [nl_step|]. intros size s6 H6. apply call_ok in H6 as [Hsz ->].
  destruct (stop_and_target _ _ _) as [sl tp] eqn:Est.
  nl_step; [nl_quiet|]. intros u s7 _.
  nl_step; [nl_step|]. intros oid s8 H8. apply call_ok in H8 as [_ ->].
  destruct oid as [oid|]; [|nl_step].
  nl_step; [|intros; nl_step].
  apply no_losses_register.
  replace tp with (snd (stop_and_target (confirm (m1_signal df) m15 m5)
                          (row_close r) (row_ATR r))) by (rewrite Est; reflexivity).
  apply planned_trade_sound.
  - destruct (confirm_values (m1_signal df) m15 m5) as [Hc|[Hc|Hc]];
      rewrite Hc in *; simpl in *; try discriminate; tauto.
  - apply Hdf. assumption.
  - eapply Hsize. exact Hsz.
Qed.

Lemma no_losses_process_instruments (w : world) (data : list (string * frame)) :
  sane_world w -> Forall (fun p => sane_frame (snd p)) data ->
  forall (lp : gmap string Q) (s : state),
    preserved no_losses s (snd (process_instruments w lp data s)).
Proof.
  intros Hw. induction 1 as [|[inst df] rest Hdf _ IH]; intros lp s; simpl.
  - apply preserved_refl.
  - nl_step; [apply no_losses_process_instrument; assumption|intros; apply IH].
Qed.

Lemma fetch_all_instruments_ok (w : world) (l : list string) :
  forall (s s1 : state) (data : list (string * frame)),
    fetch_all_instruments w l s = (Ok data, s1) ->
    Forall (fun p => fetch_ohlc_data w (fst p) = Returned (snd p)) data.
Proof.
  induction l as [|i rest IH]; intros s s1 data H; simpl in H.
  - injection H as <- _. constructor.
  - unfold bind, call in H. destruct (fetch_ohlc_data w i) as [df|msg] eqn:E;
      [|discriminate].
    destruct (fetch_all_instruments w rest s) as [[dfs|e] s2] eqn:Er;
      [|discriminate].
    injection H as <- _. constructor; [exact E|]. eapply IH. exact Er.
Qed.

Lemma no_losses_trading_pass (w : world) (s : state) :
  sane_world w -> preserved no_losses s (snd (trading_pass w s)).
Proof.
  intros Hw. unfold trading_pass. nl_step; [nl_step|]. intros data s1 H1.
  nl_step.
  - apply no_losses_process_instruments; [exact Hw|].
    eapply Forall_impl; [exact (fetch_all_instruments_ok w _ _ _ _ H1)|].
    intros [i df] Hf. simpl in *. exact (proj1 Hw i df Hf).
  - intros lp s2 _.
    nl_step; [apply no_losses_position_management|]. intros u s3 _. nl_quiet.
Qed.

Lemma no_losses_daily_reset (w : world) (s : state) :
  preserved no_losses s (snd (daily_reset w s)).
Proof.
  intros [H1 H2].
  destruct (decide (last_date s = Some (now_date w))) as [Hd|Hd].
  - rewrite (daily_reset_same w s Hd). split; [exact H1|exact H2].
  - rewrite (daily_reset_new w s Hd). split; [reflexivity|exact H2].
Qed.

Lemma no_losses_iteration (w : world) (s : state) :
  sane_world w -> preserved no_losses s (snd (iteration w s)).
Proof.
  intros Hw. unfold iteration.
  nl_step; [nl_quiet|]. nl_step; [nl_quiet|].
  nl_step; [apply no_losses_daily_reset|]. intros u s1 _.
  nl_step; [nl_step|]. intros bal s2 _.
  nl_step; [nl_step|]. intros s3 s4 _.
  nl_step; [nl_step; [nl_step|nl_quiet]|]. intros u' s5 _.
  nl_step; [nl_step|]. intros s6 s7 _.
  nl_step; [nl_step|]. intros equity s8 _.
  nl_step; [nl_step|].
  nl_step.
  - nl_step; [nl_quiet|intros; nl_quiet].
  - apply no_losses_trading_pass. exact Hw.
Qed.

Lemma no_losses_loop_body (w : world) (s : state) :
  sane_world w -> preserved no_losses s (snd (loop_body w s)).
Proof.
  intros Hw. unfold loop_body.
  apply (rel_catch (preserved no_losses) (preserved_trans no_losses)).
  - apply no_losses_iteration. exact Hw.
  - intros e s1 _. nl_step; [nl_quiet|]. intros u s2 _.
    nl_step; [nl_quiet|intros; nl_quiet].
Qed.

Lemma no_losses_run (ws : list world) :
  Forall sane_world ws -> forall s, no_losses s -> no_losses (run ws s).
Proof.
  induction 1 as [|w ws Hw _ IH]; intros s Hs; simpl; [exact Hs|].
  apply IH. apply (no_losses_loop_body w s Hw Hs).
Qed.

End LossFacts.

Section SaneScenarios.
Import Pandas Config MainBot MainBotSpec Scenarios.

(** The worlds built on [quiet_world] with an EUR_USD frame whose ATR is
    0.0010 are sane. *)
Lemma sane_with_frame (p : Q) (signal trend : string) :
  sane_world (with_frame quiet_world "EUR_USD" (eur_frame p signal) trend).
Proof.
  split.
  - intros inst df H last Hl. simpl in H.
    destruct (String.eqb inst "EUR_USD"); injection H as <-; simpl in Hl;
      [injection Hl as <-; simpl; lra|discriminate].
  - intros balance risk atr price size H. simpl in H. injection H as <-. lra.
Qed.

End SaneScenarios.

(* ===================================================================== *)
(** ** The controller: the trailing distance                              *)
(* ===================================================================== *)

Section TrailFacts.
Import Pandas Config MainBot MainBotSpec.

Lemma retraced_le (t t' : trade) (p : Q) :
  trade_le t t' -> retraced t p -> retraced t' p.
Proof.
  intros [(Hi&Hs&He&Hu&Ho&Ht) [Hmax Hmin]] [[Hside [mx [Hmx Hp]]]|[Hside [mn [Hmn Hp]]]].
  - left. rewrite Hs. split; [exact Hside|].
    rewrite Hmx in Hmax. destruct (max_price t') as [y|]; [|contradiction].
    exists y. split; [reflexivity|]. simpl in Hmax. lra.
  - right. rewrite Hs. split; [exact Hside|].
    rewrite Hmn in Hmin. destruct (min_price t') as [y|]; [|contradiction].
    exists y. split; [reflexivity|]. simpl in Hmin. lra.
Qed.

Lemma trailed_le (h h' : list trade) (ev : event) :
  heap_le h h' -> trailed h ev -> trailed h' ev.
Proof.
  intros Hle. destruct ev; simpl; try tauto.
  intros [t [Ht Ha]]. destruct (Hle r t Ht) as [t' [Ht' Hle']].
  exists t'. split; [exact Ht'|]. eapply retraced_le; eassumption.
Qed.

Lemma trails_refl (s : state) : trails s s.
Proof.
  split; [apply heap_le_refl|]. exists []. rewrite app_nil_r.
  split; [reflexivity|constructor].
Qed.

Lemma trails_trans (a b c : state) : trails a b -> trails b c -> trails a c.
Proof.
  intros [H1 (e1 & L1 & T1)] [H2 (e2 & L2 & T2)]. split.
  - eapply heap_le_trans; eassumption.
  - exists (e1 ++ e2). split; [rewrite L2, L1, app_assoc; reflexivity|].
    apply Forall_app. split; [|exact T2].
    eapply Forall_impl; [exact T1|]. intros ev. apply trailed_le. exact H2.
Qed.

Lemma trails_quiet (s s' : state) :
  heap s' = heap s -> log s' = log s -> trails s s'.
Proof.
  intros Hh Hl. split; [rewrite Hh; apply heap_le_refl|].
  exists []. rewrite app_nil_r. split; [exact Hl|constructor].
Qed.

Lemma trails_emit (ev : event) (s : state) :
  trailed (heap s) ev -> trails s (snd (emit ev s)).
Proof.
  intros H. split; [apply heap_le_refl|]. exists [ev].
  split; [reflexivity|]. constructor; [exact H|constructor].
Qed.

Lemma trails_write (r : nat) (t t' : trade) (s : state) :
  heap s !! r = Some t -> trade_le t t' -> trails s (snd (write r t' s)).
Proof.
  intros Hr Hle. split; simpl.
  - intros r0 t0 H0. destruct (decide (r0 = r)) as [->|Hne].
    + exists t'. split.
      * apply list_lookup_insert_eq. apply lookup_lt_Some in Hr. exact Hr.
      * rewrite Hr in H0. injection H0 as <-. exact Hle.
    + exists t0. split; [|apply trade_le_refl].
      rewrite list_lookup_insert_ne by congruence. exact H0.
  - exists []. rewrite app_nil_r. split; [reflexivity|constructor].
Qed.

Lemma trails_register (t : trade) (s : state) : trails s (snd (register t s)).
Proof.
  split; simpl; [apply heap_le_app|].
  exists [NotifyTrade (length (heap s))]. split; [reflexivity|].
  constructor; [exact I|constructor].
Qed.

Ltac tr_step := rel_step trails_refl trails_trans.

Ltac tr_quiet := apply trails_quiet; reflexivity.

Lemma trails_remove (r : nat) (t : trade) (s : state) :
  trails s (snd (remove r t s)).
Proof.
  unfold remove. tr_step; [tr_step|]. intros s0 s1 H. injection H as <- <-.
  destruct (remove_first _ _ _ _); [tr_quiet|tr_step].
Qed.

Lemma trails_close_one (w : world) (i r : nat) (t : trade) (p : Q) (s : state) :
  trails s (snd (close_one w i r t p s)).
Proof.
  unfold close_one. destruct (close_all_trades _ _ _); [|tr_step].
  tr_step; [apply trails_remove|]. intros u s1 _.
  tr_step; [tr_step|]. intros s0 s2 H. injection H as <- <-.
  destruct (Qltb _ 0); tr_quiet.
Qed.

Lemma trails_trail_buy (w : world) (i r : nat) (t : trade) (p : Q) (s : state) :
  heap s !! r = Some t -> upper (side t) = "BUY"%string ->
  trails s
    (snd ((if Qltb ((take_profit_price t - entry_price t) * 0.35)
                   (p - entry_price t)
           then
             mx <- as_float (max_price t);;
             if Qltb p (mx - (TRAILING_STOP_PIPS * 0.0001)) then
               emit (Email "Trailing Stop Alert");;
               emit (TrailingClose r p);;
               close_one w i r t p
             else ret tt
           else ret tt) s)).
Proof.
  intros Hr Hside. destruct (Qltb _ (p - entry_price t)); [|tr_step].
  tr_step; [tr_step|]. intros mx s1 H1. apply as_float_ok in H1 as [Hmx ->].
  destruct (Qltb p _) eqn:Hhit; [|tr_step]. apply Qltb_true in Hhit.
  tr_step; [apply trails_emit; exact I|]. intros u s2 H2. apply emit_ok in H2.
  tr_step; [|intros; apply trails_close_one].
  apply trails_emit. simpl. exists t. split; [rewrite H2; exact Hr|].
  left. split; [exact Hside|]. exists mx. split; [exact Hmx|exact Hhit].
Qed.

Lemma trails_trail_sell (w : world) (i r : nat) (t : trade) (p : Q) (s : state) :
  heap s !! r = Some t -> upper (side t) = "SELL"%string ->
  trails s
    (snd ((if Qltb ((entry_price t - take_profit_price t) * 0.5)
                   (entry_price t - p)
           then
             mn <- as_float (min_price t);;
             if Qltb (mn + (TRAILING_STOP_PIPS * 0.0001)) p then
               emit (Email "Trailing Stop Alert");;
               emit (TrailingClose r p);;
               close_one w i r t p
             else ret tt
           else ret tt) s)).
Proof.
  intros Hr Hside. destruct (Qltb _ (entry_price t - p)); [|tr_step].
  tr_step; [tr_step|]. intros mn s1 H1. apply as_float_ok in H1 as [Hmn ->].
  destruct (Qltb _ p) eqn:Hhit; [|tr_step]. apply Qltb_true in Hhit.
  tr_step; [apply trails_emit; exact I|]. intros u s2 H2. apply emit_ok in H2.
  tr_step; [|intros; apply trails_close_one].
  apply trails_emit. simpl. exists t. split; [rewrite H2; exact Hr|].
  right. split; [exact Hside|]. exists mn. split; [exact Hmn|exact Hhit].
Qed.

Lemma trails_manage_buy (w : world) (i r : nat) (t : trade) (p : Q) (s : state) :
  heap s !! r = Some t -> upper (side t) = "BUY"%string ->
  trails s (snd (manage_buy w i r t p s)).
Proof.
  intros Hr Hside. unfold manage_buy.
  tr_step; [tr_step|]. intros mx s1 H1. apply as_float_ok in H1 as [Hmx ->].
  destruct (Qltb mx p) eqn:Hup.
  - apply Qltb_true in Hup. tr_step.
    + tr_step; [|intros; tr_step].
      apply (trails_write r t); [exact Hr|].
      apply (with_max_price_le t mx); [exact Hmx|lra].
    + intros t' s2 H2. unfold bind in H2.
      destruct (write r (with_max_price t p) s) as [[u|e] s3] eqn:Hw;
        [|discriminate].
      injection H2 as <- <-.
      apply (trails_trail_buy w i r (with_max_price t p) p s3); [|exact Hside].
      eapply write_ok; eassumption.
  - tr_step; [tr_step|]. intros t' s2 H2. injection H2 as <- <-.
    apply (trails_trail_buy w i r t p s Hr Hside).
Qed.

Lemma trails_manage_sell (w : world) (i r : nat) (t : trade) (p : Q) (s : state) :
  heap s !! r = Some t -> upper (side t) = "SELL"%string ->
  trails s (snd (manage_sell w i r t p s)).
Proof.
  intros Hr Hside. unfold manage_sell.
  tr_step; [tr_step|]. intros mn s1 H1. apply as_float_ok in H1 as [Hmn ->].
  destruct (Qltb p mn) eqn:Hup.
  - apply Qltb_true in Hup. tr_step.
    + tr_step; [|intros; tr_step].
      apply (trails_write r t); [exact Hr|].
      apply (with_min_price_le t mn); [exact Hmn|lra].
    + intros t' s2 H2. unfold bind in H2.
      destruct (write r (with_min_price t p) s) as [[u|e] s3] eqn:Hw;
        [|discriminate].
      injection H2 as <- <-.
      apply (trails_trail_sell w i r (with_min_price t p) p s3); [|exact Hside].
      eapply write_ok; eassumption.
  - tr_step; [tr_step|]. intros t' s2 H2. injection H2 as <- <-.
    apply (trails_trail_sell w i r t p s Hr Hside).
Qed.

Lemma trails_manage_trade (w : world) (lp : gmap string Q) (i r : nat)
  (s : state) : trails s (snd (manage_trade w lp i r s)).
Proof.
  unfold manage_trade. tr_step; [tr_step|]. intros s0 s1 H. injection H as <- <-.
  destruct (heap s !! r) as [t|] eqn:Hr; [|tr_step].
  tr_step; [tr_step|]. intros o s1 H1. apply price_for_ok in H1. subst s1.
  destruct o as [p|]; [|tr_step].
  destruct (String.eqb (upper (side t)) "BUY") eqn:Hb.
  - apply String.eqb_eq in Hb. apply trails_manage_buy; assumption.
  - destruct (String.eqb (upper (side t)) "SELL") eqn:Hs.
    + apply String.eqb_eq in Hs. apply trails_manage_sell; assumption.
    + tr_step.
Qed.

Lemma trails_manage_trades (w : world) (lp : gmap string Q) (copy : list nat) :
  forall (i : nat) (s : state), trails s (snd (manage_trades w lp i copy s)).
Proof.
  induction copy as [|r rest IH]; intros i s; simpl.
  - apply trails_refl.
  - tr_step; [apply trails_manage_trade|intros; apply IH].
Qed.

Lemma trails_kill_switch (w : world) (lp : gmap string Q) (s : state) :
  trails s (snd (kill_switch w lp s)).
Proof.
  unfold kill_switch. tr_step; [tr_step|]. intros s0 s1 H. injection H as <- <-.
  tr_step; [tr_step|]. intros total s1 _.
  tr_step; [tr_step|]. intros equity s2 _.
  tr_step; [|tr_step].
  tr_step; [apply trails_emit; exact I|]. intros u s3 _.
  tr_step; [apply trails_emit; exact I|]. intros u' s4 _. tr_quiet.
Qed.

Lemma trails_position_management (w : world) (lp : gmap string Q) (s : state) :
  trails s (snd (position_management w lp s)).
Proof.
  unfold position_management. tr_step; [tr_step|]. intros s0 s1 _.
  tr_step; [apply trails_manage_trades|intros; apply trails_kill_switch].
Qed.

Lemma trails_process_instrument (w : world) (lp : gmap string Q)
  (inst : string) (df : frame) (s : state) :
  trails s (snd (process_instrument w lp inst df s)).
Proof.
  unfold process_instrument.
  tr_step; [tr_step|]. tr_step; [|tr_step]. tr_step; [tr_step|].
  tr_step; [tr_step|]. intros m15 s1 _.
  tr_step; [tr_step|]. intros m5 s2 _.
  tr_step; [|tr_step].
  tr_step; [tr_step|]. intros s3 s4 _.
  tr_step; [tr_step|].
  tr_step; [tr_step|]. intros bal s5 _.
  tr_step; [tr_step|]. intros size s6 _.
  destruct (stop_and_target _ _ _) as [sl tp].
  tr_step; [apply trails_emit; exact I|]. intros u s7 _.
  tr_step; [tr_step|]. intros oid s8 _.
  destruct oid as [oid|]; [|tr_step].
  tr_step; [apply trails_register|intros; tr_step].
Qed.

Lemma trails_process_instruments (w : world) (data : list (string * frame)) :
  forall (lp : gmap string Q) (s : state),
    trails s (snd (process_instruments w lp data s)).
Proof.
  induction data as [|[inst df] rest IH]; intros lp s; simpl.
  - apply trails_refl.
  - tr_step; [apply trails_process_instrument|intros; apply IH].
Qed.

Lemma trails_trading_pass (w : world) (s : state) :
  trails s (snd (trading_pass w s)).
Proof.
  unfold trading_pass. tr_step; [tr_step|]. intros data s1 _.
  tr_step; [apply trails_process_instruments|]. intros lp s2 _.
  tr_step; [apply trails_position_management|]. intros u s3 _.
  apply trails_emit. exact I.
Qed.

Lemma trails_daily_reset (w : world) (s : state) :
  trails s (snd (daily_reset w s)).
Proof.
  destruct (decide (last_date s = Some (now_date w))) as [Hd|Hd].
  - rewrite (daily_reset_same w s Hd). apply trails_refl.
  - rewrite (daily_reset_new w s Hd). tr_quiet.
Qed.

Lemma trails_iteration (w : world) (s : state) :
  trails s (snd (iteration w s)).
Proof.
  unfold iteration.
  tr_step; [apply trails_emit; exact I|].
  tr_step; [apply trails_emit; exact I|].
  tr_step; [apply trails_daily_reset|]. intros u s1 _.
  tr_step; [tr_step|]. intros bal s2 _.
  tr_step; [tr_step|]. intros s3 s4 _.
  tr_step; [tr_step; [tr_step|tr_quiet]|]. intros u' s5 _.
  tr_step; [tr_step|]. intros s6 s7 _.
  tr_step; [tr_step|]. intros equity s8 _.
  tr_step; [tr_step|].
  tr_step.
  - tr_step; [|intros]; apply trails_emit; exact I.
  - apply trails_trading_pass.
Qed.

Lemma trails_loop_body (w : world) (s : state) :
  trails s (snd (loop_body w s)).
Proof.
  unfold loop_body. apply (rel_catch trails trails_trans).
  - apply trails_iteration.
  - intros e s1 _. tr_step; [apply trails_emit; exact I|]. intros u s2 _.
    tr_step; [|intros]; apply trails_emit; exact I.
Qed.

Lemma trails_run (ws : list world) (s : state) : trails s (run ws s).
Proof.
  apply (rel_run trails trails_refl trails_trans). apply trails_loop_body.
Qed.

End TrailFacts.

(* ===================================================================== *)
(** ** data_fetch.py: returning and raising                               *)
(* ===================================================================== *)

Section DataFetchExnFacts.
Import Indicators Datetime DataFetchExn DataFetchExnSpec.

Variable api : client.
Variables instrument granularity : string.
Variable end_dt : datetime.

Lemma add_inr (d d' : datetime) (delta : Z) :
  add d delta = inr d' ->
  d' = mkDatetime (wall d + delta) (utcoffset d)
  /\ (0 <= wall d + delta <= MAX)%Z.
Proof.
  unfold add. cbv zeta.
  destruct (Z.leb_spec 0 (wall d + delta)) as [H0|H0]; simpl; [|discriminate].
  destruct (Z.leb_spec (wall d + delta) MAX) as [H1|H1]; [|discriminate].
  intros H. injection H as <-. split; [reflexivity|lia].
Qed.

Lemma add_in_range (d : datetime) (delta : Z) :
  (0 <= wall d + delta <= MAX)%Z ->
  add d delta = inr (mkDatetime (wall d + delta) (utcoffset d)).
Proof.
  intros H. unfold add. cbv zeta.
  rewrite (proj2 (Z.leb_le 0 _)) by lia.
  rewrite (proj2 (Z.leb_le _ MAX)) by lia. reflexivity.
Qed.

Lemma add_overflow (d : datetime) (delta : Z) :
  (MAX < wall d + delta)%Z -> add d delta = inl OverflowError.
Proof.
  intros H. unfold add. cbv zeta.
  rewrite (proj2 (Z.leb_gt (wall d + delta) MAX)) by lia.
  rewrite andb_false_r. reflexivity.
Qed.

Lemma instant_moved (d : datetime) (delta : Z) :
  instant (mkDatetime (wall d + delta) (utcoffset d)) = (instant d + delta)%Z.
Proof. unfold instant. simpl. lia. Qed.

Lemma comparable_moved (d : datetime) (w : Z) :
  comparable (mkDatetime w (utcoffset d)) end_dt = comparable d end_dt.
Proof. reflexivity. Qed.

Lemma comparable_refl (d : datetime) : comparable d d = true.
Proof. unfold comparable. destruct (utcoffset d); reflexivity. Qed.

(** What an iteration that goes on to the next has found. *)
Lemma goes_on (cur ce next : datetime) (past : bool) :
  add cur DataFetch.CHUNK = inr ce ->
  gt ce end_dt = inr past ->
  ge (if past then end_dt else ce) end_dt = inr false ->
  add ce DataFetch.SECOND = inr next ->
  (instant cur + DataFetch.CHUNK < instant end_dt)%Z
  /\ next = mkDatetime (wall cur + DataFetch.CHUNK + DataFetch.SECOND)
              (utcoffset cur)
  /\ instant next = (instant cur + DataFetch.CHUNK + DataFetch.SECOND)%Z.
Proof.
  intros Hce Hgt Hge Hnext.
  apply add_inr in Hce as [-> _]. apply add_inr in Hnext as [-> _].
  simpl. unfold gt, ge in *.
  rewrite comparable_moved in Hgt.
  destruct (comparable cur end_dt) eqn:Hc; [|discriminate].
  injection Hgt as <-. rewrite instant_moved in Hge.
  destruct (Z.ltb_spec (instant end_dt) (instant cur + DataFetch.CHUNK)).
  - rewrite comparable_refl, Z.leb_refl in Hge. discriminate.
  - rewrite comparable_moved, Hc in Hge. rewrite instant_moved in Hge.
    injection Hge as Hge. apply Z.leb_gt in Hge.
    split; [exact Hge|]. split; [reflexivity|].
    unfold instant. simpl. lia.
Qed.

(** With enough fuel the loop is left, by a return or by an exception,
    after at most that many requests. *)
Lemma fetch_loop_ends (fuel : nat) :
  forall cur chunks sent,
    (DataFetchSpec.enough (instant cur) (instant end_dt) <= fuel)%nat ->
    exists out reqs,
      fetch_loop fuel api instrument granularity end_dt cur chunks sent
      = Some (out, reqs)
      /\ (length reqs
          <= length sent + DataFetchSpec.enough (instant cur) (instant end_dt))%nat.
Proof.
  induction fuel as [|fuel IH]; intros cur chunks sent Hf.
  - unfold DataFetchSpec.enough in Hf. lia.
  - assert (H1 : (1 <= DataFetchSpec.enough (instant cur) (instant end_dt))%nat)
      by (unfold DataFetchSpec.enough; lia).
    cbn [fetch_loop].
    destruct (add cur DataFetch.CHUNK) as [e|ce] eqn:Hce.
    { do 2 eexists. split; [reflexivity|]. lia. }
    destruct (gt ce end_dt) as [e|past] eqn:Hgt.
    { do 2 eexists. split; [reflexivity|]. lia. }
    cbv zeta.
    destruct (api _) as [|name|[|c cs]].
    + do 2 eexists. split; [reflexivity|]. rewrite length_app. simpl. lia.
    + do 2 eexists. split; [reflexivity|]. rewrite length_app. simpl. lia.
    + do 2 eexists. split; [reflexivity|]. rewrite length_app. simpl. lia.
    + destruct (ge (if past then end_dt else ce) end_dt) as [e|[|]] eqn:Hge.
      * do 2 eexists. split; [reflexivity|]. rewrite length_app. simpl. lia.
      * do 2 eexists. split; [reflexivity|]. rewrite length_app. simpl. lia.
      * destruct (add (if past then end_dt else ce) DataFetch.SECOND)
          as [e|next] eqn:Hnext.
        { do 2 eexists. split; [reflexivity|]. rewrite length_app. simpl. lia. }
        assert (Hp : past = false).
        { destruct past; [|reflexivity]. unfold ge in Hge.
          rewrite comparable_refl, Z.leb_refl in Hge. discriminate. }
        subst past.
        destruct (goes_on cur ce next false Hce Hgt Hge Hnext) as (Hlt & _ & Hi).
        rewrite (enough_step (instant end_dt) (instant cur) Hlt) in Hf |- *.
        rewrite <- Hi in Hf |- *.
        match goal with
        | |- context [fetch_loop fuel _ _ _ _ next ?ch ?se] =>
            destruct (IH next ch se ltac:(lia)) as (out & reqs & Hr & Hlen)
        end.
        exists out, reqs. split; [exact Hr|].
        rewrite length_app in Hlen. simpl in Hlen. lia.
Qed.

(** More fuel than needed changes nothing. *)
Lemma fetch_loop_exn_more_fuel (fuel : nat) :
  forall fuel' cur chunks sent r,
    (fuel <= fuel')%nat ->
    fetch_loop fuel api instrument granularity end_dt cur chunks sent = Some r ->
    fetch_loop fuel' api instrument granularity end_dt cur chunks sent = Some r.
Proof.
  induction fuel as [|fuel IH]; intros fuel' cur chunks sent r Hle H.
  - discriminate.
  - destruct fuel' as [|fuel']; [lia|].
    cbn [fetch_loop] in H |- *.
    destruct (add cur DataFetch.CHUNK) as [e|ce]; [exact H|].
    destruct (gt ce end_dt) as [e|past]; [exact H|].
    cbv zeta in H |- *.
    destruct (api _) as [|name|[|c cs]]; try exact H.
    destruct (ge _ end_dt) as [e|[|]]; try exact H.
    destruct (add _ DataFetch.SECOND) as [e|next]; [exact H|].
    apply IH; [lia|exact H].
Qed.

(** In range, between comparable values and with a client that raises
    nothing but V20Error, the loop returns, and not before a request. *)
Lemma fetch_loop_returns (fuel : nat) :
  raises_v20_only api ->
  forall cur chunks sent out reqs,
    comparable cur end_dt = true ->
    (0 <= wall cur)%Z ->
    (wall cur + DataFetch.CHUNK <= MAX)%Z ->
    (instant end_dt + default 0%Z (utcoffset cur)
     + DataFetch.CHUNK + DataFetch.SECOND <= MAX)%Z ->
    fetch_loop fuel api instrument granularity end_dt cur chunks sent
    = Some (out, reqs) ->
    (exists cs, out = Returns cs) /\ (length sent < length reqs)%nat.
Proof.
  intros Hapi. pose proof CHUNK_pos as Hc0. pose proof SECOND_pos as Hs0.
  induction fuel as [|fuel IH]; intros cur chunks sent out reqs Hc Hw0 Hw Hend H.
  - discriminate.
  - cbn [fetch_loop] in H.
    rewrite (add_in_range cur DataFetch.CHUNK) in H by lia.
    unfold gt in H. rewrite comparable_moved, Hc in H. cbv zeta in H.
    rewrite instant_moved in H.
    destruct (Z.ltb_spec (instant end_dt) (instant cur + DataFetch.CHUNK))
      as [Hpast|Hnot].
    + destruct (api _) as [|name|[|c cs]] eqn:Ha.
      * injection H as <- <-. split; [eexists; reflexivity|].
        rewrite length_app. simpl. lia.
      * exfalso. exact (Hapi _ _ Ha).
      * injection H as <- <-. split; [eexists; reflexivity|].
        rewrite length_app. simpl. lia.
      * unfold ge in H. rewrite comparable_refl, Z.leb_refl in H.
        injection H as <- <-. split; [eexists; reflexivity|].
        rewrite length_app. simpl. lia.
    + destruct (api _) as [|name|[|c cs]] eqn:Ha.
      * injection H as <- <-. split; [eexists; reflexivity|].
        rewrite length_app. simpl. lia.
      * exfalso. exact (Hapi _ _ Ha).
      * injection H as <- <-. split; [eexists; reflexivity|].
        rewrite length_app. simpl. lia.
      * unfold ge in H. rewrite comparable_moved, Hc, instant_moved in H.
        destruct (Z.leb_spec (instant end_dt) (instant cur + DataFetch.CHUNK))
          as [Hle|Hlt].
        -- injection H as <- <-. split; [eexists; reflexivity|].
           rewrite length_app. simpl. lia.
        -- assert (Hi : instant cur = (wall cur - default 0%Z (utcoffset cur))%Z)
             by reflexivity.
           rewrite (add_in_range _ DataFetch.SECOND) in H by (simpl; lia).
           simpl in H.
           apply IH in H; simpl; try lia.
           ++ destruct H as [Hout Hlen]. split; [exact Hout|].
              rewrite length_app in Hlen. simpl in Hlen. lia.
           ++ exact Hc.
Qed.

(** A request that the client answers with an exception other than
    V20Error is the last one, and the loop is left by that exception. *)
Lemma fetch_loop_client_error (fuel : nat) :
  forall cur chunks sent out reqs,
    (forall q, In q sent -> exists c cs, api q = Candles (c :: cs)) ->
    fetch_loop fuel api instrument granularity end_dt cur chunks sent
    = Some (out, reqs) ->
    forall q name, In q reqs -> api q = Raises name ->
                   out = Propagates (OfClient name).
Proof.
  assert (Hold : forall sent q name,
            (forall q, In q sent -> exists c cs, api q = Candles (c :: cs)) ->
            In q sent -> api q = Raises name -> False).
  { intros sent q name Hs Hq Ha. destruct (Hs q Hq) as (c & cs & Hc).
    rewrite Hc in Ha. discriminate. }
  assert (Hnew : forall sent req q name,
            (forall q, In q sent -> exists c cs, api q = Candles (c :: cs)) ->
            In q (sent ++ [req]) -> api q = Raises name -> q = req).
  { intros sent req q name Hs Hq Ha. apply in_app_or in Hq as [Hq|[Hq|[]]].
    - exfalso. exact (Hold sent q name Hs Hq Ha).
    - symmetry. exact Hq. }
  induction fuel as [|fuel IH]; intros cur chunks sent out reqs Hs H q name Hq Ha.
  - discriminate.
  - cbn [fetch_loop] in H.
    destruct (add cur DataFetch.CHUNK) as [e|ce].
    { injection H as <- <-. exfalso. exact (Hold sent q name Hs Hq Ha). }
    destruct (gt ce end_dt) as [e|past].
    { injection H as <- <-. exfalso. exact (Hold sent q name Hs Hq Ha). }
    cbv zeta in H.
    destruct (api _) as [|name'|[|c cs]] eqn:Hreq.
    + injection H as <- <-. apply (Hnew sent _ q name Hs) in Hq; [|exact Ha].
      subst q. rewrite Hreq in Ha. discriminate.
    + injection H as <- <-. apply (Hnew sent _ q name Hs) in Hq; [|exact Ha].
      subst q. rewrite Hreq in Ha. injection Ha as ->. reflexivity.
    + injection H as <- <-. apply (Hnew sent _ q name Hs) in Hq; [|exact Ha].
      subst q. rewrite Hreq in Ha. discriminate.
    + assert (Hs' : forall q0,
                In q0 (sent ++ [mkRequest instrument cur
                                  (if past then end_dt else ce) granularity]) ->
                exists c0 cs0, api q0 = Candles (c0 :: cs0)).
      { intros q0 Hq0. apply in_app_or in Hq0 as [Hq0|[<-|[]]].
        - apply Hs. exact Hq0.
        - exists c, cs. exact Hreq. }
      destruct (ge _ end_dt) as [e|[|]].
      * injection H as <- <-. exfalso. exact (Hold _ q name Hs' Hq Ha).
      * injection H as <- <-. exfalso. exact (Hold _ q name Hs' Hq Ha).
      * destruct (add _ DataFetch.SECOND) as [e|next].
        -- injection H as <- <-. exfalso. exact (Hold _ q name Hs' Hq Ha).
        -- exact (IH _ _ _ _ _ Hs' H q name Hq Ha).
Qed.

End DataFetchExnFacts.

Section DownloadFacts.
Import Indicators Datetime DataFetchExn DataFetchExnSpec.

Lemma fetch_data_for_period_ends (fuel : nat) (api : client) (instrument : string)
  (start_dt end_dt : datetime) (granularity : string) :
  (enough start_dt end_dt <= fuel)%nat ->
  exists out reqs,
    fetch_data_for_period fuel api instrument start_dt end_dt granularity
    = Some (out, reqs)
    /\ (length reqs <= enough start_dt end_dt)%nat.
Proof.
  intros Hf. unfold fetch_data_for_period.
  destruct (fetch_loop_ends api instrument granularity end_dt fuel start_dt [] []
              Hf) as (out & reqs & -> & Hlen).
  destruct out as [chunks|e]; do 2 eexists; (split; [reflexivity|exact Hlen]).
Qed.

Lemma fetch_data_for_period_more_fuel (fuel fuel' : nat) (api : client)
  (instrument : string) (start_dt end_dt : datetime) (granularity : string) r :
  (fuel <= fuel')%nat ->
  fetch_data_for_period fuel api instrument start_dt end_dt granularity = Some r ->
  fetch_data_for_period fuel' api instrument start_dt end_dt granularity = Some r.
Proof.
  intros Hle. unfold fetch_data_for_period.
  destruct (fetch_loop fuel api instrument granularity end_dt start_dt [] [])
    as [r0|] eqn:E; [|discriminate].
  rewrite (fetch_loop_exn_more_fuel api instrument granularity end_dt fuel fuel'
             start_dt [] [] r0 Hle E).
  tauto.
Qed.

Lemma fetch_data_for_period_returns (fuel : nat) (api : client)
  (instrument : string) (start_dt end_dt : datetime) (granularity : string)
  out reqs :
  comparable start_dt end_dt = true -> in_range start_dt end_dt ->
  raises_v20_only api ->
  fetch_data_for_period fuel api instrument start_dt end_dt granularity
  = Some (out, reqs) ->
  (exists df, out = Returns df) /\ (1 <= length reqs)%nat.
Proof.
  intros Hc (Hw0 & Hw & Hend) Hapi. unfold fetch_data_for_period.
  destruct (fetch_loop fuel api instrument granularity end_dt start_dt [] [])
    as [[out0 reqs0]|] eqn:E; [|discriminate].
  destruct (fetch_loop_returns api instrument granularity end_dt fuel Hapi
              start_dt [] [] out0 reqs0 Hc Hw0 Hw Hend E) as [[cs ->] Hlen].
  intros H. injection H as <- <-. split; [eexists; reflexivity|].
  simpl in Hlen. lia.
Qed.

Lemma fetch_data_for_period_client_error (fuel : nat) (api : client)
  (instrument : string) (start_dt end_dt : datetime) (granularity : string)
  out reqs q name :
  fetch_data_for_period fuel api instrument start_dt end_dt granularity
  = Some (out, reqs) ->
  In q reqs -> api q = Raises name -> out = Propagates (OfClient name).
Proof.
  unfold fetch_data_for_period.
  destruct (fetch_loop fuel api instrument granularity end_dt start_dt [] [])
    as [[out0 reqs0]|] eqn:E; [|discriminate].
  intros H Hq Ha.
  assert (Hr : reqs0 = reqs) by (destruct out0; injection H as _ <-; reflexivity).
  subst reqs0.
  rewrite (fetch_loop_client_error api instrument granularity end_dt fuel start_dt
             [] [] out0 reqs ltac:(intros ? []) E q name Hq Ha) in H.
  injection H as <-. reflexivity.
Qed.

(** A start within 5000 minutes of [datetime.max]: line 45 raises before
    any request. *)
Lemma fetch_data_for_period_overflow (fuel : nat) (api : client)
  (instrument : string) (start_dt end_dt : datetime) (granularity : string) :
  (MAX < wall start_dt + DataFetch.CHUNK)%Z ->
  fetch_data_for_period (S fuel) api instrument start_dt end_dt granularity
  = Some (Propagates (OfDatetime OverflowError), []).
Proof.
  intros H. unfold fetch_data_for_period. cbn [fetch_loop].
  rewrite (add_overflow start_dt DataFetch.CHUNK H). reflexivity.
Qed.

(** A naive and an aware value: line 47 raises before any request. *)
Lemma fetch_data_for_period_type_error (fuel : nat) (api : client)
  (instrument : string) (start_dt end_dt : datetime) (granularity : string) :
  (0 <= wall start_dt)%Z -> (wall start_dt + DataFetch.CHUNK <= MAX)%Z ->
  comparable start_dt end_dt = false ->
  fetch_data_for_period (S fuel) api instrument start_dt end_dt granularity
  = Some (Propagates (OfDatetime TypeError), []).
Proof.
  intros H0 H1 Hc. pose proof CHUNK_pos. unfold fetch_data_for_period.
  cbn [fetch_loop].
  rewrite (add_in_range start_dt DataFetch.CHUNK) by lia.
  unfold gt. rewrite (comparable_moved end_dt), Hc. reflexivity.
Qed.

Lemma fetch_multiple_pairs_from_ends (fuel : nat) (api : client)
  (start_dt end_dt : datetime) (granularity : string) (l : list string) :
  (enough start_dt end_dt <= fuel)%nat ->
  forall d, exists r,
    fetch_multiple_pairs_from fuel api l start_dt end_dt granularity d = Some r.
Proof.
  intros Hf. induction l as [|instr rest IH]; intros d; simpl.
  - eexists. reflexivity.
  - destruct (fetch_data_for_period_ends fuel api instr start_dt end_dt
                granularity Hf) as (out & reqs & -> & _).
    destruct out as [df|e]; [apply IH|eexists; reflexivity].
Qed.

(** The exception of the first instrument whose download raises ends the
    call. *)
Lemma fetch_multiple_pairs_from_raises (fuel : nat) (api : client)
  (start_dt end_dt : datetime) (granularity : string) (pre : list string) :
  forall (i : string) (post : list string) (e : exn) (reqs : list request) d,
    Forall (fun j => is_Some (frame_of (fetch_data_for_period fuel api j start_dt
                                          end_dt granularity))) pre ->
    fetch_data_for_period fuel api i start_dt end_dt granularity
    = Some (Propagates e, reqs) ->
    fetch_multiple_pairs_from fuel api (pre ++ i :: post) start_dt end_dt
      granularity d = Some (Propagates e).
Proof.
  induction pre as [|j pre IH]; intros i post e reqs d Hpre Hi; simpl.
  - rewrite Hi. reflexivity.
  - inversion Hpre as [|? ? [df Hj] Hrest]; subst.
    unfold frame_of in Hj.
    destruct (fetch_data_for_period fuel api j start_dt end_dt granularity)
      as [[[df'|e'] rq]|]; try discriminate.
    eapply IH; eassumption.
Qed.

(** When every download returns, so does the call, with one entry for
    every instrument of the list. *)
Lemma fetch_multiple_pairs_from_returns (fuel : nat) (api : client)
  (start_dt end_dt : datetime) (granularity : string) (l : list string) :
  Forall (fun j => is_Some (frame_of (fetch_data_for_period fuel api j start_dt
                                        end_dt granularity))) l ->
  forall d, exists d',
    fetch_multiple_pairs_from fuel api l start_dt end_dt granularity d
    = Some (Returns d')
    /\ forall i,
         d' !! i
         = if bool_decide (i ∈ l)
           then frame_of (fetch_data_for_period fuel api i start_dt end_dt
                            granularity)
           else d !! i.
Proof.
  induction l as [|instr rest IH]; intros Hall d.
  - exists d. split; [reflexivity|]. intros i. reflexivity.
  - inversion Hall as [|? ? [df Hj] Hrest]; subst. simpl.
    unfold frame_of in Hj.
    destruct (fetch_data_for_period fuel api instr start_dt end_dt granularity)
      as [[[df'|e'] rq]|] eqn:Hr; try discriminate.
    injection Hj as ->.
    destruct (IH Hrest (<[instr := df]> d)) as [d' [Hd' Hl]].
    exists d'. split; [exact Hd'|]. intros i. rewrite Hl.
    destruct (bool_decide_reflect (i ∈ rest)) as [Hin|Hn].
    + rewrite bool_decide_eq_true_2 by (right; exact Hin). reflexivity.
    + destruct (decide (i = instr)) as [->|Hne].
      * rewrite bool_decide_eq_true_2 by left.
        rewrite lookup_insert_eq, Hr. reflexivity.
      * rewrite bool_decide_eq_false_2.
        -- rewrite lookup_insert_ne by auto. reflexivity.
        -- intros H. apply elem_of_cons in H. destruct H; contradiction.
Qed.

End DownloadFacts.


(** *** The download on instants is this download in range *)

Section BridgeFacts.
Import Indicators Datetime DataFetchExn DataFetchExnSpec.

Lemma lift_request (api : DataFetch.client) (instrument granularity : string)
  (cur chunk_end : datetime) :
  lift api (mkRequest instrument cur chunk_end granularity)
  = match api (DataFetch.mkRequest instrument (instant cur) (instant chunk_end)
                 granularity) with
    | DataFetch.V20Error => V20Error
    | DataFetch.Candles candles => Candles candles
    end.
Proof. reflexivity. Qed.

Lemma erase_sent (sent : list request) (instrument granularity : string)
  (cur chunk_end : datetime) :
  map erase (sent ++ [mkRequest instrument cur chunk_end granularity])
  = map erase sent
    ++ [DataFetch.mkRequest instrument (instant cur) (instant chunk_end)
          granularity].
Proof. rewrite map_app. reflexivity. Qed.

Lemma fetch_loop_lift (api : DataFetch.client) (instrument granularity : string)
  (end_dt : datetime) (fuel : nat) :
  forall cur chunks sent,
    comparable cur end_dt = true ->
    (0 <= wall cur)%Z ->
    (wall cur + DataFetch.CHUNK <= MAX)%Z ->
    (instant end_dt + default 0%Z (utcoffset cur)
     + DataFetch.CHUNK + DataFetch.SECOND <= MAX)%Z ->
    alike (DataFetch.fetch_loop fuel api instrument granularity (instant end_dt)
             (instant cur) (DataFetch.mkFetched chunks (map erase sent)))
          (fetch_loop fuel (lift api) instrument granularity end_dt cur chunks
             sent).
Proof.
  pose proof CHUNK_pos as Hc0. pose proof SECOND_pos as Hs0.
  induction fuel as [|fuel IH]; intros cur chunks sent Hc Hw0 Hw Hend.
  - exact I.
  - cbn [fetch_loop DataFetch.fetch_loop]. cbv zeta.
    rewrite (add_in_range cur DataFetch.CHUNK) by lia.
    unfold gt. rewrite (comparable_moved end_dt), Hc. rewrite instant_moved.
    cbn [DataFetch.sent DataFetch.all_candles].
    rewrite lift_request.
    destruct (Z.ltb_spec (instant end_dt) (instant cur + DataFetch.CHUNK))
      as [Hpast|Hnot].
    + destruct (api _) as [|[|c cs]].
      * split; [reflexivity|]. apply erase_sent.
      * split; [reflexivity|]. apply erase_sent.
      * rewrite Z.leb_refl. unfold ge. rewrite comparable_refl, Z.leb_refl.
        split; [reflexivity|]. apply erase_sent.
    + rewrite instant_moved.
      destruct (api _) as [|[|c cs]].
      * split; [reflexivity|]. rewrite erase_sent, instant_moved. reflexivity.
      * split; [reflexivity|]. rewrite erase_sent, instant_moved. reflexivity.
      * unfold ge. rewrite (comparable_moved end_dt), Hc, instant_moved.
        destruct (Z.leb_spec (instant end_dt) (instant cur + DataFetch.CHUNK))
          as [Hle|Hlt].
        -- split; [reflexivity|]. rewrite erase_sent, instant_moved. reflexivity.
        -- assert (Hi : instant cur = (wall cur - default 0%Z (utcoffset cur))%Z)
             by reflexivity.
           rewrite (add_in_range _ DataFetch.SECOND) by (simpl; lia).
           cbn [wall utcoffset].
           match goal with
           | |- alike _ (fetch_loop fuel _ _ _ _ ?next ?ch ?se) =>
               pose proof (IH next ch se) as IH'
           end.
           assert (Hn : instant (mkDatetime (wall cur + DataFetch.CHUNK
                                             + DataFetch.SECOND) (utcoffset cur))
                        = (instant cur + DataFetch.CHUNK + DataFetch.SECOND)%Z)
             by (unfold instant; simpl; lia).
           rewrite erase_sent, instant_moved, Hn in IH'.
           apply IH'; simpl; try lia. exact Hc.
Qed.

(** In range and between comparable values, the download from a client
    that answers by the instants of the window is the download of
    [DataFetch] on those instants: the same frame, from requests for the
    same windows. *)
Lemma fetch_data_for_period_lift (api : DataFetch.client)
  (instrument granularity : string) (start_dt end_dt : datetime) (fuel : nat)
  (r : DataFetch.fetch_result) :
  comparable start_dt end_dt = true -> in_range start_dt end_dt ->
  DataFetch.fetch_data_for_period fuel api instrument (instant start_dt)
    (instant end_dt) granularity = Some r ->
  exists reqs,
    fetch_data_for_period fuel (lift api) instrument start_dt end_dt granularity
    = Some (Returns (DataFetch.final_df r), reqs)
    /\ map erase reqs = DataFetch.requests r.
Proof.
  intros Hc (Hw0 & Hw & Hend).
  pose proof (fetch_loop_lift api instrument granularity end_dt fuel start_dt
                [] [] Hc Hw0 Hw Hend) as H.
  unfold DataFetch.fetch_data_for_period, fetch_data_for_period. simpl in H.
  destruct (DataFetch.fetch_loop fuel api instrument granularity (instant end_dt)
              (instant start_dt) (DataFetch.mkFetched [] [])) as [acc|];
    [|discriminate].
  destruct (fetch_loop fuel (lift api) instrument granularity end_dt start_dt [] [])
    as [[[chunks|e] reqs]|]; simpl in H; try contradiction.
  destruct H as [-> Hreqs]. intros Hr. injection Hr as <-.
  exists reqs. split; [|exact Hreqs].
  simpl. destruct (DataFetch.all_candles acc); reflexivity.
Qed.

End BridgeFacts.

(* ===================================================================== *)
(** ** Further results: the other indicators                              *)
(* ===================================================================== *)

(** X1.  For spans of at least one bar [compute_macd] returns three
    columns as long as the input with a number on every row (there is no
    warm-up and no NaN); on every row the histogram is the MACD line less
    the signal line; on the first row all three are zero. *)
Theorem compute_macd_defined_on_every_row :
  forall (data : list Indicators.bar) (fast slow signal : nat),
    (1 <= fast)%nat -> (1 <= slow)%nat -> (1 <= signal)%nat ->
    exists m, Indicators.compute_macd data fast slow signal = Some m
      /\ length (Indicators.macd_line m) = length data
      /\ length (Indicators.signal_line m) = length data
      /\ length (Indicators.histogram m) = length data
      /\ (forall i, (i < length data)%nat ->
            exists a b,
              Indicators.macd_line m !! i = Some (Pandas.Fin a)
              /\ Indicators.signal_line m !! i = Some (Pandas.Fin b)
              /\ Indicators.histogram m !! i = Some (Pandas.Fin (a - b))
              /\ (i = 0%nat -> a == 0 /\ b == 0)).
Proof.
  intros data fast slow signal Hf Hs Hg.
  destruct (closes_bounded data) as [lo [hi Hd]].
  destruct (macd_columns_between data fast slow signal lo hi Hf Hs Hg Hd)
    as (Hm & Hsig & Hlen).
  eexists. split.
  { apply compute_macd_some. repeat split; try assumption. }
  cbv zeta. cbn [Indicators.macd_line Indicators.signal_line Indicators.histogram].
  set (ml := Pandas.map2 Pandas.fsub _ _) in *.
  assert (Hls : length (Pandas.ewm_mean (Indicators.span_alpha signal) ml)
                = length data) by (rewrite ewm_mean_length; exact Hlen).
  split; [exact Hlen|]. split; [exact Hls|]. split.
  { unfold Pandas.map2. rewrite length_zip_with. lia. }
  intros i Hi.
  destruct (fin_between_lookup _ _ ml i Hm ltac:(lia)) as [a [Ha _]].
  destruct (fin_between_lookup _ _ _ i Hsig ltac:(lia)) as [b [Hb _]].
  exists a, b. split; [exact Ha|]. split; [exact Hb|]. split.
  - rewrite (lookup_map2 Pandas.fsub _ _ i _ _ Ha Hb). reflexivity.
  - intros ->. rewrite ewm_mean_lookup_0, Ha in Hb. injection Hb as <-.
    assert (H0 : a == 0); [|split; exact H0].
    unfold ml, Pandas.map2 in Ha. apply lookup_zip_with_Some in Ha.
    destruct Ha as [x [y [E [Hx Hy]]]].
    rewrite ewm_mean_lookup_0 in Hx. rewrite ewm_mean_lookup_0 in Hy.
    rewrite Hx in Hy. injection Hy as <-.
    rewrite (col_lookup Indicators.close data 0 Hi) in Hx. injection Hx as <-.
    simpl in E. injection E as ->. lra.
Qed.

(** The usual spans 12, 26 and 9 on four bars. *)
Lemma compute_macd_defined_on_every_row_witness :
  exists m, Indicators.compute_macd Scenarios.rising_closes 12 26 9 = Some m
    /\ length (Indicators.macd_line m) = length Scenarios.rising_closes.
Proof.
  destruct (compute_macd_defined_on_every_row Scenarios.rising_closes 12 26 9)
    as (m & H & Hl & _); [lia|lia|lia|].
  exists m. split; [exact H|exact Hl].
Defined.

(** X2.  When every close lies between [lo] and [hi], the MACD line and
    the signal line of [compute_macd] stay within the width [hi - lo] of
    that interval in absolute value, and the histogram within twice that
    width. *)
Theorem compute_macd_within_price_range :
  forall (data : list Indicators.bar) (fast slow signal : nat) (lo hi : Q)
         (m : Indicators.macd),
    Forall (fun b => lo <= Indicators.close b <= hi) data ->
    Indicators.compute_macd data fast slow signal = Some m ->
    forall i x y z,
      Indicators.macd_line m !! i = Some x ->
      Indicators.signal_line m !! i = Some y ->
      Indicators.histogram m !! i = Some z ->
      exists a b c, x = Pandas.Fin a /\ y = Pandas.Fin b /\ z = Pandas.Fin c
                    /\ Qabs a <= hi - lo /\ Qabs b <= hi - lo
                    /\ Qabs c <= 2 * (hi - lo).
Proof.
  intros data fast slow signal lo hi m Hd Hm i x y z Hx Hy Hz.
  apply compute_macd_some in Hm. destruct Hm as (Hf & Hs & Hg & ->).
  destruct (macd_columns_between data fast slow signal lo hi Hf Hs Hg Hd)
    as (Hml & Hsig & _).
  cbv zeta in *.
  cbn [Indicators.macd_line Indicators.signal_line Indicators.histogram] in *.
  destruct (proj1 (Forall_lookup _ _) Hml i x Hx) as [a [-> Ha]].
  destruct (proj1 (Forall_lookup _ _) Hsig i y Hy) as [b [-> Hb]].
  rewrite (lookup_map2 Pandas.fsub _ _ i _ _ Hx Hy) in Hz. injection Hz as <-.
  exists a, b, (a + - b). repeat split; try reflexivity.
  - apply Qabs_Qle_condition. lra.
  - apply Qabs_Qle_condition. lra.
  - apply Qabs_Qle_condition. lra.
Qed.

(** Four closes between 1.1000 and 1.1030, the usual spans: the last
    row. *)
Lemma compute_macd_within_price_range_witness :
  exists m x y z,
    Indicators.compute_macd Scenarios.rising_closes 12 26 9 = Some m
    /\ Indicators.macd_line m !! 3%nat = Some x
    /\ Indicators.signal_line m !! 3%nat = Some y
    /\ Indicators.histogram m !! 3%nat = Some z
    /\ exists a b c, x = Pandas.Fin a /\ y = Pandas.Fin b /\ z = Pandas.Fin c
                     /\ Qabs a <= 1.1030 - 1.1000 /\ Qabs b <= 1.1030 - 1.1000
                     /\ Qabs c <= 2 * (1.1030 - 1.1000).
Proof.
  eexists. eexists. eexists. eexists.
  split; [reflexivity|].
  split; [vm_compute; reflexivity|].
  split; [vm_compute; reflexivity|].
  split; [vm_compute; reflexivity|].
  eapply (compute_macd_within_price_range Scenarios.rising_closes 12 26 9
            1.1000 1.1030 _ _ eq_refl 3%nat); vm_compute; reflexivity.
  Unshelve. repeat constructor; vm_compute; discriminate.
Defined.

(** X3.  For a period of at least one bar [compute_atr] returns a column
    as long as the input; row [i] is undefined (NaN) while fewer than
    [period] bars are there ([i + 1 < period]) and from row [period - 1]
    on it is the plain average, over the last [period] rows, of the true
    range: the bar's range on the first row of the frame, and on any later
    row the largest of the bar's range and the distances of its high and
    of its low to the previous close. *)
Theorem compute_atr_warmup_and_mean :
  forall (data : list Indicators.bar) (period i : nat),
    (1 <= period)%nat -> (i < length data)%nat ->
    length (Indicators.compute_atr data period) = length data
    /\ ((S i < period)%nat ->
        Indicators.compute_atr data period !! i = Some Pandas.NaN)
    /\ ((period <= S i)%nat ->
        exists q, Indicators.compute_atr data period !! i = Some (Pandas.Fin q)
                  /\ q == IndicatorSpec.atr_at data period i).
Proof.
  intros data period i Hp Hi. split; [|split].
  - unfold Indicators.compute_atr.
    rewrite rolling_mean_length, true_range_length. reflexivity.
  - intros Hs. unfold Indicators.compute_atr. apply rolling_mean_short.
    + rewrite true_range_length. exact Hi.
    + exact Hs.
  - intros Hs. apply compute_atr_full; assumption.
Qed.

(** Three bars, period 2: the value on the last row. *)
Lemma compute_atr_warmup_and_mean_witness :
  exists q, Indicators.compute_atr Scenarios.flat_bars 2 !! 2%nat
            = Some (Pandas.Fin q)
            /\ q == IndicatorSpec.atr_at Scenarios.flat_bars 2 2.
Proof.
  destruct (compute_atr_warmup_and_mean Scenarios.flat_bars 2 2)
    as (_ & _ & H); [lia|simpl; lia|].
  apply H. lia.
Defined.

(** X4.  A defined value of [compute_atr] is never below the average bar
    range (high - low) of its window; so on bars whose high is not below
    their low the ATR, and with it the stop distance derived from it, is
    never negative. *)
Theorem compute_atr_not_below_mean_range :
  forall (data : list Indicators.bar) (period i : nat) (q : Q),
    (1 <= period)%nat ->
    Indicators.compute_atr data period !! i = Some (Pandas.Fin q) ->
    IndicatorSpec.avg_range_at data period i <= q
    /\ (Forall (fun b => Indicators.low b <= Indicators.high b) data -> 0 <= q).
Proof.
  intros data period i q Hp Hq.
  assert (Hi : (i < length data)%nat).
  { apply lookup_lt_Some in Hq. unfold Indicators.compute_atr in Hq.
    rewrite rolling_mean_length, true_range_length in Hq. exact Hq. }
  assert (Hs : (period <= S i)%nat).
  { destruct (Nat.le_gt_cases period (S i)) as [H|H]; [exact H|].
    unfold Indicators.compute_atr in Hq.
    rewrite rolling_mean_short in Hq; [discriminate| |exact H].
    rewrite true_range_length. exact Hi. }
  destruct (compute_atr_full data period i Hp Hs Hi) as [q' [Hq' He]].
  rewrite Hq in Hq'. injection Hq' as <-.
  assert (Hle : IndicatorSpec.avg_range_at data period i <= q).
  { rewrite He. unfold IndicatorSpec.avg_range_at, IndicatorSpec.atr_at.
    pose proof (of_nat_pos period Hp) as Hpos.
    apply Qle_shift_div_l; [exact Hpos|].
    unfold Qdiv. rewrite <- Qmult_assoc, (Qmult_comm (/ _)), Qmult_inv_r by lra.
    rewrite Qmult_1_r. apply sum_range_le. intros j. apply tr_at_range. }
  split; [exact Hle|]. intros Hwf.
  eapply Qle_trans; [|exact Hle]. unfold IndicatorSpec.avg_range_at.
  apply avg_nonneg; [lia|]. intros j.
  unfold IndicatorSpec.high_at, IndicatorSpec.low_at.
  pose proof (nth_Forall (fun b => Indicators.low b <= Indicators.high b) data j)
    as Hn. simpl in Hn. specialize (Hn ltac:(simpl; lra) Hwf). lra.
Qed.

(** Three bars with a range of 0.0020 each, period 2. *)
Lemma compute_atr_not_below_mean_range_witness :
  exists q, Indicators.compute_atr Scenarios.flat_bars 2 !! 2%nat
            = Some (Pandas.Fin q)
            /\ IndicatorSpec.avg_range_at Scenarios.flat_bars 2 2 <= q.
Proof.
  assert (H : Indicators.compute_atr Scenarios.flat_bars 2 !! 2%nat
              = Some (Pandas.Fin (40000000000000 # 20000000000000000)))
    by (vm_compute; reflexivity).
  eexists. split; [exact H|].
  refine (proj1 (compute_atr_not_below_mean_range Scenarios.flat_bars 2 2 _ _ H)).
  lia.
Defined.

(** X5.  On bars whose high is not below their low, every value of
    [compute_adx] is either undefined (NaN) or a number between 0 and 100:
    the column holds no infinity and no value outside the scale, whatever
    the zero divisions inside. *)
Theorem compute_adx_between_0_and_100 :
  forall (data : list Indicators.bar) (period : nat) (adx : list Pandas.fnum),
    Forall (fun b => Indicators.low b <= Indicators.high b) data ->
    Indicators.compute_adx data period = Some adx ->
    length adx = length data
    /\ forall i x, adx !! i = Some x ->
         x = Pandas.NaN \/ exists v, x = Pandas.Fin v /\ 0 <= v <= 100.
Proof.
  intros data period adx Hwf Hadx. unfold Indicators.compute_adx in Hadx.
  destruct period as [|p]; [discriminate|]. injection Hadx as <-.
  assert (Hp : (1 <= S p)%nat) by lia.
  pose proof (adx_columns_DX_range data (S p) Hp Hwf) as Hdx.
  unfold Indicators.adx_columns in *. cbv zeta in *.
  cbn [Indicators.ADX Indicators.DX] in *. split.
  - rewrite ewm_mean_length. unfold Pandas.map2.
    rewrite length_zip_with, !length_map, !length_zip_with, !ewm_mean_length.
    rewrite !length_zip_with, !length_map, !length_zip_with, !length_diff,
      length_shift1, !col_length. lia.
  - intros i x Hx.
    exact (proj1 (Forall_lookup _ _)
             (ewm_mean_between _ 0 100 _ (alpha_range (S p) Hp) Hdx) i x Hx).
Qed.

(** Three bars without directional movement, period 14. *)
Lemma compute_adx_between_0_and_100_witness :
  exists adx, Indicators.compute_adx Scenarios.flat_bars 14 = Some adx
              /\ length adx = length Scenarios.flat_bars.
Proof.
  eexists. split; [reflexivity|].
  refine (proj1 (compute_adx_between_0_and_100 Scenarios.flat_bars 14 _ _
                   eq_refl)).
  repeat constructor; vm_compute; discriminate.
Defined.

(* ===================================================================== *)
(** ** Further results: candlestick patterns                              *)
(* ===================================================================== *)

(** X6.  On a frame whose index has no repeated label,
    [detect_candlestick_patterns] fills two columns as long as the frame:
    BullishEngulfing is 1 on exactly the rows after the first whose
    previous bar closed below its open and whose own bar opens below that
    close and closes above that open and above its own open, and Hammer is
    1 on exactly the rows after the first whose body is at most 0.3 of the
    bar's range and at most half of the lower shadow; every other cell,
    and the whole first row, is 0. *)
Theorem detect_candlestick_patterns_flags :
  forall (df : list (Z * Indicators.bar)) (j : nat),
    IndicatorSpec.unique_index df -> (j < length df)%nat ->
    length (Indicators.BullishEngulfing (Indicators.detect_candlestick_patterns df))
    = length df
    /\ length (Indicators.Hammer (Indicators.detect_candlestick_patterns df))
       = length df
    /\ Indicators.BullishEngulfing (Indicators.detect_candlestick_patterns df) !! j
       = Some (IndicatorSpec.flag (IndicatorSpec.engulfing_at df j))
    /\ Indicators.Hammer (Indicators.detect_candlestick_patterns df) !! j
       = Some (IndicatorSpec.flag (IndicatorSpec.hammer_at df j)).
Proof.
  intros df j Hu Hj. destruct (detect_length df) as [H1 H2].
  destruct (detect_lookup df j Hu Hj) as [H3 H4]. repeat split; assumption.
Qed.

(** The second of three bars engulfs the first. *)
Lemma detect_candlestick_patterns_flags_witness :
  Indicators.BullishEngulfing
    (Indicators.detect_candlestick_patterns Scenarios.candle_frame) !! 1%nat
  = Some (IndicatorSpec.flag (IndicatorSpec.engulfing_at Scenarios.candle_frame 1)).
Proof.
  refine (proj1 (proj2 (proj2 (detect_candlestick_patterns_flags
                                 Scenarios.candle_frame 1 _ _)))).
  - unfold IndicatorSpec.unique_index. apply (bool_decide_unpack _).
    vm_compute. exact I.
  - simpl. lia.
Defined.

(** X7.  On a frame with a unique index, BullishEngulfing is never 1 on
    two consecutive rows: the row after a flagged row is 0 (the bar that
    engulfs is a rising bar, and a rising bar cannot be the engulfed
    one). *)
Theorem bullish_engulfing_never_on_consecutive_rows :
  forall (df : list (Z * Indicators.bar)) (j : nat),
    IndicatorSpec.unique_index df -> (S j < length df)%nat ->
    Indicators.BullishEngulfing (Indicators.detect_candlestick_patterns df) !! j
    = Some 1%Z ->
    Indicators.BullishEngulfing (Indicators.detect_candlestick_patterns df) !! S j
    = Some 0%Z.
Proof.
  intros df j Hu Hlt Hj.
  rewrite (proj1 (detect_lookup df j Hu ltac:(lia))) in Hj.
  rewrite (proj1 (detect_lookup df (S j) Hu Hlt)).
  injection Hj as Hj. apply flag_one in Hj. f_equal.
  destruct (IndicatorSpec.engulfing_at df (S j)) eqn:Hs; [exfalso|reflexivity].
  destruct j as [|k]; [discriminate|].
  unfold IndicatorSpec.engulfing_at, Indicators.engulfing in *.
  repeat (apply andb_true_iff in Hj; destruct Hj as [Hj ?]).
  repeat (apply andb_true_iff in Hs; destruct Hs as [Hs ?]).
  repeat match goal with
         | H : Pandas.Qltb _ _ = true |- _ => apply Qltb_true in H
         end.
  lra.
Qed.

(** After the engulfing second bar the third one is not flagged. *)
Lemma bullish_engulfing_never_on_consecutive_rows_witness :
  Indicators.BullishEngulfing
    (Indicators.detect_candlestick_patterns Scenarios.candle_frame) !! 2%nat
  = Some 0%Z.
Proof.
  apply (bullish_engulfing_never_on_consecutive_rows Scenarios.candle_frame 1).
  - unfold IndicatorSpec.unique_index. apply (bool_decide_unpack _).
    vm_compute. exact I.
  - simpl. lia.
  - vm_compute. reflexivity.
Defined.

(** X8.  The Hammer test does not look at the upper shadow: on a frame
    with a unique index, replacing the high of a row flagged as Hammer by
    any higher value leaves the row flagged, and leaves the whole
    BullishEngulfing column as it was. *)
Theorem hammer_ignores_upper_shadow :
  forall (df : list (Z * Indicators.bar)) (j : nat) (r : Z * Indicators.bar) (h : Q),
    IndicatorSpec.unique_index df -> df !! j = Some r ->
    Indicators.high (snd r) <= h ->
    Indicators.Hammer (Indicators.detect_candlestick_patterns df) !! j = Some 1%Z ->
    Indicators.Hammer
      (Indicators.detect_candlestick_patterns
         (<[j := IndicatorSpec.with_high h r]> df)) !! j = Some 1%Z
    /\ Indicators.BullishEngulfing
         (Indicators.detect_candlestick_patterns
            (<[j := IndicatorSpec.with_high h r]> df))
       = Indicators.BullishEngulfing (Indicators.detect_candlestick_patterns df).
Proof.
  intros df j r h Hu Hr Hh Hf.
  assert (Hj : (j < length df)%nat) by (apply lookup_lt_Some in Hr; exact Hr).
  pose proof (unique_index_insert df j r h Hr Hu) as Hu'.
  split.
  - rewrite (proj2 (detect_lookup df j Hu Hj)) in Hf. injection Hf as Hf.
    apply flag_one in Hf.
    rewrite (proj2 (detect_lookup _ j Hu' ltac:(rewrite length_insert; exact Hj))).
    f_equal. destruct j as [|k]; [discriminate|].
    unfold IndicatorSpec.hammer_at in *.
    rewrite (bar_at_insert df (S k) (S k) r h Hr), Nat.eqb_refl.
    destruct r as [l b]. rewrite (bar_at_lookup df (S k) l b Hr) in Hf.
    rewrite (hammer_with_high l b h Hh Hf). reflexivity.
  - apply list_eq. intros i.
    destruct (Nat.lt_ge_cases i (length df)) as [Hi|Hi].
    + rewrite (proj1 (detect_lookup df i Hu Hi)).
      rewrite (proj1 (detect_lookup _ i Hu' ltac:(rewrite length_insert; exact Hi))).
      rewrite (engulfing_at_insert df j i r h Hr). reflexivity.
    + rewrite !lookup_ge_None_2; [reflexivity| |].
      * rewrite (proj1 (detect_length df)). exact Hi.
      * rewrite (proj1 (detect_length _)), length_insert. exact Hi.
Qed.

(** The third bar, a hammer with its high at 1.1021, with its high moved
    to 1.2000. *)
Lemma hammer_ignores_upper_shadow_witness :
  Indicators.Hammer
    (Indicators.detect_candlestick_patterns
       (<[2%nat := IndicatorSpec.with_high 1.2000
                     (120000000%Z, Indicators.mkBar 1.1020 1.1021 1.1000 1.1019)]>
          Scenarios.candle_frame)) !! 2%nat = Some 1%Z.
Proof.
  refine (proj1 (hammer_ignores_upper_shadow Scenarios.candle_frame 2
                   (120000000%Z, Indicators.mkBar 1.1020 1.1021 1.1000 1.1019)
                   1.2000 _ _ _ _)).
  - unfold IndicatorSpec.unique_index. apply (bool_decide_unpack _).
    vm_compute. exact I.
  - reflexivity.
  - vm_compute. discriminate.
  - vm_compute. reflexivity.
Defined.

(** X9.  On a frame with a unique index, every row after the first whose
    bar opens and closes at the same price, not below its low, with a
    high not below its low, is flagged as Hammer, however long its upper
    shadow is; a bar without any movement is one of them. *)
Theorem doji_is_flagged_as_hammer :
  forall (df : list (Z * Indicators.bar)) (j : nat) (r : Z * Indicators.bar),
    IndicatorSpec.unique_index df -> (1 <= j)%nat -> df !! j = Some r ->
    Indicators.open (snd r) == Indicators.close (snd r) ->
    Indicators.low (snd r) <= Indicators.open (snd r) ->
    Indicators.low (snd r) <= Indicators.high (snd r) ->
    Indicators.Hammer (Indicators.detect_candlestick_patterns df) !! j = Some 1%Z.
Proof.
  intros df j [l b] Hu Hj1 Hr Hoc Hlo Hlh. simpl in *.
  assert (Hj : (j < length df)%nat) by (apply lookup_lt_Some in Hr; exact Hr).
  rewrite (proj2 (detect_lookup df j Hu Hj)). f_equal.
  destruct j as [|k]; [lia|]. unfold IndicatorSpec.hammer_at.
  rewrite (bar_at_lookup df (S k) l b Hr). unfold Indicators.hammer.
  assert (Hbody : Qabs (Indicators.close b - Indicators.open b) == 0).
  { assert (Hz : Indicators.close b - Indicators.open b == 0) by lra.
    rewrite Hz. reflexivity. }
  assert (Hmin : Qmin (Indicators.close b) (Indicators.open b)
                 == Indicators.open b).
  { apply Q.min_r. lra. }
  assert (H1 : Qle_bool (Qabs (Indicators.close b - Indicators.open b))
                 (0.3 * (Indicators.high b - Indicators.low b)) = true).
  { apply Qle_bool_iff. rewrite Hbody. lra. }
  assert (H2 : Qle_bool (2 * Qabs (Indicators.close b - Indicators.open b))
                 (Qmin (Indicators.close b) (Indicators.open b)
                  - Indicators.low b) = true).
  { apply Qle_bool_iff. rewrite Hbody, Hmin. lra. }
  rewrite H1, H2. reflexivity.
Qed.

(** A minute without a tick after the three bars: open, high, low and
    close are all 1.1019. *)
Lemma doji_is_flagged_as_hammer_witness :
  Indicators.Hammer
    (Indicators.detect_candlestick_patterns
       (Scenarios.candle_frame
        ++ [(180000000%Z, Indicators.mkBar 1.1019 1.1019 1.1019 1.1019)]))
    !! 3%nat = Some 1%Z.
Proof.
  apply (doji_is_flagged_as_hammer _ 3
           (180000000%Z, Indicators.mkBar 1.1019 1.1019 1.1019 1.1019)).
  - unfold IndicatorSpec.unique_index. apply (bool_decide_unpack _).
    vm_compute. exact I.
  - lia.
  - reflexivity.
  - reflexivity.
  - vm_compute. discriminate.
  - vm_compute. discriminate.
Defined.

(* ===================================================================== *)
(** ** Further results: the historical download                           *)
(* ===================================================================== *)

(** X10.  [fetch_data_for_period], given [start] and [end] as datetimes
    (naive or with a fixed UTC offset), always comes to an end, with a
    frame or with an exception, after at most
    1 + ceil((end - start - 5000 min) / (5000 min + 1 s)) requests;
    more iterations than that bound change nothing.  It raises
    OverflowError before any request when [start] is within 5000 minutes
    of [datetime.max], and otherwise TypeError before any request when
    one of [start] and [end] is naive and the other aware.  It returns a
    frame, after at least one request, when [start] and [end] are both
    naive or both aware, [end] read on the clock of [start] is 5000
    minutes and a second or more before [datetime.max], and the client
    raises nothing but V20Error; an exception of the client that is not
    a V20Error leaves the function as it is. *)
Theorem fetch_data_for_period_returns_or_raises :
  forall (api : DataFetchExn.client) (instrument : string)
         (start_dt end_dt : Datetime.datetime) (granularity : string)
         (fuel : nat),
    (DataFetchExnSpec.enough start_dt end_dt <= fuel)%nat ->
    exists out reqs,
      DataFetchExn.fetch_data_for_period fuel api instrument start_dt end_dt
        granularity = Some (out, reqs)
      /\ (length reqs <= DataFetchExnSpec.enough start_dt end_dt)%nat
      /\ (forall fuel', (DataFetchExnSpec.enough start_dt end_dt <= fuel')%nat ->
            DataFetchExn.fetch_data_for_period fuel' api instrument start_dt
              end_dt granularity = Some (out, reqs))
      /\ ((Datetime.MAX < Datetime.wall start_dt + DataFetch.CHUNK)%Z ->
          out = DataFetchExn.Propagates
                  (DataFetchExn.OfDatetime Datetime.OverflowError)
          /\ reqs = [])
      /\ ((0 <= Datetime.wall start_dt)%Z ->
          (Datetime.wall start_dt + DataFetch.CHUNK <= Datetime.MAX)%Z ->
          Datetime.comparable start_dt end_dt = false ->
          out = DataFetchExn.Propagates
                  (DataFetchExn.OfDatetime Datetime.TypeError)
          /\ reqs = [])
      /\ (Datetime.comparable start_dt end_dt = true ->
          DataFetchExnSpec.in_range start_dt end_dt ->
          DataFetchExnSpec.raises_v20_only api ->
          (exists df, out = DataFetchExn.Returns df) /\ (1 <= length reqs)%nat)
      /\ (forall q name,
            In q reqs -> api q = DataFetchExn.Raises name ->
            out = DataFetchExn.Propagates (DataFetchExn.OfClient name)).
Proof.
  intros api instrument start_dt end_dt granularity fuel Hf.
  assert (He : (DataFetchExnSpec.enough start_dt end_dt
                <= DataFetchExnSpec.enough start_dt end_dt)%nat) by lia.
  destruct (fetch_data_for_period_ends _ api instrument start_dt end_dt
              granularity He) as (out & reqs & Hr & Hlen).
  assert (Hany : forall f, (DataFetchExnSpec.enough start_dt end_dt <= f)%nat ->
            DataFetchExn.fetch_data_for_period f api instrument start_dt end_dt
              granularity = Some (out, reqs)).
  { intros f Hle.
    exact (fetch_data_for_period_more_fuel _ f api instrument start_dt end_dt
             granularity _ Hle Hr). }
  exists out, reqs. split; [apply Hany; exact Hf|]. split; [exact Hlen|].
  split; [exact Hany|].
  assert (H1 : exists n, DataFetchExnSpec.enough start_dt end_dt = S n)
    by (eexists; reflexivity).
  destruct H1 as [n Hn]. pose proof Hr as Hr1. rewrite Hn in Hr1.
  split; [|split; [|split]].
  - intros Hov.
    rewrite (fetch_data_for_period_overflow n api instrument start_dt end_dt
               granularity Hov) in Hr1.
    injection Hr1 as <- <-. split; reflexivity.
  - intros H0 Hin Hc.
    rewrite (fetch_data_for_period_type_error n api instrument start_dt end_dt
               granularity H0 Hin Hc) in Hr1.
    injection Hr1 as <- <-. split; reflexivity.
  - intros Hc Hin Hapi.
    exact (fetch_data_for_period_returns _ api instrument start_dt end_dt
             granularity out reqs Hc Hin Hapi Hr).
  - intros q name.
    exact (fetch_data_for_period_client_error _ api instrument start_dt end_dt
             granularity out reqs q name Hr).
Qed.

(** A start on 9999-12-30 raises OverflowError and a naive start with an
    aware end raises TypeError, both without a request; 10000 minutes
    from 2024-01-01 in UTC take two requests. *)
Lemma fetch_data_for_period_returns_or_raises_witness :
  DataFetchExn.fetch_data_for_period 1 Scenarios.one_candle_api "EUR_USD"
    Scenarios.late_start Scenarios.utc_end "M1"
  = Some (DataFetchExn.Propagates
            (DataFetchExn.OfDatetime Datetime.OverflowError), [])
  /\ DataFetchExn.fetch_data_for_period 1 Scenarios.one_candle_api "EUR_USD"
       Scenarios.naive_start Scenarios.utc_end "M1"
     = Some (DataFetchExn.Propagates
               (DataFetchExn.OfDatetime Datetime.TypeError), [])
  /\ exists df reqs,
       DataFetchExn.fetch_data_for_period 2 Scenarios.one_candle_api "EUR_USD"
         Scenarios.utc_start Scenarios.utc_end "M1"
       = Some (DataFetchExn.Returns df, reqs)
       /\ length df = 2%nat /\ length reqs = 2%nat.
Proof.
  split; [|split].
  - destruct (fetch_data_for_period_returns_or_raises Scenarios.one_candle_api
                "EUR_USD" Scenarios.late_start Scenarios.utc_end "M1" 1)
      as (out & reqs & Hr & _ & _ & Hov & _).
    + vm_compute. lia.
    + destruct Hov as [-> ->]; [vm_compute; reflexivity|exact Hr].
  - vm_compute. reflexivity.
  - do 2 eexists. split; [vm_compute; reflexivity|]. split; reflexivity.
Defined.

(** X11.  The requests that [fetch_data_for_period] sends are, in order,
    for the instrument and granularity asked for and for the windows that
    start at [start], [start + 5000 min + 1 s], [start + 2 * (5000 min +
    1 s)], ... and reach 5000 minutes further or to [end], whichever comes
    first; a window ends before the next one starts. *)
Theorem fetch_data_for_period_windows :
  forall (api : DataFetch.client) (instrument : string) (start_dt end_dt : Z)
         (granularity : string) (fuel : nat) (r : DataFetch.fetch_result),
    DataFetch.fetch_data_for_period fuel api instrument start_dt end_dt
      granularity = Some r ->
    (forall k q, DataFetch.requests r !! k = Some q ->
       DataFetch.req_instrument q = instrument
       /\ DataFetch.req_granularity q = granularity
       /\ DataFetch.from q = DataFetchSpec.window_from start_dt k
       /\ DataFetch.to q = DataFetchSpec.window_to start_dt end_dt k)
    /\ (forall k q q', DataFetch.requests r !! k = Some q ->
          DataFetch.requests r !! S k = Some q' ->
          (DataFetch.to q < DataFetch.from q')%Z).
Proof.
  intros api instrument start_dt end_dt granularity fuel r H.
  unfold DataFetch.fetch_data_for_period in H.
  destruct (DataFetch.fetch_loop fuel api instrument granularity end_dt start_dt
              (DataFetch.mkFetched [] [])) as [acc|] eqn:E; [|discriminate].
  injection H as <-. simpl.
  destruct (fetch_loop_requests api instrument granularity end_dt start_dt _ _ _ _ E)
    as [_ Hall].
  { unfold DataFetchSpec.window_from. simpl. lia. }
  { intros k q Hk. discriminate. }
  split.
  - intros k q Hk. rewrite (Hall k q Hk). repeat split; reflexivity.
  - intros k q q' Hk Hk'. rewrite (Hall k q Hk), (Hall (S k) q' Hk'). simpl.
    unfold DataFetchSpec.window_from. pose proof CHUNK_pos. pose proof SECOND_pos.
    lia.
Qed.

(** The second window of the 10000 minutes starts a second after the
    first 5000. *)
Lemma fetch_data_for_period_windows_witness :
  DataFetch.from (DataFetch.mkRequest "EUR_USD" 300001000000 600000000000 "M1")
  = DataFetchSpec.window_from 0 1.
Proof.
  destruct (fetch_data_for_period_windows Scenarios.two_candle_api "EUR_USD" 0
              Scenarios.two_chunks "M1" 2
              (DataFetch.mkResult
                 (DataFetch.sort_index
                    (DataFetch.drop_duplicated []
                       (DataFetchSpec.received Scenarios.two_candle_api
                          [DataFetch.mkRequest "EUR_USD" 0 300000000000 "M1";
                           DataFetch.mkRequest "EUR_USD" 300001000000
                             600000000000 "M1"])))
                 [DataFetch.mkRequest "EUR_USD" 0 300000000000 "M1";
                  DataFetch.mkRequest "EUR_USD" 300001000000 600000000000 "M1"]))
    as [H _].
  - vm_compute. reflexivity.
  - exact (proj1 (proj2 (proj2 (H 1%nat _ eq_refl)))).
Defined.

(** X12.  The download stops without an error at the first request that
    fails with V20Error or comes back without candles: every request
    before the last one was answered with at least one candle, and the
    last one either failed, came back empty, or reached the end of the
    period.  So the data reaches the end of the period only in the third
    case. *)
Theorem fetch_data_for_period_stops_at_first_gap :
  forall (api : DataFetch.client) (instrument : string) (start_dt end_dt : Z)
         (granularity : string) (fuel : nat) (r : DataFetch.fetch_result),
    DataFetch.fetch_data_for_period fuel api instrument start_dt end_dt
      granularity = Some r ->
    exists pre q,
      DataFetch.requests r = pre ++ [q]
      /\ Forall (fun q' => exists c cs, api q' = DataFetch.Candles (c :: cs)) pre
      /\ (DataFetchSpec.stops_early api q \/ DataFetch.to q = end_dt).
Proof.
  intros api instrument start_dt end_dt granularity fuel r H.
  unfold DataFetch.fetch_data_for_period in H.
  destruct (DataFetch.fetch_loop fuel api instrument granularity end_dt start_dt
              (DataFetch.mkFetched [] [])) as [acc|] eqn:E; [|discriminate].
  injection H as <-. simpl.
  apply (fetch_loop_last api instrument granularity end_dt _ _ _ _ E).
  constructor.
Qed.

(** A server that fails on the second window: two requests, the frame
    holds the first window only. *)
Lemma fetch_data_for_period_stops_at_first_gap_witness :
  exists pre q,
    [DataFetch.mkRequest "EUR_USD" 0 300000000000 "M1";
     DataFetch.mkRequest "EUR_USD" 300001000000 600000000000 "M1"] = pre ++ [q]
    /\ Forall (fun q' => exists c cs,
                 Scenarios.failing_api q' = DataFetch.Candles (c :: cs)) pre
    /\ (DataFetchSpec.stops_early Scenarios.failing_api q
        \/ DataFetch.to q = Scenarios.two_chunks).
Proof.
  apply (fetch_data_for_period_stops_at_first_gap Scenarios.failing_api "EUR_USD" 0
           Scenarios.two_chunks "M1" 2
           (DataFetch.mkResult
              [(0%Z, Indicators.mkBar 1.1000 1.1010 1.0990 1.1005);
               (60000000%Z, Indicators.mkBar 1.1005 1.1010 1.0990 1.1000)]
              [DataFetch.mkRequest "EUR_USD" 0 300000000000 "M1";
               DataFetch.mkRequest "EUR_USD" 300001000000 600000000000 "M1"])).
  vm_compute. reflexivity.
Defined.

(** X13.  The frame that [fetch_data_for_period] returns is indexed by
    strictly ascending times: it is sorted and no time occurs twice. *)
Theorem fetch_data_for_period_strictly_ascending :
  forall (api : DataFetch.client) (instrument : string) (start_dt end_dt : Z)
         (granularity : string) (fuel : nat) (r : DataFetch.fetch_result),
    DataFetch.fetch_data_for_period fuel api instrument start_dt end_dt
      granularity = Some r ->
    IndicatorSpec.unique_index (DataFetch.final_df r)
    /\ forall i j ri rj, (i < j)%nat ->
         DataFetch.final_df r !! i = Some ri ->
         DataFetch.final_df r !! j = Some rj ->
         (fst ri < fst rj)%Z.
Proof.
  intros api instrument start_dt end_dt granularity fuel r H.
  rewrite (fetch_data_for_period_frame _ _ _ _ _ _ _ H).
  pose proof (proj1 (drop_duplicated_labels
                       (DataFetchSpec.received api (DataFetch.requests r)) []))
    as Hnd.
  split.
  - apply sort_index_labels. exact Hnd.
  - intros i j ri rj. apply sorted_frame_ascending. exact Hnd.
Qed.

(** The four rows fetched for the 10000 minutes. *)
Lemma fetch_data_for_period_strictly_ascending_witness :
  IndicatorSpec.unique_index
    [(0%Z, Indicators.mkBar 1.1000 1.1010 1.0990 1.1005);
     (60000000%Z, Indicators.mkBar 1.1005 1.1010 1.0990 1.1000);
     (300001000000%Z, Indicators.mkBar 1.1000 1.1010 1.0990 1.1005);
     (300061000000%Z, Indicators.mkBar 1.1005 1.1010 1.0990 1.1000)].
Proof.
  refine (proj1 (fetch_data_for_period_strictly_ascending Scenarios.two_candle_api
                   "EUR_USD" 0 Scenarios.two_chunks "M1" 2
                   (DataFetch.mkResult _
                      [DataFetch.mkRequest "EUR_USD" 0 300000000000 "M1";
                       DataFetch.mkRequest "EUR_USD" 300001000000 600000000000
                         "M1"]) _)).
  vm_compute. reflexivity.
Defined.

(** X14.  The frame holds, for every time, the bar of the first complete
    candle that the server delivered for that time over all the requests,
    and nothing else: no delivered time is lost, candles that are not
    complete do not count, and of two candles with the same time the one
    delivered first wins. *)
Theorem fetch_data_for_period_keeps_first_complete_candle :
  forall (api : DataFetch.client) (instrument : string) (start_dt end_dt : Z)
         (granularity : string) (fuel : nat) (r : DataFetch.fetch_result),
    DataFetch.fetch_data_for_period fuel api instrument start_dt end_dt
      granularity = Some r ->
    forall t,
      DataFetchSpec.first_bar t (DataFetch.final_df r)
      = DataFetchSpec.first_bar t
          (DataFetchSpec.received api (DataFetch.requests r)).
Proof.
  intros api instrument start_dt end_dt granularity fuel r H t.
  rewrite (fetch_data_for_period_frame _ _ _ _ _ _ _ H).
  pose proof (proj1 (drop_duplicated_labels
                       (DataFetchSpec.received api (DataFetch.requests r)) []))
    as Hnd.
  transitivity (DataFetchSpec.first_bar t
                  (DataFetch.drop_duplicated []
                     (DataFetchSpec.received api (DataFetch.requests r)))).
  - symmetry. apply first_bar_Permutation; [|exact Hnd].
    unfold DataFetch.sort_index. symmetry. apply merge_sort_Permutation.
  - rewrite first_bar_drop_duplicated. reflexivity.
Qed.

(** The candle still forming two minutes into the first window is not in
    the frame. *)
Lemma fetch_data_for_period_keeps_first_complete_candle_witness :
  DataFetchSpec.first_bar 120000000
    [(0%Z, Indicators.mkBar 1.1000 1.1010 1.0990 1.1005);
     (60000000%Z, Indicators.mkBar 1.1005 1.1010 1.0990 1.1000);
     (300001000000%Z, Indicators.mkBar 1.1000 1.1010 1.0990 1.1005);
     (300061000000%Z, Indicators.mkBar 1.1005 1.1010 1.0990 1.1000)]
  = DataFetchSpec.first_bar 120000000
      (DataFetchSpec.received Scenarios.two_candle_api
         [DataFetch.mkRequest "EUR_USD" 0 300000000000 "M1";
          DataFetch.mkRequest "EUR_USD" 300001000000 600000000000 "M1"]).
Proof.
  apply (fetch_data_for_period_keeps_first_complete_candle Scenarios.two_candle_api
           "EUR_USD" 0 Scenarios.two_chunks "M1" 2
           (DataFetch.mkResult _
              [DataFetch.mkRequest "EUR_USD" 0 300000000000 "M1";
               DataFetch.mkRequest "EUR_USD" 300001000000 600000000000 "M1"])).
  vm_compute. reflexivity.
Defined.

(** X15.  With enough iterations for the period, [fetch_multiple_pairs]
    comes to an end.  When [start] and [end] are comparable and in range
    and the client raises nothing but V20Error it returns a dict with one
    entry for every instrument of the list and no other: the frame that
    [fetch_data_for_period] returns for that instrument, so a pair whose
    download fails with V20Error has an entry all the same, with the rows
    fetched before the failure.  When the download of an instrument
    raises, and those of the instruments before it return, the call
    raises that exception and returns no dict. *)
Theorem fetch_multiple_pairs_dict_or_exception :
  forall (api : DataFetchExn.client) (instruments_list : list string)
         (start_dt end_dt : Datetime.datetime) (granularity : string)
         (fuel : nat),
    (DataFetchExnSpec.enough start_dt end_dt <= fuel)%nat ->
    (exists r,
       DataFetchExn.fetch_multiple_pairs fuel api instruments_list start_dt end_dt
         granularity = Some r)
    /\ (Datetime.comparable start_dt end_dt = true ->
        DataFetchExnSpec.in_range start_dt end_dt ->
        DataFetchExnSpec.raises_v20_only api ->
        exists d,
          DataFetchExn.fetch_multiple_pairs fuel api instruments_list start_dt
            end_dt granularity = Some (DataFetchExn.Returns d)
          /\ forall i,
               (i ∈ instruments_list ->
                exists df,
                  DataFetchExnSpec.frame_of
                    (DataFetchExn.fetch_data_for_period fuel api i start_dt
                       end_dt granularity) = Some df
                  /\ d !! i = Some df)
               /\ (i ∉ instruments_list -> d !! i = None))
    /\ (forall (pre : list string) (i : string) (post : list string)
               (e : DataFetchExn.exn) (reqs : list DataFetchExn.request),
          instruments_list = pre ++ i :: post ->
          Forall (fun j => is_Some
                             (DataFetchExnSpec.frame_of
                                (DataFetchExn.fetch_data_for_period fuel api j
                                   start_dt end_dt granularity))) pre ->
          DataFetchExn.fetch_data_for_period fuel api i start_dt end_dt
            granularity = Some (DataFetchExn.Propagates e, reqs) ->
          DataFetchExn.fetch_multiple_pairs fuel api instruments_list start_dt
            end_dt granularity = Some (DataFetchExn.Propagates e)).
Proof.
  intros api l start_dt end_dt granularity fuel Hf.
  unfold DataFetchExn.fetch_multiple_pairs. split; [|split].
  - apply fetch_multiple_pairs_from_ends. exact Hf.
  - intros Hc Hin Hapi.
    assert (Hall : Forall (fun j => is_Some
                             (DataFetchExnSpec.frame_of
                                (DataFetchExn.fetch_data_for_period fuel api j
                                   start_dt end_dt granularity))) l).
    { apply List.Forall_forall. intros j _.
      destruct (fetch_data_for_period_ends fuel api j start_dt end_dt
                  granularity Hf) as (out & reqs & Hr & _).
      destruct (fetch_data_for_period_returns fuel api j start_dt end_dt
                  granularity out reqs Hc Hin Hapi Hr) as [[df ->] _].
      rewrite Hr. eexists. reflexivity. }
    destruct (fetch_multiple_pairs_from_returns fuel api start_dt end_dt
                granularity l Hall ∅) as [d [Hd Hl]].
    exists d. split; [exact Hd|]. intros i. split.
    + intros Hi. rewrite Hl, bool_decide_eq_true_2 by exact Hi.
      apply list_elem_of_In in Hi.
      destruct (proj1 (List.Forall_forall _ _) Hall i Hi) as [df Hdf].
      exists df. split; [exact Hdf|exact Hdf].
    + intros Hi. rewrite Hl, bool_decide_eq_false_2 by exact Hi.
      apply lookup_empty.
  - intros pre i post e reqs -> Hpre Hi.
    eapply fetch_multiple_pairs_from_raises; eassumption.
Qed.

(** Three pairs over 10000 minutes with a connection that breaks for
    GBP_USD: the call raises ConnectionError, and AUD_USD is not asked
    for; with a connection that holds the dict has the three pairs. *)
Lemma fetch_multiple_pairs_dict_or_exception_witness :
  DataFetchExn.fetch_multiple_pairs 2 Scenarios.broken_api
    ["EUR_USD"; "GBP_USD"; "AUD_USD"]%string Scenarios.utc_start
    Scenarios.utc_end "M1"
  = Some (DataFetchExn.Propagates (DataFetchExn.OfClient "ConnectionError"))
  /\ exists d,
       DataFetchExn.fetch_multiple_pairs 2 Scenarios.one_candle_api
         ["EUR_USD"; "GBP_USD"; "AUD_USD"]%string Scenarios.utc_start
         Scenarios.utc_end "M1" = Some (DataFetchExn.Returns d)
       /\ is_Some (d !! "GBP_USD"%string) /\ d !! "USD_CHF"%string = None.
Proof.
  split.
  - destruct (fetch_multiple_pairs_dict_or_exception Scenarios.broken_api
                ["EUR_USD"; "GBP_USD"; "AUD_USD"]%string Scenarios.utc_start
                Scenarios.utc_end "M1" 2) as (_ & _ & H).
    + vm_compute. lia.
    + eapply (H ["EUR_USD"%string] "GBP_USD"%string ["AUD_USD"%string]).
      * reflexivity.
      * constructor; [|constructor]. eexists. vm_compute. reflexivity.
      * vm_compute. reflexivity.
  - eexists. split; [vm_compute; reflexivity|]. split.
    + eexists. vm_compute. reflexivity.
    + vm_compute. reflexivity.
Defined.

(* ===================================================================== *)
(** ** Further results: the controller loop                               *)
(* ===================================================================== *)

(** X16.  Over any passes of the loop that fall on one calendar day [d]:
    if the day has begun ([last_date] is [d]) and the trade counter is
    within the cap, the counter stays within MAX_TRADES_PER_DAY and grows
    by exactly one for every trade object created; if the day has not
    begun, at most MAX_TRADES_PER_DAY trade objects are created.  So no
    day sees more than MAX_TRADES_PER_DAY registered trades. *)
Theorem at_most_max_trades_per_day :
  forall (d : Z) (ws : list MainBot.world) (s : MainBot.state),
    Forall (fun w => MainBot.now_date w = d) ws ->
    (MainBot.last_date s = Some d ->
     (MainBot.daily_trade_count s <= Config.MAX_TRADES_PER_DAY)%nat ->
     (MainBot.daily_trade_count (MainBot.run ws s) <= Config.MAX_TRADES_PER_DAY)%nat
     /\ (length (MainBot.heap (MainBot.run ws s)) + MainBot.daily_trade_count s
         = length (MainBot.heap s) + MainBot.daily_trade_count (MainBot.run ws s))%nat)
    /\ (MainBot.last_date s <> Some d ->
        (length (MainBot.heap (MainBot.run ws s))
         <= length (MainBot.heap s) + Config.MAX_TRADES_PER_DAY)%nat).
Proof.
  intros d ws s Hws. split.
  - intros Hd Hc. destruct (run_same_day d ws Hws s Hd) as (_ & H2 & H3 & _).
    split; [exact (H2 Hc)|exact H3].
  - intros Hd. apply (run_new_day d ws Hws s Hd).
Qed.

(** The first day of the loop: a confirmed BUY, then three more passes. *)
Lemma at_most_max_trades_per_day_witness :
  (length (MainBot.heap
             (MainBot.run [Scenarios.buy_world; Scenarios.up_world_1;
                           Scenarios.up_world_2; Scenarios.back_world]
                MainBot.initial))
   <= length (MainBot.heap MainBot.initial) + Config.MAX_TRADES_PER_DAY)%nat.
Proof.
  refine (proj2 (at_most_max_trades_per_day 1
                   [Scenarios.buy_world; Scenarios.up_world_1;
                    Scenarios.up_world_2; Scenarios.back_world]
                   MainBot.initial _) _).
  - repeat constructor.
  - simpl. discriminate.
Defined.

(** X17.  A balance read that fails at the day reset is not made up for:
    the failing pass has already moved [last_date] to the new day, so on
    every later pass of that day the reset is skipped and the loop keeps
    measuring the drawdown and the loss limit against the start-of-day
    equity of the day before. *)
Theorem failed_day_reset_keeps_stale_equity :
  forall (w : MainBot.world) (ws : list MainBot.world) (s : MainBot.state)
         (q : Q) (msg : string),
    MainBotSpec.session_open w ->
    MainBot.last_date s <> Some (MainBot.now_date w) ->
    MainBot.get_account_balance w MainBot.AtDayReset = MainBot.Failed msg ->
    MainBot.start_of_day_equity s = Some q ->
    Forall (fun w' => MainBot.now_date w' = MainBot.now_date w) ws ->
    MainBot.last_date (MainBot.run (w :: ws) s) = Some (MainBot.now_date w)
    /\ MainBot.start_of_day_equity (MainBot.run (w :: ws) s) = Some q.
Proof.
  intros w ws s q msg Ho Hd Hf Hq Hws. simpl.
  pose proof (loop_body_open w s Ho) as H.
  rewrite (daily_reset_new w s Hd), Hf, Hq in H.
  destruct H as (_ & _ & _ & H4 & H5). simpl in *.
  specialize (H5 ltac:(eexists; reflexivity)).
  destruct (run_same_day _ ws Hws _ H4) as (_ & _ & _ & K4 & K5).
  split.
  - rewrite K4. exact H4.
  - rewrite K5; [exact H5|]. rewrite H5. eexists. reflexivity.
Qed.

(** A day that started at 10000; on the next day the balance is 9000, the
    first read fails and the later ones succeed. *)
Lemma failed_day_reset_keeps_stale_equity_witness :
  MainBot.last_date
    (MainBot.run [Scenarios.reset_outage_world; Scenarios.thursday_world;
                  Scenarios.thursday_world] Scenarios.holding) = Some 2%Z
  /\ MainBot.start_of_day_equity
       (MainBot.run [Scenarios.reset_outage_world; Scenarios.thursday_world;
                     Scenarios.thursday_world] Scenarios.holding) = Some 10000.
Proof.
  apply (failed_day_reset_keeps_stale_equity Scenarios.reset_outage_world
           [Scenarios.thursday_world; Scenarios.thursday_world]
           Scenarios.holding 10000 "timeout").
  - unfold MainBotSpec.session_open. simpl. lia.
  - simpl. discriminate.
  - reflexivity.
  - reflexivity.
  - repeat constructor.
Defined.

(** X18.  Outside the session (before 6 or after 18 UTC by the hour, or
    on a weekend) the loop does nothing but sleep, 300 seconds by night
    and 3600 on a weekend day: over any number of such passes no balance
    or price is read, the counters and the trades stay as they are, and
    neither the trailing stop nor the kill-switch looks at the open
    trades. *)
Theorem closed_session_only_sleeps :
  forall (ws : list MainBot.world) (s : MainBot.state),
    Forall (fun w => ~ MainBotSpec.session_open w) ws ->
    MainBot.run ws s
    = MainBotSpec.logged s (map (fun w => MainBot.Sleep (MainBotSpec.nap w)) ws).
Proof.
  intros ws s H. apply run_closed. exact H.
Qed.

(** The losing position of [holding], a night and a Saturday long, with
    the unrealized loss beyond the limit. *)
Lemma closed_session_only_sleeps_witness :
  MainBot.run [Scenarios.night_world; Scenarios.saturday_world] Scenarios.holding
  = MainBotSpec.logged Scenarios.holding [MainBot.Sleep 300; MainBot.Sleep 3600].
Proof.
  apply (closed_session_only_sleeps
           [Scenarios.night_world; Scenarios.saturday_world] Scenarios.holding).
  repeat constructor; unfold MainBotSpec.session_open; simpl; lia.
Defined.
(** X19.  One instrument whose frame cannot be fetched stops the whole
    pass: whatever the other instruments show, no order is placed, no
    open trade is looked at (no favorable extreme moves, no trailing-stop
    or kill-switch close is asked for) and [open_trades] stays as it is;
    the pass only logs alerts, the fault and its sleep. *)
Theorem instrument_outage_skips_the_pass :
  forall (w : MainBot.world) (s : MainBot.state) (i msg : string),
    In i Config.INSTRUMENTS ->
    MainBot.fetch_ohlc_data w i = MainBot.Failed msg ->
    MainBot.heap (snd (MainBot.loop_body w s)) = MainBot.heap s
    /\ MainBot.open_trades (snd (MainBot.loop_body w s)) = MainBot.open_trades s
    /\ exists evs,
         MainBot.log (snd (MainBot.loop_body w s)) = MainBot.log s ++ evs
         /\ Forall MainBotSpec.passive evs.
Proof.
  intros w s i msg Hin Hf. exact (untouched_loop_body w i msg s Hin Hf).
Qed.

(** A confirmed BUY on EUR_USD while the GBP_USD frame times out: the
    trade of [holding] is still the only one. *)
Lemma instrument_outage_skips_the_pass_witness :
  MainBot.heap (snd (MainBot.loop_body Scenarios.gbp_outage_world Scenarios.holding))
  = MainBot.heap Scenarios.holding.
Proof.
  refine (proj1 (instrument_outage_skips_the_pass Scenarios.gbp_outage_world
                   Scenarios.holding "GBP_USD" "timeout" _ _)).
  - simpl. tauto.
  - reflexivity.
Defined.

(** X20.  As long as position sizes and ATR values are not negative, a
    trade that the trailing stop closes is never at a loss (it is closed
    only beyond the activation threshold, on the winning side of its
    entry), so every such close sets [consecutive_losses] to 0: from a
    state where the counter is 0 and every trade is sound it stays 0 over
    any number of passes, and the cap MAX_CONSECUTIVE_LOSSES never
    applies. *)
Theorem consecutive_losses_stay_zero :
  forall (ws : list MainBot.world) (s : MainBot.state),
    Forall MainBotSpec.sane_world ws ->
    MainBot.consecutive_losses s = 0%nat ->
    Forall MainBotSpec.sound_trade (MainBot.heap s) ->
    MainBot.consecutive_losses (MainBot.run ws s) = 0%nat
    /\ Forall MainBotSpec.sound_trade (MainBot.heap (MainBot.run ws s))
    /\ (MainBot.consecutive_losses (MainBot.run ws s)
        < MainBot.MAX_CONSECUTIVE_LOSSES)%nat.
Proof.
  intros ws s Hws H0 Hh.
  destruct (no_losses_run ws Hws s (conj H0 Hh)) as [H1 H2].
  split; [exact H1|]. split; [exact H2|]. rewrite H1.
  unfold MainBot.MAX_CONSECUTIVE_LOSSES. lia.
Qed.

(** The BUY at 1.1000 that the trailing stop closes at 1.1020, after a
    high at 1.1040. *)
Lemma consecutive_losses_stay_zero_witness :
  MainBot.consecutive_losses
    (MainBot.run [Scenarios.buy_world; Scenarios.up_world_1; Scenarios.up_world_2;
                  Scenarios.back_world] MainBot.initial) = 0%nat.
Proof.
  refine (proj1 (consecutive_losses_stay_zero
                   [Scenarios.buy_world; Scenarios.up_world_1;
                    Scenarios.up_world_2; Scenarios.back_world]
                   MainBot.initial _ _ _)).
  - repeat constructor; apply sane_with_frame.
  - reflexivity.
  - constructor.
Defined.

(** X21.  Every trailing-stop close that the loop asks for, from any
    state and over any number of passes, is for a trade whose price at
    the request had fallen back by more than TRAILING_STOP_PIPS pips
    (0.0017) from the trade's favorable extreme: below [max_price] less
    0.0017 for a BUY, above [min_price] plus 0.0017 for a SELL. *)
Theorem trailing_close_only_beyond_trailing_distance :
  forall (ws : list MainBot.world) (s : MainBot.state),
    exists evs,
      MainBot.log (MainBot.run ws s) = MainBot.log s ++ evs
      /\ forall r p, In (MainBot.TrailingClose r p) evs ->
           exists t, MainBot.heap (MainBot.run ws s) !! r = Some t
                     /\ MainBotSpec.retraced t p.
Proof.
  intros ws s. destruct (trails_run ws s) as [_ (evs & Hl & Ht)].
  exists evs. split; [exact Hl|]. intros r p Hin.
  exact (proj1 (List.Forall_forall _ _) Ht _ Hin).
Qed.

(** X22.  Once [daily_trade_count] has reached MAX_TRADES_PER_DAY, or
    [consecutive_losses] MAX_CONSECUTIVE_LOSSES, the loop over the
    fetched frames changes nothing: whatever the signals, no balance is
    read, no order is sent and no trade is registered. *)
Theorem no_order_at_the_caps :
  forall (w : MainBot.world) (data : list (string * MainBot.frame))
         (latest_prices : gmap string Q) (s : MainBot.state),
    (Config.MAX_TRADES_PER_DAY <= MainBot.daily_trade_count s)%nat
    \/ (MainBot.MAX_CONSECUTIVE_LOSSES <= MainBot.consecutive_losses s)%nat ->
    snd (MainBot.process_instruments w latest_prices data s) = s.
Proof.
  intros w data lp s H. apply process_instruments_capped. exact H.
Qed.

(** A confirmed BUY on the fifth trade of the day. *)
Lemma no_order_at_the_caps_witness :
  snd (MainBot.process_instruments Scenarios.buy_world ∅
         [("EUR_USD"%string, Scenarios.eur_frame 1.1000 "BUY")]
         (MainBot.mkState 5 0 (Some 10000) (Some 1%Z) [] [] []))
  = MainBot.mkState 5 0 (Some 10000) (Some 1%Z) [] [] [].
Proof.
  apply (no_order_at_the_caps Scenarios.buy_world
           [("EUR_USD"%string, Scenarios.eur_frame 1.1000 "BUY")] ∅
           (MainBot.mkState 5 0 (Some 10000) (Some 1%Z) [] [] [])).
  left. simpl. unfold Config.MAX_TRADES_PER_DAY. lia.
Defined.

(** X23.  A start-of-day equity of zero stops every pass at the drawdown
    computation: the division raises ZeroDivisionError, the pass logs the
    fault, sends the error alert and sleeps; no order is placed and the
    open trades are left alone. *)
Theorem zero_equity_faults_the_pass :
  forall (w : MainBot.world) (s : MainBot.state) (equity bal : Q),
    MainBotSpec.session_open w ->
    MainBot.get_account_balance w MainBot.AtDrawdownGate = MainBot.Returned bal ->
    MainBotSpec.equity_in_force w s bal = Some equity ->
    equity == 0 ->
    MainBot.heap (snd (MainBot.loop_body w s)) = MainBot.heap s
    /\ MainBot.open_trades (snd (MainBot.loop_body w s)) = MainBot.open_trades s
    /\ MainBot.log (snd (MainBot.loop_body w s))
       = MainBot.log s ++ [MainBot.Fault MainBot.ZeroDivisionError;
                           MainBot.Email "Trading Bot Error"; MainBot.Sleep 60].
Proof.
  intros w s equity bal Hopen Hbal Heq Hz.
  exact (gate_divides_by_zero w s equity bal Hopen Hbal Heq Hz).
Qed.

(** An account that was empty at the start of the day and holds 10000
    now. *)
Lemma zero_equity_faults_the_pass_witness :
  MainBot.log (snd (MainBot.loop_body Scenarios.calm_world Scenarios.broke))
  = MainBot.log Scenarios.broke
    ++ [MainBot.Fault MainBot.ZeroDivisionError;
        MainBot.Email "Trading Bot Error"; MainBot.Sleep 60].
Proof.
  refine (proj2 (proj2 (zero_equity_faults_the_pass Scenarios.calm_world
                          Scenarios.broke 0 10000 _ _ _ _))).
  - unfold MainBotSpec.session_open. simpl. lia.
  - reflexivity.
  - reflexivity.
  - reflexivity.
Defined.

